(* ===== verification/_CoqProject ===== *)
-Q . S2P
Prelude.v
Types.v
Bytes.v
Registry.v
Utils.v
Prefixes.v
Announcer.v
Balancer.v
Scheduler.v
Check.v
Text.v
Checker.v
Checking.v
Real.v
Service.v
Activation.v
Interleaving.v
Reloading.v
Delivery.v
Concurrent.v
Lifetime.v
ServiceLifetime.v
Core.v
Keepalived.v
Decoder.v
Schema.v
Checktun.v
Bird.v
Yanet.v
Metrics.v
Dialing.v
App.v
Server.v
Logging.v
Launch.v
Lifecycle.v
Start.v
