(* ===== verification/Prelude.v ===== *)
(** * Monalive: a health checker for a load balancer, modelled and verified

    Monalive checks the real servers behind virtual services, enables the
    healthy ones in the load balancer (YANET's control plane) and announces the
    prefixes of the services that are alive through a routing daemon (BIRD).

    ** Parts and how they interact

    A configuration in the language of keepalived ([pkg/keepalived]) is loaded,
    prepared and applied by the manager ([internal/core/manager.go]).  The core
    keeps a service for each virtual server, a service its reals, a real its
    checkers.  A checker runs a check ([internal/core/checker/check]) under a
    scheduler and sends an event when its state changes; the real combines the
    events of its checkers; the service adds up weights and counts of its
    enabled reals and decides, with quorum and hysteresis, whether it is alive.
    Events of reals go to the balancer, which keeps them in an event registry
    and periodically sends them to the load balancer; events of services go to
    the announcer, which holds them until the balancer has sent its own, then
    turns them into statuses of host prefixes, and periodically sends the
    changed prefixes to the routing daemon.  Checks are sent through a tunnel:
    a socket option carries the real's address, and the check tunnel
    ([pkg/checktun]), a handler of a netfilter queue, removes it.

    ** Files

    - [Prelude]: Go's machine integers, results, ranges over maps in any order
      (class [MapRange]: whatever order the language chooses), sums over maps.
    - [Types]: [internal/types] (addresses and prefixes of [net/netip], ports,
      weights, keys, events), [pkg/optint]; [Bytes]: [encoding/binary];
      [Text]: runes, lines, paths.
    - [Registry]: [internal/utils/event_registry], with the interface
      [Comparable] and its law [DeltaEvent]; [Utils]: the other utilities, with
      the worker pool as a transition system.
    - [Prefixes], [Announcer]: [internal/announcer]; [Bird]: [pkg/bird] and
      [internal/announcer/bird].  The announcer is verified against the class of
      a client ([Announcer.Client]); [Bird.ProcessBatch_view] proves the law of
      that class for the client of the program.
    - [Balancer]: [internal/balancer], against the class
      [Balancer.LoadBalancerClient]; [Yanet]: [pkg/yanet] and
      [internal/balancer/yanet], the client itself on a stream of bytes.
    - [Scheduler], [Check], [Checker], [Real], [Service], [Core]: the packages of
      the same names under [internal/scheduler] and [internal/core], a record for
      each Go struct and a function for each method.  What the components of a
      service share, the balancer and the announcer, is the record [World] that
      is passed through.
    - The goroutines of these packages, as step relations over the functions
      above or, where only their order matters, over what they wait for:
      [Checking] ([Run] and [Stop] of a checker, with its scheduler and wait
      group), [Activation] (a real that waits for the load balancer to know it,
      with the subscription of the balancer), [Lifetime] and [ServiceLifetime]
      ([Run], the initial reload and [Stop] of a real and of a service).
    - [Interleaving]: the handlers of reals and services as threads that move from
      lock to lock; [Reloading]: the assignments of a reload among their actions;
      [Delivery]: the balancer's updates among them; [Concurrent]: all of it with
      the goroutines of the checkers, for reals of one checker each.
    - [Keepalived] (parser), [Decoder] (reflective decoder, over a universe of
      types with struct tags), [Schema] (the types of the configuration).
    - [Checktun]: [pkg/checktun] and the dialer of [internal/utils/xnet];
      [Dialing]: [internal/utils/xtls] and the construction of checks.
    - [Metrics]: [internal/monitoring/metrics] and the metrics of the core,
      services, reals and checkers.
    - [Server]: [internal/server] and [internal/types/requestid]; [Logging]:
      [internal/monitoring/logger].
    - [App]: the whole program as a step relation, its invariant and its
      shutdown; [Launch]: [New] of [internal/app], with the optional sections of
      its configuration and every component; [Lifecycle]: the goroutines of the
      process ([cmd/monalive], the [Run] methods, [internal/server]), their error
      groups and contexts; [Start]: [main] and [exec] up to those goroutines.

    A Go method becomes a function from the receiver to its result and the new
    receiver, under the method's name (the type's name in front where two share
    it).  Mutexes make what they guard atomic.  Goroutines are steps of a relation
    where their interleaving matters.  Where timers, callers or other components
    can move as often as they like, their steps are a relation of their own
    ([takes], [either] in [Prelude]), and a theorem that goroutines end bounds
    their steps by the number of the others.  Go's
    [int] wraps ([wrap64], [+i], [-i]); weights and ports have their widths.
    Errors are values of [res]; a panic is one of them where the code can
    panic (reading packets, assignments by reflection).

    ** Theorems

    - The whole: [App.program_follows_checks] (after any run the load balancer
      and the routing daemon are told what the checks say) and
      [App.shutdown_cleans_up], with events handled one after the other;
      [Concurrent.concurrent_checks_are_delivered], with everything at once.
    - The process: [Start.exec_waits] (when it comes to run), what makes it panic
      before ([Start.missing_section_crashes], [Start.crashing_none]),
      [Lifecycle.shutdown_terminates] (after a signal or an error every goroutine
      ends, if the calls of [Stop] return) and [Lifecycle.only_these_end_it].
    - Ends: [Checking.stopped_checker_ends],
      [Checking.Stop_waits_for_shutdown_event], [Activation.activation_ends],
      [Lifetime.stop_after_reload_ends] and [ServiceLifetime.service_stop_ends]
      say when a [Stop] returns and leaves nothing behind, and
      [ServiceLifetime.interrupted_reload_hangs], [Lifetime.Stop_misses_new_checker]
      and [Checking.early_Stop_returns] when it does not.
    - Interleavings: [Interleaving.uninterrupted_is_sequential] ties the threads to
      the handlers; [Reloading.reloading_keeps_account],
      [Reloading.reloading_keeps_tracking], [Interleaving.decisions_alone_announce],
      [Checking.weight_is_reported] and [Delivery.interleaved_delivery] hold in
      every order, under the conditions they name;
      [Interleaving.reordered_events_disable_a_healthy_real] and
      [Interleaving.stale_quorum_withdraws] show what happens without.
    - Activation: [Activation.update_activates], [Activation.activation_answers].
    - Accounts: [Service.service_accounting], [Service.fleet_accounting],
      [Core.core_accounting]: weight and count of a service are those of its
      enabled reals, modulo the machine's integers, after any operations.
    - Delivery: [Registry.registry_coalescing_lossless] and, by it,
      [Prefixes.prefix_events_lossless], [Balancer.balancer_tracks_checks],
      [Announcer.announcer_tracks_daemon]: coalesced events and interrupted
      updates bring the other side to the current state.
    - Announcements: [Prefixes.prefix_ready_iff_all_enabled],
      [Service.service_announces_itself], [Announcer.Stop_withdraws].
    - Reloads and branches of the handlers: the theorems named [_functional],
      [Core.Reload_services], [Service.Reload_reals],
      [Core.prepared_Reload_refused].
    - Checks: [Checker.checks_fail_after_retries],
      [Checker.failing_cycle_disables], [Checker.dynamic_weight_converges],
      [Scheduler.Run_attempts_bounded].
    - Metrics: [Metrics.reals_gauge_is_sum], [Launch.metrics_served],
      [Server.metrics_mux_paths]; requests: [Server.middleware_identifies].
    - Configuration: [Keepalived.parse_print] (what is written is read back),
      [Decoder.configDecode_safe] (the decoder is type safe),
      [Decoder.decoded_field], [Schema.configDecode_services],
      [Schema.LoadConfig_total].
    - Wire formats: the round trips of [Bird], [Yanet] and [Checktun].
    - Behaviours that look unintended are theorems too, on concrete inputs where
      an example is enough; the hypotheses that exclude them from the general
      theorems name them.

    ** Fuel and bounds

    Recursion over lines, options, octets and digits takes a bound computed from
    the input's length, enough by the lemmas beside it
    ([Checktun.ipv4Handler_terminates]).  Where the code can run for ever the
    bound is an argument and [None] says it was too small: the nesting of
    includes ([Keepalived.parseFile_terminates] gives a bound that is enough,
    [Keepalived.self_include_diverges] a file without one), the IPv6 extension
    headers ([Checktun.ipv6Handler_diverges]) and reads from a stream
    ([Yanet.Invoke_roundtrip]: one round for each byte is enough).  Theorems that
    count map entries or lengths in Go's [int] assume fewer than [2 ^ 63].

    ** Not modelled, and why

    - Time: tickers, timeouts and random delays; what happens on a tick or when
      a timer fires is modelled, and the scheduler's delays are.
    - Libraries: the operating system's files and sockets, prometheus, gRPC and
      HTTP, the generated messages' serialization and gateway, the netfilter
      queue, zap and OTEL, yaml, the command line.  They are parameters: classes,
      records of functions, arguments.
    - Log messages, the registration of the runtime's own collectors
      ([internal/utils/runtimemetrics]), getters.
    - The relations of the goroutines are not composed into one: [Lifetime] takes a
      checker as a step that ends it when it is told (what [Checking] proves),
      [ServiceLifetime] a real, [Lifecycle] a [Stop]; [Interleaving] takes the
      judgement of an event by a real, the service's account and a registry as
      atomic, which their locks make them, and [Delivery] an update of the balancer
      as one action.  Fields that are read without a lock while a reload assigns
      them (a service's configuration) are read as a whole. *)

From stdpp Require Import strings numbers gmap sets list relations.

Open Scope Z_scope.

(** ** Go machine integers

    Go's [int] is a 64-bit two's complement integer: every arithmetic
    operation wraps.  [wrap64] is the wrap-around; the sums and differences the
    program computes on [int] values are written with [+i] and [-i]. *)

Definition two63 : Z := 2 ^ 63.

Definition wrap64 (z : Z) : Z := (z + two63) mod (2 * two63) - two63.

Definition is_int64 (z : Z) : Prop := - two63 <= z < two63.

Declare Scope go_scope.
Delimit Scope go_scope with go.
Notation "x +i y" := (wrap64 (x + y)) (at level 50, left associativity) : go_scope.
Notation "x -i y" := (wrap64 (x - y)) (at level 50, left associativity) : go_scope.
Open Scope go_scope.

Lemma two63_pos : 0 < two63.
Proof. reflexivity. Qed.

Lemma wrap64_range z : is_int64 (wrap64 z).
Proof.
  unfold is_int64, wrap64.
  pose proof (Z.mod_pos_bound (z + two63) (2 * two63) ltac:(reflexivity)). lia.
Qed.

Lemma wrap64_small z : is_int64 z -> wrap64 z = z.
Proof.
  unfold is_int64, wrap64. intros H. rewrite Z.mod_small by lia. lia.
Qed.

(** [wrap64 z] is [z] up to a multiple of [2^64]: wrap-around commutes with
    sums, so an account kept with wrapping additions is the wrapped exact
    account. *)
Lemma wrap64_cong z : exists k, wrap64 z = z + k * (2 * two63).
Proof.
  unfold wrap64. exists (- ((z + two63) / (2 * two63))).
  pose proof (Z.div_mod (z + two63) (2 * two63) ltac:(discriminate)). lia.
Qed.

Lemma wrap64_shift z k : wrap64 (z + k * (2 * two63)) = wrap64 z.
Proof.
  unfold wrap64. f_equal.
  replace (z + k * (2 * two63) + two63) with (z + two63 + k * (2 * two63)) by lia.
  apply Z.mod_add. discriminate.
Qed.

Lemma wrap64_add_l a b : wrap64 (wrap64 a + b) = wrap64 (a + b).
Proof.
  destruct (wrap64_cong a) as [k ->].
  replace (a + k * (2 * two63) + b) with (a + b + k * (2 * two63)) by lia.
  apply wrap64_shift.
Qed.

Lemma wrap64_add_r a b : wrap64 (a + wrap64 b) = wrap64 (a + b).
Proof. rewrite Z.add_comm, wrap64_add_l. f_equal. lia. Qed.

Lemma wrap64_sub_l a b : wrap64 (wrap64 a - b) = wrap64 (a - b).
Proof. apply (wrap64_add_l a (- b)). Qed.

Lemma wrap64_sub_r a b : wrap64 (a - wrap64 b) = wrap64 (a - b).
Proof.
  destruct (wrap64_cong b) as [k ->].
  replace (a - (b + k * (2 * two63))) with (a - b + (- k) * (2 * two63)) by lia.
  apply wrap64_shift.
Qed.

Lemma wrap64_wrap64 a : wrap64 (wrap64 a) = wrap64 a.
Proof. apply wrap64_small, wrap64_range. Qed.

Create HintDb go.
Create Rewrite HintDb go.
#[export] Hint Rewrite wrap64_add_l wrap64_add_r wrap64_sub_l wrap64_sub_r wrap64_wrap64 : go.
#[export] Hint Resolve wrap64_range two63_pos : go.

(** Normalise nested wrap-arounds, then close by linear arithmetic under one
    remaining [wrap64]. *)
Ltac wrap_lia := autorewrite with go; f_equal; lia.

(** Case analysis on every boolean test and match left in the goal. *)
Ltac case_all := repeat (case_match || case_decide); try done.

(** ** Results of fallible operations *)

Inductive res (E A : Type) : Type :=
| Ok (a : A)
| Err (e : E).
Arguments Ok {E A} a.
Arguments Err {E A} e.

Definition res_bind {E A B : Type} (r : res E A) (f : A -> res E B) : res E B :=
  match r with
  | Ok a => f a
  | Err e => Err e
  end.

Notation "'let?' x := r 'in' k" := (res_bind r (fun x => k))
  (at level 10, x name, r at level 100, k at level 200) : go_scope.

(** The loop [for _, x := range l { ... }] whose body may return an error. *)
Fixpoint for_each_err {E A S : Type} (body : A -> S -> res E S) (l : list A) (s : S) : res E S :=
  match l with
  | [] => Ok s
  | x :: l => let? s' := body x s in for_each_err body l s'
  end.

(** The same loop when the body cannot fail. *)
Definition for_each {A S : Type} (body : A -> S -> S) (l : list A) (s : S) : S :=
  foldl (fun s x => body x s) s l.

Lemma for_each_err_app {E A S} (body : A -> S -> res E S) l1 l2 s :
  for_each_err body (l1 ++ l2) s =
  res_bind (for_each_err body l1 s) (for_each_err body l2).
Proof.
  revert s. induction l1 as [|x l1 IH]; intros s; simpl; [done|].
  destruct (body x s); simpl; [apply IH | done].
Qed.

(** The loop rule for lists: [P done s] relates the elements visited so far to
    the state. *)
Lemma for_each_ind {A S : Type} (P : list A -> S -> Prop) (body : A -> S -> S) l s :
  P [] s ->
  (forall visited x rest s, l = visited ++ x :: rest -> P visited s -> P (visited ++ [x]) (body x s)) ->
  P l (for_each body l s).
Proof.
  intros H0 Hstep.
  cut (forall rest visited s, l = visited ++ rest -> P visited s -> P l (for_each body rest s)).
  { intros Hc. by apply (Hc l []). }
  clear s H0. intros rest. induction rest as [|x rest IH]; intros visited s Hl HP.
  - rewrite app_nil_r in Hl. by subst.
  - apply (IH (visited ++ [x])); [by rewrite <- app_assoc | by eapply Hstep].
Qed.

(** [loop P] applies the rule with the assertion [P], elaborated on its own. *)
Tactic Notation "loop" constr(P) := apply (for_each_ind P).

(** ** Iteration over Go maps

    The order in which Go ranges over a map is not specified.  The development
    is parametric in it: [range m] is some permutation of the bindings of [m]. *)

Class MapRange := {
  range : forall {K} `{Countable K} {V : Type}, gmap K V -> list (K * V);
  range_perm : forall {K} `{Countable K} {V : Type} (m : gmap K V), range m ≡ₚ map_to_list m;
}.

(** One order that exists: the one [map_to_list] enumerates. *)
#[export] Program Instance canonical_range : MapRange | 100 := {|
  range := fun K _ _ V m => map_to_list m;
|}.
Next Obligation. done. Qed.

Definition for_range `{MapRange} {K} `{Countable K} {V S : Type}
    (m : gmap K V) (body : K -> V -> S -> S) (s : S) : S :=
  for_each (fun kv => body kv.1 kv.2) (range m) s.

Definition for_range_err `{MapRange} {E K} `{Countable K} {V S : Type}
    (m : gmap K V) (body : K -> V -> S -> res E S) (s : S) : res E S :=
  for_each_err (fun kv => body kv.1 kv.2) (range m) s.

Section range_loops.
Context `{MR : MapRange} {K : Type} `{Countable K} {V S : Type}.
Implicit Types (m : gmap K V) (s : S).

Lemma range_NoDup m : NoDup (range m).*1.
Proof. rewrite range_perm. apply NoDup_fst_map_to_list. Qed.

Lemma elem_of_range m k v : (k, v) ∈ range m <-> m !! k = Some v.
Proof. rewrite range_perm. apply elem_of_map_to_list. Qed.

Lemma list_to_map_range m : list_to_map (range m) = m.
Proof.
  rewrite <- (list_to_map_to_list m) at 2.
  apply list_to_map_proper; [apply range_NoDup | apply range_perm].
Qed.

Lemma range_empty : range (∅ : gmap K V) = [].
Proof. apply Permutation_nil. rewrite range_perm, map_to_list_empty. done. Qed.

Lemma for_range_as_err {E} m (body : K -> V -> S -> S) s :
  for_range_err (E:=E) m (fun k v s => Ok (body k v s)) s = Ok (for_range m body s).
Proof.
  unfold for_range_err, for_range, for_each. revert s.
  induction (range m) as [|kv l IH]; intros s; simpl; [done | apply IH].
Qed.

(** The loop rule: an assertion [P processed state] about the bindings met so
    far that holds at the start and is kept by the body holds of the whole
    map after a normal exit, whatever the order of iteration. *)
Lemma for_range_err_ind {E} (P : gmap K V -> S -> Prop) m (body : K -> V -> S -> res E S) s s' :
  P ∅ s ->
  (forall k v processed s s', processed !! k = None -> m !! k = Some v ->
     processed ⊆ m -> P processed s -> body k v s = Ok s' -> P (<[k:=v]> processed) s') ->
  for_range_err m body s = Ok s' -> P m s'.
Proof.
  intros H0 Hstep. unfold for_range_err.
  cut (forall l processed s, NoDup l.*1 ->
         (forall k v, (k, v) ∈ l -> processed !! k = None /\ m !! k = Some v) ->
         processed ⊆ m -> P processed s ->
         for_each_err (fun kv => body kv.1 kv.2) l s = Ok s' ->
         P (list_to_map l ∪ processed) s').
  { intros Hl. specialize (Hl (range m) ∅ s (range_NoDup m)).
    rewrite map_union_empty, list_to_map_range in Hl. apply Hl; [|apply map_empty_subseteq|done].
    intros k v Hkv. split; [apply lookup_empty | by apply elem_of_range]. }
  clear H0 s. intros l. induction l as [|[k v] l IH]; intros processed s Hnd Hin Hsub HP; simpl.
  { intros [= ->]. by rewrite map_empty_union. }
  apply NoDup_cons in Hnd as [Hk Hnd].
  destruct (Hin k v ltac:(left)) as [Hpk Hmk].
  destruct (body k v s) as [s1|] eqn:Hb; simpl; [|done]. intros Hl.
  rewrite <- insert_union_l, insert_union_r by by apply not_elem_of_list_to_map_1.
  eapply IH; [done | | by apply insert_subseteq_l | by eapply Hstep | done].
  intros k' v' Hk'. destruct (Hin k' v' ltac:(by right)) as [H1 H2]. split; [|done].
  rewrite lookup_insert_ne; [done|]. intros ->. apply Hk. apply list_elem_of_fmap. by exists (k', v').
Qed.

Lemma for_range_ind (P : gmap K V -> S -> Prop) m body s :
  P ∅ s ->
  (forall k v processed s, processed !! k = None -> m !! k = Some v ->
     processed ⊆ m -> P processed s -> P (<[k:=v]> processed) (body k v s)) ->
  P m (for_range m body s).
Proof.
  intros H0 Hstep.
  eapply (for_range_err_ind (E:=unit) P m (fun k v s => Ok (body k v s)) s); [done | | apply for_range_as_err].
  intros k v pr s1 s2 ??? HP [= <-]. by apply Hstep.
Qed.

(** A failing loop fails in the body, on some binding of the map. *)
Lemma for_range_err_Err {E} m (body : K -> V -> S -> res E S) s e :
  for_range_err m body s = Err e ->
  exists k v s', m !! k = Some v /\ body k v s' = Err e.
Proof.
  unfold for_range_err.
  assert (forall kv, kv ∈ range m -> m !! kv.1 = Some kv.2) as Hin
    by (intros [k v]; apply elem_of_range).
  revert s Hin. induction (range m) as [|[k v] l IH]; intros s Hin; simpl; [done|].
  destruct (body k v s) eqn:Hb; simpl.
  - apply IH. intros kv Hkv. apply Hin. by right.
  - intros [= ->]. exists k, v, s. split; [apply (Hin (k, v)); left | done].
Qed.
End range_loops.

(** ** Sums over the values of a map *)

Section map_sums.
Context {K : Type} `{Countable K} {V : Type} (f : V -> Z).
Implicit Types m : gmap K V.

Definition msum m : Z := map_fold (fun _ v acc => f v + acc) 0 m.

Lemma msum_empty : msum ∅ = 0.
Proof. apply map_fold_empty. Qed.

Lemma msum_insert m k v : m !! k = None -> msum (<[k:=v]> m) = f v + msum m.
Proof.
  intros Hk. unfold msum. apply (map_fold_insert_L (fun _ v acc => f v + acc)); [|done].
  intros. lia.
Qed.

Lemma msum_delete m k v : m !! k = Some v -> msum m = f v + msum (delete k m).
Proof.
  intros Hk. rewrite <- (insert_delete_id m k v) at 1 by done.
  apply msum_insert, lookup_delete_eq.
Qed.

Lemma msum_update m k v v' :
  m !! k = Some v -> msum (<[k:=v']> m) = msum m - f v + f v'.
Proof.
  intros Hk. rewrite <- insert_delete_eq, msum_insert by apply lookup_delete_eq.
  rewrite (msum_delete m k v Hk). lia.
Qed.

Lemma msum_nonneg m : (forall v, 0 <= f v) -> 0 <= msum m.
Proof.
  intros Hf. induction m as [|k v m Hk IH] using map_ind.
  - by rewrite msum_empty.
  - rewrite msum_insert by done. specialize (Hf v). lia.
Qed.
End map_sums.

Definition msize {K} `{Countable K} {V} (m : gmap K V) : Z := Z.of_nat (size m).

Lemma msum_le {K} `{Countable K} {V} (f g : V -> Z) (m : gmap K V) :
  (forall v, f v <= g v) -> msum f m <= msum g m.
Proof.
  intros Hfg. induction m as [|k v m Hk IH] using map_ind.
  - by rewrite !msum_empty.
  - rewrite !msum_insert by done. specialize (Hfg v). lia.
Qed.

Lemma msum_const_1 {K} `{Countable K} {V} (m : gmap K V) : msum (fun _ => 1) m = msize m.
Proof.
  unfold msize. induction m as [|k v m Hk IH] using map_ind.
  - by rewrite msum_empty, map_size_empty.
  - rewrite msum_insert, map_size_insert_None by done. lia.
Qed.

Lemma msize_nonneg {K} `{Countable K} {V} (m : gmap K V) : 0 <= msize m.
Proof. unfold msize. lia. Qed.

Lemma msize_empty {K} `{Countable K} {V} : msize (∅ : gmap K V) = 0.
Proof. unfold msize. by rewrite map_size_empty. Qed.

Lemma msize_delete {K} `{Countable K} {V} (m : gmap K V) k v :
  m !! k = Some v -> msize m = 1 + msize (delete k m).
Proof. intros Hk. rewrite <- !msum_const_1. by apply (msum_delete (fun _ => 1) m k v). Qed.

Lemma msize_insert {K} `{Countable K} {V} (m : gmap K V) k v :
  m !! k = None -> msize (<[k:=v]> m) = 1 + msize m.
Proof. intros Hk. rewrite <- !msum_const_1. by apply (msum_insert (fun _ => 1) m k v). Qed.

Lemma msize_mono {K} `{Countable K} {V} (m1 m2 : gmap K V) : m1 ⊆ m2 -> msize m1 <= msize m2.
Proof. intros Hs. unfold msize. apply inj_le, map_subseteq_size, Hs. Qed.

#[export] Hint Resolve msize_nonneg msize_mono : go.

(** Counting the values that satisfy a boolean test: the count reaches the size
    exactly when every value satisfies it. *)
Definition mcount {K} `{Countable K} {V} (p : V -> bool) (m : gmap K V) : Z :=
  msum (fun v => if p v then 1 else 0) m.

Lemma mcount_le_size {K} `{Countable K} {V} (p : V -> bool) (m : gmap K V) :
  0 <= mcount p m <= msize m.
Proof.
  split.
  - apply msum_nonneg. intros v. destruct (p v); lia.
  - rewrite <- msum_const_1. apply msum_le. intros v. destruct (p v); lia.
Qed.

Lemma mcount_eq_size {K} `{Countable K} {V} (p : V -> bool) (m : gmap K V) :
  mcount p m = msize m <-> (forall k v, m !! k = Some v -> p v = true).
Proof.
  induction m as [|k v m Hk IH] using map_ind.
  - split; [intros _ k v; by rewrite lookup_empty|]. intros _.
    unfold mcount, msize. by rewrite msum_empty, map_size_empty.
  - unfold mcount, msize in *. rewrite msum_insert, map_size_insert_None by done.
    pose proof (mcount_le_size p m) as Hle. unfold mcount, msize in Hle. split.
    + intros Heq k' v'. rewrite lookup_insert. case_decide; [intros [= <-]|].
      * destruct (p v); [done|lia].
      * apply IH. destruct (p v); lia.
    + intros Hall. rewrite (Hall k v) by apply lookup_insert_eq.
      apply proj2 in IH. rewrite IH; [lia|]. intros k' v' Hk'. apply (Hall k' v').
      rewrite lookup_insert_ne; [done|]. intros ->. congruence.
Qed.

(** ** Runs of goroutines and their surroundings

    Goroutines take steps of their own; timers, callers and other components
    take steps around them, as often as they like. *)

Lemma rtc_inv {S : Type} (step : relation S) (I : S -> Prop) s1 s2 :
  (forall s1 s2, step s1 s2 -> I s1 -> I s2) -> rtc step s1 s2 -> I s1 -> I s2.
Proof. intros HI. induction 1; eauto. Qed.

(** When every step makes [left] smaller, while [I] holds, [left] bounds the
    number of the steps. *)
Lemma nsteps_bound {S : Type} (step : relation S) (I : S -> Prop) (left : S -> nat) (n : nat) s1 s2 :
  (forall s1 s2, step s1 s2 -> I s1 -> I s2) -> (forall s1 s2, step s1 s2 -> I s1 -> (left s2 < left s1)%nat) ->
  nsteps step n s1 s2 -> I s1 -> (n + left s2 <= left s1)%nat.
Proof.
  intros HI Hl. induction 1 as [|n s1 s2 s3 Hs _ IH]; intros H1; [lia|].
  specialize (Hl _ _ Hs H1). specialize (IH (HI _ _ Hs H1)). lia.
Qed.

Section taking.
Context {S : Type} (own env : relation S).

(** [n] steps of the goroutines and [e] of the surroundings. *)
Inductive takes : nat -> nat -> S -> S -> Prop :=
| takes_nothing s : takes 0 0 s s
| takes_own n e s1 s2 s3 : own s1 s2 -> takes n e s2 s3 -> takes (Datatypes.S n) e s1 s3
| takes_env n e s1 s2 s3 : env s1 s2 -> takes n e s2 s3 -> takes n (Datatypes.S e) s1 s3.

(** One step, of whichever side. *)
Definition either : relation S := fun s1 s2 => own s1 s2 \/ env s1 s2.

Lemma takes_either n e s1 s2 : takes n e s1 s2 -> rtc either s1 s2.
Proof. induction 1; [done|eapply rtc_l; [by left|done]|eapply rtc_l; [by right|done]]. Qed.

Lemma either_inv (I : S -> Prop) s1 s2 :
  (forall s1 s2, own s1 s2 -> I s1 -> I s2) -> (forall s1 s2, env s1 s2 -> I s1 -> I s2) ->
  rtc either s1 s2 -> I s1 -> I s2.
Proof. intros Ho He. apply rtc_inv. intros s s' [H|H]; eauto. Qed.

(** When every step of the goroutines makes [left] smaller, and a step of the
    surroundings adds at most [k], what the surroundings do bounds what the
    goroutines can do. *)
Lemma takes_bound (left : S -> nat) (k n e : nat) s1 s2 :
  (forall s1 s2, own s1 s2 -> (left s2 < left s1)%nat) ->
  (forall s1 s2, env s1 s2 -> (left s2 <= left s1 + k)%nat) ->
  takes n e s1 s2 -> (n + left s2 <= left s1 + k * e)%nat.
Proof.
  intros Ho He. induction 1 as [s|n e s1 s2 s3 H _ IH|n e s1 s2 s3 H _ IH]; [lia| |].
  - specialize (Ho _ _ H). lia.
  - specialize (He _ _ H). lia.
Qed.
End taking.
