(* ===== verification/Types.v ===== *)
(** * Value types: addresses, ports, weights, keys, events

    The types every component exchanges: [net/netip]'s [Addr] and [Prefix] as
    the program uses them, [strconv]'s decimal conversions, and the packages
    [internal/types/port], [internal/types/weight], [internal/types/key],
    [internal/types/xevent] and [pkg/optint]. *)

From stdpp Require Import strings numbers gmap sets list.
From Stdlib Require Import Ascii String.
From S2P Require Import Prelude.

Open Scope Z_scope.
Open Scope go_scope.

(** ** net/netip *)

(** A [netip.Addr] is the zero (invalid) address, an IPv4 address or an IPv6
    address with a possibly empty zone; an IPv4-mapped IPv6 address is an IPv6
    address. *)
Inductive Addr : Type :=
| AddrInvalid
| AddrV4 (ip : Z)
| AddrV6 (ip : Z) (zone : string).

#[export] Instance Addr_eq_dec : EqDecision Addr.
Proof. solve_decision. Defined.

#[export] Program Instance Addr_countable : Countable Addr :=
  inj_countable'
    (fun a => match a with
              | AddrInvalid => inl ()
              | AddrV4 ip => inr (inl ip)
              | AddrV6 ip z => inr (inr (ip, z))
              end)
    (fun x => match x with
              | inl _ => AddrInvalid
              | inr (inl ip) => AddrV4 ip
              | inr (inr (ip, z)) => AddrV6 ip z
              end) _.
Next Obligation. by intros []. Qed.

Definition Addr_Is4 (a : Addr) : bool := match a with AddrV4 _ => true | _ => false end.
Definition Addr_Is6 (a : Addr) : bool := match a with AddrV6 _ _ => true | _ => false end.

Definition Addr_BitLen (a : Addr) : Z :=
  match a with AddrInvalid => 0 | AddrV4 _ => 32 | AddrV6 _ _ => 128 end.

(** ::ffff:0:0/96 *)
Definition Addr_Is4In6 (a : Addr) : bool :=
  match a with AddrV6 ip _ => Z.shiftr ip 32 =? 65535 | _ => false end.

Definition Addr_Unmap (a : Addr) : Addr :=
  match a with
  | AddrV6 ip _ => if Addr_Is4In6 a then AddrV4 (Z.land ip (2 ^ 32 - 1)) else a
  | _ => a
  end.

Definition Addr_withoutZone (a : Addr) : Addr :=
  match a with AddrV6 ip _ => AddrV6 ip "" | _ => a end.

(** [netip.Prefix]: [None] for [bits] is the invalid prefix length, which
    [Prefix.Bits] reports as -1. *)
Record Prefix := MkPrefix { Prefix_Addr : Addr; Prefix_bits : option Z }.

#[export] Instance Prefix_eq_dec : EqDecision Prefix.
Proof. solve_decision. Defined.

#[export] Program Instance Prefix_countable : Countable Prefix :=
  inj_countable' (fun p => (Prefix_Addr p, Prefix_bits p)) (fun x => MkPrefix x.1 x.2) _.
Next Obligation. by intros []. Qed.

Definition PrefixFrom (ip : Addr) (bits : Z) : Prefix :=
  MkPrefix (Addr_withoutZone ip)
    (if bool_decide (ip <> AddrInvalid) && (0 <=? bits) && (bits <=? Addr_BitLen ip)
     then Some bits else None).

Definition Prefix_Bits (p : Prefix) : Z := default (-1) (Prefix_bits p).

(** ** strconv *)

Inductive numError := ErrSyntax | ErrRange.

Definition digit_val (c : ascii) : option Z :=
  let n := Z.of_nat (nat_of_ascii c) in
  if (48 <=? n) && (n <=? 57) then Some (n - 48) else None.

Definition digit_chr (d : Z) : ascii := ascii_of_nat (Z.to_nat (48 + d)).

(** The value of a string of decimal digits read after the value [acc]. *)
Fixpoint digits_val (acc : Z) (s : string) : option Z :=
  match s with
  | EmptyString => Some acc
  | String c s =>
      match digit_val c with
      | Some d => digits_val (10 * acc + d) s
      | None => None
      end
  end.

(** [strconv.ParseUint(s, 10, bits)] *)
Definition ParseUint (s : string) (bits : Z) : res numError Z :=
  match s with
  | EmptyString => Err ErrSyntax
  | _ => match digits_val 0 s with
         | None => Err ErrSyntax
         | Some v => if v <? 2 ^ bits then Ok v else Err ErrRange
         end
  end.

(** [strconv.ParseInt(s, 10, 64)], also what [strconv.Atoi] computes. *)
Definition ParseInt (s : string) : res numError Z :=
  match s with
  | String "-" rest => let? v := ParseUint rest 64 in
                       if v <=? two63 then Ok (- v) else Err ErrRange
  | String "+" rest => let? v := ParseUint rest 64 in
                       if v <? two63 then Ok v else Err ErrRange
  | _ => let? v := ParseUint s 64 in
         if v <? two63 then Ok v else Err ErrRange
  end.

Definition Atoi (s : string) : res numError Z := ParseInt s.

(** Decimal digits of [z >= 0] in front of [acc]; [fuel] bounds their number. *)
Fixpoint utoa (fuel : nat) (z : Z) (acc : string) : string :=
  match fuel with
  | O => acc
  | S fuel =>
      let acc := String (digit_chr (z mod 10)) acc in
      if z <? 10 then acc else utoa fuel (z / 10) acc
  end.

(** [strconv.Itoa]: [log2 z + 1] digits are always enough. *)
Definition Itoa (z : Z) : string :=
  if z <? 0 then String "-" (utoa (S (Z.to_nat (Z.log2 (- z)))) (- z) "")
  else utoa (S (Z.to_nat (Z.log2 z))) z "".

(** ** internal/types/port *)

Module port.
(** [type Port int32]; every negative value is an omitted port. *)
Definition Omitted : Z := -1.

Inductive portError := InvalidPort (s : string) (e : numError).

Definition UnmarshalText (text : string) : res portError Z :=
  match text with
  | EmptyString => Ok Omitted
  | _ => match ParseUint text 16 with
         | Ok value => Ok value
         | Err e => Err (InvalidPort text e)
         end
  end.

(** The JSON text: a number, or [null] when the port is omitted. *)
Definition MarshalJSON (p : Z) : string :=
  if p <? 0 then "null" else Itoa p.

Definition Value (p : Z) : Z := if p <? 0 then 0 else p mod 2 ^ 16.

Definition String_ (p : Z) : string := if p <? 0 then "" else Itoa p.

Definition ProtoMarshaller (p : Z) : option Z :=
  if p <? 0 then None else Some (p mod 2 ^ 32).
End port.

(** ** pkg/optint *)

Definition optint_ToString (num : option Z) : string :=
  match num with
  | None => ""
  | Some n => Itoa (wrap64 n)
  end.

(** ** internal/types/weight *)

Module weight.
(** [type Weight int]; every negative value is an omitted weight. *)
Definition Omitted : Z := -1.

Definition Recalculate (weight old coeff : Z) : Z :=
  if (weight <? 0) && (old <? 0) then Omitted
  else if weight <? 0 then old
  else if old <? 0 then weight
  else if coeff =? 0 then weight
  else
    let step := Z.quot (wrap64 (old * wrap64 coeff)) 100 in
    let step := if step =? 0 then 1 else step in
    if old <? weight then Z.min (old +i step) weight
    else Z.max (old -i step) weight.

Definition String_ (weight : Z) : string :=
  if weight <? 0 then "" else Itoa weight.

Definition Uint32 (weight : Z) : Z :=
  if weight <? 0 then 0 else weight mod 2 ^ 32.

(** [UnmarshalText] never fails: what it cannot parse is omitted. *)
Definition UnmarshalText (text : string) : Z :=
  match Atoi text with
  | Err _ => Omitted
  | Ok w => if w <? 0 then Omitted else w
  end.
End weight.

(** ** internal/types/key *)

Module key.
Record Service := MkService { Addr : Types.Addr; Port : Z; Proto : string }.
Record Real := MkReal { RAddr : Types.Addr; RPort : Z }.
Record Balancer := MkBalancer { BService : Service; BReal : Real }.

#[global] Instance Service_eq_dec : EqDecision Service.
Proof. solve_decision. Defined.
#[global] Instance Real_eq_dec : EqDecision Real.
Proof. solve_decision. Defined.
#[global] Instance Balancer_eq_dec : EqDecision Balancer.
Proof. solve_decision. Defined.

#[global] Program Instance Service_countable : Countable Service :=
  inj_countable' (fun s => (Addr s, Port s, Proto s)) (fun x => MkService x.1.1 x.1.2 x.2) _.
Next Obligation. by intros []. Qed.
#[global] Program Instance Real_countable : Countable Real :=
  inj_countable' (fun s => (RAddr s, RPort s)) (fun x => MkReal x.1 x.2) _.
Next Obligation. by intros []. Qed.
#[global] Program Instance Balancer_countable : Countable Balancer :=
  inj_countable' (fun s => (BService s, BReal s)) (fun x => MkBalancer x.1 x.2) _.
Next Obligation. by intros []. Qed.

(** The host prefix of the service: its address with all its bits. *)
Definition Service_Prefix (m : Service) : Prefix := PrefixFrom (Addr m) (Addr_BitLen (Addr m)).
End key.

(** ** internal/types/xevent *)

Module xevent.
Inductive Type_ := Enable | Disable | Shutdown.

#[global] Instance Type_eq_dec : EqDecision Type_.
Proof. solve_decision. Defined.

Record Status := MkStatus { SEnable : bool; SWeight : Z }.

#[global] Instance Status_eq_dec : EqDecision Status.
Proof. solve_decision. Defined.

Record Event := MkEvent {
  EType : Type_;
  EBalancer : key.Balancer;
  ENew : Status;
  EInit : Status;
}.

(** [Merge] returns [(nil, true)] or the receiver with its new status; [None]
    stands for the nil pointer. *)
Definition Merge (event newEvent : Event) : option Event * bool :=
  if decide (ENew newEvent = EInit event) then (None, true)
  else (Some (MkEvent (EType event) (EBalancer event) (ENew newEvent) (EInit event)), false).

(** Two statuses the load balancer cannot tell apart: a disabled real has no
    weight there. *)
Definition status_equiv (s1 s2 : Status) : Prop :=
  SEnable s1 = SEnable s2 /\ (SEnable s1 = true -> SWeight s1 = SWeight s2).

#[global] Instance status_equiv_equivalence : Equivalence status_equiv.
Proof.
  split.
  - by intros [].
  - intros [e1 w1] [e2 w2] [He Hw]; split; simpl in *; [done|]. intros H2. symmetry. apply Hw. congruence.
  - intros [e1 w1] [e2 w2] [e3 w3] [He Hw] [He' Hw']; split; simpl in *; [congruence|].
    intros H1. rewrite Hw by done. apply Hw'. congruence.
Qed.

(** The weight a status contributes to its service. *)
Definition status_weight (s : Status) : Z := if SEnable s then SWeight s else 0.

Definition status_alive (s : Status) : Z := if SEnable s then 1 else 0.

#[global] Instance status_weight_proper : Proper (status_equiv ==> eq) status_weight.
Proof.
  intros [e1 w1] [e2 w2] [He Hw]; unfold status_weight; simpl in *.
  subst. destruct e2; auto.
Qed.

#[global] Instance status_alive_proper : Proper (status_equiv ==> eq) status_alive.
Proof. intros [e1 w1] [e2 w2] [He Hw]; unfold status_alive; simpl in *. by subst. Qed.

#[global] Instance SEnable_proper : Proper (status_equiv ==> eq) SEnable.
Proof. by intros ?? []. Qed.
End xevent.

Infix "≈" := xevent.status_equiv (at level 70, no associativity) : go_scope.

(** ** Decimal conversions: facts *)

Section decimal.
Lemma digit_val_chr d : 0 <= d < 10 -> digit_val (digit_chr d) = Some d.
Proof.
  intros Hd. unfold digit_val, digit_chr.
  rewrite nat_ascii_embedding by lia.
  replace (Z.of_nat (Z.to_nat (48 + d))) with (48 + d) by lia.
  destruct (48 <=? 48 + d) eqn:?, (48 + d <=? 57) eqn:?; simpl; f_equal; lia.
Qed.

Lemma utoa_val fuel z s acc :
  0 <= z < 2 ^ Z.of_nat fuel ->
  exists k, digits_val acc (utoa fuel z s) = digits_val (acc * 10 ^ k + z) s /\ 0 <= k.
Proof.
  revert z s. induction fuel as [|fuel IH]; intros z s Hz.
  { exists 0. simpl. split; [f_equal|]; lia. }
  cbn [utoa]. pose proof (Z.mod_pos_bound z 10 ltac:(lia)).
  pose proof (Z.div_mod z 10 ltac:(lia)).
  destruct (Z.ltb_spec z 10).
  - exists 1. simpl. rewrite digit_val_chr by lia. split; [f_equal|]; lia.
  - rewrite Nat2Z.inj_succ, Z.pow_succ_r in Hz by lia.
    destruct (IH (z / 10) (String (digit_chr (z mod 10)) s)) as (k & Hk & Hk0).
    { split; [apply Z.div_pos; lia | apply Z.div_lt_upper_bound; lia]. }
    exists (k + 1). rewrite Hk. cbn [digits_val]. rewrite digit_val_chr by lia.
    rewrite Z.pow_add_r by lia. split; [f_equal|]; lia.
Qed.

Lemma utoa_head fuel z s :
  0 <= z -> exists d rest, utoa (S fuel) z s = String (digit_chr d) rest /\ 0 <= d < 10.
Proof.
  revert z s. induction fuel as [|fuel IH]; intros z s Hz.
  - cbn [utoa]. destruct (z <? 10); eexists _, _; (split; [done|]); apply Z.mod_pos_bound; lia.
  - remember (S fuel) as fuel'. cbn [utoa]. subst fuel'. destruct (z <? 10).
    + eexists _, _; (split; [done|]); apply Z.mod_pos_bound; lia.
    + apply IH. apply Z.div_pos; lia.
Qed.

Lemma utoa_digits z s :
  0 <= z -> digits_val 0 (utoa (S (Z.to_nat (Z.log2 z))) z s) = digits_val z s.
Proof.
  intros Hz. destruct (utoa_val (S (Z.to_nat (Z.log2 z))) z s 0) as (k & -> & _); [|done].
  split; [done|]. rewrite Nat2Z.inj_succ, Z2Nat.id by apply Z.log2_nonneg.
  destruct (Z.eq_dec z 0) as [->|]; [done|]. apply Z.log2_spec. lia.
Qed.

Lemma Itoa_ParseUint z bits :
  0 <= z < 2 ^ bits -> ParseUint (Itoa z) bits = Ok z.
Proof.
  intros Hz. unfold Itoa. destruct (Z.ltb_spec z 0); [lia|].
  pose proof (utoa_digits z "" ltac:(lia)) as Hd.
  destruct (utoa_head (Z.to_nat (Z.log2 z)) z "" ltac:(lia)) as (d & rest & Hu & Hd').
  rewrite Hu in *. unfold ParseUint. rewrite Hd. simpl. destruct (Z.ltb_spec z (2 ^ bits)); [done|lia].
Qed.

(** A digit is neither sign, so [ParseInt] reads it as an unsigned number. *)
Lemma ParseInt_digit d rest :
  0 <= d < 10 ->
  ParseInt (String (digit_chr d) rest) =
  res_bind (ParseUint (String (digit_chr d) rest) 64)
           (fun v => if v <? two63 then Ok v else Err ErrRange).
Proof.
  intros Hd.
  assert (d = 0 \/ d = 1 \/ d = 2 \/ d = 3 \/ d = 4 \/ d = 5 \/ d = 6 \/ d = 7 \/ d = 8 \/ d = 9)
    as Hc by lia.
  destruct_or! Hc; subst d; cbv [ParseInt digit_chr ascii_of_nat ascii_of_pos ascii_of_N
    N.of_nat Z.to_nat Z.add Pos.to_nat Pos.iter_op Pos.add Pos.succ Nat.add Pos.of_succ_nat
    shift one zero]; done.
Qed.

Lemma Itoa_Atoi z : 0 <= z < two63 -> Atoi (Itoa z) = Ok z.
Proof.
  intros Hz. pose proof (Itoa_ParseUint z 64) as HP.
  unfold Itoa in *. destruct (Z.ltb_spec z 0); [lia|].
  destruct (utoa_head (Z.to_nat (Z.log2 z)) z "" ltac:(lia)) as (d & rest & Hu & Hd).
  rewrite Hu in *. unfold Atoi. rewrite ParseInt_digit by done.
  rewrite HP by (unfold two63 in Hz; lia). simpl. destruct (Z.ltb_spec z two63); [done|lia].
Qed.
End decimal.

(** ** Properties *)

(** A port printed by [String] is read back by [UnmarshalText] as the same
    port, and an omitted port (any negative value) as the omitted port. *)
Theorem port_text_roundtrip (p : Z) :
  p < 2 ^ 16 ->
  port.UnmarshalText (port.String_ p) = Ok (if p <? 0 then port.Omitted else p).
Proof.
  intros Hp. unfold port.String_. destruct (Z.ltb_spec p 0) as [|H0]; [done|].
  pose proof (Itoa_ParseUint p 16 ltac:(lia)) as HP.
  unfold port.UnmarshalText. destruct (Itoa p); [done|]. by rewrite HP.
Qed.

Lemma port_text_roundtrip_witness :
  port.UnmarshalText (port.String_ 443) = Ok 443 /\
  port.UnmarshalText (port.String_ (-7)) = Ok port.Omitted.
Proof.
  split.
  - apply (port_text_roundtrip 443). reflexivity.
  - apply (port_text_roundtrip (-7)). reflexivity.
Defined.

(** A weight printed by [String] is read back by [UnmarshalText] as the same
    weight, and every negative weight as the omitted weight. *)
Theorem weight_text_roundtrip (w : Z) :
  w < two63 ->
  weight.UnmarshalText (weight.String_ w) = (if w <? 0 then weight.Omitted else w).
Proof.
  intros Hw. unfold weight.String_. destruct (Z.ltb_spec w 0) as [|H0]; [done|].
  unfold weight.UnmarshalText. rewrite Itoa_Atoi by lia.
  destruct (Z.ltb_spec w 0); [lia|done].
Qed.

Lemma weight_text_roundtrip_witness :
  weight.UnmarshalText (weight.String_ 100) = 100.
Proof. apply (weight_text_roundtrip 100). reflexivity. Defined.

(** The step of [Recalculate] when nothing overflows. *)
Lemma Recalculate_eq weight old coeff :
  0 <= weight < 2 ^ 32 -> 0 <= old < 2 ^ 32 -> 0 < coeff < 2 ^ 30 ->
  weight.Recalculate weight old coeff =
    (let step := Z.max 1 (old * coeff / 100) in
     if old <? weight then Z.min (old + step) weight else Z.max (old - step) weight).
Proof.
  intros Hw Ho Hc. unfold weight.Recalculate.
  assert (0 <= old * coeff < 2 ^ 62) as Hp by nia.
  assert (0 <= old * coeff / 100 < 2 ^ 62) as Hs.
  { split; [apply Z.div_pos; lia | apply Z.div_lt_upper_bound; lia]. }
  rewrite (wrap64_small coeff) by (unfold is_int64, two63; lia).
  rewrite (wrap64_small (old * coeff)) by (unfold is_int64, two63; lia).
  rewrite Z.quot_div_nonneg by lia. set (q := old * coeff / 100) in *.
  replace (if q =? 0 then 1 else q) with (Z.max 1 q) by (destruct (Z.eqb_spec q 0); lia).
  destruct (Z.ltb_spec weight 0), (Z.ltb_spec old 0), (Z.eqb_spec coeff 0); try lia. simpl.
  rewrite !wrap64_small by (unfold is_int64, two63; lia). done.
Qed.

(** With both weights set, one [Recalculate] moves the old weight towards
    the new one without overshooting, by at most [max 1 (old * coeff / 100)],
    and strictly closer whenever they differ (for weights that fit the 32-bit
    wire format and a coefficient below [2^30], so that no [int] wraps). *)
Theorem Recalculate_step (weight old coeff : Z) :
  0 <= weight < 2 ^ 32 -> 0 <= old < 2 ^ 32 -> 0 < coeff < 2 ^ 30 ->
  let r := weight.Recalculate weight old coeff in
  Z.min old weight <= r <= Z.max old weight /\
  Z.abs (r - old) <= Z.max 1 (old * coeff / 100) /\
  (old <> weight -> Z.abs (weight - r) < Z.abs (weight - old)).
Proof.
  intros Hw Ho Hc r. unfold r. rewrite Recalculate_eq by done.
  assert (0 <= old * coeff / 100) by (apply Z.div_pos; nia).
  cbv zeta. generalize dependent (old * coeff / 100). intros q Hq.
  destruct (Z.ltb_spec old weight); lia.
Qed.

Lemma Recalculate_step_witness :
  0 <= 100 < 2 ^ 32 /\
  Z.min 10 100 <= weight.Recalculate 100 10 20 <= Z.max 10 100.
Proof.
  split; [lia|]. apply (Recalculate_step 100 10 20); lia.
Defined.

(** Repeating [Recalculate] with the same reported weight reaches that
    weight after at most [|weight - old|] successful checks, and stays there. *)
Theorem Recalculate_converges (weight old coeff : Z) (n : nat) :
  0 <= weight < 2 ^ 32 -> 0 <= old < 2 ^ 32 -> 0 <= coeff < 2 ^ 30 ->
  Z.abs (weight - old) <= Z.of_nat n ->
  Nat.iter n (fun o => weight.Recalculate weight o coeff) old = weight.
Proof.
  intros Hw Ho Hc. revert old Ho. induction n as [|n IH]; intros old Ho Hn; [simpl; lia|].
  rewrite Nat.iter_succ_r.
  destruct (decide (coeff = 0)) as [->|].
  { assert (forall o, 0 <= o -> weight.Recalculate weight o 0 = weight) as H0.
    { intros o Ho'. unfold weight.Recalculate.
      destruct (Z.ltb_spec weight 0), (Z.ltb_spec o 0); (lia || done). }
    rewrite H0 by lia. clear IH Hn. induction n; simpl; [done|]. rewrite IHn. apply H0. lia. }
  assert (0 <= old * coeff / 100) by (apply Z.div_pos; nia).
  rewrite Recalculate_eq by lia. cbv zeta. rewrite Nat2Z.inj_succ in Hn.
  generalize dependent (old * coeff / 100). intros q Hq.
  apply IH; destruct (Z.ltb_spec old weight); lia.
Qed.

Lemma Recalculate_converges_witness :
  Nat.iter 40 (fun o => weight.Recalculate 50 o 10) 10 = 50.
Proof. apply (Recalculate_converges 50 10 10 40); lia. Defined.
