(* ===== verification/Bytes.v ===== *)
(** * Bytes

    Lists of bytes, [encoding/binary]'s big and little endian numbers, and the
    bytes of a [netip.Addr]. *)

From stdpp Require Import strings numbers gmap sets list.
From S2P Require Import Prelude.
From S2P Require Import Types.

Open Scope Z_scope.

Definition is_byte (b : Z) : Prop := 0 <= b < 256.

#[export] Instance is_byte_dec b : Decision (is_byte b).
Proof. unfold is_byte. apply _. Defined.

Notation are_bytes := (Forall is_byte).

(** [binary.BigEndian] *)
Definition be_value (bytes : list Z) : Z := foldl (fun acc b => acc * 256 + b) 0 bytes.

Fixpoint be_bytes (n : nat) (z : Z) : list Z :=
  match n with
  | O => []
  | S n => be_bytes n (z / 256) ++ [z mod 256]
  end.

(** [binary.LittleEndian] *)
Fixpoint le_bytes (n : nat) (z : Z) : list Z :=
  match n with
  | O => []
  | S n => z mod 256 :: le_bytes n (z / 256)
  end.

Fixpoint le_value (bytes : list Z) : Z :=
  match bytes with
  | [] => 0
  | b :: bytes => b + 256 * le_value bytes
  end.

(** [dst[off:]] overwritten by the first bytes of [src], as by [copy]. *)
Definition overwrite (off : nat) (src dst : list Z) : list Z :=
  let n := Nat.min (length dst - off) (length src) in
  take off dst ++ take n src ++ drop (off + n) dst.

Lemma be_value_snoc l b : be_value (l ++ [b]) = be_value l * 256 + b.
Proof. unfold be_value. by rewrite foldl_app. Qed.

Lemma be_bytes_length n z : length (be_bytes n z) = n.
Proof. revert z. induction n as [|n IH]; intros z; [done|]. simpl. rewrite length_app, IH. simpl. lia. Qed.

Lemma be_bytes_are_bytes n z : are_bytes (be_bytes n z).
Proof.
  revert z. induction n as [|n IH]; intros z; [constructor|]. simpl. apply Forall_app. split; [done|].
  constructor; [apply Z.mod_pos_bound; lia|constructor].
Qed.

Lemma be_value_bytes n z : 0 <= z < 256 ^ Z.of_nat n -> be_value (be_bytes n z) = z.
Proof.
  revert z. induction n as [|n IH]; intros z Hz; [simpl in Hz; cbn; lia|]. simpl. rewrite be_value_snoc, IH.
  - pose proof (Z.div_mod z 256). lia.
  - replace (Z.of_nat (S n)) with (1 + Z.of_nat n) in Hz by lia. rewrite Z.pow_add_r in Hz by lia.
    split; [apply Z.div_pos; lia|]. apply Z.div_lt_upper_bound; lia.
Qed.

Lemma be_bytes_value l : are_bytes l -> be_bytes (length l) (be_value l) = l.
Proof.
  induction l as [|b l IH] using rev_ind; intros Hl; [done|].
  apply Forall_app in Hl as [Hl [Hb _]%Forall_cons].
  rewrite length_app, be_value_snoc, Nat.add_comm. simpl. unfold is_byte in Hb.
  rewrite Z.div_add_l, (Z.div_small b), Z.add_0_r by lia.
  rewrite Z.add_comm, Z.mod_add, Z.mod_small by lia. by rewrite IH.
Qed.

Lemma be_value_range l : are_bytes l -> 0 <= be_value l < 256 ^ Z.of_nat (length l).
Proof.
  induction l as [|b l IH] using rev_ind; intros Hl; [by vm_compute|].
  apply Forall_app in Hl as [Hl [Hb _]%Forall_cons]. specialize (IH Hl). unfold is_byte in Hb.
  rewrite be_value_snoc, length_app. simpl length.
  replace (Z.of_nat (length l + 1)) with (Z.of_nat (length l) + 1) by lia. rewrite Z.pow_add_r by lia. lia.
Qed.

Lemma le_bytes_length n z : length (le_bytes n z) = n.
Proof. revert z. induction n as [|n IH]; intros z; [done|]. simpl. by rewrite IH. Qed.

Lemma le_value_bytes n z : 0 <= z < 256 ^ Z.of_nat n -> le_value (le_bytes n z) = z.
Proof.
  revert z. induction n as [|n IH]; intros z Hz; [simpl in *; lia|]. simpl. rewrite IH.
  - pose proof (Z.div_mod z 256). lia.
  - replace (Z.of_nat (S n)) with (1 + Z.of_nat n) in Hz by lia. rewrite Z.pow_add_r in Hz by lia.
    split; [apply Z.div_pos; lia|]. apply Z.div_lt_upper_bound; lia.
Qed.

Lemma le_value_range l : are_bytes l -> 0 <= le_value l < 256 ^ Z.of_nat (length l).
Proof.
  induction l as [|b l IH]; intros Hl; [by vm_compute|]. apply Forall_cons in Hl as [Hb Hl]. specialize (IH Hl).
  unfold is_byte in Hb. cbn [le_value length]. replace (Z.of_nat (S (length l))) with (1 + Z.of_nat (length l)) by lia.
  rewrite Z.pow_add_r by lia. lia.
Qed.

(** ** The bytes of an address *)

Definition AsSlice (a : Addr) : list Z :=
  match a with
  | AddrInvalid => []
  | AddrV4 ip => be_bytes 4 ip
  | AddrV6 ip _ => be_bytes 16 ip
  end.

Definition AddrFromSlice (l : list Z) : option Addr :=
  if (length l =? 4)%nat then Some (AddrV4 (be_value l))
  else if (length l =? 16)%nat then Some (AddrV6 (be_value l) "")
  else None.

(** An IPv4 address as the IPv4-mapped IPv6 one. *)
Definition As16 (a : Addr) : list Z :=
  match a with
  | AddrInvalid => be_bytes 16 0
  | AddrV4 ip => be_bytes 16 (65535 * 2 ^ 32 + ip)
  | AddrV6 ip _ => be_bytes 16 ip
  end.

(** The values addresses have. *)
Definition Addr_ok (a : Addr) : Prop :=
  match a with
  | AddrInvalid => True
  | AddrV4 ip => 0 <= ip < 2 ^ 32
  | AddrV6 ip _ => 0 <= ip < 2 ^ 128
  end.

Lemma AddrFromSlice_AsSlice a : Addr_ok a -> a <> AddrInvalid -> AddrFromSlice (AsSlice a) = Some (Addr_withoutZone a).
Proof.
  intros Ha Hn. unfold AddrFromSlice, AsSlice. destruct a as [|ip|ip z]; [done|simpl in Ha..].
  - rewrite be_bytes_length, be_value_bytes; [done|]. change (256 ^ Z.of_nat 4) with (2 ^ 32). lia.
  - rewrite be_bytes_length, be_value_bytes; [done|]. change (256 ^ Z.of_nat 16) with (2 ^ 128). lia.
Qed.

Lemma AsSlice_length a : length (AsSlice a) = match a with AddrInvalid => 0 | AddrV4 _ => 4 | AddrV6 _ _ => 16 end%nat.
Proof. destruct a; [done|apply be_bytes_length..]. Qed.

Lemma AsSlice_bytes a : are_bytes (AsSlice a).
Proof. destruct a; [constructor|apply be_bytes_are_bytes..]. Qed.
