(* ===== verification/Registry.v ===== *)
(** * The event registry

    [internal/utils/event_registry]: a map of pending events in which a new
    event for a key is merged with the pending one, which may make both
    disappear.  [Comparable] is the interface of the same name; [DeltaEvent]
    states what a client of the registry relies on, that merging loses nothing:
    the pending events are always exactly the difference between what was last
    delivered and what is current. *)

From stdpp Require Import strings numbers gmap sets list.
From S2P Require Import Prelude.

Open Scope Z_scope.
Open Scope go_scope.

(** [Merge] returns the merged value and whether the event is to be removed;
    a nil result, possible for a pointer type, is [None]. *)
Class Comparable (V : Type) := Merge : V -> V -> option V * bool.

Section Registry.
Context `{MR : MapRange} {K : Type} `{Countable K} {V : Type} `{CV : Comparable V}.

(** The mutex-protected map. *)
Record Registry := MkRegistry { events : gmap K V }.

Definition NewRegistry : Registry := MkRegistry ∅.

Definition Store (key : K) (value : V) (r : Registry) : Registry :=
  match events r !! key with
  | None => MkRegistry (<[key:=value]> (events r))
  | Some oldValue =>
      match Merge oldValue value with
      | (_, true) => MkRegistry (delete key (events r))
      | (Some newValue, false) => MkRegistry (<[key:=newValue]> (events r))
      | (None, false) => r (* no implementation of Merge keeps a nil event *)
      end
  end.

(** [Flush] returns the events and leaves a fresh map. *)
Definition Flush (r : Registry) : gmap K V * Registry := (events r, NewRegistry).

Definition Events (r : Registry) : gmap K V := events r.

(** [Process] runs the processor, an effect on the world [W], on every event
    and removes those it returns no error for; [processed] counts them. *)
Definition Process {W E : Type} (processor : K -> V -> W -> option E * W)
    (r : Registry) (w : W) : Registry * W * Z :=
  for_range (events r)
    (fun key value '(r, w, processed) =>
       match processor key value w with
       | (None, w) => (MkRegistry (delete key (events r)), w, processed +i 1)
       | (Some _, w) => (r, w, processed)
       end)
    (r, w, 0).
End Registry.
Arguments Registry K {_ _} V.

(** What the clients of a registry rely on.  A pending event of type [V] leads
    to a state of type [S] ([target]) and was issued in some state
    ([based_on]); states are compared up to [R]. *)
Class DeltaEvent (V : Type) {CV : Comparable V} (S : Type) (R : relation S) := {
  delta_equiv :: Equivalence R;
  target : V -> S;
  based_on : V -> S -> Prop;
  based_on_proper e s s' : R s s' -> based_on e s -> based_on e s';
  merge_keep e0 e e' a :
    based_on e0 a -> based_on e (target e0) -> Merge e0 e = (Some e', false) ->
    R (target e') (target e) /\ based_on e' a;
  merge_remove e0 e o a :
    based_on e0 a -> based_on e (target e0) -> Merge e0 e = (o, true) ->
    R a (target e);
  merge_not_nil e0 e : Merge e0 e <> (None, false);
}.

Definition fupd {K} `{EqDecision K} {S} (f : K -> S) (k : K) (s : S) : K -> S :=
  fun k' => if decide (k = k') then s else f k'.

Section refinement.
Context {K : Type} `{Countable K} {V S : Type} {R : relation S}.
Context `{CV : Comparable V} `{!DeltaEvent V S R}.
Implicit Types (r : Registry K V) (applied current : K -> S).

(** The registry holds, for each key, the event that leads from the applied
    state to the current one, and none where they agree. *)
Definition delta_inv r applied current : Prop :=
  forall k, match events r !! k with
            | Some e => R (target e) (current k) /\ based_on e (applied k)
            | None => R (applied k) (current k)
            end.

Lemma delta_inv_new f : delta_inv NewRegistry f f.
Proof. intros k. unfold NewRegistry. simpl. rewrite lookup_empty. done. Qed.

Lemma delta_inv_Store r applied current k e :
  delta_inv r applied current -> based_on e (current k) ->
  delta_inv (Store k e r) applied (fupd current k (target e)).
Proof.
  intros Hinv Hb k'. unfold Store, fupd. pose proof (Hinv k) as Hk. pose proof (Hinv k') as Hk'.
  destruct (events r !! k) as [e0|] eqn:Hek.
  - destruct Hk as [Ht Hba].
    assert (based_on e (target e0)) as Hb0.
    { eapply based_on_proper; [|exact Hb]. by symmetry. }
    destruct (Merge e0 e) as [[e'|] []] eqn:HM; simpl;
      [ rewrite lookup_delete | rewrite lookup_insert | rewrite lookup_delete
      | by apply merge_not_nil in HM ];
      case_decide; subst; try done.
    + eapply merge_remove; eauto.
    + eapply merge_keep; eauto.
    + eapply merge_remove; eauto.
  - simpl. rewrite lookup_insert. case_decide; subst; [|done].
    split; [done|]. eapply based_on_proper; [by symmetry|done].
Qed.

(** Delivering an event to the applied state. *)
Definition deliver (evs : gmap K V) applied : K -> S :=
  fun k => match evs !! k with Some e => target e | None => applied k end.

Lemma delta_inv_Flush r applied current :
  delta_inv r applied current ->
  (forall k, R (deliver (Flush r).1 applied k) (current k)) /\
  delta_inv (Flush r).2 (deliver (Flush r).1 applied) current.
Proof.
  intros Hinv.
  assert (forall k, R (deliver (Flush r).1 applied k) (current k)) as Hd.
  { intros k. specialize (Hinv k). unfold deliver, Flush. simpl.
    destruct (events r !! k); naive_solver. }
  split; [done|]. intros k. simpl. rewrite lookup_empty. apply Hd.
Qed.

(** A sequence of events, each issued in the state its predecessors lead to. *)
Fixpoint stores (l : list (K * V)) r : Registry K V :=
  match l with
  | [] => r
  | (k, e) :: l => stores l (Store k e r)
  end.

Fixpoint issued (current : K -> S) (l : list (K * V)) : Prop :=
  match l with
  | [] => True
  | (k, e) :: l => based_on e (current k) /\ issued (fupd current k (target e)) l
  end.

Fixpoint outcome (current : K -> S) (l : list (K * V)) : K -> S :=
  match l with
  | [] => current
  | (k, e) :: l => outcome (fupd current k (target e)) l
  end.

Lemma delta_inv_stores l r applied current :
  delta_inv r applied current -> issued current l ->
  delta_inv (stores l r) applied (outcome current l).
Proof.
  revert r current. induction l as [|[k e] l IH]; intros r current Hinv; simpl; [done|].
  intros [Hb Hl]. apply IH; [|done]. by apply delta_inv_Store.
Qed.

(** C16: merging events in the registry loses nothing.  Starting from an empty
    registry, store any sequence of events, each issued in the state left by
    the previous ones: delivering only what one [Flush] returns brings the
    receiver to the state the whole sequence leads to. *)
Theorem registry_coalescing_lossless (l : list (K * V)) (start : K -> S) :
  issued start l ->
  forall k, R (deliver (Flush (stores l NewRegistry)).1 start k) (outcome start l k).
Proof.
  intros Hl. apply delta_inv_Flush. apply delta_inv_stores; [apply delta_inv_new|done].
Qed.
End refinement.

Section process.
Context `{MR : MapRange} {K : Type} `{Countable K} {V : Type} `{CV : Comparable V}.

Lemma Process_cons_inv {W E} (processor : K -> V -> W -> option E * W) (r : Registry K V) w
    (P : gmap K V -> Registry K V * W * Z -> Prop) :
  P ∅ (r, w, 0) ->
  (forall k v done_ r1 w1 n, done_ !! k = None -> events r !! k = Some v -> done_ ⊆ events r ->
     P done_ (r1, w1, n) ->
     match processor k v w1 with
     | (None, w2) => P (<[k:=v]> done_) (MkRegistry (delete k (events r1)), w2, n +i 1)
     | (Some _, w2) => P (<[k:=v]> done_) (r1, w2, n)
     end) ->
  P (events r) (Process processor r w).
Proof.
  intros H0 Hs. unfold Process. apply for_range_ind; [done|].
  intros k v pr [[r1 w1] n] Hk Hv Hsub HP. specialize (Hs k v pr r1 w1 n Hk Hv Hsub HP).
  by destruct (processor k v w1) as [[] ].
Qed.

(** [Process] removes exactly the events it counts: what is left is part
    of what was pending, and the returned number is the number removed. *)
Theorem Process_counts_removed {W E} (processor : K -> V -> W -> option E * W)
    (r : Registry K V) (w : W) :
  msize (events r) < two63 ->
  let '(r', _, processed) := Process processor r w in
  events r' ⊆ events r /\ processed = msize (events r) - msize (events r').
Proof.
  intros Hsz.
  cut ((fun (done_ : gmap K V) '((r', w', n) : Registry K V * W * Z) =>
          events r' ⊆ events r /\ n = msize (events r) - msize (events r') /\
          (forall k, done_ !! k = None -> events r' !! k = events r !! k))
         (events r) (Process processor r w)).
  { destruct (Process processor r w) as [[r' w'] n]. naive_solver. }
  apply Process_cons_inv.
  - split; [done|]. split; [lia|done].
  - intros k v done_ r1 w1 n Hk Hv Hsub (Hs & Hn & Hd).
    destruct (processor k v w1) as [[e|] w2].
    + split; [done|]. split; [done|]. intros k' Hk'. apply Hd.
      rewrite lookup_insert in Hk'. by case_decide.
    + assert (events r1 !! k = Some v) as Hr1 by (by rewrite Hd).
      pose proof (msize_delete _ _ _ Hr1). pose proof (msize_mono _ _ Hs).
      pose proof (msize_nonneg (delete k (events r1))).
      split; [|split].
      * simpl. etrans; [apply delete_subseteq|done].
      * simpl. rewrite wrap64_small; [lia|]. unfold is_int64. lia.
      * intros k' Hk'. simpl. rewrite lookup_insert in Hk'. case_decide; [done|].
        rewrite lookup_delete_ne by done. by apply Hd.
Qed.
End process.

(** [delta_inv] only looks at the values of the two state functions. *)
Lemma delta_inv_ext {K} `{Countable K} {V S} {R : relation S} `{CV : Comparable V} `{!DeltaEvent V S R}
    (r : Registry K V) (a c c' : K -> S) :
  (forall k, c k = c' k) -> delta_inv r a c -> delta_inv r a c'.
Proof. intros Hc Hinv k. specialize (Hinv k). by rewrite <- Hc. Qed.
