(* ===== verification/Utils.v ===== *)
(** * Small utilities

    [internal/utils/coalescer], [internal/utils/throttler],
    [internal/utils/exp], [internal/utils/shutdown] and
    [internal/utils/workerpool].  The worker pool is the one with concurrent
    behaviour: its state and the atomic actions of its goroutines are a
    transition system. *)

From stdpp Require Import strings numbers gmap sets list relations.
From S2P Require Import Prelude.

Open Scope Z_scope.
Open Scope go_scope.

(** ** coalescer *)

(** The first non-nil pointer; a pointer that is never written through is
    modelled by the value it points to. *)
Fixpoint Coalesce {T : Type} (values : list (option T)) : option T :=
  match values with
  | [] => None
  | Some v :: _ => Some v
  | None :: values => Coalesce values
  end.

(** ** throttler *)

Module throttler.
(** On [uint64]: [value - 1] wraps at 0, which the first test excludes. *)
Definition isPowerOfTwo (value : Z) : bool :=
  negb (value =? 0) && (Z.land value ((value - 1) mod 2 ^ 64) =? 0).

Definition throttlerFunc : Z -> bool := fun value => negb (isPowerOfTwo value).

Definition Throttle (value limit : Z) : bool :=
  if value <=? limit then false else throttlerFunc value.
End throttler.

(** ** exp *)

Module exp.
Record Config := MkConfig {
  Enabled : bool;
  ReplaceMHWith : string;
  EnableTLSSNI : bool;
}.

(** The package's global variables. *)
Record Globals := MkGlobals {
  once : bool;             (* experimentalFeaturesOnce has run *)
  mhReplaceValue : string;
  tlsSNIEnabled : bool;
}.

Definition init : Globals := MkGlobals false "" false.

Definition setReplaceMHWith (value : string) (g : Globals) : Globals :=
  MkGlobals (once g) value (tlsSNIEnabled g).

Definition enableTLSSNI (g : Globals) : Globals :=
  MkGlobals (once g) (mhReplaceValue g) true.

Definition experimentalFeatures (config : Config) (g : Globals) : Globals :=
  if negb (Enabled config) then g
  else
    let g := setReplaceMHWith (ReplaceMHWith config) g in
    if EnableTLSSNI config then enableTLSSNI g else g.

Definition ExperimentalFeatures (config : Config) (g : Globals) : Globals :=
  if once g then g
  else
    let g := experimentalFeatures config g in
    MkGlobals true (mhReplaceValue g) (tlsSNIEnabled g).

Definition MHReplaceValue (g : Globals) : string := mhReplaceValue g.
Definition TLSSNIEnabled (g : Globals) : bool := tlsSNIEnabled g.
End exp.

(** ** shutdown *)

Module shutdown.
Record Shutdown := MkShutdown {
  once : bool;    (* the sync.Once has fired *)
  closed : bool;  (* the notify channel is closed *)
}.

Definition New : Shutdown := MkShutdown false false.

(** Closing a closed channel panics: [None]. *)
Definition close_notify (m : Shutdown) : option Shutdown :=
  if closed m then None else Some (MkShutdown (once m) true).

Definition Do (m : Shutdown) : option Shutdown :=
  if once m then Some m else close_notify (MkShutdown true (closed m)).

(** Whether a receive from [Done()] proceeds. *)
Definition Done (m : Shutdown) : bool := closed m.

Fixpoint Do_times (n : nat) (m : Shutdown) : option Shutdown :=
  match n with
  | O => Some m
  | S n => m' ← Do m; Do_times n m'
  end.

Lemma Do_once m m' : Do m = Some m' -> once m' = true.
Proof. unfold Do, close_notify. destruct m as [[] []]; naive_solver. Qed.

(** Any positive number of [Do] calls on a new [Shutdown] never panics and
    leaves the notification channel closed. *)
Theorem Do_idempotent (n : nat) :
  Do_times (S n) New = Some (MkShutdown true true).
Proof. simpl. induction n; simpl; done. Qed.
End shutdown.

(** ** throttler: facts *)

Section power_of_two.
Lemma land_pred_pow2 k : 0 <= k -> Z.land (2 ^ k) (2 ^ k - 1) = 0.
Proof.
  intros Hk. replace (2 ^ k - 1) with (Z.ones k) by (rewrite Z.ones_equiv; lia).
  rewrite Z.land_ones by done. apply Z.mod_same. lia.
Qed.

(** The highest bit of [v] survives in [v land (v - 1)] unless it is the only
    one. *)
Lemma land_pred_nonzero v :
  0 < v -> v <> 2 ^ Z.log2 v -> Z.land v (v - 1) <> 0.
Proof.
  intros Hv Hne Hl. pose proof (Z.log2_spec v Hv) as [Hlo Hhi].
  set (k := Z.log2 v) in *. assert (0 <= k) by apply Z.log2_nonneg.
  assert (Z.testbit (Z.land v (v - 1)) k = true) as Ht; [|by rewrite Hl, Z.bits_0 in Ht].
  rewrite Z.land_spec, andb_true_iff. rewrite Z.pow_succ_r in Hhi by done.
  assert (forall x, 2 ^ k <= x < 2 * 2 ^ k -> Z.testbit x k = true) as Hbit.
  { intros x Hx. rewrite Z.testbit_true by done.
    replace (x / 2 ^ k) with 1; [done|].
    apply (Z.div_unique x (2 ^ k) 1 (x - 2 ^ k)); lia. }
  split; apply Hbit; lia.
Qed.

(** [isPowerOfTwo] decides whether a [uint64] is a power of two, so past
    the limit the failed attempts that are logged are the powers of two. *)
Theorem isPowerOfTwo_spec (value : Z) :
  0 <= value < 2 ^ 64 ->
  throttler.isPowerOfTwo value = true <-> exists k, 0 <= k < 64 /\ value = 2 ^ k.
Proof.
  intros Hv. unfold throttler.isPowerOfTwo. rewrite andb_true_iff, negb_true_iff, Z.eqb_neq, Z.eqb_eq.
  split.
  - intros [Hne Hl]. rewrite Z.mod_small in Hl by lia. exists (Z.log2 value).
    assert (Z.log2 value < 64) by (apply Z.log2_lt_pow2; lia).
    split; [pose proof (Z.log2_nonneg value); lia|].
    destruct (Z.eq_dec value (2 ^ Z.log2 value)) as [|Hpow]; [done|].
    by apply land_pred_nonzero in Hpow; [|lia].
  - intros (k & Hk & ->). assert (0 < 2 ^ k) by (apply Z.pow_pos_nonneg; lia).
    split; [lia|]. rewrite Z.mod_small by lia. apply land_pred_pow2. lia.
Qed.

Lemma isPowerOfTwo_spec_witness :
  throttler.isPowerOfTwo 4096 = true <-> exists k, 0 <= k < 64 /\ 4096 = 2 ^ k.
Proof. apply (isPowerOfTwo_spec 4096). lia. Defined.
End power_of_two.

(** ** workerpool *)

Module workerpool.
(** The goroutine executing [Run]. *)
Inductive runner :=
| RunNotStarted                (* before [range m.worker] reads the field *)
| RunLoop (captured : bool)    (* receiving; [false]: the field read was nil *)
| RunGot (w : nat)             (* received a worker, before [wg.Add(1)] *)
| RunExited.

Record Pool := MkPool {
  worker : bool;         (* the field [worker] is non-nil *)
  closed : bool;         (* the channel has been closed *)
  adding : list nat;     (* [Add] calls holding the read lock *)
  closing : bool;        (* a [Close] call holds the write lock *)
  wg : Z;                (* the wait group's counter *)
  run : runner;
  running : list nat;    (* workers whose goroutine executes *)
  closes : nat;          (* [Close] calls that have returned *)
  panicked : bool;       (* a send on a closed channel *)
}.

(** [New], with [Run] about to be called in its goroutine. *)
Definition New : Pool := MkPool true false [] false 0 RunNotStarted [] 0 false.

Inductive step : Pool -> Pool -> Prop :=
(* Run *)
| run_start p :
    run p = RunNotStarted ->
    step p (MkPool (worker p) (closed p) (adding p) (closing p) (wg p)
                   (RunLoop (worker p)) (running p) (closes p) (panicked p))
| run_exit p :
    run p = RunLoop true -> closed p = true ->
    step p (MkPool (worker p) (closed p) (adding p) (closing p) (wg p)
                   RunExited (running p) (closes p) (panicked p))
| run_launch p w :
    run p = RunGot w ->
    step p (MkPool (worker p) (closed p) (adding p) (closing p) (wg p + 1)
                   (RunLoop true) (w :: running p) (closes p) (panicked p))
| worker_done p w rest :
    running p ≡ₚ w :: rest ->
    step p (MkPool (worker p) (closed p) (adding p) (closing p) (wg p - 1)
                   (run p) rest (closes p) (panicked p))
(* Add *)
| add_lock p w :
    closing p = false ->
    step p (MkPool (worker p) (closed p) (w :: adding p) (closing p) (wg p)
                   (run p) (running p) (closes p) (panicked p))
| add_skip p w rest :
    adding p ≡ₚ w :: rest -> worker p = false ->
    step p (MkPool (worker p) (closed p) rest (closing p) (wg p)
                   (run p) (running p) (closes p) (panicked p))
| add_send p w rest :
    adding p ≡ₚ w :: rest -> worker p = true -> closed p = false ->
    run p = RunLoop true ->
    step p (MkPool (worker p) (closed p) rest (closing p) (wg p)
                   (RunGot w) (running p) (closes p) (panicked p))
| add_panic p w rest :
    adding p ≡ₚ w :: rest -> worker p = true -> closed p = true ->
    step p (MkPool (worker p) (closed p) rest (closing p) (wg p)
                   (run p) (running p) (closes p) true)
(* Close *)
| close_lock p :
    closing p = false -> adding p = [] ->
    step p (MkPool false (closed p || worker p) (adding p) true (wg p)
                   (run p) (running p) (closes p) (panicked p))
| close_return p :
    closing p = true -> wg p = 0 ->
    step p (MkPool (worker p) (closed p) (adding p) false (wg p)
                   (run p) (running p) (S (closes p)) (panicked p)).

Definition reachable (p : Pool) : Prop := rtc step New p.

(** The field is nil exactly when the channel is closed, the counter counts
    the running workers, and nobody has sent on a closed channel. *)
Definition pool_inv (p : Pool) : Prop :=
  worker p = negb (closed p) /\ wg p = Z.of_nat (length (running p)) /\
  (closing p = true -> worker p = false /\ adding p = []) /\
  ((0 < closes p)%nat -> worker p = false) /\ panicked p = false.

Lemma pool_inv_reachable p : reachable p -> pool_inv p.
Proof.
  unfold reachable. intros Hr.
  enough (forall a b, rtc step a b -> pool_inv a -> pool_inv b) as HI
    by (apply (HI New p Hr); unfold pool_inv; simpl; repeat split; (done || lia)).
  clear p Hr. intros a b Hab. induction Hab as [|a b c Hs _ IH]; [done|]. intros Hinv. apply IH.
  destruct Hinv as (Hw & Hg & Hc & Hcl & Hp). unfold pool_inv.
  destruct Hs as [p Hr|p Hr Hcd|p w Hr|p w rest Hp0|p w Hcf|p w rest Hp0 Hwf|p w rest Hp0 Hwt Hcd Hrun
                 |p w rest Hp0 Hwt Hcd|p Hcf Ha|p Hct Hw0]; simpl in *;
    try (apply Permutation_length in Hp0 as Hlen; simpl in Hlen);
    split_and!; auto; try lia.
  - intros Ht. congruence.
  - intros Ht. destruct (Hc Ht) as [_ Had]. by rewrite Had in Hlen.
  - intros Ht. destruct (Hc Ht) as [_ Had]. by rewrite Had in Hlen.
  - intros Ht. destruct (Hc Ht) as [_ Had]. by rewrite Had in Hlen.
  - by rewrite Hwt, Hcd in Hw.
  - rewrite Hw. by destruct (closed p).
  - intros _. by apply Hc.
Qed.

(** The pool never sends on a closed channel, whatever the interleaving of
    [Run], [Add] and [Close] calls: no call panics, and after [Close] the
    channel field stays nil, so later [Add] calls do nothing. *)
Theorem pool_no_send_on_closed (p : Pool) :
  reachable p ->
  panicked p = false /\ ((0 < closes p)%nat -> worker p = false /\ closed p = true).
Proof.
  intros Hr. destruct (pool_inv_reachable p Hr) as (Hw & _ & _ & Hcl & Hp).
  split; [done|]. intros Hc. split; [by apply Hcl|].
  specialize (Hcl Hc). rewrite Hw in Hcl. by apply negb_false_iff in Hcl.
Qed.

(** A state after a worker was added, the pool closed, and [Close] returned. *)
Definition closed_while_launching : Pool :=
  MkPool false true [] false 0 (RunGot 7) [] 1 false.

Lemma closed_while_launching_reachable : reachable closed_while_launching.
Proof.
  unfold reachable.
  eapply rtc_l; [by apply run_start|]. simpl.
  eapply rtc_l; [by apply (add_lock _ 7)|]. simpl.
  eapply rtc_l; [by apply (add_send _ 7 [])|]. simpl.
  eapply rtc_l; [by apply close_lock|]. simpl.
  eapply rtc_l; [by apply close_return|]. simpl. apply rtc_refl.
Qed.

Lemma pool_no_send_on_closed_witness :
  panicked closed_while_launching = false /\
  ((0 < closes closed_while_launching)%nat ->
   worker closed_while_launching = false /\ closed closed_while_launching = true).
Proof. apply (pool_no_send_on_closed closed_while_launching closed_while_launching_reachable). Defined.

(** [Close] may return before a worker that was handed to the pool starts:
    [Run] increments the wait group only after receiving, so there is an
    execution in which [Close] has returned, with no worker running, and the
    worker's goroutine is launched afterwards. *)
Theorem Close_may_miss_a_worker :
  exists p q, reachable p /\ closes p = 1%nat /\ running p = [] /\ step p q /\ running q = [7%nat].
Proof.
  exists closed_while_launching. eexists. split; [apply closed_while_launching_reachable|].
  split; [done|]. split; [done|]. split; [by apply (run_launch _ 7)|]. done.
Qed.

(** If [Close] nils the field before the goroutine of [Run] reads it, [Run]
    never returns: it ranges over a nil channel in every later state. *)
Theorem Run_after_Close_blocks (p q : Pool) :
  run p = RunLoop false -> rtc step p q -> run q = RunLoop false.
Proof.
  intros Hp Hpq. induction Hpq as [|a b c Hs _ IH]; [done|]. apply IH. clear IH.
  destruct Hs; simpl in *; congruence.
Qed.

Lemma Run_after_Close_blocks_witness :
  exists p, reachable p /\ closes p = 1%nat /\ run p = RunLoop false /\
    (forall q, rtc step p q -> run q = RunLoop false).
Proof.
  exists (MkPool false true [] false 0 (RunLoop false) [] 1 false).
  split; [|split; [done|split; [done|]]].
  - unfold reachable.
    eapply rtc_l; [by apply close_lock|]. simpl.
    eapply rtc_l; [by apply close_return|]. simpl.
    eapply rtc_l; [by apply run_start|]. apply rtc_refl.
  - intros q. apply (Run_after_Close_blocks _ q). done.
Defined.
End workerpool.
