(* ===== verification/Prefixes.v ===== *)
(** * Prefix states

    [internal/announcer/prefix.go]: which host prefixes exist, which services
    hold each of them, when a prefix is ready to be announced, and the registry
    of the status changes to report to the routing daemon. *)

From stdpp Require Import strings numbers gmap sets list.
From S2P Require Import Prelude.
From S2P Require Import Types.
From S2P Require Import Registry.

Open Scope Z_scope.
Open Scope go_scope.

(** ** Statuses and keys *)

Record PrefixKey := MkPrefixKey { pkPrefix : Prefix; pkGroup : string }.

#[export] Instance PrefixKey_eq_dec : EqDecision PrefixKey.
Proof. solve_decision. Defined.

#[export] Program Instance PrefixKey_countable : Countable PrefixKey :=
  inj_countable' (fun k => (pkPrefix k, pkGroup k)) (fun x => MkPrefixKey x.1 x.2) _.
Next Obligation. by intros []. Qed.

Inductive PrefixStatus := Unready | Ready.
Inductive ServiceStatus := ServiceDisabled | ServiceEnabled.

#[export] Instance PrefixStatus_eq_dec : EqDecision PrefixStatus.
Proof. solve_decision. Defined.
#[export] Instance ServiceStatus_eq_dec : EqDecision ServiceStatus.
Proof. solve_decision. Defined.

Definition PrefixStatus_Merge (status newStatus : PrefixStatus) : PrefixStatus * bool :=
  if decide (status <> newStatus) then (Unready, true) else (newStatus, false).

Definition ServiceStatus_Merge (status newStatus : ServiceStatus) : ServiceStatus * bool :=
  if decide (status <> newStatus) then (ServiceDisabled, true) else (newStatus, false).

#[export] Instance PrefixStatus_Comparable : Comparable PrefixStatus :=
  fun s n => let '(result, remove) := PrefixStatus_Merge s n in (Some result, remove).
#[export] Instance ServiceStatus_Comparable : Comparable ServiceStatus :=
  fun s n => let '(result, remove) := ServiceStatus_Merge s n in (Some result, remove).

(** Both are change notifications between two values: an event announces the
    value that the current one is not. *)
Ltac solve_toggle :=
  repeat match goal with x : PrefixStatus |- _ => destruct x | x : ServiceStatus |- _ => destruct x end;
  repeat split; (done || congruence || idtac).

#[export] Program Instance PrefixStatus_DeltaEvent : DeltaEvent PrefixStatus PrefixStatus (=) := {|
  target := fun e => e; based_on := fun e s => e <> s;
|}.
Next Obligation. intros; subst; done. Qed.
Next Obligation. intros e0 e e' a ??. unfold Merge, PrefixStatus_Comparable, PrefixStatus_Merge. case_decide; [done|]. intros [= <-]. solve_toggle. Qed.
Next Obligation. intros e0 e o a ??. unfold Merge, PrefixStatus_Comparable, PrefixStatus_Merge. case_decide; solve_toggle. Qed.
Next Obligation. intros e0 e. unfold Merge, PrefixStatus_Comparable, PrefixStatus_Merge. by case_decide. Qed.

#[export] Program Instance ServiceStatus_DeltaEvent : DeltaEvent ServiceStatus ServiceStatus (=) := {|
  target := fun e => e; based_on := fun e s => e <> s;
|}.
Next Obligation. intros; subst; done. Qed.
Next Obligation. intros e0 e e' a ??. unfold Merge, ServiceStatus_Comparable, ServiceStatus_Merge. case_decide; [done|]. intros [= <-]. solve_toggle. Qed.
Next Obligation. intros e0 e o a ??. unfold Merge, ServiceStatus_Comparable, ServiceStatus_Merge. case_decide; solve_toggle. Qed.
Next Obligation. intros e0 e. unfold Merge, ServiceStatus_Comparable, ServiceStatus_Merge. by case_decide. Qed.

(** ** prefixState *)

Record prefixState := MkPrefixState {
  group : string;
  services : gmap key.Service ServiceStatus;
  active : Z;
  quorum : Z;
}.

Definition len {A} (l : list A) : Z := Z.of_nat (length l).

Definition newState (group : string) (services : list key.Service) : prefixState :=
  let servicesSet := for_each (fun service m => <[service:=ServiceDisabled]> m) services ∅ in
  MkPrefixState group servicesSet 0 (msize servicesSet).

(** The helper [status]; [Status] is the same under the read lock. *)
Definition status (m : prefixState) : PrefixStatus :=
  if (quorum m =? active m) && negb (active m =? 0) then Ready else Unready.

Definition Status (m : prefixState) : PrefixStatus := status m.
Definition Group (m : prefixState) : string := group m.

Definition UpdateGroup (g : string) (m : prefixState) : prefixState :=
  MkPrefixState g (services m) (active m) (quorum m).

Definition ApplyServices (newServices : list key.Service) (m : prefixState) : prefixState :=
  let '(newServicesSet, active) :=
    for_each
      (fun service '(newServicesSet, active) =>
         match services m !! service with
         | Some ServiceEnabled => (<[service:=ServiceEnabled]> newServicesSet, active +i 1)
         | _ => (<[service:=ServiceDisabled]> newServicesSet, active)
         end)
      newServices (∅, 0) in
  MkPrefixState (group m) newServicesSet active (len newServices).

Definition prefixState_UpdateService (service : key.Service) (status_ : ServiceStatus)
    (m : prefixState) : PrefixStatus * prefixState :=
  match services m !! service with
  | None => (status m, m)
  | Some currStatus =>
      if decide (currStatus = status_) then (status m, m)
      else
        let active' := match status_ with
                       | ServiceEnabled => active m +i 1
                       | ServiceDisabled => active m -i 1
                       end in
        let m := MkPrefixState (group m) (<[service:=status_]> (services m)) active' (quorum m) in
        (status m, m)
  end.

(** ** Prefixes *)

Record Prefixes := MkPrefixes {
  prefixes : gmap Prefix prefixState;
  events_ : Registry PrefixKey PrefixStatus;
}.

Definition NewPrefixes : Prefixes := MkPrefixes ∅ NewRegistry.

Section operations.
Context `{MR : MapRange}.

(** The first loop of [ReloadServices]: the services and the announce group of
    every prefix. *)
Definition servicesByPrefix (services : gmap key.Service string) :
    gmap Prefix (list key.Service) * gmap Prefix string :=
  for_range services
    (fun service group '(prefixServices, prefixGroup) =>
       let prefix := key.Service_Prefix service in
       (<[prefix := default [] (prefixServices !! prefix) ++ [service]]> prefixServices,
        <[prefix := group]> prefixGroup))
    (∅, ∅).

(** The body of the second loop: an existing prefix is updated or removed.
    The state carries the registry, the prefixes map and [prefixServices]. *)
Definition reloadPrefix (prefixGroup : gmap Prefix string) (prefix : Prefix) (state : prefixState)
    (s : Prefixes * gmap Prefix (list key.Service)) : Prefixes * gmap Prefix (list key.Service) :=
  let '(m, prefixServices) := s in
  match prefixServices !! prefix with
  | Some newServices =>
      let oldGroup := Group state in
      let newGroup := default "" (prefixGroup !! prefix) in
      let prefixKey := MkPrefixKey prefix oldGroup in
      let '(evs, state, prefixKey) :=
        if decide (newGroup <> oldGroup) then
          (Store prefixKey Unready (events_ m), UpdateGroup newGroup state, MkPrefixKey prefix newGroup)
        else (events_ m, state, prefixKey) in
      let oldStatus := Status state in
      let state := ApplyServices newServices state in
      let newStatus := Status state in
      let evs :=
        if decide (newStatus <> oldStatus \/ newGroup <> oldGroup)
        then Store prefixKey newStatus evs else evs in
      (MkPrefixes (<[prefix:=state]> (prefixes m)) evs, delete prefix prefixServices)
  | None =>
      let evs :=
        if decide (Status state = Ready)
        then Store (MkPrefixKey prefix (Group state)) Unready (events_ m) else events_ m in
      (MkPrefixes (delete prefix (prefixes m)) evs, prefixServices)
  end.

Definition Prefixes_ReloadServices (services : gmap key.Service string) (m : Prefixes) : Prefixes :=
  let '(prefixServices, prefixGroup) := servicesByPrefix services in
  let '(m, prefixServices) :=
    for_range (prefixes m) (reloadPrefix prefixGroup) (m, prefixServices) in
  for_range prefixServices
    (fun prefix services m =>
       let group := default "" (prefixGroup !! prefix) in
       MkPrefixes (<[prefix := newState group services]> (prefixes m)) (events_ m))
    m.

Inductive prefixError := ErrPrefixNotFound (service : key.Service).

Definition Prefixes_UpdateService (service : key.Service) (status_ : ServiceStatus)
    (m : Prefixes) : option prefixError * Prefixes :=
  let prefix := key.Service_Prefix service in
  match prefixes m !! prefix with
  | None => (Some (ErrPrefixNotFound service), m)
  | Some state =>
      let oldStatus := Status state in
      let '(newStatus, state) := prefixState_UpdateService service status_ state in
      let evs :=
        if decide (newStatus <> oldStatus)
        then Store (MkPrefixKey prefix (Group state)) newStatus (events_ m) else events_ m in
      (None, MkPrefixes (<[prefix:=state]> (prefixes m)) evs)
  end.

Definition StatusFor (ps : list Prefix) (m : Prefixes) : gmap Prefix PrefixStatus :=
  for_each
    (fun prefix status =>
       match prefixes m !! prefix with
       | Some state => <[prefix := Status state]> status
       | None => <[prefix := Unready]> status
       end)
    ps ∅.

Definition Prefixes_Events (m : Prefixes) : gmap PrefixKey PrefixStatus * Prefixes :=
  let '(evs, r) := Flush (events_ m) in (evs, MkPrefixes (prefixes m) r).
End operations.

(** ** Well-formed prefix states

    The counter [active] is the number of enabled services and [quorum] the
    number of services; their number fits an [int]. *)

Definition is_enabled (s : ServiceStatus) : bool := bool_decide (s = ServiceEnabled).

Definition wf_state (m : prefixState) : Prop :=
  active m = mcount is_enabled (services m) /\ quorum m = msize (services m) /\
  msize (services m) < two63.

(** What the services of a prefix become when the list of services is
    replaced: known services keep their status, new ones are disabled. *)
Definition keep_status (old : gmap key.Service ServiceStatus) (s : key.Service) : ServiceStatus :=
  default ServiceDisabled (old !! s).

Section prefix_state.
Implicit Types (m : prefixState).

Lemma keep_status_case old s :
  keep_status old s =
  match old !! s with Some ServiceEnabled => ServiceEnabled | _ => ServiceDisabled end.
Proof. unfold keep_status. by destruct (old !! s) as [[]|]. Qed.

Lemma newState_services g l s :
  services (newState g l) !! s = if decide (s ∈ l) then Some ServiceDisabled else None.
Proof.
  unfold newState. simpl.
  loop (fun (visited : list key.Service) (r : gmap key.Service ServiceStatus) =>
           r !! s = if decide (s ∈ visited) then Some ServiceDisabled else None).
  - rewrite lookup_empty. case_decide; [by set_solver|done].
  - intros visited x rest r _ IH. rewrite lookup_insert, IH.
    destruct (decide (x = s)) as [<-|Hxs]; [by rewrite decide_True by set_solver|].
    apply decide_ext; set_solver.
Qed.

Lemma newState_wf g l : len l < two63 -> NoDup l -> wf_state (newState g l).
Proof.
  intros Hl Hnd. unfold wf_state, newState. simpl. split_and!; [|done|].
  - symmetry.
    loop (fun (_ : list key.Service) (r : gmap key.Service ServiceStatus) => mcount is_enabled r = 0 /\
             forall s st, r !! s = Some st -> st = ServiceDisabled).
    + split; [apply msum_empty|]. intros s st. by rewrite lookup_empty.
    + intros visited x rest r _ [Hc Hall]. split.
      2:{ intros s st. rewrite lookup_insert. case_decide; [congruence|apply Hall]. }
      unfold mcount in *. destruct (r !! x) as [st|] eqn:Hx.
      * rewrite (msum_update _ _ _ _ _ Hx), (Hall _ _ Hx), Hc. done.
      * rewrite msum_insert, Hc by done. done.
  - apply Z.le_lt_trans with (len l); [|done].
    loop (fun (visited : list key.Service) (r : gmap key.Service ServiceStatus) => msize r <= len visited).
    + by rewrite msize_empty.
    + intros visited x rest r _ IH. unfold len in *. rewrite length_app. simpl.
      destruct (r !! x) as [st|] eqn:Hx.
      * unfold msize in *. rewrite map_size_insert_Some by eauto. lia.
      * rewrite msize_insert by done. lia.
Qed.

Lemma ApplyServices_spec l m :
  NoDup l -> len l < two63 ->
  let m' := ApplyServices l m in
  wf_state m' /\ group m' = group m /\
  forall s, services m' !! s = if decide (s ∈ l) then Some (keep_status (services m) s) else None.
Proof.
  intros Hnd Hlen. unfold ApplyServices.
  set (body := fun service _ => _).
  assert (let '(set_, act) := for_each body l (∅, 0) in
          act = mcount is_enabled set_ /\ msize set_ = len l /\
          forall s, set_ !! s = if decide (s ∈ l) then Some (keep_status (services m) s) else None) as Hs.
  { loop (fun (visited : list key.Service) '((set_, act) : gmap key.Service ServiceStatus * Z) =>
             act = mcount is_enabled set_ /\ msize set_ = len visited /\
             forall s, set_ !! s = if decide (s ∈ visited) then Some (keep_status (services m) s) else None).
    { split_and!; [symmetry; apply msum_empty|apply msize_empty|].
      intros s. rewrite lookup_empty. case_decide; [by set_solver|done]. }
    intros visited x rest [set_ act] Hl (Ha & Hsz & Hlk).
    assert (set_ !! x = None) as Hx.
    { rewrite Hlk. case_decide as Hin; [|done]. subst l.
      apply NoDup_app in Hnd as (_ & Hd & _). exfalso. apply (Hd x Hin). left. }
    assert (0 <= len visited + 1 <= len l) as Hle
      by (subst l; unfold len; rewrite length_app; simpl; lia).
    pose proof (mcount_le_size is_enabled set_).
    unfold body. pose proof (keep_status_case (services m) x) as Hkeep.
    destruct (services m !! x) as [[]|]; (split_and!;
      [ unfold mcount in *; rewrite msum_insert by done; simpl; rewrite ?wrap64_small by (unfold is_int64; lia); lia
      | rewrite msize_insert by done; unfold len in *; rewrite length_app; simpl; lia
      | intros s; rewrite lookup_insert, Hlk; destruct (decide (x = s)) as [<-|Hxs];
        [ rewrite decide_True by set_solver; by rewrite Hkeep
        | apply decide_ext; set_solver ] ]). }
  destruct (for_each body l (∅, 0)) as [set_ act]. destruct Hs as (Ha & Hsz & Hlk).
  unfold wf_state. simpl. split_and!; [done|done| lia |done|done].
Qed.

Lemma UpdateService_wf s st m : wf_state m -> wf_state (prefixState_UpdateService s st m).2.
Proof.
  intros (Ha & Hq & Hsz). unfold prefixState_UpdateService.
  destruct (services m !! s) as [cur|] eqn:Hs; [|done].
  case_decide as Hne; [done|]. unfold wf_state. simpl.
  assert (msize (<[s:=st]> (services m)) = msize (services m)) as ->
    by (unfold msize; by rewrite map_size_insert_Some by eauto).
  split_and!; [|done|done].
  pose proof (mcount_le_size is_enabled (services m)).
  pose proof (mcount_le_size is_enabled (<[s:=st]> (services m))) as Hle.
  assert (msize (<[s:=st]> (services m)) = msize (services m)) as Hsz'
    by (unfold msize; by rewrite map_size_insert_Some by eauto).
  unfold mcount in *. rewrite (msum_update _ _ _ _ _ Hs) in *.
  destruct cur, st; simpl in *; try done; rewrite wrap64_small; unfold is_int64; lia.
Qed.

Lemma UpdateService_result s st m :
  (prefixState_UpdateService s st m).1 = status (prefixState_UpdateService s st m).2 /\
  group (prefixState_UpdateService s st m).2 = group m.
Proof. unfold prefixState_UpdateService. by case_all. Qed.

Lemma status_Ready m :
  wf_state m ->
  status m = Ready <->
  services m <> ∅ /\ forall s st, services m !! s = Some st -> st = ServiceEnabled.
Proof.
  intros (Ha & Hq & _). unfold status. rewrite Ha, Hq.
  pose proof (mcount_eq_size is_enabled (services m)) as Hc.
  pose proof (mcount_le_size is_enabled (services m)) as Hle.
  assert (msize (services m) = 0 <-> services m = ∅) as H0.
  { unfold msize. rewrite <- (map_size_empty_iff (services m)). lia. }
  assert ((forall s st, services m !! s = Some st -> st = ServiceEnabled) <->
          mcount is_enabled (services m) = msize (services m)) as ->.
  { rewrite Hc. unfold is_enabled. split; intros HH s st Hs; specialize (HH s st Hs);
      [by apply bool_decide_eq_true | by apply bool_decide_eq_true in HH]. }
  destruct (Z.eqb_spec (msize (services m)) (mcount is_enabled (services m))),
           (Z.eqb_spec (mcount is_enabled (services m)) 0); simpl;
    (split; [intros HH; try discriminate HH | intros [HH1 HH2]; try done]); try lia.
  - exfalso. apply HH1, H0. lia.
  - split; [|done]. intros HH0. apply H0 in HH0. lia.
Qed.
End prefix_state.

(** ** Reloading the services *)

(** The announce groups are consistent when services with the same host prefix
    have the same group; [Announcer.ReloadServices] checks it. *)
Definition consistent_groups (services : gmap key.Service string) : Prop :=
  forall s1 s2 g1 g2, services !! s1 = Some g1 -> services !! s2 = Some g2 ->
    key.Service_Prefix s1 = key.Service_Prefix s2 -> g1 = g2.

(** The status the routing daemon should know for a prefix in a group. *)
Definition announced (m : Prefixes) (k : PrefixKey) : PrefixStatus :=
  match prefixes m !! pkPrefix k with
  | Some s => if decide (group s = pkGroup k) then status s else Unready
  | None => Unready
  end.

(** The pending events lead from what was last reported to what is announced. *)
Definition synced (reported : PrefixKey -> PrefixStatus) (m : Prefixes) : Prop :=
  delta_inv (events_ m) reported (announced m).

Section reload.
Context `{MR : MapRange}.
Implicit Types (svcs : gmap key.Service string) (m : Prefixes).

Lemma servicesByPrefix_spec svcs :
  let '(ps, pg) := servicesByPrefix svcs in
  (forall p l, ps !! p = Some l ->
     NoDup l /\ forall s, s ∈ l <-> is_Some (svcs !! s) /\ key.Service_Prefix s = p) /\
  (forall p, ps !! p = None -> forall s, is_Some (svcs !! s) -> key.Service_Prefix s <> p) /\
  (forall p g, pg !! p = Some g -> exists s, svcs !! s = Some g /\ key.Service_Prefix s = p) /\
  (forall p, is_Some (ps !! p) -> is_Some (pg !! p)).
Proof.
  unfold servicesByPrefix.
  apply (for_range_ind (fun (done_ : gmap key.Service string)
    '((ps, pg) : gmap Prefix (list key.Service) * gmap Prefix string) =>
    (forall p l, ps !! p = Some l ->
      NoDup l /\ forall s, s ∈ l <-> is_Some (done_ !! s) /\ key.Service_Prefix s = p) /\
    (forall p, ps !! p = None -> forall s, is_Some (done_ !! s) -> key.Service_Prefix s <> p) /\
    (forall p g, pg !! p = Some g -> exists s, done_ !! s = Some g /\ key.Service_Prefix s = p) /\
    (forall p, is_Some (ps !! p) -> is_Some (pg !! p)))).
  { split_and!.
    - intros p l. by rewrite lookup_empty.
    - intros p _ s [g Hs]. by rewrite lookup_empty in Hs.
    - intros p g. by rewrite lookup_empty.
    - intros p [l Hl]. by rewrite lookup_empty in Hl. }
  intros svc g done_ [ps pg] Hnew Hsvc Hsub (Hps & Hnone & Hpg & Hsome).
  set (p0 := key.Service_Prefix svc).
  assert (forall s, is_Some (<[svc:=g]> done_ !! s) <-> svc = s \/ is_Some (done_ !! s)) as Hdone.
  { intros s. apply lookup_insert_is_Some'. }
  split_and!.
  - intros p l. rewrite lookup_insert. case_decide as Hp; [|].
    + intros [= <-]. subst p. destruct (ps !! p0) as [l0|] eqn:Hl0; simpl.
      * destruct (Hps _ _ Hl0) as [Hnd Hl]. split.
        -- apply NoDup_app. split_and!; [done| |apply NoDup_singleton].
           intros s Hs ->%list_elem_of_singleton. apply Hl in Hs as [[? Hs] _]. congruence.
        -- intros s. rewrite elem_of_app, list_elem_of_singleton, Hdone, Hl.
           split; [intros [ ? | -> ]; tauto | intros [[->|] ?]; auto].
      * split; [apply NoDup_singleton|]. intros s. rewrite list_elem_of_singleton, Hdone.
        split; [intros ->; auto|]. intros [[->|Hs] Hp]; [done|]. by destruct (Hnone _ Hl0 s Hs).
    + intros Hl. destruct (Hps _ _ Hl) as [Hnd Hin]. split; [done|]. intros s. rewrite Hin, Hdone.
      split; [tauto|]. by intros [[->|] ?].
  - intros p. rewrite lookup_insert. case_decide as Hp; [done|]. intros Hn s. rewrite Hdone.
    intros [->|]; [done | by apply Hnone].
  - intros p g'. rewrite lookup_insert. case_decide as Hp.
    + intros [= <-]. exists svc. rewrite lookup_insert_eq. done.
    + intros Hg. destruct (Hpg _ _ Hg) as (s & Hs & Hp'). exists s. split; [|done].
      rewrite lookup_insert_ne; [done|]. intros ->. congruence.
  - intros p. rewrite !lookup_insert. case_decide; [done|]. apply Hsome.
Qed.

Lemma ApplyServices_group l s : group (ApplyServices l s) = group s.
Proof. unfold ApplyServices. by destruct (for_each _ _ _). Qed.

Lemma UpdateGroup_id s : UpdateGroup (group s) s = s.
Proof. by destruct s. Qed.

(** What becomes of one prefix. *)
Definition reloaded (ps : gmap Prefix (list key.Service)) (pg : gmap Prefix string)
    (p : Prefix) (old : option prefixState) : option prefixState :=
  match ps !! p, old with
  | None, _ => None
  | Some l, Some s => Some (ApplyServices l (UpdateGroup (default "" (pg !! p)) s))
  | Some l, None => Some (newState (default "" (pg !! p)) l)
  end.

Lemma reloadPrefix_prefixes pg p s m ps :
  prefixes (reloadPrefix pg p s (m, ps)).1 =
    match reloaded ps pg p (Some s) with
    | Some s' => <[p:=s']> (prefixes m)
    | None => delete p (prefixes m)
    end /\
  (reloadPrefix pg p s (m, ps)).2 = delete p ps.
Proof.
  unfold reloadPrefix, reloaded, Group. destruct (ps !! p) as [l|] eqn:Hp; simpl.
  - destruct (decide (default "" (pg !! p) <> group s)) as [Hg|Hg]; [done|].
    apply dec_stable in Hg. by rewrite Hg, UpdateGroup_id.
  - split; [done|]. by rewrite delete_id.
Qed.

Lemma announced_insert m p s evs k :
  announced (MkPrefixes (<[p:=s]> (prefixes m)) evs) k =
  if decide (p = pkPrefix k) then (if decide (group s = pkGroup k) then status s else Unready)
  else announced m k.
Proof. unfold announced. simpl. rewrite lookup_insert. by case_decide. Qed.

Lemma announced_delete m p evs k :
  announced (MkPrefixes (delete p (prefixes m)) evs) k =
  if decide (p = pkPrefix k) then Unready else announced m k.
Proof. unfold announced. simpl. rewrite lookup_delete. by case_decide. Qed.

Lemma announced_at m p s g :
  prefixes m !! p = Some s -> announced m (MkPrefixKey p g) = if decide (group s = g) then status s else Unready.
Proof. intros Hs. unfold announced. simpl. by rewrite Hs. Qed.

(** The events that keep the registry synchronised: a ready prefix moves to
    another group; its status changes; it is removed. *)
Lemma synced_move reported m p s s' :
  synced reported m -> prefixes m !! p = Some s -> group s' <> group s -> status s = Ready -> status s' = Ready ->
  synced reported (MkPrefixes (<[p:=s']> (prefixes m))
    (Store (MkPrefixKey p (group s')) (status s') (Store (MkPrefixKey p (group s)) Unready (events_ m)))).
Proof.
  intros Hsync Hs Hg Hr1 Hr2. pose proof (announced_at m p s) as Han. unfold synced in *.
  eapply delta_inv_ext; [|apply delta_inv_Store; [apply delta_inv_Store; [exact Hsync|]|]].
  - intros k. rewrite announced_insert. unfold fupd.
    destruct k as [p' g']. simpl. destruct (decide (p = p')) as [<-|Hp]; [|by rewrite !decide_False by congruence].
    destruct (decide (group s' = g')) as [<-|]; [rewrite decide_True by done; done|].
    rewrite decide_False by congruence. rewrite Han by done.
    destruct (decide (group s = g')) as [<-|]; [by rewrite decide_True by done|by rewrite decide_False by congruence].
  - simpl. rewrite Han, decide_True by done. by rewrite Hr1.
  - simpl. rewrite Hr2. unfold fupd. rewrite decide_False by congruence. by rewrite Han, decide_False by done.
Qed.

Lemma synced_change reported m p s s' :
  synced reported m -> prefixes m !! p = Some s -> group s' = group s -> status s' <> status s ->
  synced reported (MkPrefixes (<[p:=s']> (prefixes m)) (Store (MkPrefixKey p (group s)) (status s') (events_ m))).
Proof.
  intros Hsync Hs Hg Hne. pose proof (announced_at m p s) as Han. unfold synced in *.
  eapply delta_inv_ext; [|apply delta_inv_Store; [exact Hsync|]].
  - intros k. rewrite announced_insert, Hg. unfold fupd.
    destruct k as [p' g']. simpl. destruct (decide (p = p')) as [<-|Hp]; [|by rewrite decide_False by congruence].
    destruct (decide (group s = g')) as [<-|]; [by rewrite decide_True by done|].
    rewrite decide_False by congruence. by rewrite Han, decide_False by done.
  - simpl. by rewrite Han, decide_True by done.
Qed.

Lemma synced_same reported m p s s' :
  synced reported m -> prefixes m !! p = Some s -> group s' = group s -> status s' = status s ->
  synced reported (MkPrefixes (<[p:=s']> (prefixes m)) (events_ m)).
Proof.
  intros Hsync Hs Hg He. unfold synced in *. eapply delta_inv_ext; [|exact Hsync]. intros k.
  rewrite announced_insert, Hg, He. destruct k as [p' g']. simpl.
  destruct (decide (p = p')) as [<-|Hp]; [|done]. by rewrite (announced_at m p s).
Qed.

Lemma synced_remove reported m p s :
  synced reported m -> prefixes m !! p = Some s ->
  synced reported (MkPrefixes (delete p (prefixes m))
    (if decide (status s = Ready) then Store (MkPrefixKey p (group s)) Unready (events_ m) else events_ m)).
Proof.
  intros Hsync Hs. pose proof (announced_at m p s) as Han. unfold synced in *.
  destruct (decide (status s = Ready)) as [Hr|Hr]; simpl.
  - eapply delta_inv_ext; [|apply delta_inv_Store; [exact Hsync|]].
    + intros k. rewrite announced_delete. unfold fupd. destruct k as [p' g']. simpl.
      destruct (decide (p = p')) as [<-|Hp]; [|by rewrite decide_False by congruence].
      case_decide; [done|]. by rewrite Han, decide_False by congruence.
    + simpl. rewrite Han, decide_True by done. by rewrite Hr.
  - eapply delta_inv_ext; [|exact Hsync]. intros k. rewrite announced_delete.
    destruct k as [p' g']. simpl. destruct (decide (p = p')) as [<-|Hp]; [|done].
    rewrite Han by done. case_decide; [|done]. by destruct (status s).
Qed.

(** The registry stays synchronised when a prefix whose group changes is ready
    before and after; see [group_change_loses_update] for the other case. *)
Lemma reloadPrefix_synced reported pg p s m ps :
  synced reported m -> prefixes m !! p = Some s ->
  (forall s', reloaded ps pg p (Some s) = Some s' -> group s' <> group s ->
     status s = Ready /\ status s' = Ready) ->
  synced reported (reloadPrefix pg p s (m, ps)).1.
Proof.
  intros Hsync Hs Hok. unfold reloadPrefix, Group, Status. unfold reloaded in Hok.
  destruct (ps !! p) as [l|]; simpl; [|by apply synced_remove].
  set (g := default "" (pg !! p)) in *. specialize (Hok _ eq_refl). rewrite ApplyServices_group in Hok. simpl in Hok.
  destruct (decide (g <> group s)) as [Hg|Hg].
  - destruct (Hok Hg) as [Hr1 Hr2]. rewrite decide_True by tauto. simpl.
    pose proof (synced_move reported m p s (ApplyServices l (UpdateGroup g s)) Hsync Hs) as H.
    rewrite ApplyServices_group in H. by apply H.
  - apply dec_stable in Hg. rewrite Hg, UpdateGroup_id in *.
    destruct (decide (status (ApplyServices l s) <> status s \/ group s <> group s)) as [[Hne|]|Heq]; [|done|]; simpl.
    + apply synced_change; try done. apply ApplyServices_group.
    + eapply synced_same; try done; [apply ApplyServices_group|]. apply dec_stable. tauto.
Qed.
End reload.

Section reload_all.
Context `{MR : MapRange}.
Implicit Types (svcs : gmap key.Service string) (m : Prefixes).

(** Every prefix whose group changes is ready before and after. *)
Definition group_change_ready (ps : gmap Prefix (list key.Service)) (pg : gmap Prefix string) m : Prop :=
  forall p s s', prefixes m !! p = Some s -> reloaded ps pg p (Some s) = Some s' ->
    group s' <> group s -> status s = Ready /\ status s' = Ready.

Definition group_change_ok (ps : gmap Prefix (list key.Service)) (pg : gmap Prefix string) m : bool :=
  forallb (fun '(p, s) =>
             match reloaded ps pg p (Some s) with
             | Some s' => bool_decide (group s' = group s) ||
                          (bool_decide (status s = Ready) && bool_decide (status s' = Ready))
             | None => true
             end) (map_to_list (prefixes m)).

Lemma group_change_ok_spec ps pg m :
  group_change_ok ps pg m = true -> group_change_ready ps pg m.
Proof.
  unfold group_change_ok. rewrite forallb_forall. intros Hall p s s' Hs Hs' Hg.
  apply elem_of_map_to_list, list_elem_of_In, Hall in Hs. rewrite Hs' in Hs.
  rewrite orb_true_iff, andb_true_iff, !bool_decide_eq_true in Hs. tauto.
Qed.

(** The second loop of [ReloadServices]: existing prefixes. *)
Lemma reload_existing ps pg m :
  let '(m1, ps1) := for_range (prefixes m) (reloadPrefix pg) (m, ps) in
  (forall p, prefixes m1 !! p = prefixes m !! p ≫= fun s => reloaded ps pg p (Some s)) /\
  (forall p, ps1 !! p = if decide (is_Some (prefixes m !! p)) then None else ps !! p) /\
  (forall reported, synced reported m -> group_change_ready ps pg m -> synced reported m1).
Proof.
  pose proof (for_range_ind (fun (done_ : gmap Prefix prefixState)
    '((m1, ps1) : Prefixes * gmap Prefix (list key.Service)) =>
    (forall p, prefixes m1 !! p = match done_ !! p with
                                 | Some s => reloaded ps pg p (Some s)
                                 | None => prefixes m !! p end) /\
    (forall p, ps1 !! p = if decide (is_Some (done_ !! p)) then None else ps !! p) /\
    (forall reported, synced reported m -> group_change_ready ps pg m -> synced reported m1))
    (prefixes m) (reloadPrefix pg) (m, ps)) as HI.
  destruct (for_range (prefixes m) (reloadPrefix pg) (m, ps)) as [m1 ps1].
  destruct HI as (Hp & Hps & Hsync).
  - split_and!; [intros p; by rewrite lookup_empty | | done].
    intros p. rewrite decide_False; [done|]. rewrite lookup_empty. by intros [].
  - intros p s done_ [m1' ps1'] Hd Hs Hsub (Hp & Hps & Hsync).
    pose proof (reloadPrefix_prefixes pg p s m1' ps1') as [Hpre Hps'].
    assert (ps1' !! p = ps !! p) as Hpp.
    { rewrite Hps, decide_False; [done|]. rewrite Hd. by intros []. }
    assert (reloaded ps1' pg p (Some s) = reloaded ps pg p (Some s)) as Hrel
      by (unfold reloaded; by rewrite Hpp).
    pose proof (fun reported => reloadPrefix_synced reported pg p s m1' ps1') as Hstep.
    destruct (reloadPrefix pg p s (m1', ps1')) as [m2 ps2]. cbn [fst snd] in *.
    split_and!.
    + intros q. rewrite Hpre, Hrel, lookup_insert.
      destruct (decide (p = q)) as [<-|Hne]; [|rewrite <- Hp];
        destruct (reloaded ps pg p (Some s)); by simplify_map_eq.
    + intros q. rewrite Hps', lookup_delete, Hps.
      destruct (decide (p = q)) as [<-|Hne].
      * rewrite decide_True; [done|]. rewrite lookup_insert_eq. eauto.
      * apply decide_ext. by rewrite lookup_insert_ne.
    + intros reported Hsy Hok.
      apply Hstep; [by apply Hsync | by rewrite Hp, Hd |].
      rewrite Hrel. intros s' Hs'. by apply (Hok p s s').
  - split_and!; [|done|done]. intros p. rewrite Hp. by destruct (prefixes m !! p).
Qed.

(** A prefix that did not exist enters unready: nothing to report. *)
Lemma announced_fresh m p g l evs k :
  prefixes m !! p = None ->
  announced (MkPrefixes (<[p:=newState g l]> (prefixes m)) evs) k = announced m k.
Proof.
  intros Hp. rewrite announced_insert. case_decide as Hk; [|done].
  unfold announced. rewrite <- Hk, Hp. case_decide; [|done].
  unfold status, newState. simpl. by destruct (_ =? 0).
Qed.

(** The third loop: new prefixes. *)
Lemma reload_new (pg : gmap Prefix string) ps m :
  (forall p, is_Some (ps !! p) -> prefixes m !! p = None) ->
  let m' := for_range ps
    (fun prefix services m =>
       MkPrefixes (<[prefix := newState (default "" (pg !! prefix)) services]> (prefixes m)) (events_ m)) m in
  (forall p, prefixes m' !! p = match ps !! p with
                                | Some l => Some (newState (default "" (pg !! p)) l)
                                | None => prefixes m !! p end) /\
  (forall reported, synced reported m -> synced reported m').
Proof.
  intros Hfresh. set (body := fun prefix services m => _). cbv zeta.
  apply (for_range_ind (fun (done_ : gmap Prefix (list key.Service)) (m2 : Prefixes) =>
    (forall p, prefixes m2 !! p = match done_ !! p with
                                  | Some l => Some (newState (default "" (pg !! p)) l)
                                  | None => prefixes m !! p end) /\
    (forall reported, synced reported m -> synced reported m2)) ps body m).
  - split; [intros p; by rewrite lookup_empty|done].
  - intros p l done_ m2 Hd Hl Hsub (Hp2 & Hsync2). split.
    + intros q. unfold body. simpl. rewrite !lookup_insert. case_decide as Hq; [by subst|apply Hp2].
    + intros reported Hsy. eapply delta_inv_ext; [|by apply Hsync2].
      intros k. symmetry. apply announced_fresh. rewrite Hp2, Hd. apply Hfresh. eauto.
Qed.

(** What becomes of every prefix, and when the registry stays synchronised. *)
Lemma ReloadServices_loops svcs m :
  let '(ps, pg) := servicesByPrefix svcs in
  let m' := Prefixes_ReloadServices svcs m in
  (forall p, prefixes m' !! p = reloaded ps pg p (prefixes m !! p)) /\
  (forall reported, synced reported m -> group_change_ready ps pg m -> synced reported m').
Proof.
  unfold Prefixes_ReloadServices. destruct (servicesByPrefix svcs) as [ps pg].
  pose proof (reload_existing ps pg m) as Hloop2.
  destruct (for_range (prefixes m) (reloadPrefix pg) (m, ps)) as [m1 ps1].
  destruct Hloop2 as (Hp & Hps & Hsync).
  destruct (reload_new pg ps1 m1) as (Hp2 & Hsync2).
  { intros p [l Hl]. rewrite Hp. rewrite Hps in Hl. case_decide as Hsome; [done|].
    destruct (prefixes m !! p); [|done]. destruct Hsome; eauto. }
  cbv zeta. split; [|by eauto]. intros p. rewrite Hp2, Hps, Hp.
  case_decide as Hsome; [by destruct Hsome as [s ->]|].
  destruct (prefixes m !! p) as [s|]; [destruct Hsome; eauto|].
  unfold reloaded. by destruct (ps !! p).
Qed.

Lemma NoDup_len_le svcs l :
  NoDup l -> (forall s, s ∈ l -> is_Some (svcs !! s)) -> len l <= msize svcs.
Proof.
  intros Hnd Hin. unfold len, msize. apply inj_le. rewrite <- length_map_to_list.
  rewrite <- (length_fmap fst). apply submseteq_length, NoDup_submseteq; [done|].
  intros s Hs. destruct (Hin s Hs) as [g Hg]. apply list_elem_of_fmap. exists (s, g).
  split; [done|]. by apply elem_of_map_to_list.
Qed.
End reload_all.

(** ** Runs of the component *)

Inductive prefix_op :=
| OpReload (services : gmap key.Service string)
| OpUpdate (service : key.Service) (st : ServiceStatus)
| OpEvents.

Section runs.
Context `{MR : MapRange}.
Implicit Types (svcs : gmap key.Service string) (m : Prefixes).

Definition do_op (o : prefix_op) (m : Prefixes) : Prefixes :=
  match o with
  | OpReload svcs => Prefixes_ReloadServices svcs m
  | OpUpdate s st => (Prefixes_UpdateService s st m).2
  | OpEvents => (Prefixes_Events m).2
  end.

Definition do_ops (l : list prefix_op) (m : Prefixes) : Prefixes := for_each do_op l m.

(** No map of services has [2^63] entries. *)
Definition op_fits (o : prefix_op) : Prop :=
  match o with OpReload svcs => msize svcs < two63 | _ => True end.

(** Every prefix state is well formed and holds at least one service. *)
Definition wf_prefixes (m : Prefixes) : Prop :=
  forall p s, prefixes m !! p = Some s -> wf_state s /\ services s <> ∅.

Lemma lookup_nonempty {A} (s : gmap key.Service A) k v : s !! k = Some v -> s <> ∅.
Proof. intros Hk ->. by rewrite lookup_empty in Hk. Qed.

Lemma ReloadServices_spec svcs m p :
  msize svcs < two63 ->
  match prefixes (Prefixes_ReloadServices svcs m) !! p with
  | None => forall s, is_Some (svcs !! s) -> key.Service_Prefix s <> p
  | Some st =>
      wf_state st /\ (exists s, svcs !! s = Some (group st) /\ key.Service_Prefix s = p) /\
      forall s, services st !! s =
        if decide (is_Some (svcs !! s) /\ key.Service_Prefix s = p)
        then Some (match prefixes m !! p with
                   | Some old => keep_status (services old) s
                   | None => ServiceDisabled
                   end)
        else None
  end.
Proof.
  intros Hsz. pose proof (servicesByPrefix_spec svcs) as Hspec.
  pose proof (ReloadServices_loops svcs m) as Hloops.
  destruct (servicesByPrefix svcs) as [ps pg]. destruct Hspec as (Hps & Hnone & Hpg & Hsome).
  destruct Hloops as [-> _]. unfold reloaded.
  destruct (ps !! p) as [l|] eqn:Hl; [|by apply Hnone].
  destruct (Hps _ _ Hl) as [Hnd Hin].
  assert (len l < two63) as Hlen.
  { eapply Z.le_lt_trans; [|done]. apply NoDup_len_le; [done|]. intros s Hs. by apply Hin. }
  destruct (Hsome p ltac:(eauto)) as [g Hg]. destruct (Hpg _ _ Hg) as (s0 & Hs0 & Hp0).
  rewrite Hg. simpl. destruct (prefixes m !! p) as [old|].
  - destruct (ApplyServices_spec l (UpdateGroup g old) Hnd Hlen) as (Hwf & Hgr & Hsv).
    split_and!; [done | exists s0; by rewrite Hgr |].
    intros s. rewrite Hsv. apply decide_ext, Hin.
  - split_and!; [by apply newState_wf | by exists s0 |].
    intros s. rewrite newState_services. apply decide_ext, Hin.
Qed.

Lemma do_op_wf o m : op_fits o -> wf_prefixes m -> wf_prefixes (do_op o m).
Proof.
  intros Hfit Hwf p s. destruct o as [svcs|svc st|]; simpl in *.
  - intros Hp. pose proof (ReloadServices_spec svcs m p Hfit) as Hspec. rewrite Hp in Hspec.
    destruct Hspec as (Hs & (s0 & Hs0 & Hp0) & Hsv). split; [done|].
    eapply lookup_nonempty. rewrite (Hsv s0), decide_True by eauto. done.
  - unfold Prefixes_UpdateService.
    destruct (prefixes m !! key.Service_Prefix svc) as [s0|] eqn:Hs0; [|apply Hwf].
    destruct (Hwf _ _ Hs0) as [Hw0 Hne]. pose proof (UpdateService_wf svc st s0 Hw0) as Hw1.
    assert (services (prefixState_UpdateService svc st s0).2 <> ∅) as Hne1.
    { unfold prefixState_UpdateService. destruct (services s0 !! svc) eqn:Hsv; [|done].
      case_decide; [done|]. simpl. apply insert_non_empty. }
    destruct (prefixState_UpdateService svc st s0) as [ns s1]. simpl in *.
    rewrite lookup_insert. case_decide; [intros [= <-]; done | apply Hwf].
  - apply Hwf.
Qed.

Lemma do_ops_wf l m : Forall op_fits l -> wf_prefixes m -> wf_prefixes (do_ops l m).
Proof.
  unfold do_ops, for_each. revert m. induction l as [|o l IH]; intros m Hl Hm; [done|].
  apply Forall_cons in Hl as [Ho Hl]. simpl. apply IH; [done|]. by apply do_op_wf.
Qed.

Lemma wf_NewPrefixes : wf_prefixes NewPrefixes.
Proof. intros p s. unfold NewPrefixes. simpl. by rewrite lookup_empty. Qed.

(** C13: after any sequence of reloads, service updates and event retrievals, a
    prefix is ready exactly when every service that holds it is enabled, and
    a prefix that exists is held by at least one service. *)
Theorem prefix_ready_iff_all_enabled (l : list prefix_op) (p : Prefix) (s : prefixState) :
  Forall op_fits l -> prefixes (do_ops l NewPrefixes) !! p = Some s ->
  services s <> ∅ /\
  (Status s = Ready <-> forall svc st, services s !! svc = Some st -> st = ServiceEnabled).
Proof.
  intros Hl Hp. destruct (do_ops_wf l _ Hl wf_NewPrefixes p s Hp) as [Hwf Hne].
  split; [done|]. unfold Status. rewrite status_Ready by done. tauto.
Qed.

(** After [ReloadServices] a prefix exists exactly when some configured
    service has it as its host prefix; it then holds exactly those services,
    its announce group is the group of one of them, services it held before
    keep their status, and the others are disabled. *)
Theorem ReloadServices_functional (svcs : gmap key.Service string) (m : Prefixes) (p : Prefix) :
  msize svcs < two63 ->
  match prefixes (Prefixes_ReloadServices svcs m) !! p with
  | None => forall s, is_Some (svcs !! s) -> key.Service_Prefix s <> p
  | Some st =>
      (exists s, svcs !! s = Some (group st) /\ key.Service_Prefix s = p) /\
      forall s, services st !! s =
        if decide (is_Some (svcs !! s) /\ key.Service_Prefix s = p)
        then Some (match prefixes m !! p with
                   | Some old => keep_status (services old) s
                   | None => ServiceDisabled
                   end)
        else None
  end.
Proof.
  intros Hsz. pose proof (ReloadServices_spec svcs m p Hsz) as H.
  destruct (prefixes _ !! p); [|done]. by destruct H as (_ & ? & ?).
Qed.

(** [UpdateService] fails, changing nothing, exactly when the service's
    host prefix is unknown; otherwise it sets the status of that service, if
    the prefix holds it, and touches no other service and no other prefix. *)
Theorem UpdateService_functional (svc : key.Service) (st : ServiceStatus) (m : Prefixes) :
  let p := key.Service_Prefix svc in
  match prefixes m !! p with
  | None => Prefixes_UpdateService svc st m = (Some (ErrPrefixNotFound svc), m)
  | Some s =>
      (Prefixes_UpdateService svc st m).1 = None /\
      forall q, prefixes (Prefixes_UpdateService svc st m).2 !! q =
        if decide (p = q)
        then Some (MkPrefixState (group s)
               (if decide (is_Some (services s !! svc)) then <[svc:=st]> (services s) else services s)
               (active (prefixState_UpdateService svc st s).2) (quorum s))
        else prefixes m !! q
  end.
Proof.
  cbv zeta. unfold Prefixes_UpdateService.
  destruct (prefixes m !! key.Service_Prefix svc) as [s|] eqn:Hs; [|done].
  assert ((prefixState_UpdateService svc st s).2 =
          MkPrefixState (group s)
            (if decide (is_Some (services s !! svc)) then <[svc:=st]> (services s) else services s)
            (active (prefixState_UpdateService svc st s).2) (quorum s)) as He.
  { unfold prefixState_UpdateService. destruct (services s !! svc) as [cur|] eqn:Hc.
    - rewrite (decide_True (P:=is_Some _)) by eauto. destruct (decide (cur = st)) as [->|]; simpl; [|done].
      rewrite insert_id by done. by destruct s.
    - rewrite decide_False by (by intros []). by destruct s. }
  destruct (prefixState_UpdateService svc st s) as [ns s1]. cbn [snd fst prefixes] in *. split; [done|].
  intros q. rewrite lookup_insert.
  destruct (decide (key.Service_Prefix svc = q)); [|done]. f_equal. exact He.
Qed.

(** Every update keeps the registry synchronised. *)
Lemma UpdateService_synced reported svc st m :
  synced reported m -> synced reported (Prefixes_UpdateService svc st m).2.
Proof.
  intros Hsync. unfold Prefixes_UpdateService.
  set (p := key.Service_Prefix svc). destruct (prefixes m !! p) as [s|] eqn:Hs; [|done].
  pose proof (UpdateService_result svc st s) as [Hr Hg].
  destruct (prefixState_UpdateService svc st s) as [ns s1]. cbn [fst snd] in *. subst ns.
  assert (forall k, announced (MkPrefixes (<[p:=s1]> (prefixes m)) (events_ m)) k =
            fupd (announced m) (MkPrefixKey p (group s1)) (status s1) k) as Han.
  { intros [p' g']. rewrite announced_insert. unfold fupd. simpl.
    destruct (decide (p = p')) as [<-|]; [|by rewrite decide_False by congruence].
    destruct (decide (group s1 = g')) as [<-|]; [by rewrite decide_True|].
    rewrite decide_False by congruence. unfold announced. simpl. rewrite Hs, decide_False by congruence.
    done. }
  assert (announced m (MkPrefixKey p (group s1)) = status s) as Hold.
  { unfold announced. simpl. by rewrite Hs, decide_True. }
  unfold Status, Group. case_decide as Hne; unfold synced in *; simpl.
  - eapply delta_inv_ext; [|apply delta_inv_Store; [exact Hsync|]].
    + intros k. symmetry. exact (Han k).
    + simpl. by rewrite Hold.
  - eapply delta_inv_ext; [|exact Hsync].
    intros k. symmetry. etrans; [exact (Han k)|]. unfold fupd.
    case_decide as Hk; [|done]. by rewrite <- Hk, Hold.
Qed.

(** What the routing daemon has been told, along a run: every retrieval of
    the events delivers them. *)
Definition do_reported (o : prefix_op) (st : Prefixes * (PrefixKey -> PrefixStatus)) :
    Prefixes * (PrefixKey -> PrefixStatus) :=
  (do_op o st.1, match o with
                 | OpEvents => deliver (Prefixes_Events st.1).1 st.2
                 | _ => st.2
                 end).

(** Along the run, a prefix whose announce group changes is ready before and
    after the reload. *)
Fixpoint group_changes_ready (l : list prefix_op) (m : Prefixes) : bool :=
  match l with
  | [] => true
  | o :: l =>
      match o with
      | OpReload svcs =>
          let '(ps, pg) := servicesByPrefix svcs in group_change_ok ps pg m
      | _ => true
      end && group_changes_ready l (do_op o m)
  end.

Lemma run_synced l m reported :
  synced reported m -> group_changes_ready l m = true ->
  let '(m', reported') := for_each do_reported l (m, reported) in synced reported' m'.
Proof.
  unfold for_each. revert m reported. induction l as [|o l IH]; intros m reported Hsync; simpl; [done|].
  intros [Ho Hl]%andb_true_iff. apply IH; [|done]. destruct o as [svcs|svc st|]; simpl.
  - pose proof (ReloadServices_loops svcs m) as Hloops.
    destruct (servicesByPrefix svcs) as [ps pg]. by apply Hloops, group_change_ok_spec.
  - by apply UpdateService_synced.
  - by apply delta_inv_Flush.
Qed.

(** No status change is lost between the checks and the routing daemon.
    After any sequence of reloads, service updates and event retrievals in
    which the announce group of a prefix only changes while it is ready,
    one more retrieval tells the daemon exactly the current status of every
    prefix in its group, and "unready" for every other pair. *)
Theorem prefix_events_lossless (l : list prefix_op) (k : PrefixKey) :
  group_changes_ready l NewPrefixes = true ->
  let '(m, reported) := for_each do_reported l (NewPrefixes, fun _ => Unready) in
  deliver (Prefixes_Events m).1 reported k = announced m k.
Proof.
  intros Hl. pose proof (run_synced l NewPrefixes (fun _ => Unready)) as Hr.
  destruct (for_each do_reported l (NewPrefixes, fun _ => Unready)) as [m reported].
  apply delta_inv_Flush, Hr; [|done].
  eapply delta_inv_ext; [|apply delta_inv_new]. intros k'. unfold announced, NewPrefixes. simpl.
  by rewrite lookup_empty.
Qed.
End runs.

(** ** Concrete runs *)

Section concrete_runs.
(** Two services on one host and one on another, in the group "a" or "b". *)
Definition host1 : Addr := AddrV4 (2 ^ 24 * 10 + 1).
Definition host2 : Addr := AddrV4 (2 ^ 24 * 10 + 2).
Definition http1 : key.Service := key.MkService host1 80 "tcp".
Definition dns1 : key.Service := key.MkService host1 53 "udp".
Definition http2 : key.Service := key.MkService host2 80 "tcp".
Definition services_in (g : string) : gmap key.Service string :=
  <[http1 := g]> (<[dns1 := g]> (<[http2 := g]> ∅)).
Definition key1 (g : string) : PrefixKey := MkPrefixKey (key.Service_Prefix http1) g.

(** The three prefixes come up in group "a"; [dns1] fails and recovers. *)
Definition run_a : list prefix_op :=
  [OpReload (services_in "a"); OpUpdate http1 ServiceEnabled; OpUpdate dns1 ServiceEnabled;
   OpUpdate http2 ServiceEnabled; OpEvents; OpUpdate dns1 ServiceDisabled].

Lemma prefix_ready_iff_all_enabled_witness :
  exists s, prefixes (do_ops run_a NewPrefixes) !! key.Service_Prefix http2 = Some s /\
    (services s <> ∅ /\
     (Status s = Ready <-> forall svc st, services s !! svc = Some st -> st = ServiceEnabled)).
Proof.
  eexists. split; [vm_compute; reflexivity|].
  apply (prefix_ready_iff_all_enabled run_a (key.Service_Prefix http2));
    [repeat constructor | vm_compute; reflexivity].
Defined.

Lemma ReloadServices_functional_witness :
  exists st, prefixes (Prefixes_ReloadServices (services_in "a") NewPrefixes) !! key.Service_Prefix dns1 = Some st /\
    services st !! http1 = Some ServiceDisabled.
Proof.
  assert (msize (services_in "a") < two63) as Hsz by (vm_compute; reflexivity).
  pose proof (ReloadServices_functional (services_in "a") NewPrefixes (key.Service_Prefix dns1) Hsz) as HF.
  destruct (prefixes (Prefixes_ReloadServices (services_in "a") NewPrefixes) !! key.Service_Prefix dns1) as [st|].
  - exists st. split; [done|]. destruct HF as [_ HF]. rewrite HF. vm_compute. reflexivity.
  - exfalso. apply (HF dns1); [vm_compute; eauto | reflexivity].
Defined.

(** A second reload moves the ready prefix of [http2] to group "b" and leaves
    that of [http1] alone. *)
Definition run_b : list prefix_op :=
  run_a ++ [OpReload (<[http2 := "b"%string]> (services_in "a")); OpUpdate dns1 ServiceEnabled].

Lemma prefix_events_lossless_witness :
  group_changes_ready run_b NewPrefixes = true /\
  announced (do_ops run_b NewPrefixes) (MkPrefixKey (key.Service_Prefix http2) "b") = Ready /\
  let '(m, reported) := for_each do_reported run_b (NewPrefixes, fun _ => Unready) in
  deliver (Prefixes_Events m).1 reported (MkPrefixKey (key.Service_Prefix http2) "b") =
  announced m (MkPrefixKey (key.Service_Prefix http2) "b").
Proof.
  assert (group_changes_ready run_b NewPrefixes = true) as Hb by (vm_compute; reflexivity).
  split; [exact Hb|]. split; [vm_compute; reflexivity|]. exact (prefix_events_lossless run_b _ Hb).
Defined.

(** The restriction is needed.  A prefix whose group changes while it is
    not ready gets a pending "unready" for its new group; the first "ready"
    is taken for its cancellation, and the daemon is never told: the prefix is
    ready, nothing is pending for it, and nothing was reported. *)
Theorem group_change_loses_update :
  let '(m, reported) :=
    for_each do_reported
      [OpReload (services_in "a"); OpEvents; OpReload (services_in "b");
       OpUpdate http1 ServiceEnabled; OpUpdate dns1 ServiceEnabled; OpEvents]
      (NewPrefixes, fun _ => Unready) in
  announced m (key1 "b") = Ready /\ events (events_ m) !! key1 "b" = None /\
  reported (key1 "b") = Unready.
Proof. vm_compute. repeat split. Qed.

(** The registry of prefix statuses, with a status set twice and reset. *)
Lemma registry_coalescing_lossless_witness :
  let l := [(key1 "a", Ready); (key1 "b", Ready); (key1 "a", Unready); (key1 "a", Ready);
            (key1 "b", Unready)] in
  deliver (Flush (stores l NewRegistry)).1 (fun _ => Unready) (key1 "a") = Ready.
Proof.
  intros l.
  rewrite (registry_coalescing_lossless (R:=(=)) l (fun _ => Unready)); [reflexivity|].
  repeat split; discriminate.
Defined.

Lemma Process_counts_removed_witness :
  let r := MkRegistry (<[key1 "a" := Ready]> (<[key1 "b" := Unready]> ∅)) in
  let '(r', _, processed) :=
    Process (fun k v (w : list PrefixKey) =>
               (if decide (v = Ready) then Some tt else None, k :: w)) r [] in
  events r' ⊆ events r /\ processed = 1.
Proof.
  intros r. assert (msize (events r) < two63) as Hr by (vm_compute; reflexivity).
  pose proof (Process_counts_removed (fun k v (w : list PrefixKey) =>
                (if decide (v = Ready) then Some tt else None, k :: w)) r [] Hr) as HP.
  destruct (Process _ r []) as [[r' w'] n] eqn:E. destruct HP as [HP1 HP2].
  split; [exact HP1|]. apply (f_equal snd) in E. vm_compute in E. congruence.
Defined.
End concrete_runs.
