(* ===== verification/Announcer.v ===== *)
(** * The announcer

    [internal/announcer/announcer.go]: the announce groups, the service events
    kept for the balancer, and the workers that report prefix statuses to the
    external announcer through its [Client]. *)

From stdpp Require Import strings numbers gmap sets list.
From S2P Require Import Prelude.
From S2P Require Import Types.
From S2P Require Import Registry.
From S2P Require Import Prefixes.

Open Scope Z_scope.
Open Scope go_scope.

(** ** The client interface

    [W] is the state of the external announcer and of the connection to it. *)
Class Client (W E : Type) := {
  RaiseAnnounce : string -> Prefix -> W -> option E * W;
  RemoveAnnounce : string -> Prefix -> W -> option E * W;
  ProcessBatch : string -> gmap Prefix PrefixStatus -> W -> option E * W;
  ClientShutdown : W -> W;
}.

(** What the announcer relies on: a batch that is accepted sets the status of
    its prefixes in its group; one that is refused and the shutdown of the
    connection leave what the daemon was told unchanged. *)
Definition batch_view (g : string) (b : gmap Prefix PrefixStatus) (v : PrefixKey -> PrefixStatus) :
    PrefixKey -> PrefixStatus :=
  fun k => if decide (pkGroup k = g) then default (v k) (b !! pkPrefix k) else v k.

Class ClientLaws (W E : Type) {C : Client W E} := {
  view : W -> PrefixKey -> PrefixStatus;
  ProcessBatch_ok g b w w' k :
    ProcessBatch g b w = (None, w') -> view w' k = batch_view g b (view w) k;
  ProcessBatch_refused g b w w' e k :
    ProcessBatch g b w = (Some e, w') -> view w' k = view w k;
  ClientShutdown_view w k : view (ClientShutdown w) k = view w k;
}.

(** ** AnnounceGroupRegistry *)

Record AnnounceGroupRegistry := MkAnnounceGroupRegistry {
  groups : gset string;
  groupByPrefix : gmap Prefix string;
  prefixesByGroup : gmap string (list Prefix);
}.

Definition NewAnnounceGroupRegistry (groups : list string) : AnnounceGroupRegistry :=
  let groupSet := for_each (fun group groupSet => {[group]} ∪ groupSet) groups ∅ in
  MkAnnounceGroupRegistry groupSet ∅ ∅.

Definition GetGroup (prefix : Prefix) (m : AnnounceGroupRegistry) : option string :=
  groupByPrefix m !! prefix.

Definition ContainsGroup (group : string) (m : AnnounceGroupRegistry) : bool :=
  bool_decide (group ∈ groups m).

(** A missing key reads as the nil slice. *)
Definition GetPrefixes (group : string) (m : AnnounceGroupRegistry) : list Prefix :=
  default [] (prefixesByGroup m !! group).

Section group_registry.
Context `{MR : MapRange}.

Definition invert_groups (groupByPrefix : gmap Prefix string) : gmap string (list Prefix) :=
  for_range groupByPrefix
    (fun prefix group prefixesByGroup =>
       <[group := default [] (prefixesByGroup !! group) ++ [prefix]]> prefixesByGroup)
    ∅.

Definition AnnounceGroupRegistry_Update (groupByPrefix : gmap Prefix string)
    (m : AnnounceGroupRegistry) : AnnounceGroupRegistry :=
  MkAnnounceGroupRegistry (groups m) groupByPrefix (invert_groups groupByPrefix).

Lemma ContainsGroup_New group l :
  ContainsGroup group (NewAnnounceGroupRegistry l) = bool_decide (group ∈ l).
Proof.
  unfold ContainsGroup. apply bool_decide_ext. unfold NewAnnounceGroupRegistry. simpl.
  loop (fun (visited : list string) (set_ : gset string) => group ∈ set_ <-> group ∈ visited).
  - set_solver.
  - intros visited x rest s _ IH. set_solver.
Qed.

(** A group's list holds, once each, the prefixes that map to it. *)
Lemma invert_groups_spec gbp g :
  let l := default [] (invert_groups gbp !! g) in
  NoDup l /\ forall p, p ∈ l <-> gbp !! p = Some g.
Proof.
  unfold invert_groups.
  apply (for_range_ind (fun (done_ : gmap Prefix string) (pbg : gmap string (list Prefix)) =>
           let l := default [] (pbg !! g) in NoDup l /\ forall p, p ∈ l <-> done_ !! p = Some g)).
  { simpl. split; [constructor|]. intros p. split; [by intros ?%not_elem_of_nil|].
    by rewrite lookup_empty. }
  intros prefix group done_ pbg Hnew Hlk Hsub [Hnd Hin]. simpl in *. rewrite lookup_insert.
  case_decide as Hg; [subst group; simpl; split|].
  - apply NoDup_app. split_and!; [done| |apply NoDup_singleton].
    intros p Hp ->%list_elem_of_singleton. apply Hin in Hp. congruence.
  - intros p. rewrite elem_of_app, list_elem_of_singleton, Hin, lookup_insert.
    destruct (decide (prefix = p)) as [<-|Hne]; [rewrite Hnew; naive_solver|].
    split; [intros [?|?]; congruence | by left].
  - split; [done|]. intros p. rewrite Hin, lookup_insert.
    destruct (decide (prefix = p)) as [<-|]; [|done]. rewrite Hnew. split; congruence.
Qed.
End group_registry.

(** ** The announcer *)

Record Config := MkConfig { UpdatePeriod : Z; AnnounceGroup : list string }.

(** [Default]: 50 ms and one group. *)
Definition Config_Default : Config := MkConfig (50 * 10 ^ 6) ["default"%string].

Record Announcer := MkAnnouncer {
  config : Config;
  aprefixes : Prefixes;
  announceGroups : AnnounceGroupRegistry;
  serviceEventRegistry : Registry key.Service ServiceStatus;
  ashutdown : bool;   (* the shutdown signal was given *)
}.

Definition New (config : Config) : Announcer :=
  MkAnnouncer config NewPrefixes (NewAnnounceGroupRegistry (AnnounceGroup config)) NewRegistry false.

Inductive announcerError :=
| ErrNoGroup (prefix : Prefix)          (* "failed to determine announce group for the prefix" *)
| ErrPrefixes (err : prefixError)
| ErrUnknownGroup (group : string)
| ErrDuplicatePrefix (prefix : Prefix). (* "duplicate announce group prefix" *)

Definition RegisterServiceEvent (service : key.Service) (st : ServiceStatus) (m : Announcer) : Announcer :=
  MkAnnouncer (config m) (aprefixes m) (announceGroups m)
    (Store service st (serviceEventRegistry m)) (ashutdown m).

Definition FlushServiceEvents (m : Announcer) : gmap key.Service ServiceStatus * Announcer :=
  let '(evs, r) := Flush (serviceEventRegistry m) in
  (evs, MkAnnouncer (config m) (aprefixes m) (announceGroups m) r (ashutdown m)).

Definition set_prefixes (p : Prefixes) (m : Announcer) : Announcer :=
  MkAnnouncer (config m) p (announceGroups m) (serviceEventRegistry m) (ashutdown m).

Definition UpdateService (service : key.Service) (st : ServiceStatus) (m : Announcer) :
    option announcerError * Announcer :=
  match GetGroup (key.Service_Prefix service) (announceGroups m) with
  | None => (Some (ErrNoGroup (key.Service_Prefix service)), m)
  | Some _ =>
      let '(err, p) := Prefixes_UpdateService service st (aprefixes m) in
      (ErrPrefixes <$> err, set_prefixes p m)
  end.

Section announcer.
Context `{MR : MapRange}.

(** The validating loop of [ReloadServices]. *)
Definition group_by_prefix (services : gmap key.Service string) (r : AnnounceGroupRegistry) :
    res announcerError (gmap Prefix string) :=
  for_range_err services
    (fun service group groupByPrefix =>
       if negb (ContainsGroup group r) then Err (ErrUnknownGroup group) else
       let prefix := key.Service_Prefix service in
       match groupByPrefix !! prefix with
       | Some knownGroup =>
           if decide (knownGroup <> group) then Err (ErrDuplicatePrefix prefix)
           else Ok (<[prefix:=group]> groupByPrefix)
       | None => Ok (<[prefix:=group]> groupByPrefix)
       end)
    ∅.

Definition ReloadServices (services : gmap key.Service string) (m : Announcer) :
    option announcerError * Announcer :=
  match group_by_prefix services (announceGroups m) with
  | Err e => (Some e, m)
  | Ok groupByPrefix =>
      (None, MkAnnouncer (config m) (Prefixes_ReloadServices services (aprefixes m))
               (AnnounceGroupRegistry_Update groupByPrefix (announceGroups m))
               (serviceEventRegistry m) (ashutdown m))
  end.

(** The grouping loop of [updater]. *)
Definition groupEvents (events : gmap PrefixKey PrefixStatus) : gmap string (gmap Prefix PrefixStatus) :=
  for_range events
    (fun prefixKey st eventsByGroup =>
       let prefix := pkPrefix prefixKey in
       let group := pkGroup prefixKey in
       let eventsByGroup :=
         match eventsByGroup !! group with
         | None => <[group := ∅]> eventsByGroup
         | Some _ => eventsByGroup
         end in
       <[group := <[prefix := st]> (default ∅ (eventsByGroup !! group))]> eventsByGroup)
    ∅.

Section with_client.
Context {W E : Type} `{C : Client W E}.

(** Errors of the client are logged: the log is the list of them. *)
Definition log_error (g : string) (r : option E * W) (l : list (string * E)) : W * list (string * E) :=
  match r with
  | (None, w) => (w, l)
  | (Some e, w) => (w, l ++ [(g, e)])
  end.

Definition sendBatches (eventsByGroup : gmap string (gmap Prefix PrefixStatus)) (w : W) :
    W * list (string * E) :=
  for_range eventsByGroup
    (fun group events '(w, l) => log_error group (ProcessBatch group events w) l)
    (w, []).

(** One tick of [updater], when the shutdown signal was not given. *)
Definition updater_tick (m : Announcer) (w : W) : Announcer * W * list (string * E) :=
  let '(events, p) := Prefixes_Events (aprefixes m) in
  let m := set_prefixes p m in
  if bool_decide (size events = 0%nat) then (m, w, [])
  else let '(w, l) := sendBatches (groupEvents events) w in (m, w, l).

(** A state request of a group: what [stateRequestHandler] reads, and the
    batch it then sends; other workers may run in between. *)
Definition state_request_read (group : string) (m : Announcer) : gmap Prefix PrefixStatus :=
  StatusFor (GetPrefixes group (announceGroups m)) (aprefixes m).

Definition state_request_send (group : string) (st : gmap Prefix PrefixStatus) (w : W) :
    W * list (string * E) :=
  log_error group (ProcessBatch group st w) [].

Definition removeAll (m : Announcer) (w : W) : W * list (string * E) :=
  for_each
    (fun group '(w, l) =>
       let prefixes := GetPrefixes group (announceGroups m) in
       if (length prefixes =? 0)%nat then (w, l) else
       let prefixesStatus := for_each (fun prefix st => <[prefix := Unready]> st) prefixes ∅ in
       log_error group (ProcessBatch group prefixesStatus w) l)
    (AnnounceGroup (config m)) (w, []).

Definition Stop (m : Announcer) (w : W) : Announcer * W * list (string * E) :=
  let m := MkAnnouncer (config m) (aprefixes m) (announceGroups m) (serviceEventRegistry m) true in
  let '(w, l) := removeAll m w in
  (m, ClientShutdown w, l).
End with_client.
End announcer.

(** ** Facts about the loops *)

Section loops.
Context `{MR : MapRange}.

(** The services whose groups [ReloadServices] accepts. *)
Definition known_groups (services : gmap key.Service string) (r : AnnounceGroupRegistry) : Prop :=
  forall s g, services !! s = Some g -> g ∈ groups r.

Lemma group_by_prefix_Ok svcs r gbp :
  group_by_prefix svcs r = Ok gbp ->
  known_groups svcs r /\ consistent_groups svcs /\
  forall p g, gbp !! p = Some g <-> exists s, svcs !! s = Some g /\ key.Service_Prefix s = p.
Proof.
  unfold group_by_prefix. intros Hok.
  assert (known_groups svcs r /\ forall p g, gbp !! p = Some g <->
            exists s, svcs !! s = Some g /\ key.Service_Prefix s = p) as [Hk Hg].
  { revert Hok. apply (for_range_err_ind
      (fun (done_ : gmap key.Service string) (gbp : gmap Prefix string) =>
        known_groups done_ r /\ forall p g, gbp !! p = Some g <->
          exists s, done_ !! s = Some g /\ key.Service_Prefix s = p)).
    - split; [intros s g; by rewrite lookup_empty|]. intros p g. rewrite lookup_empty.
      split; [done|]. intros (s & Hs & _). by rewrite lookup_empty in Hs.
    - intros svc g done_ gbp1 gbp2 Hnew Hsvc Hsub [Hk Hg].
      destruct (ContainsGroup g r) eqn:Hc; simpl; [|done]. apply bool_decide_eq_true in Hc.
      assert (Ok (E:=announcerError) (<[key.Service_Prefix svc := g]> gbp1) = Ok gbp2 ->
              (forall g0, gbp1 !! key.Service_Prefix svc = Some g0 -> g0 = g) ->
              known_groups (<[svc:=g]> done_) r /\
              (forall p g', gbp2 !! p = Some g' <->
                exists s, <[svc:=g]> done_ !! s = Some g' /\ key.Service_Prefix s = p)) as Hins.
      { intros [= <-] Hsame. split.
        { intros s g'. rewrite lookup_insert. case_decide; [naive_solver|]. apply Hk. }
        intros p g'. rewrite lookup_insert. split.
        - case_decide as Hp; [intros [= <-]; exists svc; by rewrite lookup_insert_eq|].
          intros (s & Hs & Hsp)%Hg. exists s. split; [|done].
          rewrite lookup_insert_ne; [done|]. intros ->. congruence.
        - intros (s & Hs & Hsp). rewrite lookup_insert in Hs.
          destruct (decide (svc = s)) as [<-|Hq]; [rewrite decide_True by done; congruence|].
          assert (gbp1 !! p = Some g') as Hp by (apply Hg; eauto). case_decide as Hpp; [|done].
          rewrite <- Hpp in Hp. f_equal. symmetry. by apply Hsame. }
      destruct (gbp1 !! key.Service_Prefix svc) as [kg|] eqn:Hkg.
      + case_decide as Hne; [done|]. intros Hok. apply Hins; [done|]. intros g0 [= <-].
        by destruct (decide (kg = g)).
      + intros Hok. by apply Hins. }
  split; [done|]. split; [|done].
  intros s1 s2 g1 g2 Hs1 Hs2 Hp.
  assert (gbp !! key.Service_Prefix s1 = Some g1) as H1 by (apply Hg; eauto).
  assert (gbp !! key.Service_Prefix s1 = Some g2) as H2 by (apply Hg; eauto).
  congruence.
Qed.

Lemma group_by_prefix_complete svcs r :
  known_groups svcs r -> consistent_groups svcs -> exists gbp, group_by_prefix svcs r = Ok gbp.
Proof.
  intros Hk Hc. unfold group_by_prefix, for_range_err.
  assert (forall kv, kv ∈ range svcs -> svcs !! kv.1 = Some kv.2) as Hin
    by (intros [k v]; apply elem_of_range).
  assert (forall p g, (∅ : gmap Prefix string) !! p = Some g ->
            exists s, svcs !! s = Some g /\ key.Service_Prefix s = p) as Hacc
    by (intros p g; by rewrite lookup_empty).
  revert Hin Hacc. generalize (∅ : gmap Prefix string).
  induction (range svcs) as [|[s g] l IH]; intros acc Hin Hacc; simpl; [eauto|].
  assert (svcs !! s = Some g) as Hs by (apply (Hin (s, g)); left).
  assert (ContainsGroup g r = true) as -> by (apply bool_decide_eq_true; by eapply Hk).
  simpl.
  assert (forall p g0, <[key.Service_Prefix s := g]> acc !! p = Some g0 ->
            exists s, svcs !! s = Some g0 /\ key.Service_Prefix s = p) as Hacc'.
  { intros p g0. rewrite lookup_insert. case_decide; [|apply Hacc]. intros [= <-]. eauto. }
  destruct (acc !! key.Service_Prefix s) as [kg|] eqn:Hkg; [|simpl; apply IH; [set_solver|done]].
  destruct (Hacc _ _ Hkg) as (s' & Hs' & Hp).
  assert (kg = g) as -> by (by eapply Hc).
  rewrite decide_False by tauto. simpl. apply IH; [set_solver|done].
Qed.

Lemma groupEvents_spec evs g p :
  (groupEvents evs !! g ≫= fun b => b !! p) = evs !! MkPrefixKey p g.
Proof.
  unfold groupEvents.
  apply (for_range_ind (fun (done_ : gmap PrefixKey PrefixStatus) (ebg : gmap string (gmap Prefix PrefixStatus)) =>
           (ebg !! g ≫= fun b => b !! p) = done_ !! MkPrefixKey p g)).
  { by rewrite !lookup_empty. }
  intros [p' g'] st done_ ebg Hnew Hlk Hsub IH. simpl.
  assert (default ∅ ((match ebg !! g' with None => <[g':=∅]> ebg | Some _ => ebg end) !! g') =
          default ∅ (ebg !! g')) as ->.
  { destruct (ebg !! g') as [b|] eqn:Hb; [by rewrite Hb|]. by rewrite lookup_insert_eq. }
  rewrite !lookup_insert. destruct (decide (g' = g)) as [<-|Hg].
  - simpl. rewrite lookup_insert. destruct (decide (p' = p)) as [<-|Hp].
    + by rewrite decide_True.
    + rewrite decide_False by congruence. rewrite <- IH. by destruct (ebg !! g').
  - rewrite (decide_False (P:=MkPrefixKey p' g' = _)) by congruence. rewrite <- IH.
    destruct (ebg !! g'); [done|]. by rewrite lookup_insert_ne.
Qed.

Lemma StatusFor_spec ps m p :
  StatusFor ps m !! p =
  if decide (p ∈ ps)
  then Some (match prefixes m !! p with Some s => Status s | None => Unready end) else None.
Proof.
  unfold StatusFor.
  loop (fun (visited : list Prefix) (st : gmap Prefix PrefixStatus) =>
          st !! p = if decide (p ∈ visited)
            then Some (match prefixes m !! p with Some s => Status s | None => Unready end) else None).
  { rewrite lookup_empty. case_decide; [set_solver|done]. }
  intros visited x rest st _ IH.
  destruct (decide (x = p)) as [->|Hx].
  - rewrite decide_True by set_solver.
    by destruct (prefixes m !! p); rewrite lookup_insert_eq.
  - destruct (prefixes m !! x); rewrite lookup_insert_ne, IH by done; apply decide_ext; set_solver.
Qed.

Context {W E : Type} `{CL : ClientLaws W E}.

Lemma log_error_view g b w l k w' l' :
  log_error g (ProcessBatch g b w) l = (w', l') ->
  (l' = l /\ view w' k = batch_view g b (view w) k) \/
  (exists e, l' = l ++ [(g, e)] /\ view w' k = view w k).
Proof.
  unfold log_error. destruct (ProcessBatch g b w) as [[e|] w1] eqn:HP; intros [= <- <-].
  - right. exists e. split; [done|]. by eapply ProcessBatch_refused.
  - left. split; [done|]. by eapply ProcessBatch_ok.
Qed.

(** What the daemon is told by the batches of a tick: the events of a group,
    unless the batch of that group was refused. *)
Lemma sendBatches_spec ebg w :
  let '(w', l) := sendBatches ebg w in
  forall k, view w' k =
    if decide (pkGroup k ∈ l.*1) then view w k
    else default (view w k) (ebg !! pkGroup k ≫= fun b => b !! pkPrefix k).
Proof.
  unfold sendBatches.
  pose proof (for_range_ind (fun (done_ : gmap string (gmap Prefix PrefixStatus))
    '((w', l) : W * list (string * E)) =>
    (forall g, g ∈ l.*1 -> is_Some (done_ !! g)) /\
    forall k, view w' k =
      if decide (pkGroup k ∈ l.*1) then view w k
      else default (view w k) (done_ !! pkGroup k ≫= fun b => b !! pkPrefix k)) ebg
    (fun group events '(w, l) => log_error group (ProcessBatch group events w) l) (w, [])) as HI.
  destruct (for_range ebg _ (w, [])) as [w' l]. apply HI; clear HI.
  - split; [by intros g ?%not_elem_of_nil|]. intros k. rewrite lookup_empty.
    rewrite decide_False; [done|]. by intros ?%not_elem_of_nil.
  - intros g b done_ [w1 l1] Hnew Hlk Hsub [Hl Hv].
    destruct (log_error g (ProcessBatch g b w1) l1) as [w2 l2] eqn:Hlog.
    pose proof (fun k => log_error_view g b w1 l1 k w2 l2 Hlog) as Hlv.
    assert (g ∉ l1.*1) as Hgl by (intros Hin; destruct (Hl g Hin); congruence).
    split.
    + intros g' Hg'. destruct (Hlv (MkPrefixKey (MkPrefix AddrInvalid None) g)) as [[-> _]|(e & -> & _)].
      * rewrite lookup_insert. case_decide; [eauto|by apply Hl].
      * rewrite fmap_app in Hg'. simpl in Hg'. rewrite elem_of_app, list_elem_of_singleton in Hg'.
        rewrite lookup_insert. case_decide; [eauto|]. apply Hl. naive_solver.
    + intros k. specialize (Hv k). rewrite lookup_insert.
      destruct (Hlv k) as [[-> ->]|(e & -> & ->)]; unfold batch_view.
      * destruct (decide (pkGroup k = g)) as [Hk|Hk].
        -- rewrite Hk in Hv |- *. rewrite decide_False in Hv by done.
           by rewrite (decide_False (P:=_ ∈ _)), decide_True, Hv, Hnew by done.
        -- rewrite Hv. by rewrite (decide_False (P:=g = _)) by congruence.
      * rewrite fmap_app. simpl. destruct (decide (g = pkGroup k)) as [Hk|Hk].
        -- rewrite decide_True by set_solver.
           rewrite (decide_False (P:=_ ∈ _)) in Hv by (by rewrite <- Hk).
           rewrite Hv, <- Hk, Hnew. done.
        -- rewrite Hv. apply decide_ext. set_solver.
Qed.
End loops.

(** ** The announcer's invariant *)

Section invariant.
Context `{MR : MapRange}.
Implicit Types (m : Announcer) (svcs : gmap key.Service string).

(** The group registry describes exactly the prefixes that exist. *)
Definition ann_inv m : Prop :=
  wf_prefixes (aprefixes m) /\
  (forall p, groupByPrefix (announceGroups m) !! p = group <$> prefixes (aprefixes m) !! p) /\
  prefixesByGroup (announceGroups m) = invert_groups (groupByPrefix (announceGroups m)) /\
  groups (announceGroups m) = groups (NewAnnounceGroupRegistry (AnnounceGroup (config m))).

Lemma ann_inv_New c : ann_inv (New c).
Proof.
  unfold ann_inv, New. cbn. split_and!; [apply wf_NewPrefixes| | |done].
  - intros p. unfold NewPrefixes. cbn. by rewrite !lookup_empty.
  - unfold invert_groups, for_range. by rewrite range_empty.
Qed.

Lemma GetPrefixes_spec g p m :
  ann_inv m ->
  p ∈ GetPrefixes g (announceGroups m) <->
  exists s, prefixes (aprefixes m) !! p = Some s /\ group s = g.
Proof.
  intros (_ & Hg & Hpbg & _). unfold GetPrefixes. rewrite Hpbg.
  destruct (invert_groups_spec (groupByPrefix (announceGroups m)) g) as [_ ->].
  rewrite Hg. destruct (prefixes (aprefixes m) !! p) as [s|]; simpl; naive_solver.
Qed.

Lemma ReloadServices_inv svcs m :
  msize svcs < two63 -> ann_inv m -> ann_inv (ReloadServices svcs m).2.
Proof.
  intros Hsz Hinv. unfold ReloadServices.
  destruct (group_by_prefix svcs (announceGroups m)) as [gbp|e] eqn:Hgbp; [|done].
  destruct (group_by_prefix_Ok _ _ _ Hgbp) as (Hk & Hc & Hg). destruct Hinv as (Hwf & _ & _ & Hgs).
  unfold ann_inv. simpl. split_and!; [by apply (do_op_wf (OpReload svcs))| |done|done].
  intros p. pose proof (ReloadServices_spec svcs (aprefixes m) p Hsz) as Hp.
  destruct (prefixes (Prefixes_ReloadServices svcs (aprefixes m)) !! p) as [s|]; simpl.
  - destruct Hp as (_ & Hs & _). by apply Hg.
  - destruct (gbp !! p) as [g|] eqn:Hgp; [|done].
    apply Hg in Hgp as (s & Hs & Hsp). by destruct (Hp s).
Qed.

Lemma UpdateService_inv svc st m : ann_inv m -> ann_inv (UpdateService svc st m).2.
Proof.
  intros Hinv. unfold UpdateService.
  destruct (GetGroup _ _) as [g|] eqn:Hgg; [|done].
  destruct Hinv as (Hwf & Hg & Hpbg & Hgs).
  pose proof (do_op_wf (OpUpdate svc st) (aprefixes m) I Hwf) as Hwf'. simpl in Hwf'.
  pose proof (UpdateService_functional svc st (aprefixes m)) as HF. cbv zeta in HF.
  destruct (prefixes (aprefixes m) !! key.Service_Prefix svc) as [s|] eqn:Hs.
  - destruct HF as [_ HF]. destruct (Prefixes_UpdateService svc st (aprefixes m)) as [err p].
    simpl in *. unfold ann_inv, set_prefixes. simpl. split_and!; [done| |done|done].
    intros q. rewrite HF, Hg. destruct (decide (key.Service_Prefix svc = q)) as [<-|]; [|done].
    by rewrite Hs.
  - rewrite HF in *. by destruct m.
Qed.

(** [ReloadServices] accepts a configuration exactly when every announce
    group is configured and services with the same host prefix are in the
    same group; a refused configuration leaves the announcer as it was. *)
Theorem ReloadServices_accepts (svcs : gmap key.Service string) (m : Announcer) :
  ((ReloadServices svcs m).1 = None <->
   known_groups svcs (announceGroups m) /\ consistent_groups svcs) /\
  ((ReloadServices svcs m).1 <> None -> (ReloadServices svcs m).2 = m).
Proof.
  unfold ReloadServices. destruct (group_by_prefix svcs (announceGroups m)) as [gbp|e] eqn:Hgbp; simpl.
  - destruct (group_by_prefix_Ok _ _ _ Hgbp) as (Hk & Hc & _). tauto.
  - split; [|done]. split; [done|]. intros [Hk Hc].
    destruct (group_by_prefix_complete svcs (announceGroups m) Hk Hc) as [gbp Hg]. congruence.
Qed.

(** The announcer's operations on its own state. *)
Inductive ann_op :=
| OpReloadServices (services : gmap key.Service string)
| OpUpdateService (service : key.Service) (st : ServiceStatus)
| OpRegister (service : key.Service) (st : ServiceStatus)
| OpFlush
| OpTick.

Definition do_ann (o : ann_op) m : Announcer :=
  match o with
  | OpReloadServices svcs => (ReloadServices svcs m).2
  | OpUpdateService s st => (UpdateService s st m).2
  | OpRegister s st => RegisterServiceEvent s st m
  | OpFlush => (FlushServiceEvents m).2
  | OpTick => set_prefixes (Prefixes_Events (aprefixes m)).2 m
  end.

Definition ann_fits (o : ann_op) : Prop :=
  match o with OpReloadServices svcs => msize svcs < two63 | _ => True end.

Lemma do_ann_inv o m : ann_fits o -> ann_inv m -> ann_inv (do_ann o m).
Proof.
  destruct o; simpl; intros Hfit Hinv;
    [by apply ReloadServices_inv | by apply UpdateService_inv | exact Hinv ..].
Qed.

Lemma do_anns_inv l m : Forall ann_fits l -> ann_inv m -> ann_inv (for_each do_ann l m).
Proof.
  unfold for_each. revert m. induction l as [|o l IH]; intros m Hl Hm; [done|].
  apply Forall_cons in Hl as [Ho Hl]. simpl. apply IH; [done|]. by apply do_ann_inv.
Qed.

(** In every state the announcer can reach, the group registry and the
    prefix states agree: a group's prefixes are exactly the prefixes that
    exist in that group, and [UpdateService] is refused exactly for a service
    whose host prefix is unknown, never for a missing prefix state. *)
Theorem announcer_registry_agrees (c : Config) (l : list ann_op) (g : string) (p : Prefix)
    (svc : key.Service) (st : ServiceStatus) :
  Forall ann_fits l ->
  let m := for_each do_ann l (New c) in
  (p ∈ GetPrefixes g (announceGroups m) <->
     exists s, prefixes (aprefixes m) !! p = Some s /\ group s = g) /\
  (UpdateService svc st m).1 =
    if decide (is_Some (prefixes (aprefixes m) !! key.Service_Prefix svc)) then None
    else Some (ErrNoGroup (key.Service_Prefix svc)).
Proof.
  intros Hl m. assert (ann_inv m) as Hm by (apply do_anns_inv; [done|apply ann_inv_New]).
  split; [by apply GetPrefixes_spec|].
  destruct Hm as (_ & Hg & _). unfold UpdateService, GetGroup. rewrite Hg.
  pose proof (UpdateService_functional svc st (aprefixes m)) as HF. cbv zeta in HF.
  destruct (prefixes (aprefixes m) !! key.Service_Prefix svc) as [s|]; simpl.
  - destruct (Prefixes_UpdateService svc st (aprefixes m)) as [err p']. simpl in *.
    by destruct HF as [-> _].
  - done.
Qed.
End invariant.

(** ** What the external announcer is told *)

Section daemon_view.
Context `{MR : MapRange} {W E : Type} `{CL : ClientLaws W E}.
Implicit Types (m : Announcer) (w : W).

(** The steps of the announcer together with its client.  A reload may change
    the group of a prefix only while the prefix is ready
    ([group_change_loses_update]), and a state request is answered only while
    no change of its group is pending ([state_response_loses_withdrawal]). *)
Inductive ann_step : Announcer * W -> Announcer * W -> Prop :=
| step_op o m w :
    ann_fits o -> o <> OpTick ->
    match o with
    | OpReloadServices svcs => group_changes_ready [OpReload svcs] (aprefixes m) = true
    | _ => True
    end ->
    ann_step (m, w) (do_ann o m, w)
| step_tick m w m' w' :
    updater_tick m w = (m', w', []) -> ann_step (m, w) (m', w')
| step_state_request g m w :
    (forall k, is_Some (events (events_ (aprefixes m)) !! k) -> pkGroup k <> g) ->
    ann_step (m, w) (m, (state_request_send g (state_request_read g m) w).1).

Definition tracked (s : Announcer * W) : Prop :=
  ann_inv s.1 /\ synced (view s.2) (aprefixes s.1).

(** A tick brings every group whose batch is accepted up to date. *)
Lemma updater_tick_spec m w :
  synced (view w) (aprefixes m) ->
  let '(m', w', l) := updater_tick m w in
  m' = do_ann OpTick m /\
  forall k, pkGroup k ∉ l.*1 -> view w' k = announced (aprefixes m) k.
Proof.
  intros Hsync. destruct (delta_inv_Flush _ _ _ Hsync) as [Hd _].
  unfold updater_tick, do_ann, Prefixes_Events. unfold Prefixes_Events in Hd.
  set (evs := (Flush (events_ (aprefixes m))).1) in *.
  replace (Flush (events_ (aprefixes m))) with (evs, NewRegistry (K:=PrefixKey) (V:=PrefixStatus)) by done.
  case_bool_decide as Hsz.
  - split; [done|]. intros k _. rewrite <- Hd. unfold deliver.
    apply map_size_empty_inv in Hsz. by rewrite Hsz, lookup_empty.
  - pose proof (sendBatches_spec (groupEvents evs) w) as Hs.
    destruct (sendBatches (groupEvents evs) w) as [w' l]. split; [done|]. intros k Hk.
    rewrite Hs, decide_False, groupEvents_spec by done. rewrite <- Hd. unfold deliver.
    destruct k as [p g]. simpl. by destruct (evs !! _).
Qed.

(** The prefix exists, in that group. *)
Definition in_group m (k : PrefixKey) : bool :=
  match prefixes (aprefixes m) !! pkPrefix k with
  | Some s => bool_decide (group s = pkGroup k)
  | None => false
  end.

Lemma in_group_spec m k :
  ann_inv m -> in_group m k = true <-> pkPrefix k ∈ GetPrefixes (pkGroup k) (announceGroups m).
Proof.
  intros Hinv. rewrite GetPrefixes_spec by done. unfold in_group.
  destruct (prefixes (aprefixes m) !! pkPrefix k) as [s|]; [|naive_solver].
  rewrite bool_decide_eq_true. naive_solver.
Qed.

Lemma not_in_group_announced m k : in_group m k = false -> announced (aprefixes m) k = Unready.
Proof.
  unfold in_group, announced. destruct (prefixes (aprefixes m) !! pkPrefix k); [|done].
  rewrite bool_decide_eq_false. intros. by rewrite decide_False.
Qed.

Lemma state_request_view g m w k :
  ann_inv m ->
  view (state_request_send g (state_request_read g m) w).1 k = view w k \/
  (view (state_request_send g (state_request_read g m) w).1 k =
   if decide (pkGroup k = g /\ in_group m k = true)
   then announced (aprefixes m) k else view w k).
Proof.
  intros Hinv. unfold state_request_send.
  destruct (log_error g (ProcessBatch g (state_request_read g m) w) []) as [w' l] eqn:Hlog. simpl.
  destruct (log_error_view _ _ _ _ k _ _ Hlog) as [[_ ->]|(e & _ & ->)]; [right|by left].
  unfold batch_view, state_request_read. rewrite StatusFor_spec.
  destruct (decide (pkGroup k = g)) as [Hk|Hk].
  2:{ rewrite decide_False; [done|]. by intros [? _]. }
  subst g. pose proof (in_group_spec m k Hinv) as Hin.
  destruct (decide (pkPrefix k ∈ GetPrefixes (pkGroup k) (announceGroups m))) as [Hp|Hp].
  - rewrite (decide_True (P:=_ /\ _)) by tauto. simpl. apply GetPrefixes_spec in Hp; [|done].
    destruct Hp as (s & Hs & Hg). unfold announced. by rewrite Hs, decide_True by congruence.
  - rewrite (decide_False (P:=_ /\ _)) by tauto. done.
Qed.

Lemma ann_step_tracked s s' : ann_step s s' -> tracked s -> tracked s'.
Proof.
  unfold tracked. destruct 1 as [o m w Hfit Ht Hgr | m w m' w' Htick | g m w Hpend]; intros [Hinv Hsync]; simpl in *.
  - split; [by apply do_ann_inv|]. destruct o as [svcs|svc st|svc st| |]; simpl; [| |done..].
    + unfold ReloadServices. destruct (group_by_prefix _ _); [|done]. simpl.
      pose proof (run_synced [OpReload svcs] (aprefixes m) (view w) Hsync Hgr) as Hr. exact Hr.
    + unfold UpdateService. destruct (GetGroup _ _); [|done].
      pose proof (UpdateService_synced (view w) svc st (aprefixes m) Hsync) as Hu.
      by destruct (Prefixes_UpdateService svc st (aprefixes m)).
  - pose proof (updater_tick_spec m w Hsync) as Ht. rewrite Htick in Ht.
    destruct Ht as [-> Hv]. split; [exact Hinv|]. intros k. simpl. rewrite lookup_empty.
    by rewrite Hv by apply not_elem_of_nil.
  - split; [done|]. intros k. specialize (Hsync k).
    pose proof (state_request_view g m w k Hinv) as Hv. simpl in *.
    destruct (events (events_ (aprefixes m)) !! k) as [e|] eqn:He.
    + destruct Hsync as [Ht Hb]. split; [done|].
      destruct Hv as [->| ->]; [done|]. rewrite decide_False; [done|]. intros [? _].
      by apply (Hpend k).
    + destruct Hv as [->| ->]; [done|]. by case_decide.
Qed.

Lemma ann_steps_tracked s s' : rtc ann_step s s' -> tracked s -> tracked s'.
Proof. induction 1; eauto using ann_step_tracked. Qed.

Lemma tracked_New c w : (forall k, view w k = Unready) -> tracked (New c, w).
Proof.
  intros Hw. split; [apply ann_inv_New|]. intros k. unfold New, NewPrefixes. simpl.
  rewrite lookup_empty, Hw. unfold announced. simpl. by rewrite lookup_empty.
Qed.


(** The batch of [removeAll] for one group. *)
Lemma unready_batch_spec ps p :
  for_each (fun prefix st => <[prefix := Unready]> st) ps (∅ : gmap Prefix PrefixStatus) !! p =
  if decide (p ∈ ps) then Some Unready else None.
Proof.
  loop (fun (visited : list Prefix) (st : gmap Prefix PrefixStatus) =>
          st !! p = if decide (p ∈ visited) then Some Unready else None).
  { rewrite lookup_empty. case_decide; [set_solver|done]. }
  intros visited x rest st _ IH. rewrite lookup_insert.
  destruct (decide (x = p)) as [->|Hx].
  - by rewrite decide_True by set_solver.
  - rewrite IH. apply decide_ext. set_solver.
Qed.

Lemma removeAll_spec m w :
  let '(w', l) := removeAll m w in
  forall k, pkGroup k ∉ l.*1 ->
    view w' k = if decide (pkGroup k ∈ AnnounceGroup (config m) /\ pkPrefix k ∈ GetPrefixes (pkGroup k) (announceGroups m))
                then Unready else view w k.
Proof.
  unfold removeAll. set (body := fun group _ => _).
  assert ((fun (visited : list string) '((w', l) : W * list (string * E)) =>
    forall k, pkGroup k ∉ l.*1 ->
      view w' k = if decide (pkGroup k ∈ visited /\ pkPrefix k ∈ GetPrefixes (pkGroup k) (announceGroups m))
                  then Unready else view w k) (AnnounceGroup (config m)) (for_each body (AnnounceGroup (config m)) (w, []))) as Hloop;
    [|by destruct (for_each body (AnnounceGroup (config m)) (w, []))].
  apply for_each_ind.
  { intros k _. rewrite decide_False; [done|]. intros [?%not_elem_of_nil _]. done. }
  intros visited g rest [w1 l1] _ IH. unfold body.
  destruct (Nat.eqb_spec (length (GetPrefixes g (announceGroups m))) 0) as [Hlen|_].
  - apply nil_length_inv in Hlen. intros k Hk. rewrite IH by done.
    apply decide_ext. rewrite elem_of_app, list_elem_of_singleton. split; [tauto|].
    intros [[?| ->] Hin]; [done|]. rewrite Hlen in Hin. by apply not_elem_of_nil in Hin.
  - destruct (log_error g _ l1) as [w2 l2] eqn:Hlog. intros k Hk.
    destruct (log_error_view _ _ _ _ k _ _ Hlog) as [[-> ->]|(e & -> & ->)].
    + unfold batch_view. rewrite unready_batch_spec. specialize (IH k Hk).
      destruct (decide (pkGroup k = g)) as [<-|Hg].
      * destruct (decide (pkPrefix k ∈ GetPrefixes (pkGroup k) (announceGroups m))) as [Hin|Hin]; simpl.
        -- by rewrite decide_True by set_solver.
        -- rewrite IH. apply decide_ext. tauto.
      * rewrite IH. apply decide_ext. set_solver.
    + rewrite fmap_app in Hk. simpl in Hk. rewrite IH by set_solver. apply decide_ext. set_solver.
Qed.

Lemma Stop_view m w k :
  ann_inv m -> pkGroup k ∈ AnnounceGroup (config m) -> in_group m k = true \/ view w k = Unready ->
  let '(m', w', failed) := Stop m w in
  ashutdown m' = true /\ (pkGroup k ∉ failed.*1 -> view w' k = Unready).
Proof.
  intros Hinv Hgrp Hk. unfold Stop. set (m1 := MkAnnouncer _ _ _ _ _).
  pose proof (removeAll_spec m1 w) as Hr. destruct (removeAll m1 w) as [w' l].
  split; [done|]. intros Hl. rewrite ClientShutdown_view, Hr by done. simpl.
  case_decide as Hd; [done|]. destruct Hk as [Hk%in_group_spec|Hk]; [tauto|done..].
Qed.

End daemon_view.

(** ** A daemon, and concrete runs *)

(** A daemon that remembers what it was told, and refuses the batches that the
    oracle [refuses] says. *)
Record Daemon := MkDaemon { told : gmap PrefixKey PrefixStatus; refuses : list bool }.

Definition tell (g : string) (b : gmap Prefix PrefixStatus) (d : Daemon) : option unit * Daemon :=
  match refuses d with
  | true :: r => (Some tt, MkDaemon (told d) r)
  | r => (None, MkDaemon (map_fold (fun p st t => <[MkPrefixKey p g := st]> t) (told d) b) (tail r))
  end.

Definition daemon_view (d : Daemon) (k : PrefixKey) : PrefixStatus := default Unready (told d !! k).

#[export] Instance Daemon_Client : Client Daemon unit := {|
  RaiseAnnounce := fun g p => tell g {[p := Ready]};
  RemoveAnnounce := fun g p => tell g {[p := Unready]};
  ProcessBatch := tell;
  ClientShutdown := fun d => d;
|}.

Lemma told_fold g b (t : gmap PrefixKey PrefixStatus) k :
  map_fold (fun p st t => <[MkPrefixKey p g := st]> t) t b !! k =
  if decide (pkGroup k = g) then match b !! pkPrefix k with Some st => Some st | None => t !! k end
  else t !! k.
Proof.
  apply (map_fold_weak_ind (fun (r : gmap PrefixKey PrefixStatus) (b : gmap Prefix PrefixStatus) =>
    r !! k = if decide (pkGroup k = g) then match b !! pkPrefix k with Some st => Some st | None => t !! k end
             else t !! k)).
  - rewrite lookup_empty. by case_decide.
  - intros p st b' r Hp IH. rewrite !lookup_insert. destruct k as [p' g']. simpl in *.
    destruct (decide (g' = g)) as [->|Hg]; [|by rewrite decide_False by congruence].
    destruct (decide (p = p')) as [->|Hne]; [by rewrite decide_True|].
    by rewrite decide_False by congruence.
Qed.

#[export] Program Instance Daemon_Laws : ClientLaws Daemon unit := {| view := daemon_view |}.
Next Obligation.
  intros g b w w' k. simpl. unfold tell, batch_view, daemon_view.
  destruct (refuses w) as [|[] r]; intros [= <-]; simpl; rewrite told_fold;
    case_decide; [|done| |done]; by destruct (b !! pkPrefix k).
Qed.
Next Obligation. intros g b w w' e k. simpl. unfold tell. by destruct (refuses w) as [|[] r]; intros [= _ <-]. Qed.
Next Obligation. done. Qed.

Section concrete.
Definition config1 : Config := MkConfig (50 * 10 ^ 6) ["a"%string; "b"%string].
Definition quiet : Daemon := MkDaemon ∅ [].

Definition up : list ann_op :=
  [OpReloadServices (services_in "a"); OpUpdateService http1 ServiceEnabled;
   OpUpdateService dns1 ServiceEnabled].

Lemma announcer_registry_agrees_witness :
  let m := for_each do_ann up (New config1) in
  (key.Service_Prefix http1 ∈ GetPrefixes "a" (announceGroups m) <->
     exists s, prefixes (aprefixes m) !! key.Service_Prefix http1 = Some s /\ group s = "a"%string) /\
  (UpdateService http2 ServiceEnabled m).1 =
    if decide (is_Some (prefixes (aprefixes m) !! key.Service_Prefix http2)) then None
    else Some (ErrNoGroup (key.Service_Prefix http2)).
Proof. apply announcer_registry_agrees. repeat constructor. Defined.

(** Updates and registrations need no side condition. *)
Definition plain (o : ann_op) : bool :=
  match o with OpTick | OpReloadServices _ => false | _ => true end.

Lemma plain_steps m l (d : Daemon) :
  forallb plain l = true -> rtc ann_step (m, d) (for_each do_ann l m, d).
Proof.
  unfold for_each. revert m. induction l as [|o l IH]; intros m; simpl; [constructor|].
  intros [Ho Hl]%andb_true_iff. eapply rtc_l; [|by apply IH].
  apply step_op; [by destruct o | by intros -> | by destruct o].
Qed.

Definition up_state : Announcer := for_each do_ann up (New config1).

Lemma up_reachable : rtc ann_step (New config1, quiet) (up_state, quiet).
Proof.
  eapply rtc_l; [apply (step_op (OpReloadServices (services_in "a")));
                 [vm_compute; reflexivity | done | vm_compute; reflexivity]|].
  change up_state with (for_each do_ann (tail up) (do_ann (OpReloadServices (services_in "a")) (New config1))).
  by apply plain_steps.
Qed.



(** A batch that the daemon refuses is not sent again: the error is
    logged, the events are gone, and the following tick, which the daemon
    would accept, says nothing. *)
Theorem refused_batch_is_lost :
  let '(m1, d1, failed1) := updater_tick up_state (MkDaemon ∅ [true]) in
  let '(m2, d2, failed2) := updater_tick m1 d1 in
  announced (aprefixes m2) (key1 "a") = Ready /\ failed1 = [("a"%string, tt)] /\ failed2 = [] /\
  view d2 (key1 "a") = Unready.
Proof. vm_compute. repeat split. Qed.

(** Answering a state request while a change is pending can lose a
    withdrawal.  The prefix becomes ready, a state request tells the daemon,
    the prefix becomes unready before the next tick: the registry takes the
    two changes for nothing, and the daemon keeps announcing the prefix. *)
Theorem state_response_loses_withdrawal :
  let d1 := (state_request_send "a" (state_request_read "a" up_state) quiet).1 in
  let m1 := do_ann (OpUpdateService dns1 ServiceDisabled) up_state in
  let '(m2, d2, failed) := updater_tick m1 d1 in
  announced (aprefixes m2) (key1 "a") = Unready /\ failed = [] /\
  events (events_ (aprefixes m2)) = ∅ /\ view d2 (key1 "a") = Ready.
Proof. vm_compute. repeat split. Qed.

(** A prefix whose removal is still pending when [Stop] is called stays
    announced: [removeAll] only knows the prefixes that still exist. *)
Theorem Stop_leaves_removed_prefix :
  let '(m1, d1, _) := updater_tick up_state quiet in
  let m2 := do_ann (OpReloadServices ∅) m1 in
  let '(m3, d3, failed) := Stop m2 d1 in
  in_group m2 (key1 "a") = false /\ failed = [] /\ view d3 (key1 "a") = Ready.
Proof. vm_compute. repeat split. Qed.
End concrete.
