(* ===== verification/Balancer.v ===== *)
(** * The load balancer state

    [internal/balancer/balancer.go], [internal/balancer/state.go]: events of the
    checks are kept in a registry and applied to the load balancer by a periodic
    update, which then passes the service events to the announcer; the balancer's
    own state can be looked up and subscribed to. *)

From stdpp Require Import strings numbers gmap sets list.
From S2P Require Import Prelude.
From S2P Require Import Types.
From S2P Require Import Registry.
From S2P Require Import Prefixes.
From S2P Require Import Announcer.

Open Scope Z_scope.
Open Scope go_scope.

(** ** Health check events in the registry *)

#[export] Instance Event_Comparable : Comparable xevent.Event := xevent.Merge.

#[export] Program Instance Event_DeltaEvent : DeltaEvent xevent.Event xevent.Status xevent.status_equiv := {|
  target := xevent.ENew; based_on := fun e s => xevent.EInit e ≈ s;
|}.
Next Obligation. intros e s s' Hs Hb. simpl in *. by rewrite <- Hs. Qed.
Next Obligation.
  intros e0 e e' a Ha Hb. unfold Merge, Event_Comparable, xevent.Merge.
  case_decide; [done|]. by intros [= <-].
Qed.
Next Obligation.
  intros e0 e o a Ha Hb. unfold Merge, Event_Comparable, xevent.Merge.
  case_decide as Hn; [|done]. intros _. rewrite Hn. by symmetry.
Qed.
Next Obligation. intros e0 e. unfold Merge, Event_Comparable, xevent.Merge. by case_decide. Qed.

(** ** The client interface *)

Class LoadBalancerClient (W E : Type) := {
  EnableReal : key.Balancer -> Z -> W -> option E * W;
  DisableReal : key.Balancer -> W -> option E * W;
  FlushClient : W -> option E * W;
}.

(** What the balancer relies on.  A real has a configured status, which changes
    are made to, and an active one, which a flush sets from it; a refused
    request changes neither. *)
Class LoadBalancerLaws (W E : Type) {C : LoadBalancerClient W E} := {
  configured : W -> key.Balancer -> xevent.Status;
  active_status : W -> key.Balancer -> xevent.Status;
  EnableReal_ok k wt w w' :
    EnableReal k wt w = (None, w') ->
    (forall k', configured w' k' = fupd (configured w) k (xevent.MkStatus true wt) k');
  DisableReal_ok k w w' :
    DisableReal k w = (None, w') ->
    (forall k', configured w' k' = fupd (configured w) k (xevent.MkStatus false 0) k');
  EnableReal_refused k wt w w' e : EnableReal k wt w = (Some e, w') -> forall k', configured w' k' = configured w k';
  DisableReal_refused k w w' e : DisableReal k w = (Some e, w') -> forall k', configured w' k' = configured w k';
  EnableReal_active k wt w k' : active_status (EnableReal k wt w).2 k' = active_status w k';
  DisableReal_active k w k' : active_status (DisableReal k w).2 k' = active_status w k';
  Flush_ok w w' :
    FlushClient w = (None, w') ->
    forall k, configured w' k = configured w k /\ active_status w' k = configured w k;
  Flush_refused w w' e :
    FlushClient w = (Some e, w') ->
    forall k, configured w' k = configured w k /\ active_status w' k = active_status w k;
}.

(** ** State *)

Definition reals := gset key.Real.
Definition services_ := gmap key.Service reals.

(** [notify] is the generation of the current channel: the channel of an earlier
    generation has been closed. *)
Record State := MkState { state : gmap string services_; notify : nat }.

Definition NewState : State := MkState ∅ 0.

Definition notification (m : State) : State := MkState (state m) (S (notify m)).

Definition State_Update (st : gmap string services_) (m : State) : State :=
  notification (MkState st (notify m)).

Definition Subscribe (m : State) : nat := notify m.

Definition closed (ch : nat) (m : State) : bool := (ch <? notify m)%nat.

Section lookup.
Context `{MR : MapRange}.

Definition Lookup (key : key.Balancer) (m : State) : bool :=
  for_range (state m)
    (fun _ services found =>
       found || match services !! key.BService key with
                | Some reals => bool_decide (key.BReal key ∈ reals)
                | None => false
                end)
    false.

Lemma Lookup_spec k m :
  Lookup k m = true <->
  exists module svcs rs, state m !! module = Some svcs /\ svcs !! key.BService k = Some rs /\
    key.BReal k ∈ rs.
Proof.
  unfold Lookup.
  apply (for_range_ind (fun (done_ : gmap string services_) found =>
    found = true <-> exists module svcs rs, done_ !! module = Some svcs /\
      svcs !! key.BService k = Some rs /\ key.BReal k ∈ rs)).
  - split; [done|]. intros (md & svcs & rs & Hs & _). by rewrite lookup_empty in Hs.
  - intros md svcs done_ found Hnew Hm Hsub IH. rewrite orb_true_iff, IH. split.
    + intros [(md' & svcs' & rs & H1 & H2)|Hr].
      * exists md', svcs', rs. split; [|done]. rewrite lookup_insert_ne; [done|]. intros ->. congruence.
      * destruct (svcs !! key.BService k) as [rs|] eqn:Hrs; [|done]. apply bool_decide_eq_true in Hr.
        exists md, svcs, rs. by rewrite lookup_insert_eq.
    + intros (md' & svcs' & rs & H1 & H2 & H3). rewrite lookup_insert in H1.
      case_decide; [|left; by exists md', svcs', rs].
      injection H1 as ->. right. rewrite H2. by apply bool_decide_eq_true.
Qed.
End lookup.

(** ** The balancer *)

Record Balancer := MkBalancer {
  bstate : option State;   (* nil when the client is not a [Stater] *)
  bevents : Registry key.Balancer xevent.Event;
  bshutdown : bool;
}.

(** [implements] says whether the client has [GetState]. *)
Definition NewBalancer (implements : bool) : Balancer :=
  MkBalancer (if implements then Some NewState else None) NewRegistry false.

Definition SupportsState (m : Balancer) : bool := match bstate m with Some _ => true | None => false end.

Definition StopBalancer (m : Balancer) : Balancer := MkBalancer (bstate m) (bevents m) true.

Definition HandleEvent (event : xevent.Event) (m : Balancer) : Balancer :=
  MkBalancer (bstate m) (Store (xevent.EBalancer event) event (bevents m)) (bshutdown m).

(** The initial request of [stater]: on an error the state becomes the nil map. *)
Definition stater_initial {E} (response : res E (gmap string services_)) (m : Balancer) : Balancer :=
  let st := match response with Ok st => st | Err _ => ∅ end in
  MkBalancer (State_Update st <$> bstate m) (bevents m) (bshutdown m).

(** A tick of [stater]: an error is logged and keeps the state. *)
Definition stater_tick {E} (response : res E (gmap string services_)) (m : Balancer) : Balancer :=
  match response with
  | Ok st => MkBalancer (State_Update st <$> bstate m) (bevents m) (bshutdown m)
  | Err _ => m
  end.

Inductive balancerLog (E : Type) :=
| LogReal (key : key.Balancer) (err : E)
| LogFlush (err : E)
| LogService (service : key.Service) (err : announcerError).
Arguments LogReal {E}. Arguments LogFlush {E}. Arguments LogService {E}.

Section update.
Context `{MR : MapRange} {W E : Type} `{C : LoadBalancerClient W E}.

(** The processor passed to [Process]. *)
Definition updateReal (key : key.Balancer) (event : xevent.Event) (s : W * list (balancerLog E)) :
    option E * (W * list (balancerLog E)) :=
  let '(w, log) := s in
  let '(err, w) :=
    if xevent.SEnable (xevent.ENew event)
    then EnableReal key (xevent.SWeight (xevent.ENew event)) w
    else DisableReal key w in
  match err with
  | Some e => (err, (w, log ++ [LogReal key e]))
  | None => (None, (w, log))
  end.

Definition announceServices (announceEvents : gmap key.Service ServiceStatus)
    (a : Announcer) (log : list (balancerLog E)) : Announcer * list (balancerLog E) :=
  for_range announceEvents
    (fun service event '(a, log) =>
       match UpdateService service event a with
       | (None, a) => (a, log)
       | (Some e, a) => (a, log ++ [LogService service e])
       end)
    (a, log).

Definition updateBalancer (m : Balancer) (a : Announcer) (w : W) :
    Balancer * Announcer * W * list (balancerLog E) :=
  let '(announceEvents, a) := FlushServiceEvents a in
  let '(evs, (w, log), processed) := Process updateReal (bevents m) (w, []) in
  let m := MkBalancer (bstate m) evs (bshutdown m) in
  let '(w, log) :=
    if 0 <? processed
    then match FlushClient w with
         | (None, w) => (w, log)
         | (Some e, w) => (w, log ++ [LogFlush e])
         end
    else (w, log) in
  let '(a, log) := announceServices announceEvents a log in
  (m, a, w, log).
End update.

(** ** The load balancer follows the health checks *)

Section tracking.
Context `{MR : MapRange} {W E : Type} `{CL : LoadBalancerLaws W E}.
Implicit Types (m : Balancer) (a : Announcer) (w : W) (current : key.Balancer -> xevent.Status).

(** One event applied: on success the real has the new status of the event,
    up to the weight of a disabled real; on an error nothing changes. *)
Lemma updateReal_step k e w l :
  let '(err, (w', l')) := updateReal k e (w, l) in
  (forall k', active_status w' k' = active_status w k') /\
  match err with
  | None => l' = l /\ configured w' k ≈ xevent.ENew e /\
            forall k', k <> k' -> configured w' k' = configured w k'
  | Some err => l' = l ++ [LogReal k err] /\ forall k', configured w' k' = configured w k'
  end.
Proof.
  unfold updateReal. destruct (xevent.ENew e) as [[] wt]; cbn [xevent.SEnable xevent.SWeight].
  - pose proof (EnableReal_active k wt w) as Ha.
    destruct (EnableReal k wt w) as [[err|] w'] eqn:HE; simpl in *; (split; [done|]; split; [done|]).
    + by eapply EnableReal_refused.
    + pose proof (EnableReal_ok _ _ _ _ HE) as Hc. split.
      * rewrite Hc. unfold fupd. by rewrite decide_True.
      * intros k' Hk. rewrite Hc. unfold fupd. by rewrite decide_False.
  - pose proof (DisableReal_active k w) as Ha.
    destruct (DisableReal k w) as [[err|] w'] eqn:HE; simpl in *; (split; [done|]; split; [done|]).
    + by eapply DisableReal_refused.
    + pose proof (DisableReal_ok _ _ _ HE) as Hc. split.
      * rewrite Hc. unfold fupd. rewrite decide_True by done. by split.
      * intros k' Hk. rewrite Hc. unfold fupd. by rewrite decide_False.
Qed.

Definition is_LogReal (e : balancerLog E) : bool := match e with LogReal _ _ => true | _ => false end.
Definition is_LogFlush (e : balancerLog E) : bool := match e with LogFlush _ => true | _ => false end.

(** What holds while the pending events are processed: [done_] have been. *)
Definition processing (m : Balancer) (w : W) (current : key.Balancer -> xevent.Status) (done_ : gmap key.Balancer xevent.Event)
    '((evs, (w', log), n) : Registry key.Balancer xevent.Event * (W * list (balancerLog E)) * Z) : Prop :=
  delta_inv evs (configured w') current /\
  (forall k, active_status w' k = active_status w k) /\
  0 <= n <= msize done_ /\
  (n = 0 -> forall k, configured w' k = configured w k) /\
  (existsb is_LogReal log = false -> forall k, is_Some (done_ !! k) -> events evs !! k = None) /\
  (forall k, done_ !! k = None -> events evs !! k = events (bevents m) !! k).

Lemma processing_refused m w current done_ evs w1 l1 n k e err w2 :
  done_ !! k = None -> processing m w current done_ (evs, (w1, l1), n) ->
  (forall k, configured w2 k = configured w1 k) -> (forall k, active_status w2 k = active_status w1 k) ->
  processing m w current (<[k:=e]> done_) (evs, (w2, l1 ++ [LogReal k err]), n).
Proof.
  intros Hnew (Hd & Ha & Hn & Hz & Hl & Hrest) Hc Ha2. unfold processing. rewrite msize_insert by done. split_and!.
  - intros k'. specialize (Hd k'). by rewrite Hc.
  - intros k'. by rewrite Ha2.
  - lia.
  - lia.
  - intros Hn0 k'. rewrite Hc. by apply Hz.
  - rewrite existsb_app. simpl. by rewrite orb_true_r.
  - intros k' Hk'. rewrite lookup_insert in Hk'. case_decide; [done|]. by apply Hrest.
Qed.

Lemma processing_done m w current done_ evs w1 l1 n k e w2 :
  done_ !! k = None -> events (bevents m) !! k = Some e -> processing m w current done_ (evs, (w1, l1), n) ->
  msize (<[k:=e]> done_) < two63 ->
  configured w2 k ≈ xevent.ENew e -> (forall k', k <> k' -> configured w2 k' = configured w1 k') ->
  (forall k, active_status w2 k = active_status w1 k) ->
  processing m w current (<[k:=e]> done_) (MkRegistry (delete k (events evs)), (w2, l1), n +i 1).
Proof.
  intros Hnew He (Hd & Ha & Hn & Hz & Hl & Hrest) Hsz Hck Hco Ha2. unfold processing. rewrite msize_insert in Hsz |- * by done.
  rewrite wrap64_small by (unfold is_int64; lia). split_and!; try lia.
  - intros k'. simpl. rewrite lookup_delete. specialize (Hd k'). destruct (decide (k = k')) as [<-|Hk].
    + rewrite Hrest, He in Hd by done. rewrite Hck. apply Hd.
    + by rewrite Hco.
  - intros k'. by rewrite Ha2.
  - intros Hl0 k' Hk'. simpl. rewrite lookup_delete. case_decide as Hk; [done|].
    apply Hl; [done|]. by rewrite lookup_insert_ne in Hk'.
  - intros k' Hk'. simpl. rewrite lookup_insert in Hk'. case_decide; [done|].
    rewrite lookup_delete_ne by done. by apply Hrest.
Qed.

Lemma Process_spec m w current :
  msize (events (bevents m)) < two63 ->
  delta_inv (bevents m) (configured w) current ->
  let '(evs, (w', log), processed) := Process updateReal (bevents m) (w, []) in
  delta_inv evs (configured w') current /\
  (forall k, active_status w' k = active_status w k) /\
  0 <= processed /\
  (processed = 0 -> forall k, configured w' k = configured w k) /\
  (existsb is_LogReal log = false -> forall k, events evs !! k = None).
Proof.
  intros Hsz Hinv.
  assert (processing m w current (events (bevents m)) (Process updateReal (bevents m) (w, []))) as Hp.
  { apply (Process_cons_inv updateReal (bevents m) (w, []) (processing m w current)).
    - split_and!; [done|done|done|apply msize_nonneg|done| |done]. intros _ k [e He]. by rewrite lookup_empty in He.
    - intros k e done_ r1 [w1 l1] n Hnew He Hsub Hpr. pose proof (updateReal_step k e w1 l1) as Hstep.
      destruct (updateReal k e (w1, l1)) as [[err|] [w2 l2]]; destruct Hstep as [Ha2 Hstep].
      + destruct Hstep as [-> Hc]. by eapply processing_refused.
      + destruct Hstep as (-> & Hck & Hco). eapply processing_done; try done.
        assert (msize (<[k:=e]> done_) <= msize (events (bevents m))) by (apply msize_mono, insert_subseteq_l; done). lia. }
  destruct (Process updateReal (bevents m) (w, [])) as [[evs [w' log]] n].
  destruct Hp as (Hd & Ha & Hn & Hz & Hl & Hrest). split_and!; [done|done|lia|done|].
  intros Hl0 k. destruct (events (bevents m) !! k) eqn:Hk; [apply Hl; [done|eauto]|]. by rewrite Hrest.
Qed.

(** The part of [updateBalancer] that talks to the load balancer. *)
Lemma updateBalancer_split m a w :
  exists evs w1 log1 processed a' log2,
    Process updateReal (bevents m) (w, []) = (evs, (w1, log1), processed) /\
    let r := if 0 <? processed then FlushClient w1 else (None, w1) in
    updateBalancer m a w =
      (MkBalancer (bstate m) evs (bshutdown m), a', r.2,
       log1 ++ match r.1 with Some e => [LogFlush e] | None => [] end ++ log2) /\
    Forall (fun e => is_LogReal e || is_LogFlush e = false) log2.
Proof.
  unfold updateBalancer. destruct (FlushServiceEvents a) as [anns a0].
  destruct (Process updateReal (bevents m) (w, [])) as [[evs [w1 log1]] n].
  assert (forall log, exists a' log2,
    announceServices anns a0 log = (a', log ++ log2) /\
    Forall (fun e => is_LogReal e || is_LogFlush e = false) log2) as Hann.
  { intros log. unfold announceServices.
    apply (for_range_ind (fun (_ : gmap key.Service ServiceStatus) (s : Announcer * list (balancerLog E)) =>
      exists a'' log2, s = (a'', log ++ log2) /\
        Forall (fun e => is_LogReal e || is_LogFlush e = false) log2)).
    - exists a0, []. by rewrite app_nil_r.
    - intros s e done_ [a1 l1] _ _ _ (a2 & log2 & [= -> ->] & Hl).
      destruct (UpdateService s e a2) as [[err|] a3].
      + exists a3, (log2 ++ [LogService s err]). rewrite app_assoc. split; [done|].
        apply Forall_app. split; [done|]. by repeat constructor.
      + by exists a3, log2. }
  destruct (0 <? n) eqn:Hn.
  - destruct (FlushClient w1) as [[e|] w2] eqn:HF.
    + destruct (Hann (log1 ++ [LogFlush e])) as (a' & log2 & -> & Hl).
      exists evs, w1, log1, n, a', log2. rewrite Hn, HF. split; [done|]. simpl. by rewrite <- app_assoc.
    + destruct (Hann log1) as (a' & log2 & -> & Hl).
      exists evs, w1, log1, n, a', log2. by rewrite Hn, HF.
  - destruct (Hann log1) as (a' & log2 & -> & Hl).
    exists evs, w1, log1, n, a', log2. by rewrite Hn.
Qed.

(** The steps of the balancer, with the status the checks last reported for
    every real; [a] is shared with the core, which may change it at any time.
    Updates whose flush is refused are excluded ([refused_flush_not_retried]). *)
Inductive bal_step : Balancer * Announcer * W * (key.Balancer -> xevent.Status) ->
    Balancer * Announcer * W * (key.Balancer -> xevent.Status) -> Prop :=
| bal_event e m a w current :
    xevent.EInit e ≈ current (xevent.EBalancer e) ->
    bal_step (m, a, w, current)
             (HandleEvent e m, a, w, fupd current (xevent.EBalancer e) (xevent.ENew e))
| bal_update m a w current m' a' w' log :
    msize (events (bevents m)) < two63 ->
    updateBalancer m a w = (m', a', w', log) -> existsb is_LogFlush log = false ->
    bal_step (m, a, w, current) (m', a', w', current)
| bal_stater m a w current (response : res E (gmap string services_)) :
    bal_step (m, a, w, current) (stater_tick response m, a, w, current)
| bal_announcer m a a' w current :
    bal_step (m, a, w, current) (m, a', w, current).

Definition bal_inv (s : Balancer * Announcer * W * (key.Balancer -> xevent.Status)) : Prop :=
  let '(m, _, w, current) := s in
  delta_inv (bevents m) (configured w) current /\
  forall k, active_status w k = configured w k.

Lemma updateBalancer_inv m a w current m' a' w' log :
  msize (events (bevents m)) < two63 ->
  updateBalancer m a w = (m', a', w', log) ->
  bal_inv (m, a, w, current) -> existsb is_LogFlush log = false ->
  bal_inv (m', a', w', current) /\
  (existsb is_LogReal log = false -> forall k, configured w' k ≈ current k).
Proof.
  intros Hsz Hup [Hd Hact] Hflush.
  destruct (updateBalancer_split m a w) as (evs & w1 & log1 & n & a1 & log2 & HP & Hspec).
  pose proof (Process_spec m w current Hsz Hd) as HPs. rewrite HP in HPs.
  destruct HPs as (Hd1 & Ha1 & Hn & Hz & Hl). destruct Hspec as [Hspec _].
  rewrite Hspec in Hup. injection Hup as <- <- <- <-.
  rewrite !existsb_app, !orb_false_iff in Hflush. destruct Hflush as (_ & Hfl & _).
  assert (forall k, configured (if 0 <? n then FlushClient w1 else (None, w1)).2 k = configured w1 k /\
                    active_status (if 0 <? n then FlushClient w1 else (None, w1)).2 k = configured w1 k) as Hf.
  { destruct (Z.ltb_spec 0 n).
    - destruct (FlushClient w1) as [[e|] w2] eqn:HF; simpl in Hfl; [done|]. by apply Flush_ok.
    - intros k. split; [done|]. simpl. rewrite Ha1, Hz by lia. done. }
  split; [split|].
  - intros k. specialize (Hd1 k). by rewrite (proj1 (Hf k)).
  - intros k. by rewrite (proj1 (Hf k)), (proj2 (Hf k)).
  - rewrite !existsb_app, !orb_false_iff. intros [Hr _] k. rewrite (proj1 (Hf k)).
    specialize (Hd1 k). by rewrite Hl in Hd1.
Qed.
End tracking.

Section tracked_balancer.
Context `{MR : MapRange} {W E : Type} `{CL : LoadBalancerLaws W E}.

Lemma bal_step_inv s s' : bal_step s s' -> bal_inv s -> bal_inv s'.
Proof.
  destruct 1 as [e m a w current He | m a w current m' a' w' log Hsz Hup Hfl
                | m a w current response | m a a' w current]; intros Hinv.
  - destruct Hinv as [Hd Ha]. split; [|done].
    exact (delta_inv_Store (bevents m) (configured w) current (xevent.EBalancer e) e Hd He).
  - by eapply updateBalancer_inv.
  - destruct response; exact Hinv.
  - exact Hinv.
Qed.

End tracked_balancer.

(** ** The announcer follows the services *)

Section announces.
Context `{MR : MapRange} {W E : Type} `{C : LoadBalancerClient W E}.

Definition service_status (a : Announcer) (svc : key.Service) : option ServiceStatus :=
  prefixes (aprefixes a) !! key.Service_Prefix svc ≫= fun s => services s !! svc.

Lemma UpdateService_status svc st a svc' :
  ann_inv a ->
  service_status (UpdateService svc st a).2 svc' =
  if decide (svc = svc') then (fun _ => st) <$> service_status a svc' else service_status a svc'.
Proof.
  intros (_ & Hg & _). unfold UpdateService, GetGroup, service_status. rewrite Hg.
  pose proof (UpdateService_functional svc st (aprefixes a)) as HF. cbv zeta in HF.
  destruct (prefixes (aprefixes a) !! key.Service_Prefix svc) as [s|] eqn:Hs; simpl.
  - destruct (Prefixes_UpdateService svc st (aprefixes a)) as [err p]. simpl in *.
    destruct HF as [_ HF]. rewrite HF.
    destruct (decide (svc = svc')) as [<-|Hne].
    + rewrite decide_True, Hs by done. simpl.
      destruct (services s !! svc) as [old|] eqn:Hold; simpl; [by rewrite lookup_insert_eq|done].
    + destruct (decide (key.Service_Prefix svc = key.Service_Prefix svc')) as [Hp|]; [|done].
      rewrite <- Hp, Hs. simpl. case_decide; [by rewrite lookup_insert_ne|done].
  - case_decide as Hc; [|done]. subst svc'. by rewrite Hs.
Qed.

Lemma updateBalancer_delivers (m m' : Balancer) (a a' : Announcer) (w w' : W)
    (log : list (balancerLog E)) (svc : key.Service) :
  ann_inv a ->
  updateBalancer m a w = (m', a', w', log) ->
  ann_inv a' /\ events (serviceEventRegistry a') = ∅ /\
  service_status a' svc =
    (fun old => default old (events (serviceEventRegistry a) !! svc)) <$> service_status a svc.
Proof.
  intros Hinv. unfold updateBalancer, FlushServiceEvents, Flush.
  set (anns := events (serviceEventRegistry a)). set (a0 := MkAnnouncer _ _ _ _ _).
  assert (forall l, let '(a2, _) := announceServices (E:=E) anns a0 l in
    ann_inv a2 /\ events (serviceEventRegistry a2) = ∅ /\
    service_status a2 svc = (fun old => default old (anns !! svc)) <$> service_status a svc) as Hann.
  { intros l. unfold announceServices.
    apply (for_range_ind (fun (done_ : gmap key.Service ServiceStatus)
      '((a2, _) : Announcer * list (balancerLog E)) =>
      ann_inv a2 /\ events (serviceEventRegistry a2) = ∅ /\
      service_status a2 svc = (fun old => default old (done_ !! svc)) <$> service_status a svc)).
    - split_and!; [exact Hinv|done|]. change (service_status a0 svc) with (service_status a svc).
      rewrite lookup_empty. simpl. by destruct (service_status a svc).
    - intros s st done_ [a2 l2] Hnew Hs Hsub (Hi & He & Hst).
      pose proof (UpdateService_inv s st a2 Hi) as Hi'.
      pose proof (UpdateService_status s st a2 svc Hi) as Hst'.
      assert (serviceEventRegistry (UpdateService s st a2).2 = serviceEventRegistry a2) as He'.
      { unfold UpdateService. destruct (GetGroup _ _); [|done]. by destruct (Prefixes_UpdateService _ _ _). }
      destruct (UpdateService s st a2) as [[err|] a3]; simpl in *;
        (split_and!; [done|by rewrite He'|]; rewrite Hst', Hst, lookup_insert;
         case_decide; [|done]; by destruct (service_status a svc)). }
  destruct (Process updateReal (bevents m) (w, [])) as [[evs [w1 log1]] n].
  destruct (if 0 <? n then _ else _) as [w2 log2]. specialize (Hann log2).
  destruct (announceServices anns a0 log2) as [a2 log3]. by intros [= <- <- <- <-].
Qed.

(** An update delivers every pending service event to the announcer:
    afterwards each service that holds a prefix has the status last
    registered for it, and its previous status if none was; no event is kept. *)
Theorem updateBalancer_announces (m m' : Balancer) (a a' : Announcer) (w w' : W)
    (log : list (balancerLog E)) (svc : key.Service) :
  ann_inv a ->
  updateBalancer m a w = (m', a', w', log) ->
  ann_inv a' /\ events (serviceEventRegistry a') = ∅ /\
  service_status a' svc =
    (fun old => default old (events (serviceEventRegistry a) !! svc)) <$> service_status a svc.
Proof. apply updateBalancer_delivers. Qed.
End announces.

(** ** Subscriptions *)

(** The goroutine of [LookupSubscription]: it evaluates [Subscribe] when it
    enters the [select], and then waits for that channel to be closed. *)
Inductive Subscription :=
| SubNone                 (* no channel: the key was known, or no state is kept *)
| SubEntering             (* about to enter the select *)
| SubWaiting (ch : nat)
| SubNotified             (* a notification was sent, the channel closed *)
| SubCancelled.

Section subscriptions.
Context `{MR : MapRange}.

Definition LookupSubscription (key : key.Balancer) (m : Balancer) : Subscription :=
  match bstate m with
  | None => SubNone
  | Some st => if Lookup key st then SubNone else SubEntering
  end.

(** Steps of one subscriber against the shared state. *)
Inductive sub_step (key : key.Balancer) : State * Subscription -> State * Subscription -> Prop :=
| sub_enter st : sub_step key (st, SubEntering) (st, SubWaiting (Subscribe st))
| sub_found st ch :
    closed ch st = true -> Lookup key st = true ->
    sub_step key (st, SubWaiting ch) (st, SubNotified)
| sub_not_found st ch :
    closed ch st = true -> Lookup key st = false ->
    sub_step key (st, SubWaiting ch) (st, SubEntering)
| sub_cancel st s :
    s = SubEntering \/ (exists ch, s = SubWaiting ch) -> sub_step key (st, s) (st, SubCancelled)
| sub_update st s new : sub_step key (st, s) (State_Update new st, s).

Definition sub_inv (s : State * Subscription) : Prop :=
  match s.2 with SubWaiting ch => (ch <= notify s.1)%nat | _ => True end.

Lemma sub_step_inv k s s' : sub_step k s s' -> sub_inv s -> sub_inv s'.
Proof. destruct 1; unfold sub_inv; simpl; try done. destruct s; lia. Qed.

(** A subscriber that waits cannot miss an update: from any state a
    subscription can reach, after the next update of the balancer's state
    every waiting subscriber can run, and is notified if its real is there. *)
Theorem subscriber_notified (key : key.Balancer) (st0 st : State) (ch : nat) (new : gmap string services_) :
  rtc (sub_step key) (st0, SubEntering) (st, SubWaiting ch) ->
  closed ch (State_Update new st) = true /\
  (Lookup key (State_Update new st) = true ->
   sub_step key (State_Update new st, SubWaiting ch) (State_Update new st, SubNotified)).
Proof.
  intros Hsteps.
  assert (sub_inv (st, SubWaiting ch)) as Hinv.
  { assert (sub_inv (st0, SubEntering)) as H0 by done. revert H0.
    generalize dependent (st0, SubEntering). intros s Hs H0.
    induction Hs; eauto using sub_step_inv. }
  unfold sub_inv in Hinv. simpl in Hinv.
  assert (closed ch (State_Update new st) = true) as Hc
    by (unfold closed, State_Update, notification; simpl; apply Nat.ltb_lt; lia).
  split; [done|]. intros Hl. by apply sub_found.
Qed.
End subscriptions.

(** ** A load balancer, and concrete runs *)

(** A load balancer whose oracle says which requests it refuses. *)
Record LB := MkLB {
  lb_config : gmap key.Balancer xevent.Status;
  lb_active : gmap key.Balancer xevent.Status;
  lb_refuses : list bool;
}.

Definition down : xevent.Status := xevent.MkStatus false 0.

Definition lb_request (f : LB -> LB) (w : LB) : option unit * LB :=
  match lb_refuses w with
  | true :: r => (Some tt, MkLB (lb_config w) (lb_active w) r)
  | r => (None, f (MkLB (lb_config w) (lb_active w) (tail r)))
  end.

#[export] Instance LB_Client : LoadBalancerClient LB unit := {|
  EnableReal := fun k wt => lb_request (fun w => MkLB (<[k := xevent.MkStatus true wt]> (lb_config w)) (lb_active w) (lb_refuses w));
  DisableReal := fun k => lb_request (fun w => MkLB (<[k := down]> (lb_config w)) (lb_active w) (lb_refuses w));
  FlushClient := lb_request (fun w => MkLB (lb_config w) (lb_config w) (lb_refuses w));
|}.

Ltac solve_lb :=
  intros; simpl in *; unfold lb_request in *;
  match goal with
  | _ : context [lb_refuses ?w] |- _ => destruct (lb_refuses w) as [|[] ?]
  | |- context [lb_refuses ?w] => destruct (lb_refuses w) as [|[] ?]
  end;
  simplify_eq/=; unfold fupd, down; rewrite ?lookup_insert; try case_decide; done.

#[export] Program Instance LB_Laws : LoadBalancerLaws LB unit := {|
  configured := fun w k => default down (lb_config w !! k);
  active_status := fun w k => default down (lb_active w !! k);
|}.
Next Obligation. solve_lb. Qed.
Next Obligation. solve_lb. Qed.
Next Obligation. solve_lb. Qed.
Next Obligation. solve_lb. Qed.
Next Obligation. solve_lb. Qed.
Next Obligation. solve_lb. Qed.
Next Obligation. solve_lb. Qed.
Next Obligation. solve_lb. Qed.

Section concrete.
Definition real1 : key.Balancer := key.MkBalancer http1 (key.MkReal host2 80).
Definition real2 : key.Balancer := key.MkBalancer http1 (key.MkReal host1 80).
Definition on (wt : Z) : xevent.Status := xevent.MkStatus true wt.
Definition up1 : xevent.Event := xevent.MkEvent xevent.Enable real1 (on 10) down.
Definition up2 : xevent.Event := xevent.MkEvent xevent.Enable real2 (on 20) down.
Definition down1 : xevent.Event := xevent.MkEvent xevent.Disable real1 (xevent.MkStatus false 10) (on 10).
Definition empty_lb (r : list bool) : LB := MkLB ∅ ∅ r.
Definition all_down : key.Balancer -> xevent.Status := fun _ => down.
Definition a1 : Announcer := New config1.

(** [real1] goes up, the request fails; it goes down before the next update. *)
Definition b1 : Balancer := HandleEvent up2 (HandleEvent up1 (NewBalancer true)).
Definition after_handle : key.Balancer -> xevent.Status :=
  fupd (fupd all_down real1 (on 10)) real2 (on 20).

Lemma b1_reachable (r : list bool) :
  rtc bal_step (NewBalancer true, a1, empty_lb r, all_down) (b1, a1, empty_lb r, after_handle).
Proof.
  eapply rtc_l; [apply (bal_event up1); done|]. eapply rtc_l; [|constructor].
  apply (bal_event up2). simpl. unfold fupd. rewrite decide_False by done. done.
Qed.


Lemma updateBalancer_announces_witness :
  let a := RegisterServiceEvent http1 ServiceDisabled (RegisterServiceEvent dns1 ServiceEnabled up_state) in
  let '(m', a', w', log) := updateBalancer (NewBalancer true) a (empty_lb []) in
  ann_inv a' /\ events (serviceEventRegistry a') = ∅ /\
  service_status a' http1 = Some ServiceDisabled.
Proof.
  set (a := RegisterServiceEvent _ _ _).
  assert (ann_inv a) as Ha.
  { apply (do_anns_inv (up ++ [OpRegister dns1 ServiceEnabled; OpRegister http1 ServiceDisabled]) (New config1));
      [repeat constructor | apply ann_inv_New]. }
  cbv zeta.
  destruct (updateBalancer (NewBalancer true) a (empty_lb [])) as [[[m' a'] w'] log] eqn:E.
  destruct (updateBalancer_announces (NewBalancer true) m' a a' (empty_lb []) w' log http1 Ha E) as (H1 & H2 & H3).
  split; [exact H1|]. split; [exact H2|]. rewrite H3. vm_compute. reflexivity.
Defined.

Definition one_real : gmap string services_ :=
  {["balancer0"%string := {[http1 := {[key.BReal real1]}]}]}.

Lemma subscriber_notified_witness :
  rtc (sub_step real1) (NewState, SubEntering) (NewState, SubWaiting 0) /\
  sub_step real1 (State_Update one_real NewState, SubWaiting 0) (State_Update one_real NewState, SubNotified).
Proof.
  assert (rtc (sub_step real1) (NewState, SubEntering) (NewState, SubWaiting 0)) as Hs
    by (eapply rtc_l; [apply sub_enter|constructor]).
  split; [exact Hs|].
  destruct (subscriber_notified real1 NewState NewState 0 one_real Hs) as [_ H].
  apply H. vm_compute. reflexivity.
Defined.

(** An update that happens between the lookup and the first [Subscribe] is
    missed: the real is in the state, and the subscriber waits for a channel
    that only a later update closes. *)
Theorem subscriber_misses_update :
  LookupSubscription real1 (NewBalancer true) = SubEntering /\
  rtc (sub_step real1) (NewState, SubEntering) (State_Update one_real NewState, SubWaiting 1) /\
  Lookup real1 (State_Update one_real NewState) = true /\
  closed 1 (State_Update one_real NewState) = false.
Proof.
  split; [vm_compute; reflexivity|]. split; [|split; vm_compute; reflexivity].
  eapply rtc_l; [apply sub_update|]. eapply rtc_l; [apply sub_enter|constructor].
Qed.

(** A refused flush is not retried.  Two reals are enabled, the flush
    fails; the next update finds no pending event and does not flush: the
    reals stay inactive although every later request would succeed. *)
Theorem refused_flush_not_retried :
  let '(m1, a1', w1, log1) := updateBalancer b1 a1 (empty_lb [false; false; true]) in
  let '(m2, a2, w2, log2) := updateBalancer m1 a1' w1 in
  log1 = [LogFlush tt] /\ log2 = [] /\ events (bevents m2) = ∅ /\
  configured w2 real1 = on 10 /\ active_status w2 real1 = down.
Proof. vm_compute. repeat split. Qed.

(** A service is announced although its reals could not be enabled: the
    update passes the service events on when requests to the load balancer
    fail, too. *)
Theorem announced_without_reals :
  let a := RegisterServiceEvent dns1 ServiceEnabled (do_ann (OpUpdateService dns1 ServiceDisabled) up_state) in
  let '(m', a', w', log) := updateBalancer b1 a (empty_lb [true; true]) in
  announced (aprefixes a') (key1 "a") = Ready /\ existsb is_LogReal log = true /\
  active_status w' real1 = down /\ active_status w' real2 = down.
Proof. vm_compute. repeat split. Qed.
End concrete.
