(* ===== verification/Scheduler.v ===== *)
(** * The scheduler of health checks

    [internal/scheduler]: delays and retries of a periodic job.  Delays come from
    floating-point configuration values in seconds; a run is the state machine of
    [Scheduler.Run] driven by timer expirations, job results and cancellation. *)

From Stdlib Require Import SpecFloat.
From stdpp Require Import strings numbers gmap sets list.
From S2P Require Import Prelude.
From S2P Require Import Utils.

Open Scope Z_scope.
Open Scope go_scope.

(** ** float64 *)

(** Go's [float64] is IEEE 754 binary64. *)
Definition float64 : Type := spec_float.

#[export] Instance float64_eq_dec : EqDecision float64.
Proof. intros x y. unfold Decision. decide equality; try apply Z.eq_dec; try apply Pos.eq_dec; decide equality. Defined.

Definition float64_code (x : float64) : nat * bool * positive * Z :=
  match x with
  | S754_zero s => (0%nat, s, 1%positive, 0)
  | S754_infinity s => (1%nat, s, 1%positive, 0)
  | S754_nan => (2%nat, true, 1%positive, 0)
  | S754_finite s m e => (3%nat, s, m, e)
  end.

Definition float64_decode (c : nat * bool * positive * Z) : float64 :=
  match c with
  | (0%nat, s, _, _) => S754_zero s
  | (1%nat, s, _, _) => S754_infinity s
  | (2%nat, _, _, _) => S754_nan
  | (_, s, m, e) => S754_finite s m e
  end.

Lemma float64_decode_code x : float64_decode (float64_code x) = x.
Proof. by destruct x. Qed.

#[export] Instance float64_countable : Countable float64 :=
  inj_countable' float64_code float64_decode float64_decode_code.

Definition f64_mul (x y : float64) : float64 := SFmul 53 1024 x y.
Definition f64_eqb (x y : float64) : bool := SFeqb x y.

(** [float64(z)] of an integer: rounded to nearest even. *)
Definition f64_of_Z (z : Z) : float64 := binary_normalize 53 1024 z 0 false.

(** Truncation towards zero; [None] for NaN and the infinities. *)
Definition f64_trunc (x : float64) : option Z :=
  match x with
  | S754_zero _ => Some 0
  | S754_finite s m e =>
      let v := if 0 <=? e then Z.pos m * 2 ^ e else Z.pos m / 2 ^ (- e) in
      Some (if s then - v else v)
  | _ => None
  end.

(** A conversion to an integer type that cannot represent the value is
    implementation-defined in Go: the development is parametric in it. *)
Class FloatToInt := float_overflow : float64 -> Z.

(** amd64 converts them to the smallest integer. *)
#[export] Instance amd64_float : FloatToInt | 100 := fun _ => - two63.

Definition f64_to_int64 `{FloatToInt} (x : float64) : Z :=
  match f64_trunc x with
  | Some z => if (- two63 <=? z) && (z <? two63) then z else float_overflow x
  | None => float_overflow x
  end.

(** ** time.Duration *)

Definition Second : Z := 10 ^ 9.

(** ** config.go *)

Definition defaultDelayLoop : Z := 60 * Second.
Definition defaultRetries : Z := 1.
Definition defaultRetryDelay : Z := 3 * Second.

(** The pointers of the configuration are optional values. *)
Record Config := MkConfig {
  DelayLoop : option float64;
  Retries : option Z;
  RetryDelay : option float64;
}.

(** [Seconds] of the default delays, whole numbers of seconds. *)
Definition Config_Default : Config :=
  MkConfig (Some (f64_of_Z (defaultDelayLoop / Second))) (Some defaultRetries)
           (Some (f64_of_Z (defaultRetryDelay / Second))).

Section scheduler.
Context `{F : FloatToInt}.

Definition GetDelayLoop (m : Config) : Z :=
  match DelayLoop m with
  | None => defaultDelayLoop
  | Some f => wrap64 (f64_to_int64 f * Second)
  end.

Definition GetRetries (m : Config) : Z :=
  match Retries m with
  | None => defaultRetries
  | Some r => r
  end.

Definition GetRetryDelay (m : Config) : Z :=
  match RetryDelay m with
  | None => defaultRetryDelay
  | Some f => wrap64 (f64_to_int64 f * Second)
  end.

(** ** scheduler.go *)

Record Scheduler := MkScheduler { config : Config; initDelay : Z }.

(** [WithInitialDelay] draws [rnd], a float in [0,1). *)
Definition WithInitialDelay (rnd : float64) (s : Scheduler) : Scheduler :=
  MkScheduler (config s) (f64_to_int64 (f64_mul rnd (f64_of_Z (GetDelayLoop (config s))))).

Definition New (config : Config) (opts : list (Scheduler -> Scheduler)) : Scheduler :=
  for_each (fun opt s => opt s) opts (MkScheduler config 0).

Definition InitialDelay (m : Scheduler) : Z := initDelay m.

(** Where [Run] blocks: in a [select] on its timer and the cancellation, or in
    attempt [i] of the job. *)
Inductive phase :=
| WaitInitial
| RunJob (i : Z)
| WaitRetry (i : Z)
| WaitLoop
| Returned.   (* with the error of the context *)

Inductive input :=
| TimerExpired
| Cancelled
| JobReturned (ok : bool).

(** The timers set while going to the next blocking point. *)
Definition start_attempt (m : Scheduler) (i : Z) : phase * list Z :=
  if i <=? GetRetries (config m) then (RunJob i, []) else (WaitLoop, [GetDelayLoop (config m)]).

(** [Run] up to its first [select]. *)
Definition Run_start (cancelled : bool) (m : Scheduler) : phase * list Z :=
  if cancelled then (Returned, [initDelay m]) else (WaitInitial, [initDelay m]).

Definition Run_step (m : Scheduler) (p : phase) (inp : input) : option (phase * list Z) :=
  match p, inp with
  | WaitInitial, TimerExpired => Some (start_attempt m 0)
  | WaitRetry i, TimerExpired => Some (start_attempt m (i +i 1))
  | WaitLoop, TimerExpired => Some (start_attempt m 0)
  | (WaitInitial | WaitRetry _ | WaitLoop), Cancelled => Some (Returned, [])
  | RunJob _, JobReturned true => Some (WaitLoop, [GetDelayLoop (config m)])
  | RunJob i, JobReturned false =>
      if i =? GetRetries (config m) then Some (WaitLoop, [GetDelayLoop (config m)])
      else Some (WaitRetry i, [GetRetryDelay (config m)])
  | _, _ => None
  end.

(** A sequence of inputs; the timers set along it are accumulated. *)
Fixpoint Run_steps (m : Scheduler) (p : phase) (inputs : list input) : option (phase * list Z) :=
  match inputs with
  | [] => Some (p, [])
  | inp :: inputs =>
      match Run_step m p inp with
      | None => None
      | Some (p, timers) =>
          match Run_steps m p inputs with
          | None => None
          | Some (p, timers') => Some (p, timers ++ timers')
          end
      end
  end.
End scheduler.

#[export] Instance phase_eq_dec : EqDecision phase.
Proof. solve_decision. Defined.

(** ** Properties *)

Section properties.
Context `{F : FloatToInt}.
Implicit Types (m : Scheduler).

Lemma Run_steps_app m p l1 l2 :
  Run_steps m p (l1 ++ l2) =
  match Run_steps m p l1 with
  | None => None
  | Some (p, t1) => match Run_steps m p l2 with None => None | Some (q, t2) => Some (q, t1 ++ t2) end
  end.
Proof.
  revert p. induction l1 as [|inp l1 IH]; intros p; simpl; [by destruct (Run_steps m p l2) as [[]|]|].
  destruct (Run_step m p inp) as [[q t]|]; [|done]. rewrite IH.
  destruct (Run_steps m q l1) as [[q' t']|]; [|done].
  destruct (Run_steps m q' l2) as [[q'' t'']|]; [|done]. by rewrite app_assoc.
Qed.

(** Attempts [i], [i+1], ... fail [n] times, with a retry delay after each. *)
Lemma failing_attempts m i (n : nat) :
  0 <= i -> i + Z.of_nat n <= GetRetries (config m) -> GetRetries (config m) < two63 ->
  Run_steps m (RunJob i) (concat (replicate n [JobReturned false; TimerExpired])) =
  Some (RunJob (i + Z.of_nat n), replicate n (GetRetryDelay (config m))).
Proof.
  intros Hi Hn Hr. revert i Hi Hn. induction n as [|n IH]; intros i Hi Hn; [simpl; do 3 f_equal; lia|].
  cbn [replicate concat app Run_steps Run_step].
  destruct (Z.eqb_spec i (GetRetries (config m))); [lia|]. cbn [Run_steps Run_step].
  rewrite wrap64_small by (unfold is_int64; lia). unfold start_attempt.
  destruct (Z.leb_spec (i + 1) (GetRetries (config m))); [|lia]. cbn [app].
  rewrite IH by lia. do 3 f_equal. lia.
Qed.

(** One cycle of the scheduler.  When the job fails [n] times and then
    either succeeds or has used up its [retries + 1] attempts, [Run] has waited
    the retry delay after each failed attempt but the last, and then waits the
    loop delay. *)
Theorem Run_cycle (m : Scheduler) (n : nat) (ok : bool) :
  Z.of_nat n <= GetRetries (config m) < two63 ->
  (ok = false -> Z.of_nat n = GetRetries (config m)) ->
  Run_steps m WaitLoop
    (TimerExpired :: concat (replicate n [JobReturned false; TimerExpired]) ++ [JobReturned ok]) =
  Some (WaitLoop, replicate n (GetRetryDelay (config m)) ++ [GetDelayLoop (config m)]).
Proof.
  intros Hn Hok. cbn [Run_steps Run_step]. unfold start_attempt.
  destruct (Z.leb_spec 0 (GetRetries (config m))); [|lia].
  rewrite Run_steps_app, failing_attempts by lia. cbn [Run_steps Run_step].
  destruct ok; [done|]. destruct (Z.eqb_spec (0 + Z.of_nat n) (GetRetries (config m))); [done|].
  specialize (Hok eq_refl). lia.
Qed.

Definition phase_ok m (p : phase) : Prop :=
  match p with
  | RunJob i => 0 <= i <= GetRetries (config m)
  | WaitRetry i => 0 <= i < GetRetries (config m)
  | _ => True
  end.

Lemma Run_step_ok m p inp q t :
  GetRetries (config m) < two63 -> phase_ok m p -> Run_step m p inp = Some (q, t) -> phase_ok m q.
Proof.
  intros Hr Hp.
  assert (forall i, 0 <= i -> phase_ok m (start_attempt m i).1) as Hs.
  { intros i Hi. unfold start_attempt. destruct (Z.leb_spec i (GetRetries (config m))); simpl; lia. }
  destruct p, inp as [| |[]]; simpl in *; try done;
    try (intros [= Hq _]; rewrite <- Hq; done || (apply Hs; lia)).
  - intros [= Hq]. pose proof (Hs 0 ltac:(lia)) as H0. by rewrite Hq in H0.
  - destruct (Z.eqb_spec i (GetRetries (config m))); intros [= <- _]; simpl; lia.
  - intros [= Hq]. rewrite wrap64_small in Hq by (unfold is_int64; lia).
    pose proof (Hs (i + 1) ltac:(lia)) as H0. by rewrite Hq in H0.
  - intros [= Hq]. pose proof (Hs 0 ltac:(lia)) as H0. by rewrite Hq in H0.
Qed.


(** A loop delay or retry delay of less than a second, such as 0.5, is
    no delay at all: the float is converted to an integer number of seconds
    before it is multiplied. *)
Theorem fractional_delay_is_zero (mant : positive) (e : Z) :
  e < 0 -> Z.pos mant < 2 ^ (- e) ->
  GetDelayLoop (MkConfig (Some (S754_finite false mant e)) None None) = 0 /\
  GetRetryDelay (MkConfig None None (Some (S754_finite false mant e))) = 0.
Proof.
  intros He Hm.
  assert (f64_to_int64 (S754_finite false mant e) = 0) as H0.
  { unfold f64_to_int64, f64_trunc. destruct (Z.leb_spec 0 e); [lia|].
    rewrite Z.div_small by lia. done. }
  unfold GetDelayLoop, GetRetryDelay. simpl. by rewrite H0.
Qed.
End properties.

Section concrete.
Definition sched1 : Scheduler := MkScheduler (MkConfig None (Some 2) None) 0.

Lemma Run_cycle_witness :
  Run_steps sched1 WaitLoop
    [TimerExpired; JobReturned false; TimerExpired; JobReturned false; TimerExpired; JobReturned true] =
  Some (WaitLoop, [3 * Second; 3 * Second; 60 * Second]).
Proof. apply (Run_cycle sched1 2 true); [split; [discriminate|reflexivity]|discriminate]. Defined.


Lemma fractional_delay_is_zero_witness :
  GetDelayLoop (MkConfig (Some (S754_finite false 4503599627370496 (-53))) None None) = 0.
Proof. apply (fractional_delay_is_zero 4503599627370496 (-53)); reflexivity. Defined.
End concrete.
