(* ===== verification/Check.v ===== *)
(** * Health checks

    [internal/core/checker/check]: the TCP, HTTP and gRPC checks.  What the
    network answers is an argument of the checks; requests, the judgement of
    the responses, digests and weights are computed here. *)

From Stdlib Require Import SpecFloat Ascii.
From stdpp Require Import strings numbers gmap sets list.
From S2P Require Import Prelude.
From S2P Require Import Types.
From S2P Require Import Utils.
From S2P Require Import Scheduler.

Open Scope Z_scope.
Open Scope go_scope.

(** ** Addresses as text ([net/netip]) *)

Definition hex_chr (d : Z) : ascii := ascii_of_nat (Z.to_nat (if d <? 10 then 48 + d else 87 + d)).

(** A 16-bit group in hexadecimal without leading zeros. *)
Definition appendHex (x : Z) : string :=
  (if 4096 <=? x then String (hex_chr (x / 4096)) "" else "") +:+
  (if 256 <=? x then String (hex_chr (x / 256 mod 16)) "" else "") +:+
  (if 16 <=? x then String (hex_chr (x / 16 mod 16)) "" else "") +:+
  String (hex_chr (x mod 16)) "".

Definition v6u16 (ip : Z) (i : nat) : Z := Z.shiftr ip (16 * (7 - Z.of_nat i)) mod 2 ^ 16.

(** Length of the run of zero groups that starts at [i]. *)
Fixpoint zero_run (fuel : nat) (ip : Z) (i : nat) : nat :=
  match fuel with
  | O => O
  | S fuel => if (i <? 8)%nat && (v6u16 ip i =? 0) then S (zero_run fuel ip (S i)) else O
  end.

(** The first longest run of at least two zero groups. *)
Definition longest_zeros (ip : Z) : option (nat * nat) :=
  for_each
    (fun i best =>
       let l := zero_run 8 ip i in
       if (2 <=? l)%nat && (match best with Some (s, e) => e - s | None => 0 end <? l)%nat
       then Some (i, (i + l)%nat) else best)
    (seq 0 8) None.

Fixpoint format6 (fuel : nat) (ip : Z) (zeros : option (nat * nat)) (i : nat) : string :=
  match fuel with
  | O => ""
  | S fuel =>
      if (8 <=? i)%nat then "" else
      match zeros with
      | Some (s, e) =>
          if (i =? s)%nat then
            "::" +:+ (if (8 <=? e)%nat then "" else appendHex (v6u16 ip e) +:+ format6 fuel ip zeros (S e))
          else (if (0 <? i)%nat then ":" else "") +:+ appendHex (v6u16 ip i) +:+ format6 fuel ip zeros (S i)
      | None => (if (0 <? i)%nat then ":" else "") +:+ appendHex (v6u16 ip i) +:+ format6 fuel ip zeros (S i)
      end
  end.

Definition format4 (ip : Z) : string :=
  Itoa (Z.shiftr ip 24 mod 256) +:+ "." +:+ Itoa (Z.shiftr ip 16 mod 256) +:+ "." +:+
  Itoa (Z.shiftr ip 8 mod 256) +:+ "." +:+ Itoa (ip mod 256).

Definition format_zone (zone : string) : string := if decide (zone = "") then "" else "%" +:+ zone.

Definition Addr_String (a : Addr) : string :=
  match a with
  | AddrInvalid => "invalid IP"
  | AddrV4 ip => format4 ip
  | AddrV6 ip zone =>
      (if Addr_Is4In6 a then "::ffff:" +:+ format4 (ip mod 2 ^ 32) else format6 9 ip (longest_zeros ip) 0)
      +:+ format_zone zone
  end.

Definition AddrPort_String (a : Addr) (port : Z) : string :=
  match a with
  | AddrInvalid => "invalid AddrPort"
  | AddrV4 ip => format4 ip +:+ ":" +:+ Itoa port
  | AddrV6 _ _ => "[" +:+ Addr_String a +:+ "]:" +:+ Itoa port
  end.

(** ** Byte strings *)

Definition bytes_of (s : string) : list Z :=
  (fun c => Z.of_nat (nat_of_ascii c)) <$> String.list_ascii_of_string s.
Definition of_bytes (l : list Z) : string :=
  String.string_of_list_ascii ((fun b => ascii_of_nat (Z.to_nat b)) <$> l).

Fixpoint has_prefix (p l : list Z) : option (list Z) :=
  match p, l with
  | [], _ => Some l
  | x :: p, y :: l => if x =? y then has_prefix p l else None
  | _ :: _, [] => None
  end.

(** [bytes.Cut] at the first newline: the part before it. *)
Fixpoint first_line (l : list Z) : list Z :=
  match l with
  | [] => []
  | b :: l => if b =? 10 then [] else b :: first_line l
  end.

(** The characters with the Unicode property White_Space, in UTF-8. *)
Definition spaces : list (list Z) :=
  [[9]; [10]; [11]; [12]; [13]; [32]; [194; 133]; [194; 160]; [225; 154; 128]; [226; 128; 168];
   [226; 128; 169]; [226; 128; 175]; [226; 129; 159]; [227; 128; 128]] ++
  ((fun i => [226; 128; 128 + Z.of_nat i]) <$> seq 0 11).

Fixpoint strip_first (ps : list (list Z)) (l : list Z) : option (list Z) :=
  match ps with
  | [] => None
  | p :: ps => match has_prefix p l with Some l' => Some l' | None => strip_first ps l end
  end.

Fixpoint trim_left (fuel : nat) (ps : list (list Z)) (l : list Z) : list Z :=
  match fuel with
  | O => l
  | S fuel => match strip_first ps l with Some l' => trim_left fuel ps l' | None => l end
  end.

(** [bytes.TrimSpace]: every space takes at least one byte. *)
Definition TrimSpace (l : list Z) : list Z :=
  let l := trim_left (length l) spaces l in
  reverse (trim_left (length l) (reverse <$> spaces) (reverse l)).

(** ** MD5 ([crypto/md5]) and [hex.EncodeToString] *)

Module md5.
Definition w32 (z : Z) : Z := z mod 2 ^ 32.
Definition rotl (x s : Z) : Z := Z.lor (w32 (Z.shiftl x s)) (Z.shiftr x (32 - s)).
Definition not32 (x : Z) : Z := 2 ^ 32 - 1 - x.

Definition shifts : list Z :=
  concat (replicate 4 [7; 12; 17; 22]) ++ concat (replicate 4 [5; 9; 14; 20]) ++
  concat (replicate 4 [4; 11; 16; 23]) ++ concat (replicate 4 [6; 10; 15; 21]).

(** [floor (2^32 * |sin (i + 1)|)]. *)
Definition table : list Z :=
  [3614090360; 3905402710; 606105819; 3250441966; 4118548399; 1200080426;
   2821735955; 4249261313; 1770035416; 2336552879; 4294925233; 2304563134;
   1804603682; 4254626195; 2792965006; 1236535329; 4129170786; 3225465664;
   643717713; 3921069994; 3593408605; 38016083; 3634488961; 3889429448;
   568446438; 3275163606; 4107603335; 1163531501; 2850285829; 4243563512;
   1735328473; 2368359562; 4294588738; 2272392833; 1839030562; 4259657740;
   2763975236; 1272893353; 4139469664; 3200236656; 681279174; 3936430074;
   3572445317; 76029189; 3654602809; 3873151461; 530742520; 3299628645;
   4096336452; 1126891415; 2878612391; 4237533241; 1700485571; 2399980690;
   4293915773; 2240044497; 1873313359; 4264355552; 2734768916; 1309151649;
   4149444226; 3174756917; 718787259; 3951481745].

Definition round (M : list Z) (i : nat) (st : Z * Z * Z * Z) : Z * Z * Z * Z :=
  let '(a, b, c, d) := st in
  let '(f, g) :=
    if (i <? 16)%nat then (Z.lor (Z.land b c) (Z.land (not32 b) d), i)
    else if (i <? 32)%nat then (Z.lor (Z.land d b) (Z.land (not32 d) c), ((5 * i + 1) mod 16)%nat)
    else if (i <? 48)%nat then (Z.lxor b (Z.lxor c d), ((3 * i + 5) mod 16)%nat)
    else (Z.lxor c (Z.lor b (not32 d)), ((7 * i) mod 16)%nat) in
  let f := w32 (f + a + nth i table 0 + nth g M 0) in
  (d, w32 (b + rotl f (nth i shifts 0)), b, c).

Definition le32 (l : list Z) : Z :=
  nth 0 l 0 + 256 * nth 1 l 0 + 65536 * nth 2 l 0 + 16777216 * nth 3 l 0.

Fixpoint words (n : nat) (l : list Z) : list Z :=
  match n with
  | O => []
  | S n => le32 (take 4 l) :: words n (drop 4 l)
  end.

Definition block (l : list Z) (st : Z * Z * Z * Z) : Z * Z * Z * Z :=
  let '(a, b, c, d) := st in
  let '(a', b', c', d') := for_each (round (words 16 l)) (seq 0 64) st in
  (w32 (a + a'), w32 (b + b'), w32 (c + c'), w32 (d + d')).

Fixpoint blocks (n : nat) (l : list Z) (st : Z * Z * Z * Z) : Z * Z * Z * Z :=
  match n with
  | O => st
  | S n => blocks n (drop 64 l) (block (take 64 l) st)
  end.

Fixpoint le_bytes (n : nat) (z : Z) : list Z :=
  match n with
  | O => []
  | S n => z mod 256 :: le_bytes n (z / 256)
  end.

Definition pad (l : list Z) : list Z :=
  let len := Z.of_nat (length l) in
  l ++ [128] ++ replicate (Z.to_nat ((55 - len) mod 64)) 0 ++ le_bytes 8 (8 * len).

Definition Sum (l : list Z) : list Z :=
  let p := pad l in
  let '(a, b, c, d) :=
    blocks (length p / 64) p (1732584193, 4023233417, 2562383102, 271733878) in
  concat (le_bytes 4 <$> [a; b; c; d]).
End md5.

Definition EncodeToString (l : list Z) : string :=
  String.string_of_list_ascii (concat ((fun b => [hex_chr (b / 16); hex_chr (b mod 16)]) <$> l)).

Example md5_empty : EncodeToString (md5.Sum []) = "d41d8cd98f00b204e9800998ecf8427e".
Proof. vm_compute. reflexivity. Qed.
Example md5_alphabet :
  EncodeToString (md5.Sum (bytes_of "ABCDEFGHIJKLMNOPQRSTUVWXYZabcdefghijklmnopqrstuvwxyz0123456789")) =
  "d174ab98d277d9f5a5611c2c9f419d9f".
Proof. vm_compute. reflexivity. Qed.

Example string_v4 : AddrPort_String (AddrV4 (10 * 2 ^ 24 + 1)) 80 = "10.0.0.1:80".
Proof. vm_compute. reflexivity. Qed.
Example string_v6 : AddrPort_String (AddrV6 (8193 * 2 ^ 112 + 3512 * 2 ^ 96 + 1) "") 443 = "[2001:db8::1]:443".
Proof. vm_compute. reflexivity. Qed.
Example string_v6_tail : Addr_String (AddrV6 (8193 * 2 ^ 112 + 3512 * 2 ^ 96) "eth0") = "2001:db8::%eth0".
Proof. vm_compute. reflexivity. Qed.

(** ** config.go *)

Record URL := MkURL {
  Path : string;
  StatusCode : Z;
  Digest : string;
  Virtualhost : option string;
}.

Record WeightControl := MkWeightControl {
  DynamicWeight : bool;
  DynamicWeightHeader : bool;
  DynamicWeightCoeff : Z;   (* uint *)
}.

Record Net := MkNet {
  ConnectIP : Addr;
  ConnectPort : Z;
  BindIP : Addr;
  ConnectTimeout : float64;
  CheckTimeout : float64;
  FWMark : Z;
}.

Record Config := MkConfig { CURL : URL; CNet : Net; CWeightControl : WeightControl }.

(** A configuration for tests. *)
Definition DefaultConfig : Config := {|
  CURL := {| Path := "/"; StatusCode := 200; Digest := "abcd"; Virtualhost := Some "virtualhost" |};
  CNet := {|
    ConnectIP := AddrV4 (127 * 2 ^ 24 + 1);
    ConnectPort := 80;
    BindIP := AddrV4 (127 * 2 ^ 24 + 2);
    ConnectTimeout := f64_of_Z 5;
    CheckTimeout := f64_of_Z 10;
    FWMark := 12345;
  |};
  CWeightControl := {| DynamicWeight := true; DynamicWeightHeader := true; DynamicWeightCoeff := 10 |};
|}.

Section timeouts.
Context `{F : FloatToInt}.

Definition GetConnectTimeout (m : Net) : Z :=
  f64_to_int64 (f64_mul (ConnectTimeout m) (f64_of_Z Second)).

Definition GetCheckTimeout (m : Net) : Z :=
  if f64_eqb (CheckTimeout m) (S754_zero false) then GetConnectTimeout m
  else f64_to_int64 (f64_mul (CheckTimeout m) (f64_of_Z Second)).
End timeouts.

(** ** check.go *)

Record Metadata := MkMetadata { MAlive : bool; MWeight : Z; Force : bool }.

Definition SetInactive (m : Metadata) : Metadata := MkMetadata false weight.Omitted (Force m).

(** ** error.go: the errors of the checks, over those of the network [X] *)

Inductive checkError (X : Type) :=
| errTCPDial (err : X)
| errTCPClose (err : X)
| errHTTPCreateRequest (err : X)
| errHTTPProcessRequest (err : X)
| errHTTPStatusCode (expected got : Z)
| errHTTPReadResponse (err : X)
| errHTTPDigest
| errGRPCCreateConn (err : X)
| errGRPCCheck (err : X)
| errGRPCStatusCode (got : Z).
Arguments errTCPDial {X}. Arguments errTCPClose {X}. Arguments errHTTPCreateRequest {X}.
Arguments errHTTPProcessRequest {X}. Arguments errHTTPStatusCode {X}. Arguments errHTTPReadResponse {X}.
Arguments errHTTPDigest {X}. Arguments errGRPCCreateConn {X}. Arguments errGRPCCheck {X}.
Arguments errGRPCStatusCode {X}.

(** The value of the label "error" of the error metric. *)
Definition Label {X} (e : checkError X) : string :=
  match e with
  | errTCPDial _ => "tcp_dial"
  | errTCPClose _ => "tcp_close"
  | errHTTPCreateRequest _ => "http_create_request"
  | errHTTPProcessRequest _ => "http_process_request"
  | errHTTPStatusCode _ _ => "http_status_code"
  | errHTTPReadResponse _ => "http_read_response"
  | errHTTPDigest => "http_digest"
  | errGRPCCreateConn _ => "grpc_create_conn"
  | errGRPCCheck _ => "grpc_check"
  | errGRPCStatusCode _ => "grpc_status_code"
  end.

(** The deferred function of every [Do]: an error makes the metadata inactive. *)
Definition deactivate {X} (r : res (checkError X) Metadata) (md : Metadata) :
    option (checkError X) * Metadata :=
  match r with
  | Ok md => (None, md)
  | Err e => (Some e, SetInactive md)
  end.

(** ** tcp.go *)

Definition TCP_URI (m : Config) : string :=
  AddrPort_String (ConnectIP (CNet m)) (port.Value (ConnectPort (CNet m))).

(** [dial] is the outcome of the connection, then of closing it. *)
Definition TCP_Do {X} (dial : string -> res X (option X)) (m : Config) (md : Metadata) :
    option (checkError X) * Metadata :=
  deactivate
    match dial (TCP_URI m) with
    | Err e => Err (errTCPDial e)
    | Ok (Some e) => Err (errTCPClose e)
    | Ok None => Ok (MkMetadata true weight.Omitted (Force md))
    end md.

(** ** http.go *)

Definition UserAgentRequestHeader : string := "monalive".

(** The TLS configuration, as far as the check chooses it: the server name of
    the SNI extension; [None] is a check without TLS. *)
Definition tlsConfig := option (option string).

Definition HTTPWithTLS (g : exp.Globals) (config : Config) : tlsConfig :=
  match Virtualhost (CURL config) with
  | Some name => if exp.TLSSNIEnabled g then Some (Some name) else Some None
  | None => Some None
  end.

Definition HTTP_URI (tls : tlsConfig) (m : Config) : string :=
  let schema := match tls with Some _ => "https" | None => "http" end in
  let host := AddrPort_String (ConnectIP (CNet m)) (port.Value (ConnectPort (CNet m))) in
  schema +:+ "://" +:+ host +:+ Path (CURL m).

(** A GET request that is closed after the response; without [Host] it names
    the host of the URL. *)
Record Request := MkRequest { RURL : string; Host : option string; RHeader : list (string * string) }.

(** [create_err] is the error of [http.NewRequestWithContext] for the URL. *)
Definition newRequest {X} (create_err : string -> option X) (uri : string) (m : Config) (md : Metadata) :
    res X Request :=
  match create_err uri with
  | Some e => Err e
  | None =>
      let headers := [("User-Agent", UserAgentRequestHeader)] in
      let headers :=
        if DynamicWeight (CWeightControl m)
        then headers ++ [("X-RS-Weight", weight.String_ (MWeight md));
                         ("X-RS-Alive", if MAlive md then "1" else "0")]
        else headers in
      Ok (MkRequest uri (Virtualhost (CURL m)) headers)
  end.

(** A response: [ReadAll] is what reading the whole body gives. *)
Record Response (X : Type) := MkResponse {
  RespStatusCode : Z;
  Header : gmap string (list string);   (* by canonical header name *)
  ReadAll : res X (list Z);
}.
Arguments MkResponse {X}. Arguments RespStatusCode {X}. Arguments Header {X}. Arguments ReadAll {X}.

Definition Header_Get (key : string) (h : gmap string (list string)) : string :=
  match h !! key with Some (v :: _) => v | _ => "" end.

Definition matchStatusCode (statusCode : Z) (m : Config) : bool :=
  (StatusCode (CURL m) =? 0) || (StatusCode (CURL m) =? statusCode).

Definition matchDigest (body : list Z) (m : Config) : bool :=
  let digest := Digest (CURL m) in
  if decide (digest = "") then true
  else bool_decide (digest = EncodeToString (md5.Sum body)).

Definition rs_weight : list Z := bytes_of "rs_weight=".

(** [Header.Get "RS-Weight"] looks the canonical name up. *)
Definition HTTP_getWeightFrom {X} (response : Response X) (body : list Z) (m : Config) : Z :=
  if negb (DynamicWeight (CWeightControl m)) then weight.Omitted
  else if DynamicWeightHeader (CWeightControl m) then
    let weightBuf := Header_Get "Rs-Weight" (Header response) in
    if decide (weightBuf = "") then weight.Omitted else weight.UnmarshalText weightBuf
  else
    match has_prefix rs_weight (first_line body) with
    | None => weight.Omitted
    | Some weightBuf => weight.UnmarshalText (of_bytes (TrimSpace weightBuf))
    end.

Definition HTTP_handle {X} (md : Metadata) (response : Response X) (m : Config) : res (checkError X) Metadata :=
  if negb (matchStatusCode (RespStatusCode response) m)
  then Err (errHTTPStatusCode (StatusCode (CURL m)) (RespStatusCode response))
  else match ReadAll response with
       | Err e => Err (errHTTPReadResponse e)
       | Ok body =>
           if negb (matchDigest body m) then Err errHTTPDigest
           else Ok (MkMetadata true (HTTP_getWeightFrom response body m) (Force md))
       end.

(** [client] sends a request; redirects are not followed. *)
Definition HTTP_Do {X} (create_err : string -> option X) (client : Request -> res X (Response X))
    (tls : tlsConfig) (m : Config) (md : Metadata) : option (checkError X) * Metadata :=
  deactivate
    match newRequest create_err (HTTP_URI tls m) m md with
    | Err e => Err (errHTTPCreateRequest e)
    | Ok request =>
        match client request with
        | Err e => Err (errHTTPProcessRequest e)
        | Ok response => HTTP_handle md response m
        end
    end md.

(** ** grpc.go *)

Definition GRPC_URI (m : Config) : string := TCP_URI m.

Definition SERVING : Z := 1.

Definition matchStatus (status : Z) : bool := status =? SERVING.

(** [metadata.MD] keys are lower case, and [Get] lowers its argument. *)
Definition GRPC_getWeightFrom (header : gmap string (list string)) (m : Config) : Z :=
  if negb (DynamicWeight (CWeightControl m)) then weight.Omitted
  else match header !! "x-rs-weight" with
       | Some [v] => weight.UnmarshalText v
       | _ => weight.Omitted
       end.

Definition GRPC_handle {X} (md : Metadata) (status : Z) (header : gmap string (list string)) (m : Config) :
    res (checkError X) Metadata :=
  if negb (matchStatus status) then Err (errGRPCStatusCode status)
  else Ok (MkMetadata true (GRPC_getWeightFrom header m) (Force md)).

(** [newConn] is the outcome of the connection's creation, [check] that of the
    health request of a service with the outgoing metadata. *)
Definition GRPC_Do {X} (newConn : string -> option X)
    (check : string -> list (string * string) -> res X (Z * gmap string (list string)))
    (m : Config) (md : Metadata) : option (checkError X) * Metadata :=
  deactivate
    match newConn (GRPC_URI m) with
    | Some e => Err (errGRPCCreateConn e)
    | None =>
        let ctx := [("X-RS-Alive", if MAlive md then "1" else "0")] in
        let ctx :=
          if DynamicWeight (CWeightControl m)
          then ctx ++ [("X-RS-Weight", weight.String_ (MWeight md))] else ctx in
        let serviceName := default "" (Virtualhost (CURL m)) in
        match check serviceName ctx with
        | Err e => Err (errGRPCCheck e)
        | Ok (status, header) => GRPC_handle md status header m
        end
    end md.

(** ** Properties *)

Section outcome.
Context {X : Type}.

Lemma UnmarshalText_range text :
  weight.UnmarshalText text = weight.Omitted \/ 0 <= weight.UnmarshalText text.
Proof.
  unfold weight.UnmarshalText. destruct text; [by left|]. destruct (Atoi _) as [w|]; [|by left].
  destruct (Z.ltb_spec w 0); [by left|by right].
Qed.

(** What every check promises: with an error the real is reported inactive and
    without one it is alive with an omitted or non-negative weight. *)
Definition check_contract (md : Metadata) (r : option (checkError X) * Metadata) : Prop :=
  match r with
  | (Some _, md') => md' = MkMetadata false weight.Omitted (Force md)
  | (None, md') => MAlive md' = true /\ Force md' = Force md /\
                   (MWeight md' = weight.Omitted \/ 0 <= MWeight md')
  end.

Lemma deactivate_contract r md :
  (forall md', r = Ok md' -> MAlive md' = true /\ Force md' = Force md /\
     (MWeight md' = weight.Omitted \/ 0 <= MWeight md')) ->
  check_contract md (deactivate r md).
Proof. destruct r; simpl; [eauto|done]. Qed.

Lemma HTTP_weight_range (response : Response X) body m :
  HTTP_getWeightFrom response body m = weight.Omitted \/ 0 <= HTTP_getWeightFrom response body m.
Proof.
  unfold HTTP_getWeightFrom. repeat (case_match || case_decide); try (by left);
    apply UnmarshalText_range.
Qed.

Lemma GRPC_weight_range header m :
  GRPC_getWeightFrom header m = weight.Omitted \/ 0 <= GRPC_getWeightFrom header m.
Proof. unfold GRPC_getWeightFrom. repeat case_match; try (by left); apply UnmarshalText_range. Qed.

(** Every check keeps the contract the checker relies on, whatever the
    network answers: exactly when the check returns an error the real is
    reported inactive with no weight; otherwise it is reported alive, with a
    weight that is omitted or non-negative; the force flag is left alone. *)
Theorem checks_contract (m : Config) (md : Metadata) (tls : tlsConfig)
    (dial : string -> res X (option X)) (create_err newConn : string -> option X)
    (client : Request -> res X (Response X))
    (check : string -> list (string * string) -> res X (Z * gmap string (list string))) :
  check_contract md (TCP_Do dial m md) /\
  check_contract md (HTTP_Do create_err client tls m md) /\
  check_contract md (GRPC_Do newConn check m md).
Proof.
  split_and!; apply deactivate_contract; intros md' Hmd.
  - destruct (dial _) as [[]|]; try discriminate Hmd. injection Hmd as <-.
    split_and!; [done|done|by left].
  - destruct (newRequest _ _ _ _) as [request|]; [|discriminate Hmd].
    unfold HTTP_handle in Hmd. repeat (case_match; try discriminate Hmd).
    injection Hmd as <-. split_and!; [done|done|]. apply HTTP_weight_range.
  - destruct (newConn _); [discriminate Hmd|]. cbv zeta in Hmd.
    destruct (check _ _) as [[status header]|]; [|discriminate Hmd].
    unfold GRPC_handle in Hmd. case_match; [discriminate Hmd|].
    injection Hmd as <-. split_and!; [done|done|]. apply GRPC_weight_range.
Qed.

(** C40: an HTTP check succeeds exactly when the request could be created and
    answered, the status code is the configured one (any, if none is), the
    body could be read, and its MD5 digest is the configured one (any, if none
    is); the request carries the current state of the real when dynamic
    weights are enabled. *)
Theorem HTTP_Do_functional (m : Config) (md : Metadata) (tls : tlsConfig)
    (create_err : string -> option X) (client : Request -> res X (Response X)) :
  (HTTP_Do create_err client tls m md).1 = None <->
  exists response body,
    create_err (HTTP_URI tls m) = None /\
    client (MkRequest (HTTP_URI tls m) (Virtualhost (CURL m))
      (("User-Agent", UserAgentRequestHeader) ::
       if DynamicWeight (CWeightControl m)
       then [("X-RS-Weight", weight.String_ (MWeight md)); ("X-RS-Alive", if MAlive md then "1" else "0")]
       else [])) = Ok response /\
    (StatusCode (CURL m) = 0 \/ StatusCode (CURL m) = RespStatusCode response) /\
    ReadAll response = Ok body /\
    (Digest (CURL m) = "" \/ Digest (CURL m) = EncodeToString (md5.Sum body)).
Proof.
  unfold HTTP_Do, newRequest. destruct (create_err _) as [e|].
  { split; [done|]. by intros (? & ? & ? & _). }
  match goal with |- context [client ?r] => set (req := r) end.
  match goal with |- context [_ /\ client ?r = _ /\ _] => replace r with req end.
  2:{ unfold req. f_equal. by destruct (DynamicWeight _). }
  destruct (client req) as [response|e]; simpl.
  2:{ split; [done|]. by intros (? & ? & _ & ? & _). }
  unfold HTTP_handle, matchStatusCode.
  destruct (Z.eqb_spec (StatusCode (CURL m)) 0), (Z.eqb_spec (StatusCode (CURL m)) (RespStatusCode response));
    simpl; try (split; [done|]; intros (? & ? & _ & [= <-] & [?|?] & _); done);
    (destruct (ReadAll response) as [body|e'] eqn:Hbody;
      [|split; [done|]; intros (? & ? & _ & [= <-] & _ & ? & _); congruence]);
    unfold matchDigest; (destruct (decide (Digest (CURL m) = "")); simpl;
      [ split; [intros _|done]; exists response, body; tauto
      | case_bool_decide; simpl;
        [ split; [intros _|done]; exists response, body; tauto
        | split; [done|]; intros (? & ? & _ & [= <-] & _ & HB & [?|?]); congruence ] ]).
Qed.
End outcome.

(** ** Weights in the response *)

Section weight_text.
Definition is_ascii_space (b : Z) : bool := existsb (Z.eqb b) [9; 11; 12; 13; 32].
Definition is_digit (b : Z) : bool := (48 <=? b) && (b <=? 57).

Lemma strip_space ps b l :
  ps = spaces \/ ps = reverse <$> spaces -> is_ascii_space b = true -> strip_first ps (b :: l) = Some l.
Proof.
  intros Hps Hb. unfold is_ascii_space in Hb. simpl in Hb. rewrite !orb_true_iff, !Z.eqb_eq in Hb.
  destruct Hps as [-> | ->]; destruct Hb as [->|[->|[->|[->|[->|?]]]]]; (done || reflexivity).
Qed.

Lemma strip_digit ps b l :
  ps = spaces \/ ps = reverse <$> spaces -> is_digit b = true -> strip_first ps (b :: l) = None.
Proof.
  intros Hps Hb. unfold is_digit in Hb. apply andb_true_iff in Hb as [H1%Z.leb_le H2%Z.leb_le].
  assert (b = 48 \/ b = 49 \/ b = 50 \/ b = 51 \/ b = 52 \/ b = 53 \/ b = 54 \/ b = 55 \/ b = 56 \/ b = 57)
    as Hc by lia.
  destruct Hps as [-> | ->]; destruct_or! Hc; subst b; reflexivity.
Qed.

Lemma trim_left_spaces ps ws b l fuel :
  ps = spaces \/ ps = reverse <$> spaces -> forallb is_ascii_space ws = true -> is_digit b = true ->
  (length ws <= fuel)%nat ->
  trim_left fuel ps (ws ++ b :: l) = b :: l.
Proof.
  intros Hps Hws Hb. revert ws Hws. induction fuel as [|fuel IH]; intros [|w ws] Hws Hf; simpl in *; try done; try lia.
  - by rewrite strip_digit.
  - apply andb_true_iff in Hws as [Hw Hws]. rewrite strip_space by done. apply IH; [done|lia].
Qed.

(** Spaces around a text that begins and ends with digits are trimmed. *)
Lemma TrimSpace_digits ws1 ws2 core :
  forallb is_ascii_space ws1 = true -> forallb is_ascii_space ws2 = true ->
  core <> [] -> forallb is_digit core = true ->
  TrimSpace (ws1 ++ core ++ ws2) = core.
Proof.
  intros H1 H2 Hne Hd. unfold TrimSpace.
  assert (forall ws : list Z, ws <> [] -> forallb is_digit ws = true ->
            exists b ws', ws = b :: ws' /\ is_digit b = true) as Hhead.
  { intros [|b ws] Hne' Hd'; [done|]. simpl in Hd'. apply andb_true_iff in Hd' as [Hb _]. eauto. }
  destruct (Hhead core Hne Hd) as (b & core' & -> & Hb).
  cbn [app]. rewrite (trim_left_spaces spaces ws1 b); [|by left|done|done|rewrite length_app; lia].
  assert (forallb is_digit (reverse (b :: core')) = true) as Hrd.
  { apply forallb_forall. intros x Hx. rewrite forallb_forall in Hd. apply Hd.
    apply list_elem_of_In, elem_of_reverse, list_elem_of_In. done. }
  assert (reverse (b :: core') <> []) as Hrne.
  { intros Hr. apply (f_equal length) in Hr. rewrite length_reverse in Hr. done. }
  destruct (Hhead _ Hrne Hrd) as (b2 & core2 & Hrev & Hb2).
  change (b :: core' ++ ws2) with ((b :: core') ++ ws2).
  rewrite reverse_app, Hrev, (trim_left_spaces _ (reverse ws2) b2); [|by right| |done|].
  - by rewrite <- Hrev, reverse_involutive.
  - apply forallb_forall. intros x Hx. rewrite forallb_forall in H2. apply H2.
    apply list_elem_of_In, elem_of_reverse, list_elem_of_In. done.
  - rewrite length_reverse, length_app. lia.
Qed.

Lemma first_line_app l rest : ~ 10 ∈ l -> first_line (l ++ 10 :: rest) = l /\ first_line l = l.
Proof.
  induction l as [|b l IH]; intros Hl; simpl; [done|].
  destruct (Z.eqb_spec b 10); [set_solver|]. destruct IH as [-> ->]; [set_solver|done].
Qed.

Lemma has_prefix_app p l : has_prefix p (p ++ l) = Some l.
Proof. induction p as [|x p IH]; simpl; [done|]. by rewrite Z.eqb_refl. Qed.

Lemma of_bytes_bytes s : of_bytes (bytes_of s) = s.
Proof.
  unfold of_bytes, bytes_of. rewrite <- list_fmap_compose.
  replace (_ <$> String.list_ascii_of_string s) with (String.list_ascii_of_string s).
  - apply String.string_of_list_ascii_of_string.
  - symmetry. etrans; [|apply list_fmap_id]. apply list_fmap_ext. intros _ c _. simpl.
    rewrite Nat2Z.id. apply ascii_nat_embedding.
Qed.

Definition digit_string (s : string) : bool := forallb is_digit (bytes_of s).

Lemma utoa_digit_string fuel z s : 0 <= z -> digit_string s = true -> digit_string (utoa fuel z s) = true.
Proof.
  revert z s. induction fuel as [|fuel IH]; intros z s Hz Hs; [done|]. cbn [utoa].
  assert (digit_string (String (digit_chr (z mod 10)) s) = true) as Hs'.
  { unfold digit_string, bytes_of in *. cbn [String.list_ascii_of_string fmap list_fmap forallb].
    apply andb_true_iff. split; [|exact Hs]. unfold is_digit, digit_chr.
    pose proof (Z.mod_pos_bound z 10 ltac:(lia)). rewrite nat_ascii_embedding by lia.
    rewrite Z2Nat.id by lia. apply andb_true_iff. rewrite !Z.leb_le. lia. }
  destruct (z <? 10); [done|]. apply IH; [|done]. apply Z.div_pos; lia.
Qed.

Lemma Itoa_digit_string z : 0 <= z -> digit_string (Itoa z) = true /\ bytes_of (Itoa z) <> [].
Proof.
  intros Hz. unfold Itoa. destruct (Z.ltb_spec z 0); [lia|]. split.
  - by apply utoa_digit_string.
  - destruct (utoa_head (Z.to_nat (Z.log2 z)) z "" Hz) as (d & rest & -> & _). done.
Qed.

(** A server that writes its weight on the first line of the body, with
    any spaces around it, is given that weight. *)
Theorem body_weight_roundtrip {X} (m : Config) (response : Response X) (w : Z) (ws1 ws2 rest : list Z) :
  DynamicWeight (CWeightControl m) = true -> DynamicWeightHeader (CWeightControl m) = false ->
  0 <= w < two63 ->
  forallb is_ascii_space ws1 = true -> forallb is_ascii_space ws2 = true ->
  HTTP_getWeightFrom response (rs_weight ++ ws1 ++ bytes_of (weight.String_ w) ++ ws2 ++ 10 :: rest) m = w.
Proof.
  intros Hdw Hh Hw H1 H2. unfold HTTP_getWeightFrom. rewrite Hdw, Hh. simpl negb. cbv iota.
  unfold weight.String_. destruct (Z.ltb_spec w 0) as [|_]; [lia|].
  destruct (Itoa_digit_string w) as [Hd Hne]; [lia|].
  assert (forall (b : Z) l (p : Z -> bool), (forall b, p b = true -> b <> 10) -> forallb p l = true -> b ∈ l -> b <> 10) as Hno.
  { intros b l p Hp Hl Hb. apply Hp. rewrite forallb_forall in Hl. by apply Hl, list_elem_of_In. }
  replace (rs_weight ++ _) with ((rs_weight ++ ws1 ++ bytes_of (Itoa w) ++ ws2) ++ 10 :: rest)
    by (by rewrite <- !app_assoc).
  assert (~ 10 ∈ rs_weight ++ ws1 ++ bytes_of (Itoa w) ++ ws2) as Hnl.
  { rewrite !elem_of_app. intros [Hb|[Hb|[Hb|Hb]]].
    - apply list_elem_of_In in Hb. vm_compute in Hb. intuition congruence.
    - eapply (Hno 10 ws1 is_ascii_space); [|done|done|done]. by intros b Hb' ->.
    - eapply (Hno 10 _ is_digit); [|exact Hd|done|done]. by intros b Hb' ->.
    - eapply (Hno 10 ws2 is_ascii_space); [|done|done|done]. by intros b Hb' ->. }
  rewrite (proj1 (first_line_app _ rest Hnl)), has_prefix_app.
  rewrite TrimSpace_digits, of_bytes_bytes by done. unfold weight.UnmarshalText.
  rewrite Itoa_Atoi by done. destruct (Z.ltb_spec w 0); [lia|].
  destruct (Itoa w); [by destruct Hne|done].
Qed.
End weight_text.

Section concrete.
Definition check_config (dynamic header : bool) : Config :=
  MkConfig (MkURL "/ping" 200 "" None)
    (MkNet (AddrV4 (10 * 2 ^ 24 + 1)) 80 AddrInvalid (f64_of_Z 5) (f64_of_Z 0) 0)
    (MkWeightControl dynamic header 10).

(** "rs_weight= 42" CR LF "ok" *)
Lemma body_weight_roundtrip_witness :
  HTTP_getWeightFrom (X:=unit) (MkResponse 200 ∅ (Err tt))
    (rs_weight ++ [32] ++ bytes_of (weight.String_ 42) ++ [13] ++ 10 :: bytes_of "ok")
    (check_config true false) = 42.
Proof. apply (body_weight_roundtrip (check_config true false)); (reflexivity || (split; [discriminate|reflexivity])). Defined.

(** Half a second of connection timeout is kept, unlike half a second of
    [delay_loop] (fractional_delay_is_zero of Scheduler). *)
Example half_second :
  GetConnectTimeout (MkNet AddrInvalid 0 AddrInvalid (S754_finite false 4503599627370496 (-53)) (f64_of_Z 0) 0) =
  500000000.
Proof. vm_compute. reflexivity. Qed.
End concrete.
