(* ===== verification/Text.v ===== *)
(** * Text: runes, lines and paths

    What the configuration parser uses of the language and its standard library:
    the conversion of strings to runes and back, [unicode.IsSpace], the lines of
    a [bufio.Scanner], case mapping and splitting of [strings], and the path functions of
    [path/filepath]. *)

From Stdlib Require Import Ascii.
From stdpp Require Import strings numbers gmap sets list.
From S2P Require Import Prelude.
From S2P Require Import Types.
From S2P Require Import Check.

Open Scope Z_scope.
Open Scope go_scope.

(** ** Runes *)

Definition RuneError : Z := 65533.

Definition in_range (lo hi b : Z) : bool := (lo <=? b) && (b <=? hi).

(** The bounds of the second byte of a sequence and its length, by the first
    byte; [None] when no sequence starts with it. *)
Definition first_byte (b : Z) : option (nat * Z * Z) :=
  if in_range 194 223 b then Some (1%nat, 128, 191)
  else if b =? 224 then Some (2%nat, 160, 191)
  else if in_range 225 236 b then Some (2%nat, 128, 191)
  else if b =? 237 then Some (2%nat, 128, 159)
  else if in_range 238 239 b then Some (2%nat, 128, 191)
  else if b =? 240 then Some (3%nat, 144, 191)
  else if in_range 241 243 b then Some (3%nat, 128, 191)
  else if b =? 244 then Some (3%nat, 128, 143)
  else None.

Definition continuation (b : Z) : bool := in_range 128 191 b.

(** [utf8.DecodeRune] of a non-empty list: the rune and the bytes after it. *)
Definition DecodeRune (b : Z) (l : list Z) : Z * list Z :=
  if b <? 128 then (b, l)
  else
    match first_byte b, l with
    | Some (1%nat, lo, hi), b1 :: l1 =>
        if in_range lo hi b1 then ((b - 192) * 64 + (b1 - 128), l1) else (RuneError, l)
    | Some (2%nat, lo, hi), b1 :: b2 :: l2 =>
        if in_range lo hi b1 && continuation b2
        then (((b - 224) * 64 + (b1 - 128)) * 64 + (b2 - 128), l2) else (RuneError, l)
    | Some (3%nat, lo, hi), b1 :: b2 :: b3 :: l3 =>
        if in_range lo hi b1 && continuation b2 && continuation b3
        then ((((b - 240) * 64 + (b1 - 128)) * 64 + (b2 - 128)) * 64 + (b3 - 128), l3) else (RuneError, l)
    | _, _ => (RuneError, l)
    end.

(** The conversion to runes; every rune takes at least one byte. *)
Fixpoint runes_loop (fuel : nat) (l : list Z) : list Z :=
  match fuel with
  | O => []
  | S fuel =>
      match l with
      | [] => []
      | b :: l => let '(r, l) := DecodeRune b l in r :: runes_loop fuel l
      end
  end.

Definition Runes (l : list Z) : list Z := runes_loop (length l) l.

(** A Unicode scalar value. *)
Definition scalar (r : Z) : Prop := 0 <= r <= 1114111 /\ ~ (55296 <= r <= 57343).

#[export] Instance scalar_dec r : Decision (scalar r).
Proof. unfold scalar. apply _. Defined.

(** [utf8.AppendRune]. *)
Definition EncodeRune (r : Z) : list Z :=
  if negb (bool_decide (scalar r)) then [239; 191; 189]
  else if r <? 128 then [r]
  else if r <? 2048 then [192 + r / 64; 128 + r mod 64]
  else if r <? 65536 then [224 + r / 4096; 128 + (r / 64) mod 64; 128 + r mod 64]
  else [240 + r / 262144; 128 + (r / 4096) mod 64; 128 + (r / 64) mod 64; 128 + r mod 64].

Definition EncodeRunes (l : list Z) : list Z := l ≫= EncodeRune.

(** [unicode.IsSpace]. *)
Definition IsSpace (r : Z) : bool :=
  in_range 9 13 r || (r =? 32) || (r =? 133) || (r =? 160) || (r =? 5760) || in_range 8192 8202 r ||
  (r =? 8232) || (r =? 8233) || (r =? 8239) || (r =? 8287) || (r =? 12288).

(** Decoding undoes encoding. *)

Ltac div_lia := Z.to_euclidean_division_equations; lia.

Lemma in_range_true lo hi b : lo <= b <= hi -> in_range lo hi b = true.
Proof. unfold in_range. intros H. apply andb_true_intro. split; apply Z.leb_le; lia. Qed.

Lemma in_range_false lo hi b : ~ (lo <= b <= hi) -> in_range lo hi b = false.
Proof. unfold in_range. intros H. apply andb_false_iff. destruct (Z.leb_spec lo b), (Z.leb_spec b hi); auto; lia. Qed.

Lemma first_byte_2 b : 194 <= b <= 223 -> first_byte b = Some (1%nat, 128, 191).
Proof. intros H. unfold first_byte. by rewrite in_range_true. Qed.

Lemma first_byte_3 b b1 :
  224 <= b <= 239 -> 128 <= b1 <= 191 -> (b = 224 -> 160 <= b1) -> (b = 237 -> b1 <= 159) ->
  exists lo hi, first_byte b = Some (2%nat, lo, hi) /\ in_range lo hi b1 = true.
Proof.
  intros Hb H1 H2 H3. unfold first_byte. rewrite in_range_false by lia.
  destruct (Z.eqb_spec b 224); [eexists _, _; split; [done|apply in_range_true; lia]|].
  destruct (decide (225 <= b <= 236)); [rewrite in_range_true by done; eexists _, _; split; [done|by apply in_range_true]|].
  rewrite (in_range_false 225 236) by done.
  destruct (Z.eqb_spec b 237); [eexists _, _; split; [done|apply in_range_true; lia]|].
  rewrite in_range_true by lia. eexists _, _; split; [done|by apply in_range_true].
Qed.

Lemma first_byte_4 b b1 :
  240 <= b <= 244 -> 128 <= b1 <= 191 -> (b = 240 -> 144 <= b1) -> (b = 244 -> b1 <= 143) ->
  exists lo hi, first_byte b = Some (3%nat, lo, hi) /\ in_range lo hi b1 = true.
Proof.
  intros Hb H1 H2 H3. unfold first_byte. rewrite !(in_range_false _ _ b) by lia.
  destruct (Z.eqb_spec b 224); [lia|]. destruct (Z.eqb_spec b 237); [lia|].
  destruct (Z.eqb_spec b 240); [eexists _, _; split; [done|apply in_range_true; lia]|].
  destruct (Z.eqb_spec b 244).
  - rewrite in_range_false by lia. eexists _, _; split; [done|apply in_range_true; lia].
  - rewrite in_range_true by lia. eexists _, _; split; [done|by apply in_range_true].
Qed.

Lemma DecodeRune_EncodeRune r rest :
  scalar r -> exists b t, EncodeRune r = b :: t /\ DecodeRune b (t ++ rest) = (r, rest).
Proof.
  intros Hs. pose proof Hs as [Hr Hn]. unfold EncodeRune. rewrite bool_decide_eq_true_2 by done. simpl.
  destruct (Z.ltb_spec r 128).
  { exists r, []. split; [done|]. unfold DecodeRune. by destruct (Z.ltb_spec r 128); [|lia]. }
  destruct (Z.ltb_spec r 2048).
  { eexists _, _. split; [done|]. unfold DecodeRune. destruct (Z.ltb_spec (192 + r / 64) 128); [div_lia|].
    rewrite first_byte_2 by div_lia. simpl. rewrite in_range_true by div_lia. f_equal. div_lia. }
  destruct (Z.ltb_spec r 65536); eexists _, _; (split; [done|]); unfold DecodeRune.
  - destruct (Z.ltb_spec (224 + r / 4096) 128); [div_lia|].
    destruct (first_byte_3 (224 + r / 4096) (128 + (r / 64) mod 64)) as (lo & hi & -> & Hb); [div_lia..|].
    simpl. rewrite Hb. unfold continuation. rewrite in_range_true by div_lia. simpl. f_equal. div_lia.
  - destruct (Z.ltb_spec (240 + r / 262144) 128); [div_lia|].
    destruct (first_byte_4 (240 + r / 262144) (128 + (r / 4096) mod 64)) as (lo & hi & -> & Hb); [div_lia..|].
    simpl. rewrite Hb. unfold continuation. rewrite !in_range_true by div_lia. simpl. f_equal. div_lia.
Qed.

Lemma Runes_EncodeRunes rs : Forall scalar rs -> Runes (EncodeRunes rs) = rs.
Proof.
  intros Hs. unfold Runes. assert (forall fuel, (length (EncodeRunes rs) <= fuel)%nat -> runes_loop fuel (EncodeRunes rs) = rs) as H;
    [|by apply H].
  induction Hs as [|r rs Hr Hs IH]; intros fuel Hf; [by destruct fuel|].
  destruct (DecodeRune_EncodeRune r (EncodeRunes rs) Hr) as (b & t & He & Hd).
  assert (EncodeRunes (r :: rs) = b :: t ++ EncodeRunes rs) as Heq
    by (unfold EncodeRunes; rewrite bind_cons, He; done).
  rewrite Heq in *. simpl in Hf. rewrite length_app in Hf. destruct fuel as [|fuel]; [lia|].
  cbn [runes_loop]. rewrite Hd, IH by lia. done.
Qed.

(** ** Lines *)

(** [bufio.MaxScanTokenSize]. *)
Definition MaxScanTokenSize : nat := Z.to_nat 65536.

Definition drop_cr (l : list Z) : list Z :=
  match reverse l with 13 :: l => reverse l | _ => l end.

(** What a scanner yields for the text that is left, given the bytes of the
    current line.  A line that does not fit the buffer ends the scan; the error
    is in [scanner.Err]. *)
Fixpoint scan_lines (l cur : list Z) : list (list Z) :=
  match l with
  | [] =>
      if (MaxScanTokenSize <=? length cur)%nat then []
      else if decide (cur = []) then [] else [drop_cr cur]
  | b :: l =>
      if b =? 10 then if (MaxScanTokenSize <=? length cur)%nat then [] else drop_cr cur :: scan_lines l []
      else scan_lines l (cur ++ [b])
  end.

Definition ScanLines (l : list Z) : list (list Z) := scan_lines l [].

(** ** Strings *)

(** Case mapping of non-ASCII text is a table of the Unicode standard, which the
    development leaves abstract. *)
Class UnicodeCase := { unicode_upper : string -> string; unicode_lower : string -> string }.

#[export] Instance identity_case : UnicodeCase | 100 := {| unicode_upper := id; unicode_lower := id |}.

Definition is_ascii (s : string) : bool := forallb (fun b => b <? 128) (bytes_of s).

Definition upper_byte (b : Z) : Z := if (97 <=? b) && (b <=? 122) then b - 32 else b.
Definition lower_byte (b : Z) : Z := if (65 <=? b) && (b <=? 90) then b + 32 else b.

Definition ToUpper `{UnicodeCase} (s : string) : string :=
  if is_ascii s then of_bytes (upper_byte <$> bytes_of s) else unicode_upper s.
Definition ToLower `{UnicodeCase} (s : string) : string :=
  if is_ascii s then of_bytes (lower_byte <$> bytes_of s) else unicode_lower s.

(** [strings.Fields]: the maximal runs of non-space characters; every step takes
    at least one byte. *)
Fixpoint fields_loop (fuel : nat) (l cur : list Z) : list (list Z) :=
  let flush := if decide (cur = []) then [] else [cur] in
  match fuel with
  | O => flush
  | S fuel =>
      match l with
      | [] => flush
      | b :: l' =>
          match strip_first spaces l with
          | Some rest => flush ++ fields_loop fuel rest []
          | None => fields_loop fuel l' (cur ++ [b])
          end
      end
  end.

Definition Fields (s : string) : list string :=
  of_bytes <$> fields_loop (S (length (bytes_of s))) (bytes_of s) [].

(** [strings.Split] with a separator of one byte. *)
Fixpoint split_loop (sep : Z) (l cur : list Z) : list (list Z) :=
  match l with
  | [] => [cur]
  | b :: l => if b =? sep then cur :: split_loop sep l [] else split_loop sep l (cur ++ [b])
  end.

Definition SplitComma (s : string) : list string := of_bytes <$> split_loop 44 (bytes_of s) [].

(** ** Paths *)

Definition slash : Z := 47.

Definition join_with (sep : Z) (ps : list (list Z)) : list Z :=
  match ps with [] => [] | p :: ps => p ++ (ps ≫= fun q => sep :: q) end.

(** [filepath.Clean] on the elements of a path; [out] is what is kept so far,
    the last element first. *)
Fixpoint clean_elems (rooted : bool) (ps out : list (list Z)) : list (list Z) :=
  match ps with
  | [] => reverse out
  | p :: ps =>
      if decide (p = [] \/ p = [46]) then clean_elems rooted ps out
      else if decide (p = [46; 46]) then
        match out with
        | q :: out' => if decide (q = [46; 46]) then clean_elems rooted ps (p :: out) else clean_elems rooted ps out'
        | [] => if rooted then clean_elems rooted ps out else clean_elems rooted ps [p]
        end
      else clean_elems rooted ps (p :: out)
  end.

Definition Clean (path : list Z) : list Z :=
  let rooted := match path with b :: _ => b =? slash | [] => false end in
  let elems := join_with slash (clean_elems rooted (split_loop slash path []) []) in
  if rooted then slash :: elems else if decide (elems = []) then [46] else elems.

(** [filepath.Join] of two elements. *)
Definition Join (a b : list Z) : list Z :=
  match a, b with
  | [], [] => []
  | [], _ => Clean b
  | _, [] => Clean a
  | _, _ => Clean (a ++ slash :: b)
  end.

(** The text up to the last slash, included, and the rest. *)
Definition split_last (path : list Z) : list Z * list Z :=
  match reverse (split_loop slash path []) with
  | base :: dir :: dirs => (join_with slash (reverse (dir :: dirs)) ++ [slash], base)
  | _ => ([], path)
  end.

Definition Dir (path : list Z) : list Z := Clean (split_last path).1.

Fixpoint drop_slashes (l : list Z) : list Z :=
  match l with b :: l' => if b =? slash then drop_slashes l' else l | [] => [] end.

Definition Base (path : list Z) : list Z :=
  match path with
  | [] => [46]
  | _ =>
      let p := reverse (drop_slashes (reverse path)) in
      let base := (split_last p).2 in
      if decide (base = []) then [slash] else base
  end.

Section examples.
Example clean1 : Clean (bytes_of "/etc/keepalived/../conf.d//./a*") = bytes_of "/etc/conf.d/a*".
Proof. vm_compute. reflexivity. Qed.
Example clean2 : Clean (bytes_of "../../x/..") = bytes_of "../..".
Proof. vm_compute. reflexivity. Qed.
Example dir1 : Dir (bytes_of "/etc/keepalived.conf") = bytes_of "/etc" /\ Dir (bytes_of "x") = bytes_of "." /\ Dir (bytes_of "/x") = bytes_of "/".
Proof. vm_compute. repeat split. Qed.
Example base1 : Base (bytes_of "/etc/keepalived.conf") = bytes_of "keepalived.conf" /\ Base (bytes_of "a/") = bytes_of "a" /\ Base (bytes_of "//") = bytes_of "/".
Proof. vm_compute. repeat split. Qed.
Example runes1 : Runes [228; 189; 160; 255; 97; 195] = [20320; RuneError; 97; RuneError].
Proof. vm_compute. reflexivity. Qed.
End examples.
