(* ===== verification/Checker.v ===== *)
(** * Checkers

    [internal/core/checker]: the configuration of a checker and its identity, its
    state, the processing of check results and the periodic job. *)

From Stdlib Require Import SpecFloat.
From stdpp Require Import strings numbers gmap sets list.
From S2P Require Import Prelude.
From S2P Require Import Types.
From S2P Require Import Utils.
From S2P Require Import Scheduler.
From S2P Require Import Check.

Open Scope Z_scope.
Open Scope go_scope.

(** ** config.go *)

Inductive Type_ := TypeUnset | TCPChecker | HTTPChecker | HTTPSChecker | GRPCChecker.

#[export] Instance Type_eq_dec : EqDecision Type_.
Proof. solve_decision. Defined.

Definition Type_String (m : Type_) : string :=
  match m with
  | TCPChecker => "TCP"
  | HTTPChecker => "HTTP"
  | HTTPSChecker => "HTTPS"
  | GRPCChecker => "GRPC"
  | TypeUnset => "unknown"
  end.

Record Key_ := MkKey {
  kty : Type_;
  kconnectIP : Addr;
  kconnectPort : Z;
  kbindIP : Addr;
  kconnectTimeout : float64;
  kcheckTimeout : float64;
  kfwMark : Z;
  kpath : string;
  kstatusCode : Z;
  kdigest : string;
  kvirtualhost : string;
  kdynamicWeight : bool;
  kdynamicWeightHeader : bool;
  kdynamicWeightCoeff : Z;
  kdelayLoop : Z;
  kretries : Z;
  kretryDelay : Z;
}.

#[export] Instance Key_eq_dec : EqDecision Key_.
Proof. solve_decision. Defined.

(** The values of the constants ([iota + 1]), as the enumeration has them. *)
Definition Type_code (t : Type_) : nat :=
  match t with TypeUnset => 0%nat | TCPChecker => 1%nat | HTTPChecker => 2%nat | HTTPSChecker => 3%nat | GRPCChecker => 4%nat end.
Definition Type_decode (n : nat) : Type_ :=
  match n with 1%nat => TCPChecker | 2%nat => HTTPChecker | 3%nat => HTTPSChecker | 4%nat => GRPCChecker | _ => TypeUnset end.
Lemma Type_decode_code t : Type_decode (Type_code t) = t.
Proof. by destruct t. Qed.
#[export] Instance Type_countable : Countable Type_ := inj_countable' Type_code Type_decode Type_decode_code.

(** Keys index Go maps, where floats compare with [==]: the model's equality is
    finer on the zeros and coarser on NaN. *)
#[export] Program Instance Key_countable : Countable Key_ :=
  inj_countable'
    (fun k => (kty k, (kconnectIP k, kconnectPort k, kbindIP k),
               (kconnectTimeout k, kcheckTimeout k, kfwMark k),
               (kpath k, kstatusCode k, kdigest k, kvirtualhost k),
               (kdynamicWeight k, kdynamicWeightHeader k, kdynamicWeightCoeff k),
               (kdelayLoop k, kretries k, kretryDelay k)))
    (fun '(t, (ci, cp, bi), (ct, kt, fw), (pa, sc, di, vh), (dw, dh, dc), (dl, re, rd)) =>
       MkKey t ci cp bi ct kt fw pa sc di vh dw dh dc dl re rd) _.
Next Obligation. by intros []. Qed.

Record Config := MkConfig {
  CType : Type_;
  CheckConfig : Check.Config;
  CScheduler : Scheduler.Config;
}.

(** A configuration for tests; it has no type. *)
Definition DefaultConfig : Config := MkConfig TypeUnset Check.DefaultConfig Scheduler.Config_Default.

(** [Prepare] unmaps the addresses; it never fails. *)
Definition Prepare (m : Config) : Config :=
  let net := CNet (CheckConfig m) in
  MkConfig (CType m)
    (Check.MkConfig (CURL (CheckConfig m))
       (MkNet (Addr_Unmap (ConnectIP net)) (ConnectPort net) (Addr_Unmap (BindIP net))
              (ConnectTimeout net) (CheckTimeout net) (FWMark net))
       (CWeightControl (CheckConfig m)))
    (CScheduler m).

Section checker.
Context `{F : FloatToInt} {X : Type}.

Definition Key (m : Config) : Key_ :=
  let url := CURL (CheckConfig m) in
  let net := CNet (CheckConfig m) in
  let wc := CWeightControl (CheckConfig m) in
  let virtualhost := match Virtualhost url with Some v => v | None => "" end in
  {| kty := CType m;
     kconnectIP := ConnectIP net;
     kconnectPort := ConnectPort net;
     kbindIP := BindIP net;
     kconnectTimeout := CheckTimeout net;
     kcheckTimeout := CheckTimeout net;
     kfwMark := FWMark net;
     kpath := Path url;
     kstatusCode := StatusCode url;
     kdigest := Digest url;
     kvirtualhost := virtualhost;
     kdynamicWeight := DynamicWeight wc;
     kdynamicWeightHeader := DynamicWeightHeader wc;
     kdynamicWeightCoeff := DynamicWeightCoeff wc;
     kdelayLoop := GetDelayLoop (CScheduler m);
     kretries := GetRetries (CScheduler m);
     kretryDelay := GetRetryDelay (CScheduler m) |}.

(** ** checker.go *)

Record State := MkState {
  SWeight_ : Z;
  SAlive : bool;
  FailedAttempts : Z;
  Timestamp : Z;
  ManualChanged : bool;
}.

Record Checker := MkChecker {
  config : Config;
  state : State;
  errors : gmap string Z;   (* the error metric, by label *)
}.

Definition New (config : Config) (weight : Z) : Checker :=
  MkChecker config (MkState weight false 0 0 false) ∅.

Definition UpdateWeight (weight : Z) (m : Checker) : Checker :=
  let s := state m in
  MkChecker (config m) (MkState weight (SAlive s) (FailedAttempts s) (Timestamp s) true) (errors m).

(** The error of a check: [ErrShutdown], an error of the check, or another
    one, which carries no label. *)
Inductive opError :=
| ErrShutdown
| ErrCheck (err : checkError X)
| ErrOther.

Definition is_shutdown (opErr : option opError) : bool :=
  match opErr with Some ErrShutdown => true | _ => false end.

(** ** handler.go: every handler returns the event passed to the real, if any *)

Definition enableChecker (s : State) : bool * State :=
  if SAlive s then (false, s)
  else (true, MkState (SWeight_ s) true 0 (Timestamp s) (ManualChanged s)).

Definition updateWeight (c : Config) (weight : Z) (s : State) : bool * State :=
  if negb (DynamicWeight (CWeightControl (CheckConfig c))) then (false, s)
  else if SWeight_ s =? weight then (false, s)
  else (true, MkState weight (SAlive s) (FailedAttempts s) (Timestamp s) (ManualChanged s)).

(** Also returns whether the failure is logged. *)
Definition failedAttempt (c : Config) (s : State) : bool * bool * State :=
  let s := MkState (SWeight_ s) (SAlive s) (FailedAttempts s +i 1) (Timestamp s) (ManualChanged s) in
  let attempt := FailedAttempts s mod 2 ^ 64 in
  let limit := (GetRetries (CScheduler c) mod 2 ^ 64 + 1) mod 2 ^ 64 in
  let logged := negb (throttler.Throttle attempt limit) in
  (GetRetries (CScheduler c) <? FailedAttempts s, logged, s).

Definition disableChecker (c : Config) (opErr : option opError) (s : State) : bool * State :=
  if is_shutdown opErr then (true, s)
  else
    let '(exceeded, _, s) := failedAttempt c s in
    if negb exceeded then (false, s)
    else (true, MkState (SWeight_ s) false (FailedAttempts s) (Timestamp s) (ManualChanged s)).

(** The event before the real and the service fill in the rest. *)
Definition no_key : key.Balancer := key.MkBalancer (key.MkService AddrInvalid 0 "") (key.MkReal AddrInvalid 0).

Definition new_event (ty : xevent.Type_) (weight : Z) : xevent.Event :=
  xevent.MkEvent ty no_key (xevent.MkStatus false weight) (xevent.MkStatus false 0).

Definition processSucceed (now : Z) (md : Metadata) (m : Checker) : option xevent.Event * Checker :=
  let s := state m in
  let s := MkState (SWeight_ s) (SAlive s) (FailedAttempts s) now (ManualChanged s) in
  let '(statusChanged, s) := enableChecker s in
  let newWeight :=
    weight.Recalculate (MWeight md) (SWeight_ s) (DynamicWeightCoeff (CWeightControl (CheckConfig (config m)))) in
  let '(weightChanged, s) := updateWeight (config m) newWeight s in
  if negb statusChanged && negb weightChanged && negb (Force md)
  then (None, MkChecker (config m) s (errors m))
  else
    let s := MkState (SWeight_ s) (SAlive s) (FailedAttempts s) (Timestamp s) false in
    (Some (new_event xevent.Enable (SWeight_ s)), MkChecker (config m) s (errors m)).

Definition errorLabel (opErr : option opError) : string :=
  match opErr with Some (ErrCheck e) => Label e | _ => "unknown" end.

Definition processFail (now : Z) (opErr : option opError) (m : Checker) : option xevent.Event * Checker :=
  let s := state m in
  let s := MkState (SWeight_ s) (SAlive s) (FailedAttempts s) now (ManualChanged s) in
  let label := errorLabel opErr in
  let errs := <[label := default 0 (errors m !! label) + 1]> (errors m) in
  let '(statusChanged, s) := disableChecker (config m) opErr s in
  if negb statusChanged then (None, MkChecker (config m) s errs)
  else
    let eventType := if is_shutdown opErr then xevent.Shutdown else xevent.Disable in
    (Some (new_event eventType weight.Omitted), MkChecker (config m) s errs).

Definition ProcessCheck (now : Z) (md : Metadata) (opErr : option opError) (m : Checker) :
    option xevent.Event * Checker :=
  if MAlive md then processSucceed now md m else processFail now opErr m.

(** ** The job of [Run] and its deferred shutdown *)

(** What the network answers to a check. *)
Record network := MkNetwork {
  dial : string -> res X (option X);
  create_err : string -> option X;
  client : Request -> res X (Response X);
  newConn : string -> option X;
  health : string -> list (string * string) -> res X (Z * gmap string (list string));
}.

(** [New] chooses the check by its type; [tls] is the configuration chosen for
    HTTPS. A checker of another type has no check: its [Do] would panic. *)
Definition Do (tls : tlsConfig) (net : network) (c : Config) (md : Metadata) :
    option (option (checkError X) * Metadata) :=
  match CType c with
  | TCPChecker => Some (TCP_Do (dial net) (CheckConfig c) md)
  | HTTPChecker => Some (HTTP_Do (create_err net) (client net) None (CheckConfig c) md)
  | HTTPSChecker => Some (HTTP_Do (create_err net) (client net) tls (CheckConfig c) md)
  | GRPCChecker => Some (GRPC_Do (newConn net) (health net) (CheckConfig c) md)
  | TypeUnset => None
  end.

(** The job: the state read before the check ([before]) may be older than the
    one its result is processed in. *)
Definition job (tls : tlsConfig) (net : network) (now : Z) (before : State) (m : Checker) :
    option (option (checkError X) * option xevent.Event * Checker) :=
  let md := MkMetadata (SAlive before) (SWeight_ before) false in
  match Do tls net (config m) md with
  | None => None
  | Some (opErr, md) =>
      let md := MkMetadata (MAlive md) (MWeight md) (ManualChanged before) in
      let '(ev, m) := ProcessCheck now md (ErrCheck <$> opErr) m in
      Some (opErr, ev, m)
  end.

Definition shutdownEvent (now : Z) (m : Checker) : option xevent.Event * Checker :=
  ProcessCheck now (SetInactive (MkMetadata false 0 false)) (Some ErrShutdown) m.

(** ** status.go *)

Record CheckerStatus := MkCheckerStatus {
  ty : string;
  connectIp : string;
  connectPort : option Z;
  bindIp : string;
  connectTimeout : Z;
  checkTimeout : Z;
  fwmark : Z;
  path : string;
  statusCode : Z;
  digest : string;
  virtualhost : option string;
  dynamicWeight : bool;
  dynamicWeightHeader : bool;
  dynamicWeightCoeff : Z;
  delayLoop : Z;
  retries : Z;
  retryDelay : Z;
  alive : Z;
  failedAttempts : Z;
  lastCheckTs : Z;
}.

Definition uint32 (z : Z) : Z := z mod 2 ^ 32.
Definition int32 (z : Z) : Z := (z + 2 ^ 31) mod 2 ^ 32 - 2 ^ 31.

Definition Status (m : Checker) : CheckerStatus :=
  let s := state m in
  let url := CURL (CheckConfig (config m)) in
  let net := CNet (CheckConfig (config m)) in
  let wc := CWeightControl (CheckConfig (config m)) in
  {| ty := Type_String (CType (config m));
     connectIp := Addr_String (ConnectIP net);
     connectPort := port.ProtoMarshaller (ConnectPort net);
     bindIp := Addr_String (BindIP net);
     connectTimeout := GetConnectTimeout net;
     checkTimeout := GetCheckTimeout net;
     fwmark := uint32 (FWMark net);
     path := Path url;
     statusCode := int32 (StatusCode url);
     digest := Digest url;
     virtualhost := Virtualhost url;
     dynamicWeight := DynamicWeight wc;
     dynamicWeightHeader := DynamicWeightHeader wc;
     dynamicWeightCoeff := uint32 (DynamicWeightCoeff wc);
     delayLoop := GetDelayLoop (CScheduler (config m));
     retries := uint32 (GetRetries (CScheduler (config m)));
     retryDelay := GetRetryDelay (CScheduler (config m));
     alive := if SAlive s then 1 else 0;
     failedAttempts := uint32 (FailedAttempts s);
     lastCheckTs := Timestamp s |}.
End checker.
Arguments opError X : clear implicits.
Arguments network X : clear implicits.

(** ** Properties *)

Section properties.
Context `{F : FloatToInt} {X : Type}.
Implicit Types (m : Checker).

Definition retries_of m : Z := GetRetries (CScheduler (config m)).

(** A failed check that is not a shutdown. *)
Lemma processFail_spec now (opErr : option (opError X)) m :
  is_shutdown opErr = false -> 0 <= FailedAttempts (state m) < two63 - 1 ->
  let exceeded := retries_of m <? FailedAttempts (state m) + 1 in
  (processFail now opErr m).1 = (if exceeded then Some (new_event xevent.Disable weight.Omitted) else None) /\
  config (processFail now opErr m).2 = config m /\
  state (processFail now opErr m).2 =
    MkState (SWeight_ (state m)) (SAlive (state m) && negb exceeded) (FailedAttempts (state m) + 1) now
            (ManualChanged (state m)).
Proof.
  intros Hsh Hfa. unfold processFail, disableChecker, failedAttempt, retries_of. rewrite Hsh.
  cbn [FailedAttempts SWeight_ SAlive Timestamp ManualChanged].
  rewrite wrap64_small by (unfold is_int64; lia).
  destruct (GetRetries _ <? _); simpl; rewrite ?andb_false_r, ?andb_true_r; done.
Qed.

(** A sequence of failed checks; the events they raise are collected. *)
Fixpoint process_fails (l : list (Z * option (opError X))) m : list (option xevent.Event) * Checker :=
  match l with
  | [] => ([], m)
  | (now, opErr) :: l =>
      let '(ev, m) := processFail now opErr m in
      let '(evs, m) := process_fails l m in (ev :: evs, m)
  end.

Lemma process_fails_spec l m :
  Forall (fun x => is_shutdown x.2 = false) l ->
  0 <= FailedAttempts (state m) -> FailedAttempts (state m) + Z.of_nat (length l) < two63 ->
  let a := FailedAttempts (state m) in
  let r := process_fails l m in
  r.1 = (fun i => if retries_of m <? a + Z.of_nat i + 1
                  then Some (new_event xevent.Disable weight.Omitted) else None) <$> seq 0 (length l) /\
  config r.2 = config m /\ FailedAttempts (state r.2) = a + Z.of_nat (length l) /\
  (l <> [] -> SAlive (state r.2) = SAlive (state m) && negb (retries_of m <? a + Z.of_nat (length l))).
Proof.
  revert m. induction l as [|[now opErr] l IH]; intros m Hl Ha Hlen; simpl; [split_and!; (done || lia)|].
  apply Forall_cons in Hl as [Hsh Hl]. simpl in Hsh. rewrite length_cons in Hlen.
  destruct (processFail_spec now opErr m Hsh ltac:(lia)) as (Hev & Hcfg & Hst).
  destruct (processFail now opErr m) as [ev m1]. cbn [fst snd] in *.
  assert (FailedAttempts (state m1) = FailedAttempts (state m) + 1) as Hfa by (by rewrite Hst).
  specialize (IH m1 Hl ltac:(lia) ltac:(rewrite Hfa; lia)). rewrite Hfa in IH.
  assert (retries_of m1 = retries_of m) as Hr by (unfold retries_of; by rewrite Hcfg).
  destruct (process_fails l m1) as [evs m2] eqn:Hpf. cbn [fst snd] in *.
  destruct IH as (-> & Hcfg2 & Hfa2 & Hal). rewrite Hr in *. split_and!.
  - rewrite Hev. f_equal; [by rewrite Z.add_0_r|]. rewrite <- fmap_S_seq, <- list_fmap_compose.
    apply list_fmap_ext. intros _ i _. unfold compose.
    by replace (FailedAttempts (state m) + Z.of_nat (S i) + 1)
      with (FailedAttempts (state m) + 1 + Z.of_nat i + 1) by lia.
  - congruence.
  - lia.
  - intros _. destruct l as [|x l].
    + injection Hpf as <-. by rewrite Hst.
    + rewrite Hal by done. rewrite Hst. cbn [SAlive].
      replace (FailedAttempts (state m) + 1 + Z.of_nat (length (x :: l)))
        with (FailedAttempts (state m) + Z.of_nat (S (length (x :: l)))) by lia.
      destruct (Z.ltb_spec (retries_of m) (FailedAttempts (state m) + 1)),
               (Z.ltb_spec (retries_of m) (FailedAttempts (state m) + Z.of_nat (S (length (x :: l)))));
        rewrite ?andb_true_r, ?andb_false_r; (done || lia).
Qed.

(** Failed checks disable the checker only beyond the configured retries.
    Starting with [a] failed attempts on the account, the [i]-th of a sequence
    of failed checks sends a disable event exactly when it is attempt number
    [retries + 1] or later, and the checker is alive afterwards exactly when
    it was and no attempt was that late. *)
Theorem checks_fail_after_retries (m : Checker) (l : list (Z * option (opError X))) :
  Forall (fun x => is_shutdown x.2 = false) l -> l <> [] ->
  0 <= FailedAttempts (state m) -> FailedAttempts (state m) + Z.of_nat (length l) < two63 ->
  let a := FailedAttempts (state m) in
  (process_fails l m).1 =
    (fun i => if retries_of m <? a + Z.of_nat i + 1
              then Some (new_event xevent.Disable weight.Omitted) else None) <$> seq 0 (length l) /\
  SAlive (state (process_fails l m).2) = SAlive (state m) && negb (retries_of m <? a + Z.of_nat (length l)).
Proof.
  intros Hl Hne Ha Hlen. destruct (process_fails_spec l m Hl Ha Hlen) as (-> & _ & _ & Hal).
  split; [done|]. by apply Hal.
Qed.


(** A successful check.  It sends an enable event exactly when the checker
    was down, its weight moved, or the configuration was changed by hand; the
    event carries the new weight, which is the recalculated one when dynamic
    weights are enabled and the old one otherwise; the checker is then alive. *)
Theorem processSucceed_functional (now : Z) (md : Metadata) (m : Checker) :
  let c := CWeightControl (CheckConfig (config m)) in
  let old := SWeight_ (state m) in
  let new := if DynamicWeight c then weight.Recalculate (MWeight md) old (DynamicWeightCoeff c) else old in
  let sent := negb (SAlive (state m)) || negb (new =? old) || Force md in
  let '(ev, m') := processSucceed now md m in
  ev = (if sent then Some (new_event xevent.Enable new) else None) /\
  config m' = config m /\ errors m' = errors m /\
  state m' = MkState new true (if SAlive (state m) then FailedAttempts (state m) else 0) now
               (if sent then false else ManualChanged (state m)).
Proof.
  cbv zeta. unfold processSucceed, enableChecker, updateWeight.
  destruct m as [c [w al fa ts mc] errs]. simpl.
  destruct al, (DynamicWeight (CWeightControl (CheckConfig c))); simpl;
    generalize (weight.Recalculate (MWeight md) w (DynamicWeightCoeff (CWeightControl (CheckConfig c)))); intros r;
    rewrite ?Z.eqb_refl, ?(Z.eqb_sym r w); simpl;
    try (destruct (Z.eqb_spec w r) as [<-|He]; simpl); by destruct (Force md).
Qed.

(** Successful checks that report the same weight. *)
Definition process_success md (times : list Z) m : Checker :=
  for_each (fun now m => (processSucceed now md m).2) times m.

(** A reported weight is reached.  With dynamic weights, a checker whose
    checks keep succeeding with weight [w] has that weight after at most
    [|w - old|] of them, and keeps it. *)
Theorem dynamic_weight_converges (m : Checker) (md : Metadata) (times : list Z) :
  let c := CWeightControl (CheckConfig (config m)) in
  DynamicWeight c = true ->
  0 <= MWeight md < 2 ^ 32 -> 0 <= SWeight_ (state m) < 2 ^ 32 -> 0 <= DynamicWeightCoeff c < 2 ^ 30 ->
  Z.abs (MWeight md - SWeight_ (state m)) <= Z.of_nat (length times) ->
  SWeight_ (state (process_success md times m)) = MWeight md.
Proof.
  intros c Hdw Hw Ho Hc Hlen. rewrite <- (Recalculate_converges (MWeight md) (SWeight_ (state m)) (DynamicWeightCoeff c) (length times)) by done.
  unfold c in *. clear Hw Ho Hc Hlen c. revert m Hdw. unfold process_success, for_each.
  induction times as [|now times IH]; intros m Hdw; [done|]. simpl foldl.
  pose proof (processSucceed_functional now md m) as HF. cbv zeta in HF.
  destruct (processSucceed now md m) as [ev m1]. destruct HF as (_ & Hcfg & _ & Hst). cbn [snd].
  assert (SWeight_ (state m1) = weight.Recalculate (MWeight md) (SWeight_ (state m))
            (DynamicWeightCoeff (CWeightControl (CheckConfig (config m))))) as Hw1 by (rewrite Hst; by rewrite Hdw).
  rewrite IH by (by rewrite Hcfg). cbn [length]. by rewrite Nat.iter_succ_r, Hw1, Hcfg.
Qed.

(** The identity of a checker leaves the connection timeout out: two
    configurations that differ only in it have the same key (the key's
    connection timeout is the check timeout), although the timeout of a check
    that has no check timeout is the connection timeout. *)
Theorem Key_ignores_connect_timeout (c : Config) (t : float64) :
  let net := CNet (CheckConfig c) in
  let c' := MkConfig (CType c)
    (Check.MkConfig (CURL (CheckConfig c))
      (MkNet (ConnectIP net) (ConnectPort net) (BindIP net) t (CheckTimeout net) (FWMark net))
      (CWeightControl (CheckConfig c))) (CScheduler c) in
  Key c' = Key c /\
  (CheckTimeout net = S754_zero false -> GetCheckTimeout (CNet (CheckConfig c')) = f64_to_int64 (f64_mul t (f64_of_Z Second))).
Proof.
  cbv zeta. split; [done|]. intros Ht. unfold GetCheckTimeout. simpl. rewrite Ht. done.
Qed.
End properties.

Section concrete.
Definition cfg1 : Config :=
  MkConfig HTTPChecker (check_config true true) (Scheduler.MkConfig None (Some 1) None).
Definition checker1 : Checker := (processSucceed 1 (MkMetadata true 10 false) (New cfg1 10)).2.
Definition refused : option (opError unit) := Some (ErrCheck (errHTTPProcessRequest tt)).

Lemma checks_fail_after_retries_witness :
  (process_fails [(2, refused); (3, refused)] checker1).1 =
    [None; Some (new_event xevent.Disable weight.Omitted)] /\
  SAlive (state (process_fails [(2, refused); (3, refused)] checker1).2) = false.
Proof.
  apply (checks_fail_after_retries checker1 [(2, refused); (3, refused)]);
    [repeat constructor | discriminate | discriminate | reflexivity].
Defined.


Lemma dynamic_weight_converges_witness :
  SWeight_ (state (process_success (MkMetadata true 15 false) [1; 2; 3; 4; 5] checker1)) = 15.
Proof.
  apply (dynamic_weight_converges checker1 (MkMetadata true 15 false) [1; 2; 3; 4; 5]);
    [reflexivity | split; [discriminate|reflexivity].. | discriminate].
Defined.

(** Isolated failures add up.  With one retry, a checker whose checks
    fail, succeed and fail again is disabled, although no two failures follow
    each other: a success resets the count only if the checker was down. *)
Theorem isolated_failures_disable :
  let '(ev1, m1) := processFail 2 refused checker1 in
  let '(_, m2) := processSucceed 3 (MkMetadata true 10 false) m1 in
  let '(ev3, m3) := processFail 4 refused m2 in
  SAlive (state checker1) = true /\ retries_of checker1 = 1 /\ ev1 = None /\
  SAlive (state m2) = true /\ FailedAttempts (state m2) = 1 /\
  ev3 = Some (new_event xevent.Disable weight.Omitted) /\ SAlive (state m3) = false.
Proof. vm_compute. repeat split. Qed.
End concrete.
