(* ===== verification/Checking.v ===== *)
(** * The goroutines of a checker

    [Run] and [Stop] of [internal/core/checker/checker.go]: the loop of the
    scheduler, the goroutine that watches the contexts, the callers of [Stop] and
    of [UpdateWeight], and the wait group between them.  What a check and its
    result do to the state is in [Checker], when the next check is due in
    [Scheduler]; here they are the steps of a relation. *)

From stdpp Require Import strings numbers gmap sets list relations.
From S2P Require Import Prelude.
From S2P Require Import Types.
From S2P Require Import Scheduler.
From S2P Require Import Check.
From S2P Require Import Checker.

Open Scope Z_scope.

Section checking.
Context `{F : FloatToInt} {X : Type} (tls : tlsConfig) (rnd : float64).

(** Where the goroutine of [Run] is. *)
Inductive place :=
| Launched                         (* before [eventsWG.Add] *)
| Counted
| Watched                          (* the watching goroutine is started *)
| Scheduled (p : phase)            (* in [scheduler.Run]; in [RunJob], before the job reads the state *)
| Doing (i : Z) (before : State)   (* in the check *)
| Processing (i : Z) (md : Metadata) (opErr : option (opError X))   (* counted, before the lock *)
| Leaving                          (* [scheduler.Run] has returned *)
| Deferred                         (* the context is cancelled *)
| ShuttingDown                     (* counted, before the lock *)
| Sent                             (* the shutdown event is handled *)
| Ended.

Inductive watch_at := WatchNone | WatchSelect | WatchStopping | WatchWaiting | WatchEnded.

(** The caller of [Stop]. *)
Inductive stop_at := StopNone | StopWaiting | StopReturned.

Record Checking := MkChecking {
  chk : Checker;
  running : place;
  watcher : watch_at;
  stopper : stop_at;
  shutdown : bool;
  parent : bool;      (* the context passed to [Run] is done *)
  child : bool;       (* the context made by [Run] is cancelled *)
  eventsWG : nat;
  sent : list xevent.Event;   (* the calls of the handler *)
}.

Definition launched (m : Checker) : Checking := MkChecking m Launched WatchNone StopNone false false false 0 [].

Definition sched (m : Checker) : Scheduler := Scheduler.New (CScheduler (config m)) [WithInitialDelay rnd].

Definition scheduled (p : phase) : place := match p with Returned => Leaving | _ => Scheduled p end.

Definition succeeded (opErr : option (opError X)) : bool := match opErr with None => true | Some _ => false end.

(** The steps of the three goroutines. *)
Inductive own : Checking -> Checking -> Prop :=
| run_counts m st sh pa ch wg se :
    own (MkChecking m Launched WatchNone st sh pa ch wg se) (MkChecking m Counted WatchNone st sh pa ch (S wg) se)
| run_watches m st sh pa ch wg se :
    own (MkChecking m Counted WatchNone st sh pa ch wg se) (MkChecking m Watched WatchSelect st sh pa ch wg se)
| run_schedules m w st sh pa ch wg se :
    own (MkChecking m Watched w st sh pa ch wg se)
        (MkChecking m (scheduled (Run_start (pa || ch) (sched m)).1) w st sh pa ch wg se)
| run_cancelled p t m w st sh pa ch wg se :
    pa || ch = true -> Run_step (sched m) p Cancelled = Some (Returned, t) ->
    own (MkChecking m (Scheduled p) w st sh pa ch wg se) (MkChecking m Leaving w st sh pa ch wg se)
| job_reads i m w st sh pa ch wg se :
    own (MkChecking m (Scheduled (RunJob i)) w st sh pa ch wg se) (MkChecking m (Doing i (state m)) w st sh pa ch wg se)
| job_returns net opErr md i before m w st sh pa ch wg se :
    Do tls net (config m) (MkMetadata (SAlive before) (SWeight_ before) false) = Some (opErr, md) ->
    own (MkChecking m (Doing i before) w st sh pa ch wg se)
        (MkChecking m (Processing i (MkMetadata (MAlive md) (MWeight md) (ManualChanged before)) (ErrCheck <$> opErr))
           w st sh pa ch (S wg) se)
| job_processes now ev m' p t i md opErr m w st sh pa ch wg se :
    ProcessCheck now md opErr m = (ev, m') ->
    Run_step (sched m) (RunJob i) (JobReturned (succeeded opErr)) = Some (p, t) ->
    own (MkChecking m (Processing i md opErr) w st sh pa ch (S wg) se)
        (MkChecking m' (scheduled p) w st sh pa ch wg (se ++ option_list ev))
| run_cancels m w st sh pa ch wg se :
    own (MkChecking m Leaving w st sh pa ch wg se) (MkChecking m Deferred w st sh pa true wg se)
| run_handles m w st sh pa ch wg se :
    own (MkChecking m Deferred w st sh pa ch wg se) (MkChecking m ShuttingDown w st sh pa ch (S wg) se)
| run_sends now ev m' m w st sh pa ch wg se :
    shutdownEvent (X := X) now m = (ev, m') ->
    own (MkChecking m ShuttingDown w st sh pa ch (S wg) se) (MkChecking m' Sent w st sh pa ch wg (se ++ option_list ev))
| run_ends m w st sh pa ch wg se :
    own (MkChecking m Sent w st sh pa ch (S wg) se) (MkChecking m Ended w st sh pa ch wg se)
| watch_context m r st sh pa ch wg se :
    pa || ch = true ->
    own (MkChecking m r WatchSelect st sh pa ch wg se) (MkChecking m r WatchStopping st sh pa ch wg se)
| watch_shutdown m r st pa ch wg se :
    own (MkChecking m r WatchSelect st true pa ch wg se) (MkChecking m r WatchEnded st true pa true wg se)
| watch_signals m r st sh pa ch wg se :
    own (MkChecking m r WatchStopping st sh pa ch wg se) (MkChecking m r WatchWaiting st true pa ch wg se)
| watch_returns m r st sh pa ch se :
    own (MkChecking m r WatchWaiting st sh pa ch 0 se) (MkChecking m r WatchEnded st sh pa ch 0 se)
| stop_returns m r w sh pa ch se :
    own (MkChecking m r w StopWaiting sh pa ch 0 se) (MkChecking m r w StopReturned sh pa ch 0 se).

(** Timers, the contexts' owner, and the callers of [Stop] and [UpdateWeight]. *)
Inductive env : Checking -> Checking -> Prop :=
| timer_expires p q t m w st sh pa ch wg se :
    Run_step (sched m) p TimerExpired = Some (q, t) ->
    env (MkChecking m (Scheduled p) w st sh pa ch wg se) (MkChecking m (Scheduled q) w st sh pa ch wg se)
| parent_done m r w st sh pa ch wg se :
    env (MkChecking m r w st sh pa ch wg se) (MkChecking m r w st sh true ch wg se)
| stop_called m r w sh pa ch wg se :
    env (MkChecking m r w StopNone sh pa ch wg se) (MkChecking m r w StopWaiting true pa ch wg se)
| weight_updated weight m r w st sh pa ch wg se :
    env (MkChecking m r w st sh pa ch wg se) (MkChecking (UpdateWeight weight m) r w st sh pa ch wg se).

Definition reach (m : Checker) (p : Checking) : Prop := rtc (either own env) (launched m) p.

(** ** What holds of every run *)

(** The wait group counts the run, and what is being processed. *)
Definition count (r : place) : nat :=
  match r with
  | Launched | Ended => 0
  | Processing _ _ _ | ShuttingDown => 2
  | _ => 1
  end.

(** The event of [ErrShutdown]. *)
Definition shutdown_event : xevent.Event := new_event xevent.Shutdown weight.Omitted.
Definition is_Shutdown (e : xevent.Event) : Prop := xevent.EType e = xevent.Shutdown.
Definition quiet (l : list xevent.Event) : Prop := Forall (fun e => ~ is_Shutdown e) l.

(** What is known in each place: the shutdown event is the last one, the watching
    goroutine is started once, the context is cancelled on the way out. *)
Definition placed (r : place) (w : watch_at) (ch : bool) (se : list xevent.Event) : Prop :=
  match r with
  | Scheduled Returned => False
  | Processing _ _ opErr => is_shutdown opErr = false
  | Deferred | ShuttingDown | Sent | Ended => ch = true
  | _ => True
  end /\
  match r with
  | Launched | Counted => w = WatchNone
  | _ => w <> WatchNone
  end /\
  match r with
  | Sent | Ended => exists l, se = l ++ [shutdown_event] /\ quiet l
  | _ => quiet se
  end.

Definition watching (w : watch_at) (sh pa ch : bool) : Prop :=
  match w with
  | WatchNone | WatchSelect => True
  | WatchStopping => pa || ch = true
  | WatchWaiting => pa || ch = true /\ sh = true
  | WatchEnded => ch = true
  end.

Definition inv (c : Config) (p : Checking) : Prop :=
  config (chk p) = c /\ eventsWG p = count (running p) /\
  placed (running p) (watcher p) (child p) (sent p) /\
  watching (watcher p) (shutdown p) (parent p) (child p) /\
  (stopper p <> StopNone -> shutdown p = true).

Lemma ProcessCheck_config now md (opErr : option (opError X)) m :
  config (ProcessCheck now md opErr m).2 = config m.
Proof.
  unfold ProcessCheck, processSucceed, processFail, updateWeight, disableChecker. by repeat (case_match; simplify_eq/=).
Qed.

(** Only [ErrShutdown] makes a shutdown event, and it always does. *)
Lemma ProcessCheck_quiet now md (opErr : option (opError X)) m :
  is_shutdown opErr = false -> quiet (option_list (ProcessCheck now md opErr m).1).
Proof.
  intros Hs. unfold ProcessCheck, processSucceed, processFail. rewrite Hs.
  repeat (case_match; simplify_eq/=); try apply Forall_nil_2; (apply Forall_cons_2; [by unfold is_Shutdown|apply Forall_nil_2]).
Qed.

Lemma shutdownEvent_sends now m : (shutdownEvent (X := X) now m).1 = Some shutdown_event.
Proof. reflexivity. Qed.

Lemma scheduled_cases p : scheduled p = Leaving \/ (p <> Returned /\ scheduled p = Scheduled p).
Proof. destruct p; auto. Qed.

Lemma placed_scheduled p w ch se : quiet se -> w <> WatchNone -> count (scheduled p) = 1%nat /\ placed (scheduled p) w ch se.
Proof. intros Hq Hw. destruct (scheduled_cases p) as [->|[Hp ->]]; repeat split; try done. by destruct p. Qed.

Lemma placed_watcher r w w' ch ch' se :
  placed r w ch se -> w <> WatchNone -> w' <> WatchNone -> (ch = true -> ch' = true) -> placed r w' ch' se.
Proof. intros (H1 & H2 & H3) Hw Hw' Hch. split_and!; [|by destruct r|done]. destruct r; auto. Qed.

#[local] Arguments sched : simpl never.
#[local] Arguments Run_start : simpl never.
#[local] Arguments scheduled : simpl never.

Lemma own_inv c p q : own p q -> inv c p -> inv c q.
Proof.
  intros Hs. unfold inv.
  destruct Hs as [| |m w st sh pa ch wg se| | |
    |now ev m' p t i md opErr m w st sh pa ch wg se Hp Ht| | |now ev m' m w st sh pa ch wg se Hp| | | | | |];
    cbn -[Run_step placed]; intros (Hc & Hw & Hpl & Hwa & Hst); subst.
  all: split_and!; try done.
  - by destruct Hpl as (_ & _ & ?).
  - destruct Hpl as (_ & ? & ?). symmetry. by apply (placed_scheduled _ w ch se).
  - destruct Hpl as (_ & ? & ?). by apply (placed_scheduled _ w ch se).
  - by destruct Hpl as (_ & ? & ?).
  - destruct Hpl as (_ & ? & ?). split_and!; [by destruct opErr|done..].
  - by rewrite <- (ProcessCheck_config now md opErr m), Hp.
  - destruct Hpl as (_ & ? & ?). pose proof (placed_scheduled p w ch se). intuition (simpl in *; congruence).
  - destruct Hpl as (He & ? & ?). apply (placed_scheduled p w ch); [|done].
    apply Forall_app_2; [done|]. pose proof (ProcessCheck_quiet now md opErr m He) as Hq. by rewrite Hp in Hq.
  - by destruct Hpl as (_ & ? & ?).
  - destruct w; cbn in *; rewrite ?orb_true_r; intuition.
  - pose proof (ProcessCheck_config now (SetInactive (MkMetadata false 0 false)) (Some ErrShutdown : option (opError X)) m) as Hcf.
    unfold shutdownEvent in Hp. by rewrite Hp in Hcf.
  - simpl in Hw. lia.
  - destruct Hpl as (? & ? & ?). split_and!; [done|done|]. exists se. split; [|done].
    pose proof (shutdownEvent_sends now m) as He. rewrite Hp in He. simpl in He. by rewrite He.
  - simpl in Hw. lia.
  - by apply (placed_watcher r WatchSelect WatchStopping ch ch).
  - by apply (placed_watcher r WatchSelect WatchEnded ch true).
  - by apply (placed_watcher r WatchStopping WatchWaiting ch ch).
  - by apply (placed_watcher r WatchWaiting WatchEnded ch ch).
  - destruct Hpl as (H1 & H2 & _). by destruct r.
  - intros _. by apply Hst.
Qed.

Lemma env_inv c p q : env p q -> inv c p -> inv c q.
Proof.
  intros Hs. unfold inv. destruct Hs as [p q t m w st sh pa ch wg se Ht| | |]; cbn -[Run_step placed]; intros (Hc & Hw & Hpl & Hwa & Hst); subst;
    split_and!; try done.
  - destruct Hpl as (H1 & H2 & H3). split_and!; [|done..]. destruct p, q; simpl in *; try done; unfold start_attempt in Ht; by case_match.
  - destruct w; cbn in *; intuition.
  - destruct w; cbn in *; intuition.
Qed.

Lemma launched_inv m : inv (config m) (launched m).
Proof. split_and!; try done. split_and!; try done. apply Forall_nil_2. Qed.

Lemma reach_inv m p : reach m p -> inv (config m) p.
Proof. intros Hr. apply (either_inv own env (inv (config m)) (launched m) p); eauto using own_inv, env_inv, launched_inv. Qed.

(** ** A checker that is told to stop ends *)

Definition place_left (r : place) : nat :=
  match r with
  | Launched => 8 | Counted => 7 | Watched => 6
  | Scheduled (RunJob _) => 8 | Scheduled _ => 5
  | Doing _ _ => 7 | Processing _ _ _ => 6
  | Leaving => 4 | Deferred => 3 | ShuttingDown => 2 | Sent => 1 | Ended => 0
  end.

Definition watch_left (w : watch_at) : nat :=
  match w with WatchNone | WatchSelect => 3 | WatchStopping => 2 | WatchWaiting => 1 | WatchEnded => 0 end.

Definition stop_left (s : stop_at) : nat := match s with StopReturned => 0 | _ => 1 end.

Definition left (p : Checking) : nat := (place_left (running p) + watch_left (watcher p) + stop_left (stopper p))%nat.

Lemma scheduled_left m p i ok t : Run_step (sched m) (RunJob i) (JobReturned ok) = Some (p, t) -> place_left (scheduled p) = 5%nat.
Proof. intros H. simpl in H. repeat case_match; by simplify_eq. Qed.

Lemma own_left p q : own p q -> (left q < left p)%nat.
Proof.
  destruct 1; unfold left; cbn -[Run_step]; try lia.
  - unfold Run_start, scheduled. destruct pa, ch; cbn; lia.
  - destruct p; simpl in *; try lia; try discriminate.
  - erewrite scheduled_left by done. lia.
Qed.

Lemma env_left p q : env p q -> (left q <= left p + 3)%nat.
Proof.
  destruct 1 as [p q t m w st sh pa ch wg se Ht| | |]; unfold left; cbn -[Run_step]; try lia.
  destruct p; simpl in Ht; try discriminate; unfold start_attempt in Ht; case_match; simplify_eq; simpl; lia.
Qed.

Lemma Do_total (net : network X) (c : Config) md : CType c <> TypeUnset -> is_Some (Do tls net c md).
Proof. unfold Do. by destruct (CType c); eauto. Qed.

(** Where no goroutine can move, all of them have ended. *)
Lemma stuck_ended (net : network X) c p :
  CType c <> TypeUnset -> inv c p -> shutdown p = true \/ parent p = true -> (forall q, ~ own p q) ->
  running p = Ended /\ watcher p = WatchEnded /\ stopper p <> StopWaiting.
Proof.
  destruct p as [m r w st sh pa ch wg se]. unfold inv. cbn. intros Hty (<- & -> & Hpl & Hwa & Hst) Hor Hn.
  assert (w <> WatchSelect \/ (sh = false /\ pa = false)) as Hsel.
  { destruct w; try (by left). destruct sh; [exfalso; eapply Hn, watch_shutdown|].
    destruct pa; [exfalso; eapply Hn, watch_context; done|auto]. }
  assert (w <> WatchSelect) as Hw by (destruct Hsel as [?|[-> ->]]; [done|by destruct Hor]). clear Hsel.
  assert (w <> WatchStopping) as Hw2 by (intros ->; eapply Hn, watch_signals).
  assert (w <> WatchNone -> pa || ch = true) as Hctx
    by (intros ?; destruct w; try done; cbn in Hwa; [by destruct Hwa|rewrite Hwa; apply orb_true_r]).
  destruct r as [| | |ph|i before|i md opErr| | | | |]; cbn in Hpl.
  - exfalso. destruct Hpl as (_ & -> & _). eapply Hn, run_counts.
  - exfalso. destruct Hpl as (_ & -> & _). eapply Hn, run_watches.
  - exfalso. eapply Hn, run_schedules.
  - exfalso. destruct Hpl as (H1 & H2 & _). specialize (Hctx H2).
    destruct ph; [|eapply Hn, job_reads| | |done]; eapply Hn, run_cancelled; done.
  - exfalso. destruct (Do_total net (config m) (MkMetadata (SAlive before) (SWeight_ before) false) Hty) as [[opErr md] Hdo].
    eapply Hn, job_returns, Hdo.
  - exfalso. destruct (ProcessCheck 0 md opErr m) as [ev m'] eqn:Hp.
    assert (exists pt, Run_step (sched m) (RunJob i) (JobReturned (succeeded opErr)) = Some pt) as [[ph t] Ht]
      by (simpl; repeat case_match; eauto).
    eapply Hn, job_processes; done.
  - exfalso. eapply Hn, run_cancels.
  - exfalso. eapply Hn, run_handles.
  - exfalso. destruct (shutdownEvent (X := X) 0 m) as [ev m'] eqn:Hp. eapply Hn, run_sends; done.
  - exfalso. eapply Hn, run_ends.
  - split; [done|]. split.
    + destruct Hpl as (_ & H2 & _). destruct w; try done. exfalso. eapply Hn, watch_returns.
    + intros ->. eapply Hn, stop_returns.
Qed.

(** C34: a checker ends when it is told to stop or its context is done, whatever
    the order of the steps: the steps its goroutines take are bounded by the
    number of timers that fire meanwhile, and where none is left [Run], the
    watching goroutine and [Stop] have returned, and the last thing the handler
    was called with is the one shutdown event. *)
Theorem stopped_checker_ends (net : network X) (m : Checker) (p q : Checking) (n e : nat) :
  CType (config m) <> TypeUnset ->
  reach m p -> shutdown p = true \/ parent p = true ->
  takes own env n e p q ->
  (n <= 12 + 3 * e)%nat /\
  ((forall q', ~ own q q') ->
   running q = Ended /\ watcher q = WatchEnded /\ stopper q <> StopWaiting /\
   exists l, sent q = l ++ [shutdown_event] /\ quiet l).
Proof.
  intros Hty Hr Hor Hpq. split.
  - pose proof (takes_bound own env left 3 n e p q own_left env_left Hpq) as Hb.
    assert (left p <= 12)%nat; [|lia]. unfold left. destruct (running p) as [| | |[]| | | | | | |], (watcher p), (stopper p); simpl; lia.
  - intros Hn. pose proof (takes_either _ _ _ _ _ _ Hpq) as Hrtc.
    assert (inv (config m) q) as Hi by (apply reach_inv; unfold reach in *; by etrans).
    assert (shutdown q = true \/ parent q = true) as Hor'.
    { revert Hor. apply (either_inv own env (fun p => shutdown p = true \/ parent p = true) p q); [..|done];
        destruct 1; cbn; intuition. }
    destruct (stuck_ended net _ _ Hty Hi Hor' Hn) as (H1 & H2 & H3). split_and!; try done.
    destruct Hi as (_ & _ & (_ & _ & Hl) & _). by rewrite H1 in Hl.
Qed.

(** ** Stop waits for the shutdown event *)

Lemma own_ended p q : own p q -> running p = Ended -> running q = Ended /\ sent q = sent p.
Proof. destruct 1; cbn; (discriminate || done). Qed.

Lemma env_ended p q : env p q -> running p = Ended -> running q = Ended /\ sent q = sent p.
Proof. destruct 1; cbn; (discriminate || done). Qed.

Lemma ended_is_silent p q : rtc (either own env) p q -> running p = Ended -> running q = Ended /\ sent q = sent p.
Proof.
  intros Hpq Hp. apply (either_inv own env (fun q => running q = Ended /\ sent q = sent p) p q); [..|done|done].
  - intros s1 s2 Hs [H1 <-]. by apply own_ended.
  - intros s1 s2 Hs [H1 <-]. by apply env_ended.
Qed.

(** What a stop that found the run counted has waited for. *)
Definition waited (c : Config) (p : Checking) : Prop :=
  inv c p /\ running p <> Launched /\ (stopper p = StopReturned -> running p = Ended).

Lemma own_waited c p q : own p q -> waited c p -> waited c q.
Proof.
  intros Hs (Hi & Hl & Hr). pose proof (own_inv c p q Hs Hi) as Hq. split; [done|].
  destruct Hs; cbn in *; try (split; [done|]; intros Hret; by specialize (Hr Hret)); try done.
  - split; [by destruct (scheduled_cases (Run_start (pa || ch) (sched m)).1) as [->|[_ ->]]|]. intros Hret. by specialize (Hr Hret).
  - split; [by destruct (scheduled_cases p) as [->|[_ ->]]|]. intros Hret. by specialize (Hr Hret).
  - split; [done|]. intros _. destruct Hi as (_ & Hc & _). cbn in Hc. by destruct r.
Qed.

Lemma env_waited c p q : env p q -> waited c p -> waited c q.
Proof.
  intros Hs (Hi & Hl & Hr). pose proof (env_inv c p q Hs Hi) as Hq. split; [done|].
  destruct Hs; cbn in *; split; try done. intros Hret. by specialize (Hr Hret).
Qed.

(** C35: [Stop] of a checker whose [Run] has counted itself returns only when the
    run has ended: the handler has been called with the shutdown event, once, and
    is never called again. *)
Theorem Stop_waits_for_shutdown_event (m : Checker) (p q q' : Checking) :
  reach m p -> running p <> Launched -> stopper p = StopNone ->
  rtc (either own env) p q -> stopper q = StopReturned -> rtc (either own env) q q' ->
  running q = Ended /\ sent q' = sent q /\ exists l, sent q = l ++ [shutdown_event] /\ quiet l.
Proof.
  intros Hr Hl Hn Hpq Hq Hqq.
  assert (waited (config m) q) as (Hi & _ & He).
  { apply (either_inv own env (waited (config m)) p q); eauto using own_waited, env_waited.
    split; [by apply reach_inv|]. split; [done|]. congruence. }
  specialize (He Hq). destruct (ended_is_silent q q' Hqq He) as [_ Hse]. split; [done|]. split; [done|].
  destruct Hi as (_ & _ & (_ & _ & Hs) & _). by rewrite He in Hs.
Qed.

(** ** What the real knows of the weight *)

(** The weight of the last enabling event. *)
Definition reported_weight (l : list xevent.Event) : option Z :=
  xevent.SWeight ∘ xevent.ENew <$> last (filter (fun e => xevent.EType e = xevent.Enable) l).

Definition reported (m : Checker) (l : list xevent.Event) : Prop :=
  SAlive (state m) = true -> ManualChanged (state m) = true \/ reported_weight l = Some (SWeight_ (state m)).

Lemma reported_weight_snoc l e :
  reported_weight (l ++ [e]) =
  if decide (xevent.EType e = xevent.Enable) then Some (xevent.SWeight (xevent.ENew e)) else reported_weight l.
Proof.
  unfold reported_weight. rewrite filter_app, filter_cons, filter_nil. case_decide.
  - by rewrite last_snoc.
  - by rewrite app_nil_r.
Qed.

Lemma ProcessCheck_reported now md (opErr : option (opError X)) m l :
  reported m l ->
  let '(ev, m') := ProcessCheck now md opErr m in reported m' (l ++ option_list ev).
Proof.
  intros Hm. unfold ProcessCheck. destruct (MAlive md).
  - pose proof (processSucceed_functional now md m) as HF. cbv zeta in HF.
    destruct (processSucceed now md m) as [ev m']. destruct HF as (-> & _ & _ & Hst).
    unfold reported. rewrite Hst. cbn [SAlive ManualChanged SWeight_]. intros _.
    destruct (SAlive (state m)) eqn:Ha; cbn [negb orb]; [|right; apply reported_weight_snoc].
    set (new := if DynamicWeight _ then _ else _). destruct (Z.eqb_spec new (SWeight_ (state m))) as [Hw|Hw]; cbn [negb orb];
      [|right; apply reported_weight_snoc].
    destruct (Force md); [right; apply reported_weight_snoc|]. rewrite app_nil_r, Hw. by apply Hm.
  - unfold processFail, disableChecker, failedAttempt. destruct (is_shutdown opErr); cbn.
    { unfold reported. cbn. rewrite reported_weight_snoc. by rewrite decide_False by done. }
    destruct (_ <? _); cbn; unfold reported; cbn; [done|]. by rewrite app_nil_r.
Qed.

Lemma own_reported p q : own p q -> reported (chk p) (sent p) -> reported (chk q) (sent q).
Proof.
  destruct 1 as [| | | | | |now ev m' p t i md opErr m w st sh pa ch wg se Hp Ht| | |now ev m' m w st sh pa ch wg se Hp| | | | | |];
    cbn -[ProcessCheck Run_step]; try done; intros Hm.
  - pose proof (ProcessCheck_reported now md opErr m se Hm) as H. by rewrite Hp in H.
  - pose proof (ProcessCheck_reported now (SetInactive (MkMetadata false 0 false)) (Some ErrShutdown : option (opError X)) m se Hm) as H.
    unfold shutdownEvent in Hp. by rewrite Hp in H.
Qed.

(** C36: whatever is interleaved with the checks, a checker that is alive has told
    its real the weight it has, unless it was changed by hand and the change
    waits for the next check. *)
Theorem weight_is_reported (m : Checker) (p : Checking) :
  SAlive (state m) = false -> reach m p -> SAlive (state (chk p)) = true ->
  ManualChanged (state (chk p)) = true \/ reported_weight (sent p) = Some (SWeight_ (state (chk p))).
Proof.
  intros Hm Hr. apply (either_inv own env (fun p => reported (chk p) (sent p)) (launched m) p); eauto using own_reported.
  - destruct 1; cbn; try done. intros _ _. by left.
  - unfold reported. cbn. congruence.
Qed.
End checking.

(** ** A stop that comes too early *)

Section early.
Definition tcp : Config := MkConfig TCPChecker (check_config false false) (Scheduler.MkConfig None (Some 1) None).

(** A network in which connections succeed. *)
Definition connects : network unit := MkNetwork (fun _ => Ok None) (fun _ => None) (fun _ => Err tt) (fun _ => None) (fun _ _ => Err tt).

Local Notation own := (own (X := unit) None (f64_of_Z 0)).
Local Notation env := (env (X := unit) (f64_of_Z 0)).
Local Ltac by_eval := first [done|vm_compute; reflexivity].
Local Tactic Notation "run_step" uconstr(c) := eapply rtc_l; [left; eapply c; by_eval|].
Local Tactic Notation "env_step" uconstr(c) := eapply rtc_l; [right; eapply c; by_eval|].

(** The checker after a successful check, and after its end. *)
Definition checked : Checker := (ProcessCheck (X := unit) 1 (MkMetadata true weight.Omitted false) None (New tcp 10)).2.
Definition down_ : Checker := (shutdownEvent (X := unit) 2 checked).2.
Definition up_event : xevent.Event := new_event xevent.Enable 10.

(** Before [Run], after a check, and that while [Stop] waits, has waited, or has
    returned ([stop]). *)
Definition counted_ (sh : bool) (stop : stop_at) : Checking (X := unit) :=
  MkChecking (New tcp 10) Counted WatchNone stop sh false false 1 [].
Definition alive_ (sh : bool) (stop : stop_at) : Checking (X := unit) :=
  MkChecking checked (Scheduled WaitLoop) WatchSelect stop sh false false 1 [up_event].
Definition stopped_ : Checking (X := unit) :=
  MkChecking down_ Ended WatchEnded StopReturned true false true 0 [up_event; shutdown_event].

Lemma counted_reachable : rtc (either own env) (launched (New tcp 10)) (counted_ false StopNone).
Proof. unfold launched. run_step run_counts. apply rtc_refl. Qed.

Lemma counted_checks sh stop : rtc (either own env) (counted_ sh stop) (alive_ sh stop).
Proof.
  unfold counted_. run_step run_watches. run_step run_schedules. env_step timer_expires. run_step job_reads.
  eapply rtc_l; [left; eapply (job_returns _ _ connects); by_eval|].
  eapply rtc_l; [left; eapply (job_processes _ _ 1); by_eval|]. apply rtc_refl.
Qed.

Lemma alive_stops : takes own env 7 0 (alive_ true StopWaiting) stopped_.
Proof.
  unfold alive_. do 2 (eapply takes_own; [first [eapply watch_shutdown; by_eval|eapply run_cancelled; by_eval]|]).
  eapply takes_own; [eapply run_cancels|]. eapply takes_own; [eapply run_handles|].
  eapply takes_own; [eapply (run_sends _ _ 2); by_eval|]. eapply takes_own; [eapply run_ends|].
  eapply takes_own; [eapply stop_returns|]. apply takes_nothing.
Qed.

Lemma alive_reachable : rtc (either own env) (launched (New tcp 10)) (alive_ true StopWaiting).
Proof.
  etrans; [apply counted_reachable|]. etrans; [apply counted_checks|]. unfold alive_. env_step stop_called. apply rtc_refl.
Qed.

Lemma stopped_checker_ends_witness :
  (7 <= 12 + 3 * 0)%nat /\ exists l, sent stopped_ = l ++ [shutdown_event] /\ quiet l.
Proof.
  destruct (stopped_checker_ends None (f64_of_Z 0) connects (New tcp 10) (alive_ true StopWaiting) stopped_ 7 0
    ltac:(discriminate) alive_reachable (or_introl eq_refl) alive_stops) as [H1 H2].
  split; [exact H1|]. apply H2. intros q Hq. unfold stopped_ in Hq. inversion Hq.
Defined.

Lemma Stop_waits_for_shutdown_event_witness :
  running stopped_ = Ended /\ sent stopped_ = [up_event; shutdown_event].
Proof.
  destruct (Stop_waits_for_shutdown_event None (f64_of_Z 0) (New tcp 10) (counted_ false StopNone) stopped_ stopped_
    counted_reachable ltac:(discriminate) eq_refl) as (H1 & H2 & _); [|done|apply rtc_refl|split; [exact H1|reflexivity]].
  etrans; [apply counted_checks|]. eapply rtc_l; [right; apply stop_called|]. exact (takes_either _ _ _ _ _ _ alive_stops).
Defined.

Lemma weight_is_reported_witness :
  ManualChanged (state (chk (alive_ true StopWaiting))) = true \/ reported_weight (sent (alive_ true StopWaiting)) = Some 10.
Proof. exact (weight_is_reported None (f64_of_Z 0) (New tcp 10) (alive_ true StopWaiting) eq_refl alive_reachable eq_refl). Defined.

(** A stop that comes before [Run] has counted itself returns at once, and
    waits for nothing: the checker runs behind its back, and may still enable
    its real. *)
Theorem early_Stop_returns :
  exists q q', rtc (either own env) (launched (New tcp 10)) q /\ stopper q = StopReturned /\ sent q = [] /\
    rtc (either own env) q q' /\ stopper q' = StopReturned /\ sent q' = [up_event] /\ SAlive (state (chk q')) = true.
Proof.
  exists (counted_ true StopReturned), (alive_ true StopReturned). split_and!; try done; [|apply counted_checks].
  unfold launched. env_step stop_called. run_step stop_returns. run_step run_counts. apply rtc_refl.
Qed.
End early.
