(* ===== verification/Real.v ===== *)
(** * Real servers

    [internal/core/real]: the configuration of a real server, its state, the
    handling of its checkers' events, and the reload of its checkers. *)

From Stdlib Require Import SpecFloat.
From stdpp Require Import strings numbers gmap sets list.
From S2P Require Import Prelude.
From S2P Require Import Types.
From S2P Require Import Utils.
From S2P Require Import Scheduler.
From S2P Require Import Check.
From S2P Require Import Checker.

Open Scope Z_scope.
Open Scope go_scope.

#[local] Set Warnings "-register-all".

(** ** JSON values, as [MarshalJSON] builds them *)

Inductive json :=
| JNull
| JBool (b : bool)
| JString (s : string)
| JArray (l : list json)
| JObject (fields : list (string * json)).

(** A field with the option [omitempty]. *)
Definition omitempty (name : string) (v : string) : list (string * json) :=
  if decide (v = "") then [] else [(name, JString v)].

(** [netip.Addr] marshals as its text, the invalid address as the empty one. *)
Definition Addr_json (a : Addr) : json :=
  JString match a with AddrInvalid => "" | _ => Addr_String a end.

(** ** config.go *)

Record Config := MkConfig {
  IP : Addr;
  RPort : Z;
  RWeight : Z;
  InhibitOnFailure : bool;
  RVirtualhost : option string;
  ForwardingMethod : string;
  RScheduler : Scheduler.Config;
  TCPCheckers : list Checker.Config;
  HTTPCheckers : list Checker.Config;
  HTTPSCheckers : list Checker.Config;
  GRPCCheckers : list Checker.Config;
}.

Definition Key (m : Config) : key.Real := key.MkReal (IP m) (RPort m).

Definition Default (m : Config) : Config :=
  MkConfig (IP m) port.Omitted 1 (InhibitOnFailure m) (RVirtualhost m) (ForwardingMethod m)
    (RScheduler m) (TCPCheckers m) (HTTPCheckers m) (HTTPSCheckers m) (GRPCCheckers m).

(** A configuration for tests. *)
Definition DefaultConfig : Config := {|
  IP := AddrV4 (127 * 2 ^ 24 + 1);
  RPort := 443;
  RWeight := 1;
  InhibitOnFailure := false;
  RVirtualhost := Some "virtualhost";
  ForwardingMethod := "TUN";
  RScheduler := Scheduler.Config_Default;
  TCPCheckers := [];
  HTTPCheckers := [];
  HTTPSCheckers := [];
  GRPCCheckers := [];
|}.

(** All checkers, in the order of [slices.Concat]. *)
Definition checkers_of (m : Config) : list Checker.Config :=
  TCPCheckers m ++ HTTPCheckers m ++ HTTPSCheckers m ++ GRPCCheckers m.

Definition set_type (ty : Checker.Type_) (c : Checker.Config) : Checker.Config :=
  Checker.MkConfig ty (CheckConfig c) (CScheduler c).

(** The body of [propagate] for one checker. *)
Definition propagate (m : Config) (c : Checker.Config) : Checker.Config :=
  let s := CScheduler c in
  let url := CURL (CheckConfig c) in
  Checker.MkConfig (CType c)
    (Check.MkConfig
       (MkURL (Path url) (StatusCode url) (Digest url) (Coalesce [Virtualhost url; RVirtualhost m]))
       (CNet (CheckConfig c)) (CWeightControl (CheckConfig c)))
    (Scheduler.MkConfig
       (Coalesce [Scheduler.DelayLoop s; Scheduler.DelayLoop (RScheduler m)])
       (Coalesce [Scheduler.Retries s; Scheduler.Retries (RScheduler m)])
       (Coalesce [Scheduler.RetryDelay s; Scheduler.RetryDelay (RScheduler m)])).

(** [Prepare] mutates the configurations its slices point to; it cannot fail. *)
Definition Prepare (m : Config) : Config :=
  let prepare ty := fmap (fun c => Checker.Prepare (propagate m (set_type ty c))) in
  MkConfig (Addr_Unmap (IP m)) (RPort m) (RWeight m) (InhibitOnFailure m) (RVirtualhost m)
    (ForwardingMethod m) (RScheduler m)
    (prepare TCPChecker (TCPCheckers m)) (prepare HTTPChecker (HTTPCheckers m))
    (prepare HTTPSChecker (HTTPSCheckers m)) (prepare GRPCChecker (GRPCCheckers m)).

Definition MarshalJSON (m : Config) : json :=
  JObject ([("ip", Addr_json (IP m))] ++ omitempty "port" (port.String_ (RPort m)) ++
           [("weight", JString (Itoa (RWeight m)))]).

(** ** real.go: the state *)

Record State := MkState {
  Alive : bool;
  Weight : Z;
  Transitions : Z;
  DynWeight : bool;
  TransitionTimestamp : Z;
  Inhibited : bool;
}.

Definition Status (m : State) : xevent.Status :=
  if Inhibited m then xevent.MkStatus true 0 else xevent.MkStatus (Alive m) (Weight m).

Section real.
Context `{F : FloatToInt} `{MR : MapRange}.

Record Real := MkReal {
  config : Config;
  rkey : key.Real;
  checkers : gmap Checker.Key_ Checker;
  checkersPool : list Checker.Key_;  (* what was added to the pool, oldest first *)
  state : State;
  isActive : bool;
  shutdown : bool;
}.

Definition New (config : Config) : Real :=
  MkReal config (Key config) ∅ [] (MkState false 0 0 false 0 false) false false.

Definition set_state (s : State) (m : Real) : Real :=
  MkReal (config m) (rkey m) (checkers m) (checkersPool m) s (isActive m) (shutdown m).

(** ** handler.go: handlers return whether the event is dropped, the event as
    they changed it, and the new state *)

Definition handleDynamicWeight (weightFromChecker : Z) (c : Config) (s : State) : Z :=
  if negb (DynWeight s) then RWeight c
  else if negb (weightFromChecker =? weight.Omitted) then weightFromChecker
  else Weight s.

Definition updateWeight (weight : Z) (s : State) : bool * State :=
  if Weight s =? weight then (false, s)
  else (true, MkState (Alive s) weight (Transitions s) (DynWeight s) (TransitionTimestamp s) (Inhibited s)).

Definition updateTransitionTimestamp (now : Z) (s : State) : State :=
  MkState (Alive s) (Weight s) (Transitions s) (DynWeight s) now (Inhibited s).

Definition enableReal (now : Z) (s : State) : bool * State :=
  if Alive s then (false, s)
  else
    let s := MkState true (Weight s) (Transitions s +i 1) (DynWeight s) (TransitionTimestamp s) false in
    (true, updateTransitionTimestamp now s).

Definition disableReal (now : Z) (eventType : xevent.Type_) (c : Config) (s : State) : bool * State :=
  if negb (Alive s) && negb (InhibitOnFailure c) then (false, s)
  else
    let isShutdown := bool_decide (eventType = xevent.Shutdown) in
    if negb (Alive s) && Inhibited s && negb isShutdown then (false, s)
    else
      let inhibited := if InhibitOnFailure c then true else Inhibited s in
      let inhibited := if isShutdown then false else inhibited in
      let s := MkState false (Weight s) (Transitions s +i 1) (DynWeight s) (TransitionTimestamp s) inhibited in
      (true, updateTransitionTimestamp now s).

Definition processSucceed (now : Z) (event : xevent.Event) (c : Config) (s : State) :
    bool * xevent.Event * State :=
  let initStatus := Status s in
  let initStatus := if Inhibited s then xevent.MkStatus true 0 else initStatus in
  let newWeight := handleDynamicWeight (xevent.SWeight (xevent.ENew event)) c s in
  let '(weightChanged, s) := updateWeight newWeight s in
  let '(statusChanged, s) := enableReal now s in
  if negb statusChanged && negb weightChanged then (true, event, s)
  else (false, xevent.MkEvent (xevent.EType event) (xevent.EBalancer event) (Status s) initStatus, s).

Definition processFail (now : Z) (event : xevent.Event) (c : Config) (s : State) :
    bool * xevent.Event * State :=
  let initStatus := Status s in
  let '(statusChanged, s) := disableReal now (xevent.EType event) c s in
  if negb statusChanged then (true, event, s)
  else
    let event :=
      if Inhibited s
      then xevent.MkEvent xevent.Enable (xevent.EBalancer event) (xevent.MkStatus true 0) (xevent.EInit event)
      else event in
    (false, xevent.MkEvent (xevent.EType event) (xevent.EBalancer event) (xevent.ENew event) initStatus, s).

(** [HandleEvent] returns the event it passes to the service, if any. *)
Definition HandleEvent (now : Z) (event : xevent.Event) (m : Real) : option xevent.Event * Real :=
  let event :=
    xevent.MkEvent (xevent.EType event)
      (key.MkBalancer (key.BService (xevent.EBalancer event)) (rkey m))
      (xevent.ENew event) (xevent.EInit event) in
  let '(dropEvent, event, s) :=
    match xevent.EType event with
    | xevent.Enable => processSucceed now event (config m) (state m)
    | xevent.Disable | xevent.Shutdown => processFail now event (config m) (state m)
    end in
  (if dropEvent then None else Some event, set_state s m).

(** ** Checkers: start, reload, stop *)

Definition set_checker (k : Checker.Key_) (c : Checker) (m : Real) : Real :=
  MkReal (config m) (rkey m) (<[k := c]> (checkers m)) (checkersPool m) (state m) (isActive m) (shutdown m).

(** Stopping a running checker makes it send its shutdown event. *)
Definition stopChecker (now : Z) (k : Checker.Key_) (c : Checker) (m : Real) : option xevent.Event * Real :=
  let '(ev, c) := Checker.shutdownEvent (X:=unit) now c in
  let m := set_checker k c m in
  match ev with
  | Some ev => HandleEvent now ev m
  | None => (None, m)
  end.

(** Stopping every checker of a map; the events go to the service in turn. *)
Definition stopCheckers (now : Z) (cs : gmap Checker.Key_ Checker) (m : Real) : list xevent.Event * Real :=
  for_range cs
    (fun k c '(evs, m) =>
       let '(ev, m) := stopChecker now k c m in
       (evs ++ match ev with Some e => [e] | None => [] end, m))
    ([], m).

(** The loop of [reload] over the checkers of the new configuration. *)
Record reloadLoop := MkReloadLoop {
  oldCheckers : gmap Checker.Key_ Checker;
  newCheckers : gmap Checker.Key_ Checker;
  pool : list Checker.Key_;
  dynamicWeight_ : bool;
}.

Definition reloadChecker (forceReload weightChanged : bool) (weight : Z) (cfg : Checker.Config) (l : reloadLoop) : reloadLoop :=
  let key := Checker.Key cfg in
  let dyn := dynamicWeight_ l || DynamicWeight (CWeightControl (CheckConfig cfg)) in
  match oldCheckers l !! key with
  | Some knownChecker =>
      if negb forceReload then
        let knownChecker := if weightChanged then Checker.UpdateWeight weight knownChecker else knownChecker in
        MkReloadLoop (delete key (oldCheckers l)) (<[key := knownChecker]> (newCheckers l)) (pool l) dyn
      else MkReloadLoop (oldCheckers l) (<[key := Checker.New cfg weight]> (newCheckers l)) (pool l ++ [key]) dyn
  | None =>
      MkReloadLoop (oldCheckers l) (<[key := Checker.New cfg weight]> (newCheckers l)) (pool l ++ [key]) dyn
  end.

Definition reload (now : Z) (cfg : Config) (m : Real) : list xevent.Event * Real :=
  let forceReload := bool_decide (ForwardingMethod (config m) <> ForwardingMethod cfg) in
  let weightChanged := bool_decide (RWeight (config m) <> RWeight cfg) in
  if shutdown m && negb (bool_decide (checkers_of cfg = [])) then ([], m) (* reload aborted *)
  else
    let l := for_each (reloadChecker forceReload weightChanged (RWeight cfg)) (checkers_of cfg)
               (MkReloadLoop (checkers m) ∅ (checkersPool m) false) in
    let '(evs, m) := stopCheckers now (oldCheckers l) m in
    let s := state m in
    let s := MkState (Alive s) (Weight s) (Transitions s) (dynamicWeight_ l) (TransitionTimestamp s) (Inhibited s) in
    (evs, MkReal cfg (rkey m) (newCheckers l) (pool l) s (isActive m) (shutdown m)).

Definition Reload (now : Z) (cfg : Config) (m : Real) : list xevent.Event * Real :=
  if negb (isActive m)
  then ([], MkReal cfg (rkey m) (checkers m) (checkersPool m) (state m) (isActive m) (shutdown m))
  else reload now cfg m.

(** [Run]: nothing happens before the activation; then the initial reload. *)
Definition Run (now : Z) (activated : bool) (m : Real) : list xevent.Event * Real :=
  if negb activated then ([], m)
  else
    let m := MkReal (config m) (rkey m) (checkers m) (checkersPool m) (state m) true (shutdown m) in
    reload now (config m) m.

Definition Stop (now : Z) (m : Real) : list xevent.Event * Real :=
  let m := MkReal (config m) (rkey m) (checkers m) (checkersPool m) (state m) (isActive m) true in
  stopCheckers now (checkers m) m.

(** ** status.go *)

Record RealStatus := MkRealStatus {
  Ip : string;
  SPort : option Z;
  SAlive_ : Z;
  SWeight32 : Z;
  STransitions : Z;
  Checkers : list CheckerStatus;
}.

Definition Real_Status (m : Real) : RealStatus :=
  let s := state m in
  let alive := if Alive s then 1 else 0 in
  let checkerStatus := for_range (checkers m) (fun _ c l => l ++ [Checker.Status c]) [] in
  MkRealStatus (Addr_String (IP (config m))) (port.ProtoMarshaller (RPort (config m))) alive
    (weight.Uint32 (Weight s)) (Checker.uint32 (Transitions s)) checkerStatus.
End real.

(** ** What a real promises to its service *)

(** The events the service can account for: an enable event leaves the real
    enabled, a disable or shutdown event takes an enabled real down. *)
Definition event_shape (e : xevent.Event) : Prop :=
  match xevent.EType e with
  | xevent.Enable => xevent.SEnable (xevent.ENew e) = true
  | _ => xevent.SEnable (xevent.ENew e) = false /\ xevent.SEnable (xevent.EInit e) = true
  end.

(** A source of events has a status; every event it passes on leads from its
    status before to its status after, and a dropped event changes nothing that
    the load balancer could see. *)
Class EventSource (R : Type) := {
  es_key : R -> key.Real;
  es_status : R -> xevent.Status;
  es_inv : R -> Prop;
  es_ok : xevent.Event -> R -> Prop;
  es_handle : Z -> xevent.Event -> R -> option xevent.Event * R;
  es_spec now e r :
    es_inv r -> es_ok e r ->
    let '(o, r') := es_handle now e r in
    es_inv r' /\ es_key r' = es_key r /\
    match o with
    | None => es_status r' ≈ es_status r
    | Some e' => xevent.EInit e' ≈ es_status r /\ xevent.ENew e' ≈ es_status r' /\ event_shape e' /\
                 key.BReal (xevent.EBalancer e') = es_key r
    end;
}.

Section contract.
Context `{F : FloatToInt} `{MR : MapRange}.
Implicit Types (m : Real).

(** An inhibited real is not alive. *)
Definition real_inv m : Prop := Inhibited (state m) = true -> Alive (state m) = false.

(** The events of checkers: failures carry no status of their own.  A shutdown
    must not reach a real with [InhibitOnFailure] that is down without being
    inhibited (see [second_shutdown_counts_twice]). *)
Definition real_ok (e : xevent.Event) m : Prop :=
  (xevent.EType e = xevent.Enable \/ xevent.SEnable (xevent.ENew e) = false) /\
  ~ (xevent.EType e = xevent.Shutdown /\ Alive (state m) = false /\ Inhibited (state m) = false /\
     InhibitOnFailure (config m) = true).

Lemma real_contract now e m :
  real_inv m -> real_ok e m ->
  let '(o, m') := HandleEvent now e m in
  real_inv m' /\ rkey m' = rkey m /\
  match o with
  | None => Status (state m') ≈ Status (state m)
  | Some e' => xevent.EInit e' ≈ Status (state m) /\ xevent.ENew e' ≈ Status (state m') /\ event_shape e' /\
               key.BReal (xevent.EBalancer e') = rkey m
  end.
Proof.
  unfold real_inv, real_ok, HandleEvent.
  destruct m as [c k cs pl [al w tr dyn ts inh] act sh], e as [ty b nw ini]. simpl.
  intros Hinv [Hnew Hok]. destruct ty; simpl in *.
  - unfold processSucceed, updateWeight, enableReal, Status. simpl.
    destruct (w =? handleDynamicWeight _ _ _) eqn:Hw, al, inh; simpl; split_and!;
      (done || (by intros; exfalso; specialize (Hinv eq_refl)) || idtac).
  - unfold processFail, disableReal, Status. simpl.
    destruct Hnew as [|Hnew]; [done|].
    destruct al, inh, (InhibitOnFailure c); simpl; split_and!; unfold event_shape; simpl; try done;
      try (exfalso; by specialize (Hinv eq_refl)); (split; simpl; [done|by rewrite Hnew]).
  - unfold processFail, disableReal, Status. simpl.
    destruct Hnew as [|Hnew]; [done|].
    destruct al, inh, (InhibitOnFailure c); simpl; split_and!; unfold event_shape; simpl; try done;
      try (exfalso; by specialize (Hinv eq_refl)); try (exfalso; by apply Hok);
      (split; simpl; [done|by rewrite Hnew]).
Qed.

#[export] Program Instance Real_EventSource : EventSource Real := {|
  es_key := rkey;
  es_status := fun m => Status (state m);
  es_inv := real_inv;
  es_ok := real_ok;
  es_handle := HandleEvent;
  es_spec := real_contract;
|}.
End contract.

(** ** Properties *)

Section properties.
Context `{F : FloatToInt} `{MR : MapRange}.
Implicit Types (m : Real) (c : Checker.Config).

(** C29: what a checker's event does to the status of the real, as the load
    balancer sees it.  Success enables it with the weight of the check or of
    the configuration; failure disables it, or with [InhibitOnFailure] keeps it
    enabled with weight 0; a shutdown disables it, unless it is down and
    [InhibitOnFailure] is off, when nothing changes. *)
Theorem HandleEvent_functional (now : Z) (e : xevent.Event) (m : Real) :
  real_inv m ->
  let m' := (HandleEvent now e m).2 in
  real_inv m' /\ config m' = config m /\ checkers m' = checkers m /\
  Status (state m') ≈
    match xevent.EType e with
    | xevent.Enable =>
        xevent.MkStatus true (handleDynamicWeight (xevent.SWeight (xevent.ENew e)) (config m) (state m))
    | xevent.Disable =>
        if InhibitOnFailure (config m) then xevent.MkStatus true 0
        else if Alive (state m) then xevent.MkStatus false 0 else Status (state m)
    | xevent.Shutdown =>
        if Alive (state m) || InhibitOnFailure (config m) then xevent.MkStatus false 0
        else Status (state m)
    end.
Proof.
  unfold real_inv, HandleEvent.
  destruct m as [c k cs pl [al w tr dyn ts inh] act sh], e as [ty b nw ini]. simpl. intros Hinv.
  destruct ty; simpl.
  - unfold processSucceed, updateWeight, enableReal, Status. simpl.
    destruct (Z.eqb_spec w (handleDynamicWeight (xevent.SWeight nw) c (MkState al w tr dyn ts inh))) as [Hw|Hw], al, inh;
      simpl; split_and!; try done; try (by rewrite <- Hw); by specialize (Hinv eq_refl).
  - unfold processFail, disableReal, Status. simpl.
    destruct al, inh, (InhibitOnFailure c); simpl; split_and!; try done; by specialize (Hinv eq_refl).
  - unfold processFail, disableReal, Status. simpl.
    destruct al, inh, (InhibitOnFailure c); simpl; split_and!; try done; by specialize (Hinv eq_refl).
Qed.

Lemma HandleEvent_keeps now e m :
  let m' := (HandleEvent now e m).2 in
  config m' = config m /\ checkers m' = checkers m /\ checkersPool m' = checkersPool m /\
  isActive m' = isActive m /\ shutdown m' = shutdown m /\ rkey m' = rkey m.
Proof.
  unfold HandleEvent. destruct e as [[] b nw ini]; simpl;
    [destruct (processSucceed _ _ _ _) as [[??]?] | destruct (processFail _ _ _ _) as [[??]?] ..]; done.
Qed.

Lemma stopCheckers_keeps now cs m :
  let m' := (stopCheckers now cs m).2 in
  config m' = config m /\ checkersPool m' = checkersPool m /\
  isActive m' = isActive m /\ shutdown m' = shutdown m /\ rkey m' = rkey m /\
  (cs = ∅ -> stopCheckers now cs m = ([], m)).
Proof.
  unfold stopCheckers. cbv zeta.
  apply (for_range_ind (fun (done_ : gmap Checker.Key_ Checker) (s : list xevent.Event * Real) =>
    config s.2 = config m /\ checkersPool s.2 = checkersPool m /\
    isActive s.2 = isActive m /\ shutdown s.2 = shutdown m /\ rkey s.2 = rkey m /\
    (done_ = ∅ -> s = ([], m)))); [done|].
  intros k c done_ [evs m1] _ _ _ (H1 & H2 & H3 & H4 & H5 & _). simpl in *.
  unfold stopChecker. destruct (Checker.shutdownEvent now c) as [[ev|] c']; simpl.
  - pose proof (HandleEvent_keeps now ev (set_checker k c' m1)) as (K1 & _ & K3 & K4 & K5 & K6).
    destruct (HandleEvent now ev (set_checker k c' m1)) as [o m2]. simpl in *.
    split_and!; [congruence..|]. intros He. by apply insert_non_empty in He.
  - split_and!; [congruence..|]. intros He. by apply insert_non_empty in He.
Qed.

(** The new checker of a configuration, given the old checkers. *)
Definition reloaded_checker (force changed : bool) (weight : Z) (old : gmap Checker.Key_ Checker) c : Checker :=
  match old !! Checker.Key c with
  | Some known => if force then Checker.New c weight
                  else if changed then Checker.UpdateWeight weight known else known
  | None => Checker.New c weight
  end.

Lemma reload_loop_spec force changed weight m cs :
  NoDup (Checker.Key <$> cs) ->
  let l := for_each (reloadChecker force changed weight) cs (MkReloadLoop (checkers m) ∅ (checkersPool m) false) in
  (forall c, c ∈ cs -> newCheckers l !! Checker.Key c = Some (reloaded_checker force changed weight (checkers m) c)) /\
  (forall k, k ∉ Checker.Key <$> cs -> newCheckers l !! k = None) /\
  (forall k, oldCheckers l !! k =
     if decide (k ∈ Checker.Key <$> cs /\ force = false) then None else checkers m !! k) /\
  dynamicWeight_ l = existsb (fun c => DynamicWeight (CWeightControl (CheckConfig c))) cs.
Proof.
  intros Hnd. cbv zeta.
  loop (fun (visited : list Checker.Config) (l : reloadLoop) =>
    (forall c, c ∈ visited -> newCheckers l !! Checker.Key c = Some (reloaded_checker force changed weight (checkers m) c)) /\
    (forall k, k ∉ Checker.Key <$> visited -> newCheckers l !! k = None) /\
    (forall k, oldCheckers l !! k =
       if decide (k ∈ Checker.Key <$> visited /\ force = false) then None else checkers m !! k) /\
    dynamicWeight_ l = existsb (fun c => DynamicWeight (CWeightControl (CheckConfig c))) visited).
  { split_and!; [by intros c ?%not_elem_of_nil|intros k _; apply lookup_empty| |done].
    intros k. rewrite decide_False; [done|]. by intros [?%not_elem_of_nil _]. }
  intros visited c rest l Hcs (Hnew & Hnone & Hold & Hdyn).
  assert (Checker.Key c ∉ Checker.Key <$> visited) as Hfresh.
  { rewrite Hcs, fmap_app in Hnd. apply NoDup_app in Hnd as (_ & Hd & _). intros Hin. apply (Hd _ Hin). left. }
  assert (oldCheckers l !! Checker.Key c = checkers m !! Checker.Key c) as Hoc.
  { rewrite Hold, decide_False; [done|]. by intros [? _]. }
  assert (exists nc, newCheckers (reloadChecker force changed weight c l) = <[Checker.Key c := nc]> (newCheckers l) /\
            nc = reloaded_checker force changed weight (checkers m) c /\
            oldCheckers (reloadChecker force changed weight c l) =
              (if force then oldCheckers l else delete (Checker.Key c) (oldCheckers l)) /\
            dynamicWeight_ (reloadChecker force changed weight c l) =
              dynamicWeight_ l || DynamicWeight (CWeightControl (CheckConfig c))) as (nc & -> & -> & -> & ->).
  { unfold reloadChecker, reloaded_checker. rewrite Hoc.
    destruct (checkers m !! Checker.Key c) as [known|]; [destruct force|]; simpl; eexists; (split; [done|]).
    - done.
    - done.
    - split; [done|]. split; [|done]. destruct force; [done|]. by rewrite delete_id. }
  split_and!.
  - intros c' [Hc'| ->%list_elem_of_singleton]%elem_of_app.
    + rewrite lookup_insert_ne; [by apply Hnew|]. intros He. apply Hfresh. rewrite He.
      apply list_elem_of_fmap. eauto.
    + by rewrite lookup_insert_eq.
  - intros k Hk. rewrite fmap_app in Hk. simpl in Hk.
    rewrite lookup_insert_ne by (intros <-; set_solver). apply Hnone. set_solver.
  - intros k. rewrite fmap_app. simpl. destruct force.
    + rewrite Hold, !decide_False; [done| |]; by intros [].
    + rewrite lookup_delete, Hold. destruct (decide (Checker.Key c = k)) as [->|Hk].
      * by rewrite decide_True by set_solver.
      * apply decide_ext. set_solver.
  - by rewrite existsb_app, Hdyn; simpl; rewrite orb_false_r.
Qed.

(** C30: what a reload does to an active real.  Its checkers are then exactly
    those of the new configuration; one that existed is kept with its state
    (told the new weight when it changed), unless the forwarding method changed;
    the others are new.  When every old checker is kept, no event is sent and
    the status stays. *)
Theorem Reload_functional (now : Z) (cfg : Config) (m : Real) :
  isActive m = true -> shutdown m = false -> NoDup (Checker.Key <$> checkers_of cfg) ->
  let force := bool_decide (ForwardingMethod (config m) <> ForwardingMethod cfg) in
  let changed := bool_decide (RWeight (config m) <> RWeight cfg) in
  let '(evs, m') := Reload now cfg m in
  config m' = cfg /\
  (forall c, c ∈ checkers_of cfg ->
     checkers m' !! Checker.Key c = Some (reloaded_checker force changed (RWeight cfg) (checkers m) c)) /\
  (forall k, k ∉ Checker.Key <$> checkers_of cfg -> checkers m' !! k = None) /\
  DynWeight (state m') = existsb (fun c => DynamicWeight (CWeightControl (CheckConfig c))) (checkers_of cfg) /\
  (force = false -> (forall k, is_Some (checkers m !! k) -> k ∈ Checker.Key <$> checkers_of cfg) ->
   evs = [] /\ Status (state m') = Status (state m)).
Proof.
  intros Hact Hsh Hnd. cbv zeta. unfold Reload, reload. rewrite Hact, Hsh. cbn [negb andb].
  set (force := bool_decide _). set (changed := bool_decide _).
  destruct (reload_loop_spec force changed (RWeight cfg) m (checkers_of cfg) Hnd) as (Hnew & Hnone & Hold & Hdyn).
  set (l := for_each _ _ _) in *.
  pose proof (stopCheckers_keeps now (oldCheckers l) m) as (_ & _ & _ & _ & _ & H6).
  destruct (stopCheckers now (oldCheckers l) m) as [evs m1].
  split_and!; [done|done|done|done|].
  intros Hforce Hall. enough (oldCheckers l = ∅) as Hemp by (by injection (H6 Hemp) as -> ->).
  apply map_eq. intros k. rewrite lookup_empty, Hold.
  destruct (checkers m !! k) as [c|] eqn:Hc; [|by destruct (decide _)].
  rewrite decide_True; [done|]. split; [apply Hall; eauto|done].
Qed.

Lemma Unmap_idemp a : Addr_Unmap (Addr_Unmap a) = Addr_Unmap a.
Proof.
  destruct a as [|ip|ip z]; [done|done|]. unfold Addr_Unmap.
  destruct (Addr_Is4In6 (AddrV6 ip z)) eqn:H; [done|]. by rewrite H.
Qed.

Lemma Coalesce_idemp {T} (x y : option T) : Coalesce [Coalesce [x; y]; y] = Coalesce [x; y].
Proof. by destruct x, y. Qed.

(** Preparing a configuration twice changes nothing more; afterwards every
    checker has its list's type, unmapped addresses, and the scheduling and
    virtual host of the real wherever it had none. *)
Theorem Prepare_idempotent (m : Config) :
  Prepare (Prepare m) = Prepare m /\
  (forall c, c ∈ TCPCheckers (Prepare m) -> CType c = TCPChecker) /\
  (forall c, c ∈ HTTPCheckers (Prepare m) -> CType c = HTTPChecker) /\
  (forall c, c ∈ HTTPSCheckers (Prepare m) -> CType c = HTTPSChecker) /\
  (forall c, c ∈ GRPCCheckers (Prepare m) -> CType c = GRPCChecker).
Proof.
  assert (forall ty (l : list Checker.Config),
    (fun c => Checker.Prepare (propagate m (set_type ty c))) <$>
      ((fun c => Checker.Prepare (propagate m (set_type ty c))) <$> l) =
    (fun c => Checker.Prepare (propagate m (set_type ty c))) <$> l) as Hl.
  { intros ty l. rewrite <- list_fmap_compose. apply list_fmap_ext. intros _ c _.
    unfold compose, Checker.Prepare, propagate, set_type. simpl.
    rewrite !Unmap_idemp. f_equal.
    - f_equal. f_equal. by destruct (Virtualhost _), (RVirtualhost m).
    - destruct (CScheduler c) as [[] [] []]; simpl; try done; repeat case_match; try done; by simplify_eq. }
  split; [unfold Prepare at 1 3; f_equal; [apply Unmap_idemp|apply Hl..]|].
  split_and!; intros c (c' & -> & _)%list_elem_of_fmap; done.
Qed.
End properties.

(** ** Chains of events *)

(** Events that lead, one after the other, from a status to another. *)
Fixpoint chain (k : key.Real) (s : xevent.Status) (evs : list xevent.Event) (s' : xevent.Status) : Prop :=
  match evs with
  | [] => s ≈ s'
  | e :: evs =>
      xevent.EInit e ≈ s /\ event_shape e /\ key.BReal (xevent.EBalancer e) = k /\
      chain k (xevent.ENew e) evs s'
  end.

Section chains.
Context `{F : FloatToInt} `{MR : MapRange}.
Implicit Types (m : Real).

Lemma chain_proper k s1 s2 evs s' : s1 ≈ s2 -> chain k s1 evs s' -> chain k s2 evs s'.
Proof.
  intros Hs. destruct evs as [|e evs]; simpl; [by rewrite Hs|].
  intros (H1 & H2). split; [|done]. by rewrite H1.
Qed.

Lemma chain_app k s evs1 s1 evs2 s2 :
  chain k s evs1 s1 -> chain k s1 evs2 s2 -> chain k s (evs1 ++ evs2) s2.
Proof.
  revert s. induction evs1 as [|e evs1 IH]; intros s; simpl.
  - intros Hs. apply chain_proper. by symmetry.
  - intros (H1 & H2 & H3 & H4) Hc. split_and!; [done..|]. by apply IH.
Qed.

(** A real that was never configured with [InhibitOnFailure]: it is not
    inhibited, and it is down when it has no checkers. *)
Definition plain_inv m : Prop :=
  InhibitOnFailure (config m) = false /\ Inhibited (state m) = false /\
  (checkers m = ∅ -> Alive (state m) = false).

Lemma plain_New c : InhibitOnFailure c = false -> plain_inv (New c).
Proof. done. Qed.

Lemma plain_HandleEvent now e m :
  InhibitOnFailure (config m) = false -> Inhibited (state m) = false ->
  (xevent.EType e = xevent.Enable \/ xevent.SEnable (xevent.ENew e) = false) ->
  let '(o, m') := HandleEvent now e m in
  chain (rkey m) (Status (state m)) (match o with Some e' => [e'] | None => [] end) (Status (state m')) /\
  Inhibited (state m') = false /\
  (xevent.EType e = xevent.Shutdown -> Alive (state m') = false).
Proof.
  intros Hc Hi He. pose proof (real_contract now e m) as HC.
  assert (Inhibited (state (HandleEvent now e m).2) = false /\
          (xevent.EType e = xevent.Shutdown -> Alive (state (HandleEvent now e m).2) = false)) as [Hi' Hs].
  { unfold HandleEvent. destruct m as [c k cs pl [al w tr dyn ts inh] act sh], e as [ty b nw ini]. simpl in *. subst inh.
    destruct ty; simpl; (split; [|done || intros _]).
    - unfold processSucceed, updateWeight, enableReal. simpl.
      destruct (w =? _), al; done.
    - unfold processFail, disableReal. simpl. rewrite Hc. by destruct al.
    - unfold processFail, disableReal. simpl. rewrite Hc. by destruct al.
    - unfold processFail, disableReal. simpl. rewrite Hc. by destruct al. }
  destruct (HandleEvent now e m) as [o m']. cbn [fst snd] in *.
  destruct HC as (_ & _ & HC); [by intros H; rewrite H in Hi | split; [done|by intros (_ & _ & _ & H); rewrite H in Hc]|].
  split_and!; [|done|done].
  destruct o as [e'|]; simpl; [|by symmetry]. destruct HC as (H1 & H2 & H3 & H4). done.
Qed.

Lemma shutdownEvent_sent now c :
  (Checker.shutdownEvent (X:=unit) now c).1 = Some (Checker.new_event xevent.Shutdown weight.Omitted).
Proof. done. Qed.

Lemma plain_stopCheckers now cs m :
  InhibitOnFailure (config m) = false -> Inhibited (state m) = false ->
  let '(evs, m') := stopCheckers now cs m in
  chain (rkey m) (Status (state m)) evs (Status (state m')) /\
  Inhibited (state m') = false /\ (cs <> ∅ -> Alive (state m') = false) /\
  (cs = ∅ -> Alive (state m') = Alive (state m)).
Proof.
  intros Hc Hi. pose proof (stopCheckers_keeps now cs m) as (_ & _ & _ & _ & _ & Hemp).
  enough (let '(evs, m') := stopCheckers now cs m in
    (config m' = config m /\ rkey m' = rkey m) /\ chain (rkey m) (Status (state m)) evs (Status (state m')) /\
    Inhibited (state m') = false /\ (cs <> ∅ -> Alive (state m') = false)) as Hloop.
  { destruct (stopCheckers now cs m) as [evs m']. destruct Hloop as (_ & H1 & H2 & H3).
    split_and!; [done..|]. intros He. by injection (Hemp He) as -> ->. }
  unfold stopCheckers.
  apply (for_range_ind (fun (done_ : gmap Checker.Key_ Checker) '((evs, m') : list xevent.Event * Real) =>
    (config m' = config m /\ rkey m' = rkey m) /\ chain (rkey m) (Status (state m)) evs (Status (state m')) /\
    Inhibited (state m') = false /\ (done_ <> ∅ -> Alive (state m') = false))).
  { split_and!; [done|done|done|done|]. intros H. by destruct H. }
  intros k c done_ [evs m1] _ _ _ ((Hcfg & Hkey) & Hch & Hinh & _).
  unfold stopChecker. pose proof (shutdownEvent_sent now c) as Hs.
  destruct (Checker.shutdownEvent (X:=unit) now c) as [ev c']. simpl in Hs. subst ev.
  set (m1' := set_checker k c' m1).
  pose proof (plain_HandleEvent now (Checker.new_event xevent.Shutdown weight.Omitted) m1') as HP.
  pose proof (HandleEvent_keeps now (Checker.new_event xevent.Shutdown weight.Omitted) m1') as (K1 & _ & _ & _ & _ & K6).
  destruct (HandleEvent now (Checker.new_event xevent.Shutdown weight.Omitted) m1') as [o m2]. cbn [fst snd] in *.
  unfold m1' in *. cbn [set_checker config state rkey] in *. rewrite Hcfg, Hkey in *.
  destruct HP as (HP1 & HP2 & HP3); [done|done|by right|].
  split_and!; [done|done|by eapply chain_app|done|]. intros _. by apply HP3.
Qed.

Lemma reload_loop_empty force changed weight m cs :
  newCheckers (for_each (reloadChecker force changed weight) cs (MkReloadLoop (checkers m) ∅ (checkersPool m) false)) = ∅ ->
  cs = [].
Proof.
  destruct cs as [|c cs] using rev_ind; [done|]. unfold for_each. rewrite foldl_app. simpl.
  intros He. exfalso. revert He. unfold reloadChecker.
  destruct (oldCheckers _ !! Checker.Key c); [destruct (negb force)|]; simpl; apply insert_non_empty.
Qed.

Lemma plain_Reload now cfg m :
  InhibitOnFailure cfg = false -> plain_inv m ->
  let '(evs, m') := Reload now cfg m in
  chain (rkey m) (Status (state m)) evs (Status (state m')) /\ plain_inv m' /\ rkey m' = rkey m.
Proof.
  intros Hcfg (Hc & Hi & Ha). unfold Reload, reload.
  destruct (isActive m); [|by repeat split]. cbn [negb].
  destruct (shutdown m && _); [by repeat split|].
  set (l := for_each _ _ _).
  pose proof (reload_loop_empty (bool_decide (ForwardingMethod (config m) <> ForwardingMethod cfg))
    (bool_decide (RWeight (config m) <> RWeight cfg)) (RWeight cfg) m (checkers_of cfg)) as Hemp.
  fold l in Hemp.
  pose proof (plain_stopCheckers now (oldCheckers l) m Hc Hi) as HP.
  pose proof (stopCheckers_keeps now (oldCheckers l) m) as (_ & _ & _ & _ & K6 & _).
  destruct (stopCheckers now (oldCheckers l) m) as [evs m1]. cbn [fst snd] in *.
  destruct HP as (H1 & H2 & H3 & H4). unfold plain_inv. simpl. split_and!; [|done|done| |done].
  - exact H1.
  - intros He. specialize (Hemp He).
    assert (oldCheckers l = checkers m) as Hold by (unfold l; by rewrite Hemp).
    destruct (decide (checkers m = ∅)) as [Hm|Hm].
    + rewrite H4 by congruence. by apply Ha.
    + apply H3. congruence.
Qed.

Lemma plain_Run now act m :
  plain_inv m ->
  let '(evs, m') := Run now act m in
  chain (rkey m) (Status (state m)) evs (Status (state m')) /\ plain_inv m' /\ rkey m' = rkey m.
Proof.
  intros Hm. unfold Run. destruct act; [|by split_and!]. cbn [negb].
  exact (plain_Reload now (config m)
           (MkReal (config m) (rkey m) (checkers m) (checkersPool m) (state m) true (shutdown m)) (proj1 Hm) Hm).
Qed.

Lemma plain_Stop now m :
  plain_inv m ->
  let '(evs, m') := Stop now m in
  chain (rkey m) (Status (state m)) evs (Status (state m')) /\ Alive (state m') = false /\ Inhibited (state m') = false.
Proof.
  intros (Hc & Hi & Ha). unfold Stop.
  set (m1 := MkReal _ _ _ _ _ _ _). change (checkers m1) with (checkers m).
  pose proof (plain_stopCheckers now (checkers m) m1 Hc Hi) as HP.
  destruct (stopCheckers now (checkers m) m1) as [evs m2]. destruct HP as (H1 & H2 & H3 & H4).
  split_and!; [exact H1| |done]. destruct (decide (checkers m = ∅)) as [Hm|Hm]; [|by apply H3].
  rewrite H4 by done. by apply Ha.
Qed.
End chains.

(** ** Concrete runs *)

Section concrete.
Definition sched0 : Scheduler.Config := Scheduler.MkConfig None None None.
Definition no_timeout : float64 := S754_zero false.

(** A TCP checker of port [p]. *)
Definition tcp (p : Z) : Checker.Config :=
  Checker.MkConfig TCPChecker
    (Check.MkConfig (MkURL "" 0 "" None) (MkNet (AddrV4 1) p AddrInvalid no_timeout no_timeout 0)
       (MkWeightControl false false 0)) sched0.

Definition real_config (inhibit : bool) (cs : list Checker.Config) : Config :=
  MkConfig (AddrV4 1) 80 10 inhibit None "TUN" sched0 cs [] [] [].

Definition succeed : xevent.Event := Checker.new_event xevent.Enable 10.
Definition fail : xevent.Event := Checker.new_event xevent.Disable weight.Omitted.

(** A running real whose checkers succeeded. *)
Definition running (c : Config) : Real := (HandleEvent 1 succeed (Run 0 true (New c)).2).2.

Lemma HandleEvent_functional_witness :
  real_inv (running (real_config true [tcp 80])) /\
  Status (state (HandleEvent 2 fail (running (real_config true [tcp 80]))).2) ≈ xevent.MkStatus true 0.
Proof.
  assert (real_inv (running (real_config true [tcp 80]))) as Hi by (intros Hh; vm_compute in Hh; discriminate Hh).
  split; [exact Hi|].
  destruct (HandleEvent_functional 2 fail (running (real_config true [tcp 80])) Hi) as (_ & _ & _ & H).
  exact H.
Defined.

Lemma Reload_functional_witness :
  let '(evs, m') := Reload 2 (real_config true [tcp 80; tcp 443]) (running (real_config true [tcp 80])) in
  evs = [] /\ config m' = real_config true [tcp 80; tcp 443].
Proof.
  assert (isActive (running (real_config true [tcp 80])) = true) as H1 by (vm_compute; reflexivity).
  assert (shutdown (running (real_config true [tcp 80])) = false) as H2 by (vm_compute; reflexivity).
  assert (NoDup (Checker.Key <$> checkers_of (real_config true [tcp 80; tcp 443]))) as H3
    by (apply (bool_decide_unpack _); vm_compute; reflexivity).
  pose proof (Reload_functional 2 (real_config true [tcp 80; tcp 443]) (running (real_config true [tcp 80])) H1 H2 H3) as HR.
  cbv zeta in HR. destruct (Reload 2 _ (running (real_config true [tcp 80]))) as [evs m'] eqn:E.
  destruct HR as (Hc & _). split; [|exact Hc].
  apply (f_equal fst) in E. vm_compute in E. by rewrite <- E.
Defined.

(** With [InhibitOnFailure] a real of two checkers that is stopped sends
    two shutdown events; the second says it leads from "disabled" to
    "disabled", and its service takes the weight of the real off twice. *)
Theorem second_shutdown_counts_twice :
  let m := running (real_config true [tcp 80; tcp 443]) in
  let '(evs, m') := Stop 2 m in
  Status (state m) = xevent.MkStatus true 10 /\
  (fun e => (xevent.EType e, xevent.ENew e, xevent.EInit e)) <$> evs =
    [(xevent.Shutdown, xevent.MkStatus false (-1), xevent.MkStatus true 10);
     (xevent.Shutdown, xevent.MkStatus false (-1), xevent.MkStatus false 10)].
Proof. vm_compute. repeat split. Qed.

(** An inhibited real whose configuration drops [InhibitOnFailure] stays
    enabled with weight 0: neither further failures nor its stop report
    anything. *)
Theorem inhibited_real_never_disabled :
  let m := (HandleEvent 2 fail (running (real_config true [tcp 80]))).2 in
  let '(evs1, m1) := Reload 3 (real_config false [tcp 80]) m in
  let '(ev2, m2) := HandleEvent 4 fail m1 in
  let '(evs3, m3) := Stop 5 m2 in
  evs1 = [] /\ ev2 = None /\ evs3 = [] /\ Status (state m3) = xevent.MkStatus true 0.
Proof. vm_compute. repeat split. Qed.

(** Removing one of two healthy checkers takes the real down: the removed
    checker's shutdown event disables it, and the checker that stays, alive
    and unchanged, has nothing to report. *)
Theorem removed_checker_disables_real :
  let m := running (real_config false [tcp 80; tcp 443]) in
  let '(evs, m') := Reload 2 (real_config false [tcp 80]) m in
  Status (state m) = xevent.MkStatus true 10 /\
  xevent.EType <$> evs = [xevent.Shutdown] /\ Alive (state m') = false /\
  (Checker.processSucceed 3 (MkMetadata true weight.Omitted false)
     (MkChecker (tcp 80) (Checker.MkState 10 true 0 1 false) ∅)).1 = None.
Proof. vm_compute. repeat split. Qed.

(** A checker configured twice is started twice and stopped once: the
    second replaces the first in the map of checkers, and only the map is
    stopped. *)
Theorem duplicate_checker_leaks :
  let m := (Run 0 true (New (real_config false [tcp 80; tcp 80]))).2 in
  let m' := (Reload 1 (real_config false [tcp 80; tcp 80]) m).2 in
  length (checkersPool m) = 2%nat /\ size (checkers m) = 1%nat /\
  length (checkersPool m') = 3%nat /\ size (checkers m') = 1%nat.
Proof. vm_compute. repeat split. Qed.
End concrete.
