(* ===== verification/Service.v ===== *)
(** * Virtual servers

    [internal/core/service]: the configuration of a service, the account of its
    enabled reals, the quorum, and the reload of its reals. *)

From Stdlib Require Import SpecFloat.
From Stdlib Require Import Ascii.
From stdpp Require Import strings numbers gmap sets list.
From S2P Require Import Prelude.
From S2P Require Import Types.
From S2P Require Import Registry.
From S2P Require Import Utils.
From S2P Require Import Prefixes.
From S2P Require Import Announcer.
From S2P Require Import Balancer.
From S2P Require Import Scheduler.
From S2P Require Import Check.
From S2P Require Import Text.
From S2P Require Import Checker.
From S2P Require Import Real.

Open Scope Z_scope.
Open Scope go_scope.

(** ** config.go *)

Record Config := MkConfig {
  VIP : Addr;
  VPort : Z;
  Protocol : string;
  LVSSheduler : string;
  SForwardingMethod : string;
  Quorum : Z;
  Hysteresis : Z;
  QuorumUp : string;
  QuorumDown : string;
  SAnnounceGroup : string;
  SVirtualhost : option string;
  FwMark : Z;
  OnePacketScheduler : bool;
  IPv4OuterSourceNetwork : string;
  IPv6OuterSourceNetwork : string;
  Version : option string;
  SScheduler : Scheduler.Config;
  Reals : list Real.Config;
}.

Definition Key (m : Config) : key.Service := key.MkService (VIP m) (VPort m) (Protocol m).

Definition Default (m : Config) : Config :=
  MkConfig (VIP m) port.Omitted (Protocol m) (LVSSheduler m) "TUN" 1 (Hysteresis m) (QuorumUp m)
    (QuorumDown m) (SAnnounceGroup m) (SVirtualhost m) (FwMark m) (OnePacketScheduler m)
    (IPv4OuterSourceNetwork m) (IPv6OuterSourceNetwork m) (Version m) Scheduler.Config_Default (Reals m).

(** A configuration for tests. *)
Definition DefaultConfig : Config := {|
  VIP := AddrV4 (10 * 2 ^ 24);
  VPort := 80;
  Protocol := "tcp";
  LVSSheduler := "wrr";
  SForwardingMethod := "tun";
  Quorum := 10;
  Hysteresis := 10;
  QuorumUp := "";
  QuorumDown := "";
  SAnnounceGroup := "";
  SVirtualhost := Some "virtualhost";
  FwMark := 12345;
  OnePacketScheduler := false;
  IPv4OuterSourceNetwork := "10.0.0.0/8";
  IPv6OuterSourceNetwork := "fd00::/8";
  Version := Some "1.0.0";
  SScheduler := Scheduler.Config_Default;
  Reals := [];
|}.

(** The errors that wrap [ErrInvalidQuorumScript]. *)
Inductive configError :=
| ErrInvalidQuorumScript (script : string)   (* not three words *)
| ErrIncorrectScript (script : string)
| ErrNotEnoughArgs (script : string).

Definition quorum_handler : string := "/etc/keepalived/quorum-handler2.sh".

Definition announceGroupFromQuorumScript (m : Config) : res configError string :=
  if decide (QuorumUp m = "") then Ok "" else
  let script := QuorumUp m in
  match Fields script with
  | [f0; _; f2] =>
      if decide (f0 <> quorum_handler) then Err (ErrIncorrectScript script)
      else
        let fields := SplitComma f2 in
        if (length fields <? 2)%nat then Err (ErrNotEnoughArgs script)
        else Ok (nth (length fields - 2) fields "")
  | _ => Err (ErrInvalidQuorumScript script)
  end.

Definition set_announce_group (g : string) (m : Config) : Config :=
  MkConfig (VIP m) (VPort m) (Protocol m) (LVSSheduler m) (SForwardingMethod m) (Quorum m) (Hysteresis m)
    (QuorumUp m) (QuorumDown m) g (SVirtualhost m) (FwMark m) (OnePacketScheduler m)
    (IPv4OuterSourceNetwork m) (IPv6OuterSourceNetwork m) (Version m) (SScheduler m) (Reals m).

Definition validate (m : Config) : res configError Config :=
  if decide (SAnnounceGroup m = "")
  then let? g := announceGroupFromQuorumScript m in Ok (set_announce_group g m)
  else Ok m.

(** The body of [propagate] for one real. *)
Definition propagate (m : Config) (r : Real.Config) : Real.Config :=
  Real.MkConfig (IP r) (RPort r) (RWeight r) (InhibitOnFailure r)
    (Coalesce [RVirtualhost r; SVirtualhost m])
    (if decide (ForwardingMethod r = "") then SForwardingMethod m else ForwardingMethod r)
    (Scheduler.MkConfig
       (Coalesce [Scheduler.DelayLoop (RScheduler r); Scheduler.DelayLoop (SScheduler m)])
       (Coalesce [Scheduler.Retries (RScheduler r); Scheduler.Retries (SScheduler m)])
       (Coalesce [Scheduler.RetryDelay (RScheduler r); Scheduler.RetryDelay (SScheduler m)]))
    (TCPCheckers r) (HTTPCheckers r) (HTTPSCheckers r) (GRPCCheckers r).

Definition set_reals (rs : list Real.Config) (m : Config) : Config :=
  MkConfig (VIP m) (VPort m) (Protocol m) (LVSSheduler m) (SForwardingMethod m) (Quorum m) (Hysteresis m)
    (QuorumUp m) (QuorumDown m) (SAnnounceGroup m) (SVirtualhost m) (FwMark m) (OnePacketScheduler m)
    (IPv4OuterSourceNetwork m) (IPv6OuterSourceNetwork m) (Version m) (SScheduler m) rs.

Definition Prepare `{UnicodeCase} (m : Config) : res configError Config :=
  let m := MkConfig (Addr_Unmap (VIP m)) (VPort m) (ToUpper (Protocol m)) (ToLower (LVSSheduler m))
    (ToUpper (SForwardingMethod m)) (Quorum m) (Hysteresis m) (QuorumUp m) (QuorumDown m)
    (SAnnounceGroup m) (SVirtualhost m) (FwMark m) (OnePacketScheduler m) (IPv4OuterSourceNetwork m)
    (IPv6OuterSourceNetwork m) (Version m) (SScheduler m) (Reals m) in
  let? m := validate m in
  Ok (set_reals ((fun r => Real.Prepare (propagate m r)) <$> Reals m) m).

(** A temporary mapping of schedulers; [g] holds the experimental features. *)
Definition convertScheduler (g : exp.Globals) (scheduler : string) (ops : bool) : string :=
  if decide (scheduler = "mh") then
    let newSched := exp.MHReplaceValue g in
    if decide (newSched <> "") then newSched else "wrr"
  else if ops && bool_decide (scheduler = "wlc") then "wrr"
  else scheduler.

Definition MarshalJSON `{UnicodeCase} (g : exp.Globals) (m : Config) : json :=
  JObject
    ([("vip", Addr_json (VIP m))] ++ omitempty "vport" (port.String_ (VPort m)) ++
     [("proto", JString (ToLower (Protocol m)));
      ("scheduler", JString (convertScheduler g (LVSSheduler m) (OnePacketScheduler m)));
      ("ops", JBool (OnePacketScheduler m));
      ("lvs_method", JString (SForwardingMethod m));
      ("reals", JArray (Real.MarshalJSON <$> Reals m))] ++
     match Version m with Some v => [("version", JString v)] | None => [] end ++
     omitempty "ipv4_outer_source_network" (IPv4OuterSourceNetwork m) ++
     omitempty "ipv6_outer_source_network" (IPv6OuterSourceNetwork m)).

(** ** service.go: the state *)

Record State := MkState {
  Alive : bool;
  Weight : Z;
  RealsAlive : Z;
  Transitions : Z;
}.

(** What services share with the rest of the program. *)
Record World := MkWorld { wannouncer : Announcer; wbalancer : Balancer }.

Record Service := MkService {
  config : Config;
  skey : key.Service;
  reals : gmap key.Real Real;
  realsPool : list key.Real;
  state : State;
  realsTotal : Z;     (* gauges *)
  realsEnabled : Z;
  shutdown : bool;
}.

Definition New (config : Config) : Service :=
  MkService config (Key config) ∅ [] (MkState false 0 0 0) 0 0 false.

Definition set_state (s : State) (m : Service) : Service :=
  MkService (config m) (skey m) (reals m) (realsPool m) s (realsTotal m) (realsEnabled m) (shutdown m).

(** ** handler.go *)

Inductive quorum := quorumHold | quorumUp | quorumDown.

Definition quorumState (m : Service) : quorum :=
  let w := Weight (state m) in
  let q := Quorum (config m) in
  let hysteresis := Hysteresis (config m) in
  if q +i hysteresis <=? w then quorumUp
  else if (w <? q -i hysteresis) || (w =? 0) then quorumDown
  else quorumHold.

Definition enableService (m : Service) : bool * Service :=
  let s := state m in
  if Alive s then (false, m)
  else (true, set_state (MkState true (Weight s) (RealsAlive s) (Transitions s +i 1)) m).

Definition disableService (m : Service) : bool * Service :=
  let s := state m in
  if negb (Alive s) then (false, m)
  else (true, set_state (MkState false (Weight s) (RealsAlive s) (Transitions s +i 1)) m).

Definition updateAnnounce (m : Service) : bool * Service :=
  match quorumState m with
  | quorumUp => enableService m
  | quorumDown => disableService m
  | quorumHold => (false, m)
  end.

(** [announcer.ServiceStatus] of a boolean. *)
Definition service_status_of (alive : bool) : ServiceStatus := if alive then ServiceEnabled else ServiceDisabled.

Definition processAnnounce (m : Service) (w : World) : Service * World :=
  let '(announceChanged, m) := updateAnnounce m in
  if announceChanged && negb (bool_decide (SAnnounceGroup (config m) = ""))
  then (m, MkWorld (RegisterServiceEvent (skey m) (service_status_of (Alive (state m))) (wannouncer w))
             (wbalancer w))
  else (m, w).

Definition processSucceed (event : xevent.Event) (m : Service) : Service :=
  let s := state m in
  let delta := xevent.SWeight (xevent.ENew event) -i xevent.SWeight (xevent.EInit event) in
  let '(delta, s, enabled) :=
    if negb (xevent.SEnable (xevent.EInit event))
    then (xevent.SWeight (xevent.ENew event),
          MkState (Alive s) (Weight s) (RealsAlive s +i 1) (Transitions s), realsEnabled m + 1)
    else (delta, s, realsEnabled m) in
  let s := MkState (Alive s) (Weight s +i delta) (RealsAlive s) (Transitions s) in
  MkService (config m) (skey m) (reals m) (realsPool m) s (realsTotal m) enabled (shutdown m).

Definition processFailure (event : xevent.Event) (m : Service) : Service :=
  let s := state m in
  let s := MkState (Alive s) (Weight s -i xevent.SWeight (xevent.EInit event)) (RealsAlive s -i 1) (Transitions s) in
  MkService (config m) (skey m) (reals m) (realsPool m) s (realsTotal m) (realsEnabled m - 1) (shutdown m).

Definition processEvent (event : xevent.Event) (m : Service) : xevent.Event * Service :=
  let event :=
    xevent.MkEvent (xevent.EType event) (key.MkBalancer (skey m) (key.BReal (xevent.EBalancer event)))
      (xevent.ENew event) (xevent.EInit event) in
  match xevent.EType event with
  | xevent.Enable => (event, processSucceed event m)
  | xevent.Disable | xevent.Shutdown => (event, processFailure event m)
  end.

Definition HandleEvent (event : xevent.Event) (m : Service) (w : World) : Service * World :=
  let '(event, m) := processEvent event m in
  let w := MkWorld (wannouncer w) (Balancer.HandleEvent event (wbalancer w)) in
  processAnnounce m w.

(** The events of a real, handled one after the other. *)
Definition handleEvents (evs : list xevent.Event) (m : Service) (w : World) : Service * World :=
  for_each (fun e '(m, w) => HandleEvent e m w) evs (m, w).

Section service.
Context `{F : FloatToInt} `{MR : MapRange}.

(** ** Reload and stop *)

Definition set_real_map (rs : gmap key.Real Real) (pool : list key.Real) (total : Z) (m : Service) : Service :=
  MkService (config m) (skey m) rs pool (state m) total (realsEnabled m) (shutdown m).

(** The body of the loop of [Reload] over the configured reals. [newReals]
    is the map under construction, [reals m] the old one. *)
Definition reloadReal (now : Z) (cfg : Real.Config) (s : gmap key.Real Real * Service * World) :
    gmap key.Real Real * Service * World :=
  let '(newReals, m, w) := s in
  let key := Real.Key cfg in
  match reals m !! key with
  | Some knownReal =>
      let '(evs, knownReal) := Real.Reload now cfg knownReal in
      let '(m, w) := handleEvents evs m w in
      (<[key := knownReal]> newReals,
       set_real_map (delete key (reals m)) (realsPool m) (realsTotal m) m, w)
  | None =>
      (<[key := Real.New cfg]> newReals,
       set_real_map (reals m) (realsPool m ++ [key]) (realsTotal m + 1) m, w)
  end.

(** Stopping the reals of a map; [sub] is 1 when each is taken off the gauge. *)
Definition stopReals (now : Z) (sub : Z) (rs : gmap key.Real Real) (m : Service) (w : World) : Service * World :=
  for_range rs
    (fun k r '(m, w) =>
       let '(evs, r) := Real.Stop now r in
       let '(m, w) := handleEvents evs m w in
       (set_real_map (<[k := r]> (reals m)) (realsPool m) (realsTotal m - sub) m, w))
    (m, w).

Definition Reload (now : Z) (cfg : Config) (m : Service) (w : World) : Service * World :=
  if shutdown m && negb (bool_decide (Reals cfg = [])) then (m, w) (* reload aborted *)
  else
    let '(newReals, m, w) := for_each (reloadReal now) (Reals cfg) (∅, m, w) in
    let '(m, w) := stopReals now 1 (reals m) m w in
    let m := MkService cfg (skey m) newReals (realsPool m) (state m) (realsTotal m) (realsEnabled m) (shutdown m) in
    processAnnounce m w.

(** [Run] reloads with its own configuration. *)
Definition Run (now : Z) (m : Service) (w : World) : Service * World := Reload now (config m) m w.

Definition Stop (now : Z) (m : Service) (w : World) : Service * World :=
  let m := MkService (config m) (skey m) (reals m) (realsPool m) (state m) (realsTotal m) (realsEnabled m) true in
  stopReals now 0 (reals m) m w.

(** An event of a checker of the real [k], passed up by the real. *)
Definition realEvent (now : Z) (k : key.Real) (e : xevent.Event) (m : Service) (w : World) : Service * World :=
  match reals m !! k with
  | None => (m, w)
  | Some r =>
      let '(ev, r) := Real.HandleEvent now e r in
      let m := set_real_map (<[k := r]> (reals m)) (realsPool m) (realsTotal m) m in
      match ev with Some e => HandleEvent e m w | None => (m, w) end
  end.

(** The activation of a real: at once when no subscription is needed, and
    otherwise when the subscription notifies. *)
Definition realActivation (k : key.Real) (m : Service) (w : World) : Subscription :=
  LookupSubscription (key.MkBalancer (skey m) k) (wbalancer w).

Definition activated (s : Subscription) : option bool :=
  match s with
  | SubNone => Some true
  | SubNotified => Some true
  | SubCancelled => Some false
  | SubEntering | SubWaiting _ => None   (* still waiting *)
  end.

(** ** status.go *)

Record ServiceStatusMsg := MkServiceStatus {
  Vip : string;
  Port_ : option Z;
  Protocol_ : string;
  LvsMethod : string;
  QuorumState_ : Z;
  AliveWeight : Z;
  AliveCount : Z;
  Transitions_ : Z;
  Fwmark : Z;
  AnnounceGroup_ : string;
  Ipv4Outer : string;
  Ipv6Outer : string;
  Rs : list RealStatus;
  QuorumUp_ : string;
}.

Definition Service_Status (m : Service) : ServiceStatusMsg :=
  let s := state m in
  let c := config m in
  let realStatus := for_range (reals m) (fun _ r l => l ++ [Real_Status r]) [] in
  MkServiceStatus (Addr_String (VIP c)) (port.ProtoMarshaller (VPort c)) (Protocol c) (SForwardingMethod c)
    (if Alive s then 1 else 0) (weight.Uint32 (Weight s)) (Checker.uint32 (RealsAlive s))
    (Checker.uint32 (Transitions s)) (Checker.uint32 (FwMark c)) (SAnnounceGroup c)
    (IPv4OuterSourceNetwork c) (IPv6OuterSourceNetwork c) realStatus (QuorumUp c).
End service.

(** ** Quorum and announcement *)

Section quorum.
Implicit Types (m : Service) (w : World).

(** Everything but the alive flag and its transition counter. *)
Definition same_but_alive m m' : Prop :=
  config m' = config m /\ skey m' = skey m /\ reals m' = reals m /\ realsPool m' = realsPool m /\
  realsTotal m' = realsTotal m /\ realsEnabled m' = realsEnabled m /\ shutdown m' = shutdown m /\
  Weight (state m') = Weight (state m) /\ RealsAlive (state m') = RealsAlive (state m).

(** The decision of [quorumState], hysteresis included. *)
Definition next_alive m : bool :=
  match quorumState m with
  | quorumUp => true
  | quorumDown => false
  | quorumHold => Alive (state m)
  end.

Lemma updateAnnounce_spec m :
  let '(changed, m') := updateAnnounce m in
  same_but_alive m m' /\ Alive (state m') = next_alive m /\
  changed = xorb (Alive (state m)) (next_alive m).
Proof.
  unfold updateAnnounce, next_alive, enableService, disableService, same_but_alive.
  destruct (quorumState m), (Alive (state m)) eqn:Ha; simpl; split_and!; done.
Qed.

Lemma processAnnounce_spec m w :
  let '(m', w') := processAnnounce m w in
  same_but_alive m m' /\ Alive (state m') = next_alive m /\ wbalancer w' = wbalancer w /\
  wannouncer w' =
    (if xorb (Alive (state m)) (next_alive m) && negb (bool_decide (SAnnounceGroup (config m) = ""))
     then RegisterServiceEvent (skey m) (service_status_of (next_alive m)) (wannouncer w)
     else wannouncer w).
Proof.
  unfold processAnnounce. pose proof (updateAnnounce_spec m) as Hu.
  destruct (updateAnnounce m) as [changed m']. destruct Hu as (Hs & Ha & ->).
  pose proof Hs as (Hc & Hk & _). rewrite Hc, Hk, Ha.
  by destruct (xorb (Alive (state m)) (next_alive m) && _).
Qed.

(** The quorum with its hysteresis.  After the account of a service has
    changed it is alive exactly when its weight has reached
    [quorum + hysteresis], or it was alive, its weight is positive or
    negative but not zero, and has not fallen below [quorum - hysteresis]; the
    announcer is told exactly when this changed and the service has an
    announce group. *)
Theorem processAnnounce_functional (m : Service) (w : World) :
  let q := Quorum (config m) in
  let h := Hysteresis (config m) in
  let wt := Weight (state m) in
  let '(m', w') := processAnnounce m w in
  same_but_alive m m' /\
  (Alive (state m') = true <->
   q +i h <= wt \/ (Alive (state m) = true /\ q -i h <= wt /\ wt <> 0)) /\
  wbalancer w' = wbalancer w /\
  wannouncer w' =
    (if decide (Alive (state m') <> Alive (state m) /\ SAnnounceGroup (config m) <> "")
     then RegisterServiceEvent (skey m) (service_status_of (Alive (state m'))) (wannouncer w)
     else wannouncer w).
Proof.
  cbv zeta. pose proof (processAnnounce_spec m w) as HP.
  destruct (processAnnounce m w) as [m' w']. destruct HP as (Hs & Ha & Hb & Hw).
  split; [done|]. rewrite Ha. split_and!; [|done|].
  - unfold next_alive, quorumState.
    destruct (Z.leb_spec (Quorum (config m) +i Hysteresis (config m)) (Weight (state m))); [tauto|].
    destruct (Z.ltb_spec (Weight (state m)) (Quorum (config m) -i Hysteresis (config m))),
             (Z.eqb_spec (Weight (state m)) 0); simpl;
      (split; [try done; intros; right; split_and!; (done || lia) | intros [?|(? & ? & ?)]; try lia; done]).
  - rewrite Hw. destruct (bool_decide_reflect (SAnnounceGroup (config m) = "")) as [Hg|Hg];
      destruct (decide _) as [[H1 H2]|H1]; destruct (Alive (state m)), (next_alive m); simpl in *; try done;
      exfalso; apply H1; done.
Qed.
End quorum.

(** ** The account of the reals *)

(** Conjunctions of equations between records and wrapped sums. *)
Ltac solve_account :=
  split_and!; first [done | lia | by wrap_lia | by split_and!].

Section account.
Implicit Types (m : Service) (w : World).

(** The account says [tw] and [ta], up to the wrap-around of [int]. *)
Definition accounts m (tw ta : Z) : Prop :=
  Weight (state m) = wrap64 tw /\ RealsAlive (state m) = wrap64 ta /\ realsEnabled m = ta.

Definition same_reals m m' : Prop :=
  config m' = config m /\ skey m' = skey m /\ reals m' = reals m /\ realsPool m' = realsPool m /\
  realsTotal m' = realsTotal m /\ shutdown m' = shutdown m.

Lemma same_reals_trans m1 m2 m3 : same_reals m1 m2 -> same_reals m2 m3 -> same_reals m1 m3.
Proof. unfold same_reals. intros. destruct_and!. split_and!; congruence. Qed.

Lemma processEvent_account e m tw ta :
  event_shape e -> accounts m tw ta ->
  let '(e', m') := processEvent e m in
  same_reals m m' /\
  Alive (state m') = Alive (state m) /\
  accounts m' (tw - xevent.status_weight (xevent.EInit e) + xevent.status_weight (xevent.ENew e))
              (ta - xevent.status_alive (xevent.EInit e) + xevent.status_alive (xevent.ENew e)) /\
  e' = xevent.MkEvent (xevent.EType e) (key.MkBalancer (skey m) (key.BReal (xevent.EBalancer e)))
         (xevent.ENew e) (xevent.EInit e).
Proof.
  intros Hshape (Hw & Ha & He). unfold processEvent, event_shape, accounts in *.
  destruct e as [ty b [ne nw] [ie iw]]. unfold xevent.status_weight, xevent.status_alive. simpl in *.
  destruct ty; simpl.
  - subst ne. unfold processSucceed. destruct ie; simpl; rewrite Hw, ?Ha, ?He.
    all: solve_account.
  - destruct Hshape as [-> ->]. unfold processFailure. simpl. rewrite Hw, Ha, He. solve_account.
  - destruct Hshape as [-> ->]. unfold processFailure. simpl. rewrite Hw, Ha, He. solve_account.
Qed.

Lemma delta_inv_proper (r : Registry key.Balancer xevent.Event) a c c' :
  (forall k, c k ≈ c' k) -> delta_inv r a c -> delta_inv r a c'.
Proof.
  intros Hc Hinv k. specialize (Hinv k). destruct (events r !! k) as [e|].
  - destruct Hinv as [H1 H2]. split; [|done]. by rewrite <- Hc.
  - by rewrite <- Hc.
Qed.

Lemma HandleEvent_account e m w tw ta :
  event_shape e -> accounts m tw ta ->
  let '(m', w') := HandleEvent e m w in
  same_reals m m' /\
  accounts m' (tw - xevent.status_weight (xevent.EInit e) + xevent.status_weight (xevent.ENew e))
              (ta - xevent.status_alive (xevent.EInit e) + xevent.status_alive (xevent.ENew e)) /\
  forall applied current,
    delta_inv (bevents (wbalancer w)) applied current ->
    let k := key.MkBalancer (skey m) (key.BReal (xevent.EBalancer e)) in
    xevent.EInit e ≈ current k ->
    delta_inv (bevents (wbalancer w')) applied (fupd current k (xevent.ENew e)).
Proof.
  intros Hshape Hacc. unfold HandleEvent.
  pose proof (processEvent_account e m tw ta Hshape Hacc) as HP.
  destruct (processEvent e m) as [e' m1]. destruct HP as (Hs & _ & Hacc1 & ->).
  set (e' := xevent.MkEvent _ _ _ _).
  set (w1 := MkWorld _ _).
  pose proof (processAnnounce_spec m1 w1) as HA. destruct (processAnnounce m1 w1) as [m2 w2].
  destruct HA as (Hs2 & _ & Hb & _).
  destruct Hs2 as (K1 & K2 & K3 & K4 & K5 & K6 & K7 & K8 & K9).
  split_and!.
  - eapply same_reals_trans; [exact Hs|]. done.
  - destruct Hacc1 as (A1 & A2 & A3). unfold accounts. rewrite K6, K8, K9. done.
  - intros applied current Hd Hk. rewrite Hb.
    exact (delta_inv_Store (bevents (wbalancer w)) applied current _ e' Hd Hk).
Qed.

Lemma handleEvents_account k evs m w s s' tw ta :
  chain k s evs s' -> accounts m tw ta ->
  let '(m', w') := handleEvents evs m w in
  same_reals m m' /\
  accounts m' (tw - xevent.status_weight s + xevent.status_weight s')
              (ta - xevent.status_alive s + xevent.status_alive s') /\
  forall applied current,
    delta_inv (bevents (wbalancer w)) applied current ->
    current (key.MkBalancer (skey m) k) ≈ s ->
    delta_inv (bevents (wbalancer w')) applied (fupd current (key.MkBalancer (skey m) k) s').
Proof.
  unfold handleEvents, for_each. revert m w s tw ta.
  induction evs as [|e evs IH]; intros m w s tw ta Hch Hacc; simpl in *.
  - split_and!; [by split_and!| |].
    + replace (tw - xevent.status_weight s + xevent.status_weight s') with tw by (rewrite Hch; lia).
      replace (ta - xevent.status_alive s + xevent.status_alive s') with ta by (rewrite Hch; lia). done.
    + intros applied current Hd Hk. eapply delta_inv_proper; [|exact Hd]. intros k'.
      unfold fupd. case_decide as Hkk; [|done]. rewrite <- Hkk, Hk. exact Hch.
  - destruct Hch as (Hi & Hshape & Hkey & Hch).
    pose proof (HandleEvent_account e m w tw ta Hshape Hacc) as HH.
    destruct (HandleEvent e m w) as [m1 w1]. destruct HH as (Hs1 & Hacc1 & Hd1).
    specialize (IH m1 w1 _ _ _ Hch Hacc1).
    destruct (foldl _ (m1, w1) evs) as [m2 w2]. destruct IH as (Hs2 & Hacc2 & Hd2).
    split_and!; [by eapply same_reals_trans| |].
    + rewrite <- Hi. unfold accounts in *. destruct Hacc2 as (A1 & A2 & A3).
      rewrite A1, A2, A3. split_and!; [f_equal; lia|f_equal; lia|lia].
    + intros applied current Hd Hk. rewrite Hkey in Hd1.
      assert (skey m1 = skey m) as Hsk by apply Hs1.
      specialize (Hd1 applied current Hd ltac:(by rewrite Hk)).
      specialize (Hd2 applied _ Hd1). rewrite Hsk in Hd2.
      specialize (Hd2 ltac:(unfold fupd; by rewrite decide_True)).
      eapply delta_inv_proper; [|exact Hd2]. intros k'. unfold fupd. by case_decide.
Qed.
End account.

(** ** The whole service: events, reloads, stop *)

Section whole.
Context `{F : FloatToInt} `{MR : MapRange}.
Implicit Types (m : Service) (w : World) (rs : gmap key.Real Real).

Definition real_weight (r : Real) : Z := xevent.status_weight (Real.Status (Real.state r)).
Definition real_alive (r : Real) : Z := xevent.status_alive (Real.Status (Real.state r)).

Lemma sums_empty :
  msum real_weight (∅ : gmap key.Real Real) = 0 /\ msum real_alive (∅ : gmap key.Real Real) = 0 /\
  msize (∅ : gmap key.Real Real) = 0.
Proof. split_and!; [apply msum_empty..|apply msize_empty]. Qed.

Definition plain_reals rs : Prop := forall k r, rs !! k = Some r -> plain_inv r /\ rkey r = k.

(** What the load balancer should have: the status of every real of the
    service, "disabled" for what is no real of it; [base] for other services. *)
Definition service_view (base : key.Balancer -> xevent.Status) (sk : key.Service) rs (k : key.Balancer) :
    xevent.Status :=
  if decide (key.BService k = sk) then
    match rs !! key.BReal k with
    | Some r => Real.Status (Real.state r)
    | None => down
    end
  else base k.

Definition view_inv (applied base : key.Balancer -> xevent.Status) m w rs : Prop :=
  delta_inv (bevents (wbalancer w)) applied (service_view base (skey m) rs).

(** The account is exact and the balancer's pending events are. *)
Definition svc_inv (applied base : key.Balancer -> xevent.Status) m w : Prop :=
  accounts m (msum real_weight (reals m)) (msum real_alive (reals m)) /\
  realsTotal m = msize (reals m) /\ plain_reals (reals m) /\ view_inv applied base m w (reals m).

Lemma view_update base sk rs k r' s' :
  s' ≈ Real.Status (Real.state r') ->
  forall k', fupd (service_view base sk rs) (key.MkBalancer sk k) s' k' ≈ service_view base sk (<[k := r']> rs) k'.
Proof.
  intros Hs [bs br]. unfold fupd, service_view. simpl. rewrite lookup_insert.
  destruct (decide (key.MkBalancer sk k = key.MkBalancer bs br)) as [He|Hne].
  - injection He as -> ->. rewrite !decide_True by done. exact Hs.
  - destruct (decide (bs = sk)) as [->|]; [|done]. rewrite decide_False by congruence. done.
Qed.

Lemma view_at base sk rs k r : rs !! k = Some r -> service_view base sk rs (key.MkBalancer sk k) = Real.Status (Real.state r).
Proof. intros Hr. unfold service_view. simpl. by rewrite decide_True, Hr by done. Qed.

Lemma view_ext base sk rs1 rs2 :
  (forall k, rs1 !! k = rs2 !! k) -> forall k, service_view base sk rs1 k ≈ service_view base sk rs2 k.
Proof. intros H k. unfold service_view. by rewrite H. Qed.

Lemma New_status c : Real.Status (Real.state (Real.New c)) ≈ down.
Proof. done. Qed.

(** An event of a checker. *)
Lemma realEvent_inv applied base now k e m w :
  svc_inv applied base m w ->
  (forall r, reals m !! k = Some r -> Real.checkers r <> ∅) ->
  (xevent.EType e = xevent.Enable \/ xevent.SEnable (xevent.ENew e) = false) ->
  let '(m', w') := realEvent now k e m w in
  svc_inv applied base m' w' /\ config m' = config m /\ dom (reals m') = dom (reals m).
Proof.
  intros (Hacc & Htot & Hpl & Hv) Hne He. unfold realEvent.
  destruct (reals m !! k) as [r|] eqn:Hr; [|done].
  destruct (Hpl k r Hr) as [(Hc & Hi & Ha) Hk].
  pose proof (plain_HandleEvent now e r Hc Hi He) as HP.
  pose proof (HandleEvent_keeps now e r) as (K1 & K2 & _ & _ & _ & K6).
  destruct (Real.HandleEvent now e r) as [o r']. cbn [fst snd] in *. destruct HP as (Hch & Hi' & _).
  set (m1 := set_real_map _ _ _ _).
  assert (match o with Some e => HandleEvent e m1 w | None => (m1, w) end =
          handleEvents (match o with Some e' => [e'] | None => [] end) m1 w) as Heq
    by (by destruct o).
  destruct (match o with Some e => HandleEvent e m1 w | None => (m1, w) end) as [m' w'].
  assert (accounts m1 (msum real_weight (reals m)) (msum real_alive (reals m))) as Hacc1 by exact Hacc.
  pose proof (handleEvents_account (rkey r) _ m1 w _ _ _ _ Hch Hacc1) as HA. rewrite <- Heq in HA.
  destruct HA as ((S1 & S2 & S3 & S4 & S5 & S6) & Hacc' & Hd).
  assert (reals m' = <[k := r']> (reals m)) as Hreals by (rewrite S3; done).
  split; [|split; [by rewrite S1|]].
  2:{ rewrite Hreals. apply dom_insert_lookup_L. eauto. }
  split_and!.
  - rewrite Hreals. rewrite !(msum_update _ (reals m) k r r' Hr). exact Hacc'.
  - rewrite Hreals, S5. unfold msize. rewrite map_size_insert_Some by eauto. exact Htot.
  - rewrite Hreals. intros k2 r2. rewrite lookup_insert. case_decide as Hk2; [|apply Hpl].
    intros [= <-]. subst k2. split; [|by rewrite K6]. split_and!; [by rewrite K1|done|].
    intros Hemp. rewrite K2 in Hemp. by destruct (Hne r eq_refl).
  - unfold view_inv. rewrite Hreals, S2. eapply delta_inv_proper; [|apply Hd; [exact Hv|]].
    + subst k. by apply view_update.
    + subst k. change (skey m1) with (skey m). by rewrite (view_at base (skey m) (reals m) (rkey r) r Hr).
Qed.

Lemma HandleEvent_same e m w : same_reals m (HandleEvent e m w).1.
Proof.
  unfold HandleEvent. assert (same_reals m (processEvent e m).2) as He.
  { unfold processEvent, processSucceed, processFailure. destruct e as [[] b nw ini]; simpl; [|done|done].
    by destruct (negb _). }
  destruct (processEvent e m) as [e' m1]. simpl in He. eapply same_reals_trans; [exact He|].
  pose proof (processAnnounce_spec m1 (MkWorld (wannouncer w) (Balancer.HandleEvent e' (wbalancer w)))) as HA.
  destruct (processAnnounce m1 _) as [m2 w2]. destruct HA as (HS & _). simpl.
  unfold same_but_alive in HS. unfold same_reals. tauto.
Qed.

Lemma handleEvents_same evs m w : same_reals m (handleEvents evs m w).1.
Proof.
  unfold handleEvents, for_each. revert m w. induction evs as [|e evs IH]; intros m w; simpl; [done|].
  pose proof (HandleEvent_same e m w) as H. destruct (HandleEvent e m w) as [m1 w1].
  eapply same_reals_trans; [exact H|apply IH].
Qed.

(** The events and activations of reals leave the rest of the service alone. *)
Definition same_service m m' : Prop := config m' = config m /\ skey m' = skey m /\ shutdown m' = shutdown m.

Lemma same_reals_service m m' : same_reals m m' -> same_service m m'.
Proof. unfold same_reals, same_service. tauto. Qed.

Lemma realEvent_same now k e m w : same_service m (realEvent now k e m w).1.
Proof.
  unfold realEvent. destruct (reals m !! k) as [r|]; [|done].
  destruct (Real.HandleEvent now e r) as [[e'|] r']; [|done].
  exact (same_reals_service _ _ (HandleEvent_same e' _ _)).
Qed.

Lemma realEvent_skey now k e m w : skey (realEvent now k e m w).1 = skey m.
Proof. apply realEvent_same. Qed.

(** The state of the loop of [Reload]: the new map, and the rest of the old. *)
Definition loop_inv (applied base : key.Balancer -> xevent.Status) (old : gmap key.Real Real)
    (visited : list key.Real) (s : gmap key.Real Real * Service * World) : Prop :=
  let '(new, m, w) := s in
  accounts m (msum real_weight new + msum real_weight (reals m)) (msum real_alive new + msum real_alive (reals m)) /\
  realsTotal m = msize new + msize (reals m) /\ plain_reals new /\ plain_reals (reals m) /\
  (forall k, is_Some (new !! k) <-> k ∈ visited) /\
  (forall k, reals m !! k = if decide (k ∈ visited) then None else old !! k) /\
  view_inv applied base m w (new ∪ reals m).

(** What a round adds to the keys that have been visited. *)
Lemma visited_new visited k (new : gmap key.Real Real) (r : Real) k' :
  (forall k', is_Some (new !! k') <-> k' ∈ visited) ->
  is_Some (<[k:=r]> new !! k') <-> k' ∈ visited ++ [k].
Proof.
  intros Hdom. rewrite lookup_insert_is_Some', Hdom, elem_of_app, list_elem_of_singleton. intuition congruence.
Qed.

Lemma visited_old visited k (old rest : gmap key.Real Real) k' :
  (forall k', rest !! k' = if decide (k' ∈ visited) then None else old !! k') ->
  delete k rest !! k' = if decide (k' ∈ visited ++ [k]) then None else old !! k'.
Proof.
  intros Hold. rewrite lookup_delete. destruct (decide (k = k')) as [->|Hne]; [by rewrite decide_True by set_solver|].
  rewrite Hold. apply decide_ext. set_solver.
Qed.

Lemma plain_insert k (r : Real) (rs : gmap key.Real Real) :
  plain_inv r -> rkey r = k -> plain_reals rs -> plain_reals (<[k:=r]> rs).
Proof. intros Hr Hk Hrs k2 r2. rewrite lookup_insert. case_decide as Hk2; [|apply Hrs]. intros [= <-]. split; [done|congruence]. Qed.

Lemma plain_delete k (rs : gmap key.Real Real) : plain_reals rs -> plain_reals (delete k rs).
Proof. intros Hrs k2 r2. rewrite lookup_delete. case_decide; [done|apply Hrs]. Qed.

Lemma reloadReal_known applied base old visited now cfg new m w r :
  InhibitOnFailure cfg = false -> new !! Real.Key cfg = None -> reals m !! Real.Key cfg = Some r ->
  loop_inv applied base old visited (new, m, w) ->
  loop_inv applied base old (visited ++ [Real.Key cfg]) (reloadReal now cfg (new, m, w)) /\
  skey (reloadReal now cfg (new, m, w)).1.2 = skey m /\ shutdown (reloadReal now cfg (new, m, w)).1.2 = shutdown m.
Proof.
  intros Hinh Hnew Hr (Hacc & Htot & Hpn & Hpo & Hdom & Hold & Hv). unfold reloadReal. set (k := Real.Key cfg) in *.
  rewrite Hr. destruct (Hpo k r Hr) as [Hpr Hkr]. pose proof (plain_Reload now cfg r Hinh Hpr) as HP.
  destruct (Real.Reload now cfg r) as [evs r']. destruct HP as (Hch & Hpr' & Hkr').
  pose proof (handleEvents_account (rkey r) evs m w _ _ _ _ Hch Hacc) as HA.
  destruct (handleEvents evs m w) as [m1 w1].
  destruct HA as ((S1 & S2 & S3 & S4 & S5 & S6) & Hacc1 & Hd). rewrite S3 in *.
  split; [|done]. unfold loop_inv. simpl. split_and!.
  - rewrite !msum_insert by done. rewrite (msum_delete real_weight _ _ _ Hr), (msum_delete real_alive _ _ _ Hr) in Hacc1.
    unfold accounts in *. destruct Hacc1 as (A1 & A2 & A3). simpl. rewrite A1, A2, A3.
    unfold real_weight, real_alive. split_and!; [f_equal; lia|f_equal; lia|lia].
  - rewrite msize_insert by done. rewrite (msize_delete _ _ _ Hr) in Htot. lia.
  - apply plain_insert; [done|congruence|done].
  - by apply plain_delete.
  - intros k'. by apply visited_new.
  - intros k'. by apply visited_old.
  - unfold view_inv. simpl. rewrite S2. eapply delta_inv_proper; [|apply Hd; [exact Hv|]].
    + intros k2. etrans; [apply (view_update base (skey m) (new ∪ reals m) (rkey r) r'); done|].
      apply view_ext. intros k3. rewrite Hkr. clearbody k.
      rewrite lookup_insert, !lookup_union, lookup_insert, lookup_delete. by destruct (decide (k = k3)) as [->|].
    + rewrite Hkr, (view_at base (skey m) (new ∪ reals m) k r); [done|]. by rewrite lookup_union, Hnew, Hr.
Qed.

Lemma reloadReal_added applied base old visited now cfg new m w :
  InhibitOnFailure cfg = false -> new !! Real.Key cfg = None -> reals m !! Real.Key cfg = None ->
  loop_inv applied base old visited (new, m, w) ->
  loop_inv applied base old (visited ++ [Real.Key cfg]) (reloadReal now cfg (new, m, w)) /\
  skey (reloadReal now cfg (new, m, w)).1.2 = skey m /\ shutdown (reloadReal now cfg (new, m, w)).1.2 = shutdown m.
Proof.
  intros Hinh Hnew Hr (Hacc & Htot & Hpn & Hpo & Hdom & Hold & Hv). unfold reloadReal. set (k := Real.Key cfg) in *.
  rewrite Hr. split; [|done]. unfold loop_inv. simpl. split_and!.
  - rewrite !msum_insert by done. exact Hacc.
  - rewrite msize_insert by done. lia.
  - apply plain_insert; [by apply plain_New|done|done].
  - done.
  - intros k'. by apply visited_new.
  - intros k'. rewrite <- (visited_old visited k old (reals m) k' Hold). by rewrite delete_id.
  - unfold view_inv. simpl. eapply delta_inv_proper; [|exact Hv].
    intros [bs br]. unfold service_view. simpl. case_decide; [|done].
    rewrite !lookup_union, lookup_insert. clearbody k.
    destruct (decide (k = br)) as [<-|]; [|done]. by rewrite Hnew, Hr.
Qed.

Lemma reloadReal_inv applied base old visited now cfg s :
  InhibitOnFailure cfg = false -> Real.Key cfg ∉ visited ->
  loop_inv applied base old visited s ->
  loop_inv applied base old (visited ++ [Real.Key cfg]) (reloadReal now cfg s) /\
  skey (reloadReal now cfg s).1.2 = skey s.1.2 /\ shutdown (reloadReal now cfg s).1.2 = shutdown s.1.2.
Proof.
  intros Hinh Hfresh. destruct s as [[new m] w]. intros Hinv.
  assert (new !! Real.Key cfg = None) as Hnew.
  { destruct Hinv as (_ & _ & _ & _ & Hdom & _). apply eq_None_not_Some. by rewrite Hdom. }
  destruct (reals m !! Real.Key cfg) as [r|] eqn:Hr; [by eapply reloadReal_known|by apply reloadReal_added].
Qed.

Lemma reload_loop_inv applied base now cfgs m w :
  Forall (fun c => InhibitOnFailure c = false) cfgs -> NoDup (Real.Key <$> cfgs) ->
  svc_inv applied base m w ->
  let s := for_each (reloadReal now) cfgs (∅, m, w) in
  loop_inv applied base (reals m) (Real.Key <$> cfgs) s /\ skey s.1.2 = skey m /\ shutdown s.1.2 = shutdown m.
Proof.
  intros Hinh Hnd (Hacc & Htot & Hpl & Hv). cbv zeta.
  loop (fun (visited : list Real.Config) (s : gmap key.Real Real * Service * World) =>
    loop_inv applied base (reals m) (Real.Key <$> visited) s /\ skey s.1.2 = skey m /\ shutdown s.1.2 = shutdown m).
  - split; [|done]. unfold loop_inv. cbn beta iota.
    destruct sums_empty as (-> & -> & ->). split_and!; [done|done| |done| | |].
    + intros k r. by rewrite lookup_empty.
    + intros k. rewrite lookup_empty. split; [by intros []|by intros ?%not_elem_of_nil].
    + intros k. by rewrite decide_False by by apply not_elem_of_nil.
    + by rewrite map_empty_union.
  - intros visited c rest s Hcfgs (Hloop & Hk & Hs). rewrite fmap_app. simpl.
    assert (InhibitOnFailure c = false) as Hc.
    { rewrite Hcfgs, Forall_app, Forall_cons in Hinh. tauto. }
    destruct (reloadReal_inv applied base (reals m) (Real.Key <$> visited) now c s Hc) as (H1 & H2 & H3); [|done|].
    + rewrite Hcfgs, fmap_app in Hnd. apply NoDup_app in Hnd as (_ & Hd & _). intros Hin. apply (Hd _ Hin). left.
    + split; [done|]. by rewrite H2, H3.
Qed.

(** The statuses of the reals when those of [done_], some of [rs], are stopped. *)
Definition stopped_view (base : key.Balancer -> xevent.Status) (s : key.Service) (new rs done_ : gmap key.Real Real) (k : key.Balancer) : xevent.Status :=
  if decide (is_Some (done_ !! key.BReal k) /\ key.BService k = s) then down else service_view base s (new ∪ rs) k.

Lemma stopped_view_insert base s new rs done_ k (r : Real) x k' :
  x ≈ down -> fupd (stopped_view base s new rs done_) (key.MkBalancer s k) x k' ≈ stopped_view base s new rs (<[k:=r]> done_) k'.
Proof.
  intros Hx. destruct k' as [bs br]. unfold fupd, stopped_view. simpl. rewrite lookup_insert.
  destruct (decide (key.MkBalancer s k = key.MkBalancer bs br)) as [He|Hne].
  - injection He as <- <-. rewrite decide_True; [done|]. rewrite decide_True by done. eauto.
  - destruct (decide (k = br)) as [<-|]; [|done]. assert (s <> bs) as Hbs by congruence.
    rewrite !decide_False by (by intros [_ ?]). done.
Qed.

Lemma stopped_view_all base s new rs k :
  (forall k, is_Some (rs !! k) -> new !! k = None) -> stopped_view base s new rs rs k ≈ service_view base s new k.
Proof.
  intros Hdisj. unfold stopped_view, service_view. destruct (decide (key.BService k = s)) as [Hk|Hk]; [|by rewrite decide_False by tauto].
  rewrite lookup_union. destruct (rs !! key.BReal k) as [r|] eqn:Hr.
  - rewrite decide_True by eauto. by rewrite (Hdisj (key.BReal k)) by eauto.
  - rewrite decide_False by (by intros [[] _]). by destruct (new !! key.BReal k).
Qed.

(** Stopping reals of the old map takes them out of the account. [new] holds
    the reals that stay. *)
Lemma stopReals_inv applied base now sub rs new m w tw ta :
  plain_reals rs -> (forall k, is_Some (rs !! k) -> new !! k = None) ->
  accounts m (tw + msum real_weight rs) (ta + msum real_alive rs) ->
  view_inv applied base m w (new ∪ rs) ->
  let '(m', w') := stopReals now sub rs m w in
  accounts m' tw ta /\ skey m' = skey m /\ shutdown m' = shutdown m /\ config m' = config m /\
  realsPool m' = realsPool m /\ realsTotal m' = realsTotal m - sub * msize rs /\
  view_inv applied base m' w' new.
Proof.
  intros Hpl Hdisj Hacc Hv.
  pose proof (for_range_ind (fun (done_ : gmap key.Real Real) '((m', w') : Service * World) =>
    accounts m' (tw + msum real_weight rs - msum real_weight done_) (ta + msum real_alive rs - msum real_alive done_) /\
    skey m' = skey m /\ shutdown m' = shutdown m /\ config m' = config m /\
    realsPool m' = realsPool m /\ realsTotal m' = realsTotal m - sub * msize done_ /\
    delta_inv (bevents (wbalancer w')) applied (stopped_view base (skey m) new rs done_))
    rs (fun k r '(m, w) =>
       let '(evs, r) := Real.Stop now r in
       let '(m, w) := handleEvents evs m w in
       (set_real_map (<[k := r]> (reals m)) (realsPool m) (realsTotal m - sub) m, w)) (m, w)) as HI.
  unfold stopReals. destruct (for_range rs _ (m, w)) as [m' w'].
  destruct HI as ((A1 & A2 & A3) & H2 & H3 & H4 & H5 & H6 & H7).
  - destruct sums_empty as (-> & -> & ->). split_and!; try done; try lia. rewrite !Z.sub_0_r. exact Hacc.
  - intros k r done_ [m1 w1] Hnew Hr Hsub (Hacc1 & H2 & H3 & H4 & H5 & H6 & H7).
    destruct (Hpl k r Hr) as [Hpr Hkr]. pose proof (plain_Stop now r Hpr) as HP.
    destruct (Real.Stop now r) as [evs r']. destruct HP as (Hch & Hal & Hin).
    pose proof (handleEvents_account (rkey r) evs m1 w1 _ _ _ _ Hch Hacc1) as HA.
    destruct (handleEvents evs m1 w1) as [m2 w2]. destruct HA as ((S1 & S2 & S3 & S4 & S5 & S6) & (B1 & B2 & B3) & Hd).
    assert (Real.Status (Real.state r') ≈ down) as Hdown by (unfold Real.Status; by rewrite Hin, Hal).
    simpl. split_and!; try congruence.
    + rewrite !msum_insert by done. unfold accounts in *. simpl. rewrite Hdown in B1, B2, B3.
      change (xevent.status_weight down) with 0 in *. change (xevent.status_alive down) with 0 in *.
      unfold real_weight, real_alive in *. rewrite B1, B2, B3. split_and!; [f_equal; lia|f_equal; lia|lia].
    + rewrite S5, H6, msize_insert by done. lia.
    + rewrite H2 in Hd. eapply delta_inv_proper; [|apply (Hd applied _ H7)].
      * intros k'. rewrite Hkr. by apply stopped_view_insert.
      * unfold stopped_view. simpl. rewrite Hkr, decide_False by (intros [[? ?] _]; congruence).
        rewrite (view_at base (skey m) (new ∪ rs) k r); [done|]. by rewrite lookup_union, (Hdisj k), Hr by eauto.
  - split_and!; try done.
    + unfold accounts. rewrite A1, A2, A3. split_and!; [f_equal; lia|f_equal; lia|lia].
    + unfold view_inv. eapply delta_inv_proper; [|exact H7]. intros k. rewrite H2. by apply stopped_view_all.
Qed.

Lemma processAnnounce_keeps m w :
  let '(m', w') := processAnnounce m w in same_but_alive m m' /\ wbalancer w' = wbalancer w.
Proof. pose proof (processAnnounce_spec m w) as H. destruct (processAnnounce m w). tauto. Qed.

Lemma Reload_inv applied base now cfg m w :
  Forall (fun c => InhibitOnFailure c = false) (Reals cfg) -> NoDup (Real.Key <$> Reals cfg) ->
  svc_inv applied base m w ->
  let '(m', w') := Reload now cfg m w in
  svc_inv applied base m' w' /\ skey m' = skey m /\ shutdown m' = shutdown m /\
  (shutdown m = false -> config m' = cfg /\ forall k, is_Some (reals m' !! k) <-> k ∈ Real.Key <$> Reals cfg).
Proof.
  intros Hinh Hnd Hinv. unfold Reload.
  destruct (shutdown m && negb (bool_decide (Reals cfg = []))) eqn:Hsh.
  { split_and!; [done|done|done|]. intros Hf. by rewrite Hf in Hsh. }
  destruct (reload_loop_inv applied base now (Reals cfg) m w Hinh Hnd Hinv) as (Hloop & Hk & Hsd).
  destruct (for_each (reloadReal now) (Reals cfg) (∅, m, w)) as [[new m1] w1]. simpl in Hk, Hsd.
  destruct Hloop as (Hacc & Htot & Hpn & Hpo & Hdom & Hold & Hv).
  assert (forall k, is_Some (reals m1 !! k) -> new !! k = None) as Hdisj.
  { intros k Hk1. apply eq_None_not_Some. rewrite Hdom. rewrite Hold in Hk1. by case_decide; [destruct Hk1|]. }
  pose proof (stopReals_inv applied base now 1 (reals m1) new m1 w1 _ _ Hpo Hdisj Hacc Hv) as HS.
  destruct (stopReals now 1 (reals m1) m1 w1) as [m2 w2].
  destruct HS as (Hacc2 & Hk2 & Hsd2 & _ & _ & Htot2 & Hv2).
  set (m3 := MkService cfg _ _ _ _ _ _ _).
  pose proof (processAnnounce_keeps m3 w2) as HA. destruct (processAnnounce m3 w2) as [m4 w4].
  destruct HA as ((K1 & K2 & K3 & K4 & K5 & K6 & K7 & K8 & K9) & Hb).
  split_and!.
  - split_and!.
    + rewrite K3. unfold accounts in *. rewrite K6, K8, K9. exact Hacc2.
    + rewrite K5, K3. simpl. lia.
    + rewrite K3. exact Hpn.
    + unfold view_inv. rewrite Hb, K2, K3. exact Hv2.
  - rewrite K2. simpl. congruence.
  - rewrite K7. simpl. congruence.
  - intros _. rewrite K1, K3. split; [done|exact Hdom].
Qed.

(** ** Runs of a service *)

Inductive svc_op :=
| OpReal (now : Z) (k : key.Real) (e : xevent.Event)   (* an event of a checker of the real [k] *)
| OpActivate (now : Z) (k : key.Real)                  (* the real [k] is activated and starts *)
| OpReloadService (now : Z) (cfg : Config).

(** The start of a real: its initial reload may send events. *)
Definition realRun (now : Z) (k : key.Real) m w : Service * World :=
  match reals m !! k with
  | None => (m, w)
  | Some r =>
      let '(evs, r) := Real.Run now true r in
      handleEvents evs (set_real_map (<[k := r]> (reals m)) (realsPool m) (realsTotal m) m) w
  end.

Definition do_svc (o : svc_op) (s : Service * World) : Service * World :=
  match o with
  | OpReal now k e => realEvent now k e s.1 s.2
  | OpActivate now k => realRun now k s.1 s.2
  | OpReloadService now cfg => Reload now cfg s.1 s.2
  end.

(** No real has [InhibitOnFailure], a configuration lists a real once, and
    events come from reals that have checkers, with no status for a failure. *)
Definition svc_op_ok (o : svc_op) m : Prop :=
  match o with
  | OpReal now k e =>
      (forall r, reals m !! k = Some r -> Real.checkers r <> ∅) /\
      (xevent.EType e = xevent.Enable \/ xevent.SEnable (xevent.ENew e) = false)
  | OpActivate _ _ => True
  | OpReloadService _ cfg =>
      Forall (fun c => InhibitOnFailure c = false) (Reals cfg) /\ NoDup (Real.Key <$> Reals cfg)
  end.

Fixpoint svc_ops_ok (l : list svc_op) (s : Service * World) : Prop :=
  match l with
  | [] => True
  | o :: l => svc_op_ok o s.1 /\ svc_ops_ok l (do_svc o s)
  end.

Definition svc_op_okb (o : svc_op) m : bool :=
  match o with
  | OpReal now k e =>
      match reals m !! k with Some r => negb (bool_decide (Real.checkers r = ∅)) | None => true end &&
      (bool_decide (xevent.EType e = xevent.Enable) || negb (xevent.SEnable (xevent.ENew e)))
  | OpActivate _ _ => true
  | OpReloadService _ cfg =>
      forallb (fun c => negb (InhibitOnFailure c)) (Reals cfg) && bool_decide (NoDup (Real.Key <$> Reals cfg))
  end.

Fixpoint svc_ops_okb (l : list svc_op) (s : Service * World) : bool :=
  match l with
  | [] => true
  | o :: l => svc_op_okb o s.1 && svc_ops_okb l (do_svc o s)
  end.

Lemma svc_op_okb_ok o m : svc_op_okb o m = true -> svc_op_ok o m.
Proof.
  destruct o as [now k e|now k|now cfg]; simpl; [|done|]; intros [H1 H2]%andb_prop.
  - split.
    + intros r Hr. rewrite Hr in H1. intros He. by rewrite bool_decide_eq_true_2 in H1.
    + apply orb_prop in H2 as [H2|H2]; [left; by apply bool_decide_eq_true in H2|right]. by destruct (xevent.SEnable _).
  - split; [|by apply bool_decide_eq_true in H2]. rewrite forallb_forall in H1. apply Forall_forall.
    intros c Hc%list_elem_of_In. specialize (H1 c Hc). by destruct (InhibitOnFailure c).
Qed.

Lemma svc_ops_okb_ok l s : svc_ops_okb l s = true -> svc_ops_ok l s.
Proof.
  revert s. induction l as [|o l IH]; intros s; simpl; [done|].
  intros [H1 H2]%andb_prop. split; [by apply svc_op_okb_ok|by apply IH].
Qed.

Lemma realRun_inv applied base now k m w :
  svc_inv applied base m w ->
  let '(m', w') := realRun now k m w in
  svc_inv applied base m' w' /\ skey m' = skey m.
Proof.
  intros (Hacc & Htot & Hpl & Hv). unfold realRun.
  destruct (reals m !! k) as [r|] eqn:Hr; [|done].
  destruct (Hpl k r Hr) as [Hpr Hk]. pose proof (plain_Run now true r Hpr) as HP.
  destruct (Real.Run now true r) as [evs r']. destruct HP as (Hch & Hpr' & Hkr').
  set (m1 := set_real_map _ _ _ _).
  assert (accounts m1 (msum real_weight (reals m)) (msum real_alive (reals m))) as Hacc1 by exact Hacc.
  pose proof (handleEvents_account (rkey r) evs m1 w _ _ _ _ Hch Hacc1) as HA.
  destruct (handleEvents evs m1 w) as [m' w']. destruct HA as ((S1 & S2 & S3 & S4 & S5 & S6) & Hacc' & Hd).
  assert (reals m' = <[k := r']> (reals m)) as Hreals by (rewrite S3; done).
  split; [split_and!|done].
  - rewrite Hreals. rewrite !(msum_update _ (reals m) k r r' Hr). exact Hacc'.
  - rewrite Hreals, S5. unfold msize. rewrite map_size_insert_Some by eauto. exact Htot.
  - rewrite Hreals. intros k2 r2. rewrite lookup_insert. case_decide as Hk2; [|apply Hpl].
    intros [= <-]. split; [done|congruence].
  - unfold view_inv. rewrite Hreals, S2. eapply delta_inv_proper; [|apply Hd; [exact Hv|]].
    + subst k. by apply view_update.
    + subst k. change (skey m1) with (skey m). by rewrite (view_at base (skey m) (reals m) (rkey r) r Hr).
Qed.

Lemma realRun_same now k m w : same_service m (realRun now k m w).1.
Proof.
  unfold realRun. destruct (reals m !! k) as [r|]; [|done].
  destruct (Real.Run now true r) as [evs r']. exact (same_reals_service _ _ (handleEvents_same evs _ _)).
Qed.

Lemma do_svc_inv applied base o s :
  svc_op_ok o s.1 -> svc_inv applied base s.1 s.2 ->
  svc_inv applied base (do_svc o s).1 (do_svc o s).2 /\ skey (do_svc o s).1 = skey s.1.
Proof.
  destruct s as [m w], o as [now k e|now k|now cfg]; simpl; intros Hok Hinv.
  - destruct Hok as [Hne He]. pose proof (realEvent_inv applied base now k e m w Hinv Hne He) as H.
    pose proof (realEvent_skey now k e m w) as Hk.
    destruct (realEvent now k e m w). simpl in *. tauto.
  - pose proof (realRun_inv applied base now k m w Hinv) as H. by destruct (realRun now k m w).
  - destruct Hok as [Hi Hn]. pose proof (Reload_inv applied base now cfg m w Hi Hn Hinv) as H.
    destruct (Reload now cfg m w). simpl. tauto.
Qed.
End whole.

(** ** Properties *)

Section properties.
Context `{F : FloatToInt} `{MR : MapRange}.
Implicit Types (m : Service) (w : World).

Lemma do_svcs_inv applied base l s :
  svc_ops_ok l s -> svc_inv applied base s.1 s.2 ->
  let s' := for_each do_svc l s in
  svc_inv applied base s'.1 s'.2 /\ skey s'.1 = skey s.1.
Proof.
  unfold for_each. revert s. induction l as [|o l IH]; intros s; simpl; [done|].
  intros [Ho Hl] Hinv. destruct (do_svc_inv applied base o s Ho Hinv) as [Hi Hk].
  destruct (IH _ Hl Hi) as [Hi' Hk']. split; [done|congruence].
Qed.

Lemma svc_inv_New applied base c w :
  delta_inv (bevents (wbalancer w)) applied base ->
  (forall k, key.BService k = Key c -> base k ≈ down) ->
  svc_inv applied base (New c) w.
Proof.
  intros Hd Hb. unfold svc_inv. cbn [New reals realsTotal].
  destruct sums_empty as (-> & -> & ->). split_and!; [done|done| |].
  - intros k r. by rewrite lookup_empty.
  - unfold view_inv. eapply delta_inv_proper; [|exact Hd]. intros k. unfold service_view.
    case_decide as Hk; [|done]. rewrite lookup_empty. by apply Hb.
Qed.


(** Stopping a service leaves the gauge of its reals as it is. The core then
    deletes the gauge of the service, and the reals stay counted in the global
    one. *)
Theorem stopped_service_keeps_gauge (now : Z) (m : Service) (w : World) : realsTotal (Stop now m w).1 = realsTotal m.
Proof.
  unfold Stop, stopReals.
  apply (for_range_ind (fun (_ : gmap key.Real Real) (s : Service * World) => realsTotal s.1 = realsTotal m)); [done|].
  intros k r _ [m1 w1] _ _ _ H. destruct (Real.Stop now r) as [evs r'].
  pose proof (handleEvents_same evs m1 w1) as (_ & _ & _ & _ & Hs & _).
  destruct (handleEvents evs m1 w1) as [m2 w2]. cbn in *. lia.
Qed.

(** After a reload the reals of the service are exactly the configured
    ones, each by its own key. *)
Theorem Reload_reals (applied base : key.Balancer -> xevent.Status) (now : Z) (cfg : Config) (m : Service) (w : World) :
  Forall (fun c => InhibitOnFailure c = false) (Reals cfg) -> NoDup (Real.Key <$> Reals cfg) ->
  svc_inv applied base m w -> shutdown m = false ->
  let '(m', w') := Reload now cfg m w in
  config m' = cfg /\ skey m' = skey m /\
  (forall k, is_Some (reals m' !! k) <-> k ∈ Real.Key <$> Reals cfg) /\
  (forall k r, reals m' !! k = Some r -> rkey r = k).
Proof.
  intros Hi Hn Hinv Hsh. pose proof (Reload_inv applied base now cfg m w Hi Hn Hinv) as HR.
  destruct (Reload now cfg m w) as [m' w']. destruct HR as ((_ & _ & Hpl & _) & Hk & _ & Hc).
  destruct (Hc Hsh) as [Hc1 Hc2]. split_and!; [done..|]. intros k r Hr. by destruct (Hpl k r Hr).
Qed.

(** ** Any kind of real that keeps the contract *)

Section fleet.
Context {R : Type} `{ES : EventSource R}.

Definition fleet_step (x : Z * key.Real * xevent.Event) (s : gmap key.Real R * Service * World) :
    gmap key.Real R * Service * World :=
  let '(now, k, e) := x in
  let '(fleet, m, w) := s in
  match fleet !! k with
  | None => s
  | Some r =>
      let '(o, r) := es_handle now e r in
      let fleet := <[k := r]> fleet in
      match o with
      | Some e => let '(m, w) := HandleEvent e m w in (fleet, m, w)
      | None => (fleet, m, w)
      end
  end.

Fixpoint fleet_ok (l : list (Z * key.Real * xevent.Event)) (s : gmap key.Real R * Service * World) : Prop :=
  match l with
  | [] => True
  | x :: l => (forall r, s.1.1 !! x.1.2 = Some r -> es_ok x.2 r) /\ fleet_ok l (fleet_step x s)
  end.

(** A test for it, given one for [es_ok]. *)
Fixpoint fleet_okb (ok : xevent.Event -> R -> bool) (l : list (Z * key.Real * xevent.Event))
    (s : gmap key.Real R * Service * World) : bool :=
  match l with
  | [] => true
  | x :: l =>
      match s.1.1 !! x.1.2 with Some r => ok x.2 r | None => true end && fleet_okb ok l (fleet_step x s)
  end.

Lemma fleet_okb_ok ok l s :
  (forall e r, ok e r = true -> es_ok e r) -> fleet_okb ok l s = true -> fleet_ok l s.
Proof.
  intros Hok. revert s. induction l as [|x l IH]; intros s; simpl; [done|].
  intros [H1 H2]%andb_prop. split; [|by apply IH]. intros r Hr. rewrite Hr in H1. by apply Hok.
Qed.

Definition fleet_weight (fleet : gmap key.Real R) : Z := msum (fun r => xevent.status_weight (es_status r)) fleet.
Definition fleet_alive (fleet : gmap key.Real R) : Z := msum (fun r => xevent.status_alive (es_status r)) fleet.

Definition fleet_inv (s : gmap key.Real R * Service * World) : Prop :=
  accounts s.1.2 (fleet_weight s.1.1) (fleet_alive s.1.1) /\ forall k r, s.1.1 !! k = Some r -> es_inv r.

Lemma fleet_step_inv x s :
  (forall r, s.1.1 !! x.1.2 = Some r -> es_ok x.2 r) -> fleet_inv s -> fleet_inv (fleet_step x s).
Proof.
  destruct x as [[now k] e], s as [[fleet m] w]. simpl. intros Hok [Hacc Hfi].
  destruct (fleet !! k) as [r|] eqn:Hr; [|done]. simpl in Hacc, Hfi.
  pose proof (es_spec now e r (Hfi k r Hr) (Hok r eq_refl)) as HS.
  destruct (es_handle now e r) as [o r']. destruct HS as (Hi' & _ & HS).
  assert (forall k2 r2, <[k := r']> fleet !! k2 = Some r2 -> es_inv r2) as Hfi'.
  { intros k2 r2. rewrite lookup_insert. case_decide; [by intros [= <-]|apply Hfi]. }
  assert (fleet_weight (<[k := r']> fleet) = fleet_weight fleet - xevent.status_weight (es_status r) + xevent.status_weight (es_status r')) as Hw
    by (apply (msum_update (fun r => xevent.status_weight (es_status r))); done).
  assert (fleet_alive (<[k := r']> fleet) = fleet_alive fleet - xevent.status_alive (es_status r) + xevent.status_alive (es_status r')) as Ha
    by (apply (msum_update (fun r => xevent.status_alive (es_status r))); done).
  destruct o as [e'|].
  - destruct HS as (H1 & H2 & H3 & _). pose proof (HandleEvent_account e' m w _ _ H3 Hacc) as HH.
    destruct (HandleEvent e' m w) as [m' w']. destruct HH as (_ & Hacc' & _).
    split; [|done]. simpl. rewrite Hw, Ha, <- H1, <- H2. exact Hacc'.
  - split; [|done]. simpl. rewrite Hw, Ha, HS. rewrite !Z.sub_add. exact Hacc.
Qed.

(** The account is exact for any reals that keep the contract of event
    sources, inhibited ones included: after any sequence of events the
    weight of the service is the sum of the weights of the enabled reals and
    the count is their number. *)
Theorem fleet_accounting (l : list (Z * key.Real * xevent.Event)) (fleet : gmap key.Real R) (m : Service) (w : World) :
  fleet_inv (fleet, m, w) -> fleet_ok l (fleet, m, w) ->
  let '(fleet', m', w') := for_each fleet_step l (fleet, m, w) in
  Weight (state m') = wrap64 (fleet_weight fleet') /\
  RealsAlive (state m') = wrap64 (fleet_alive fleet') /\ realsEnabled m' = fleet_alive fleet'.
Proof.
  intros Hinv Hok. assert (fleet_inv (for_each fleet_step l (fleet, m, w))) as Hf.
  { unfold for_each. revert Hinv Hok. generalize (fleet, m, w). induction l as [|x l IH]; intros s Hinv; simpl; [done|].
    intros [Hx Hl]. apply IH; [by apply fleet_step_inv|done]. }
  destruct (for_each fleet_step l (fleet, m, w)) as [[fleet' m'] w']. destruct Hf as [(H1 & H2 & H3) _]. done.
Qed.
End fleet.

(** ** The announcer hears of every change *)

Lemma HandleEvent_announces e m w applied current :
  SAnnounceGroup (config m) <> "" ->
  delta_inv (serviceEventRegistry (wannouncer w)) applied current ->
  current (skey m) = service_status_of (Alive (state m)) ->
  let '(m', w') := HandleEvent e m w in
  config m' = config m /\ skey m' = skey m /\
  delta_inv (serviceEventRegistry (wannouncer w')) applied
    (fupd current (skey m) (service_status_of (Alive (state m')))).
Proof.
  intros Hg Hd Hc. unfold HandleEvent.
  assert (forall m1, (processEvent e m).2 = m1 -> config m1 = config m /\ skey m1 = skey m /\ Alive (state m1) = Alive (state m)) as HPE.
  { intros m1 <-. unfold processEvent, processSucceed, processFailure.
    destruct e as [[] b nw [[] iw]]; done. }
  destruct (processEvent e m) as [e' m1]. destruct (HPE m1 eq_refl) as (K1 & K2 & K3). simpl.
  set (w1 := MkWorld _ _).
  pose proof (processAnnounce_spec m1 w1) as HA. destruct (processAnnounce m1 w1) as [m2 w2].
  destruct HA as ((S1 & S2 & _) & Ha & _ & Hw). split_and!; [congruence|congruence|].
  rewrite Hw, Ha, K1, K2, K3, bool_decide_eq_false_2, andb_true_r by done.
  destruct (next_alive m1) eqn:Hn, (Alive (state m)) eqn:Hal; simpl.
  - eapply delta_inv_ext; [|exact Hd]. intros k. unfold fupd. destruct (decide (skey m = k)) as [<-|]; [by rewrite Hc|done].
  - exact (delta_inv_Store (serviceEventRegistry (wannouncer w)) applied current (skey m) ServiceEnabled Hd
             ltac:(simpl; by rewrite Hc)).
  - exact (delta_inv_Store (serviceEventRegistry (wannouncer w)) applied current (skey m) ServiceDisabled Hd
             ltac:(simpl; by rewrite Hc)).
  - eapply delta_inv_ext; [|exact Hd]. intros k. unfold fupd. destruct (decide (skey m = k)) as [<-|]; [by rewrite Hc|done].
Qed.

(** A service with an announce group keeps the announcer informed.  Let
    the announcer know whether it is alive; after any sequence of events of
    its reals, the pending service events lead exactly to whether it is alive
    now, and to what they led to for every other service. *)
Theorem service_announces_itself (l : list xevent.Event) (m : Service) (w : World)
    (applied current : key.Service -> ServiceStatus) :
  SAnnounceGroup (config m) <> "" ->
  delta_inv (serviceEventRegistry (wannouncer w)) applied current ->
  current (skey m) = service_status_of (Alive (state m)) ->
  let '(m', w') := handleEvents l m w in
  delta_inv (serviceEventRegistry (wannouncer w')) applied
    (fupd current (skey m) (service_status_of (Alive (state m')))).
Proof.
  unfold handleEvents, for_each. revert m w current. induction l as [|e l IH]; intros m w current Hg Hd Hc; simpl.
  - eapply delta_inv_ext; [|exact Hd]. intros k. unfold fupd. case_decide as Hk; [|done]. by rewrite <- Hk, Hc.
  - pose proof (HandleEvent_announces e m w applied current Hg Hd Hc) as HH.
    destruct (HandleEvent e m w) as [m1 w1]. destruct HH as (K1 & K2 & Hd1).
    specialize (IH m1 w1 _ ltac:(by rewrite K1) Hd1).
    destruct (foldl _ (m1, w1) l) as [m2 w2].
    eapply delta_inv_ext; [|apply IH].
    + intros k. rewrite K2. unfold fupd. by case_decide.
    + rewrite K2. unfold fupd. by rewrite decide_True.
Qed.
End properties.

(** ** Configuration *)

Section configuration.
Lemma bytes_of_app a b : bytes_of (a +:+ b) = bytes_of a ++ bytes_of b.
Proof. unfold bytes_of. induction a as [|c a IH]; simpl; [done|]. by f_equal. Qed.

(** Printable ASCII without the space. *)
Definition solid (l : list Z) : Prop := Forall (fun b => 33 <= b <= 126) l.

Lemma strip_solid b l : 33 <= b <= 126 -> strip_first spaces (b :: l) = None.
Proof.
  intros Hb.
  assert (Forall (fun p => match p with h :: _ => h < 33 \/ 126 < h | [] => False end) spaces) as Hs
    by (repeat (constructor; [lia|]); constructor).
  revert Hs. generalize spaces. intros ps Hs. induction ps as [|p ps IH]; simpl; [done|].
  apply Forall_cons in Hs as [Hp Hs].
  destruct p as [|h p]; [done|]. simpl. destruct (Z.eqb_spec h b); [lia|]. by apply IH.
Qed.

Lemma fields_word core l cur fuel :
  solid core ->
  fields_loop (length core + fuel) (core ++ l) cur = fields_loop fuel l (cur ++ core).
Proof.
  intros Hc. revert cur. induction core as [|b core IH]; intros cur; [cbn; by rewrite app_nil_r|].
  apply Forall_cons in Hc as [Hb Hc]. cbn [length app Nat.add fields_loop]. rewrite strip_solid by done.
  rewrite IH by done. by rewrite <- app_assoc.
Qed.

Lemma fields_space cur l fuel :
  cur <> [] -> fields_loop (S fuel) (32 :: l) cur = cur :: fields_loop fuel l [].
Proof. intros Hc. cbn [fields_loop]. change (strip_first spaces (32 :: l)) with (Some l). cbv iota. by rewrite decide_False. Qed.

(** Three words separated by single spaces. *)
Lemma fields_three a b c :
  solid a -> solid b -> solid c -> a <> [] -> b <> [] -> c <> [] ->
  fields_loop (S (length (a ++ 32 :: b ++ 32 :: c))) (a ++ 32 :: b ++ 32 :: c) [] = [a; b; c].
Proof.
  intros Ha Hb Hc Ha0 Hb0 Hc0.
  replace (S (length (a ++ 32 :: b ++ 32 :: c))) with (length a + S (length b + S (length c + 1)))%nat
    by (rewrite length_app; simpl; rewrite length_app; simpl; lia).
  rewrite fields_word, fields_space by done. rewrite fields_word, fields_space by done.
  rewrite <- (app_nil_r c) at 2. rewrite fields_word by done. simpl. by rewrite decide_False.
Qed.

Fixpoint join (sep : Z) (ps : list (list Z)) : list Z :=
  match ps with
  | [] => []
  | [p] => p
  | p :: ps => p ++ sep :: join sep ps
  end.

Lemma split_part sep p l cur : ~ sep ∈ p -> split_loop sep (p ++ l) cur = split_loop sep l (cur ++ p).
Proof.
  revert cur. induction p as [|b p IH]; intros cur Hp; simpl; [by rewrite app_nil_r|].
  destruct (Z.eqb_spec b sep); [set_solver|]. rewrite IH by set_solver. by rewrite <- app_assoc.
Qed.

Lemma split_join sep ps : ps <> [] -> Forall (fun p => ~ sep ∈ p) ps -> split_loop sep (join sep ps) [] = ps.
Proof.
  intros Hne Hps. induction ps as [|p ps IH]; [done|]. apply Forall_cons in Hps as [Hp Hps].
  destruct ps as [|q ps]; [simpl; rewrite <- (app_nil_r p) at 1; by rewrite split_part|].
  change (join sep (p :: q :: ps)) with (p ++ sep :: join sep (q :: ps)).
  rewrite split_part by done. simpl. rewrite Z.eqb_refl. f_equal. by apply IH.
Qed.

Definition word (s : string) : Prop := solid (bytes_of s).
Definition part (s : string) : Prop := word s /\ ~ 44 ∈ bytes_of s.

Lemma quorum_handler_word : word quorum_handler.
Proof. unfold word, solid. apply (bool_decide_unpack _). vm_compute. exact I. Qed.

Fixpoint comma_list (ps : list string) : string :=
  match ps with
  | [] => ""
  | [p] => p
  | p :: ps => p +:+ "," +:+ comma_list ps
  end.

Lemma comma_list_bytes ps : bytes_of (comma_list ps) = join 44 (bytes_of <$> ps).
Proof.
  induction ps as [|p ps IH]; [done|]. destruct ps as [|q ps]; [done|].
  change (comma_list (p :: q :: ps)) with (p +:+ "," +:+ comma_list (q :: ps)).
  rewrite !bytes_of_app, IH. done.
Qed.

Lemma comma_list_solid ps : Forall part ps -> solid (bytes_of (comma_list ps)).
Proof.
  induction ps as [|p ps IH]; [constructor|]. intros [[Hp _] Hps]%Forall_cons.
  destruct ps as [|q ps]; [done|].
  change (comma_list (p :: q :: ps)) with (p +:+ "," +:+ comma_list (q :: ps)).
  rewrite !bytes_of_app. apply Forall_app. split; [done|]. apply Forall_app.
  split; [|by apply IH]. change (bytes_of ",") with [44]. apply Forall_cons. split; [lia|constructor].
Qed.

(** The announce group is read back from a quorum script written with the
    handler's name, one argument and a comma-separated list whose last but one
    element is the group. *)
Theorem announce_group_roundtrip (m : Config) (arg g tail : string) (before : list string) :
  word arg -> arg <> "" -> Forall part (before ++ [g; tail]) ->
  QuorumUp m = quorum_handler +:+ " " +:+ arg +:+ " " +:+ comma_list (before ++ [g; tail]) ->
  announceGroupFromQuorumScript m = Ok g.
Proof.
  intros Harg Hne Hps HQ. unfold announceGroupFromQuorumScript.
  rewrite decide_False by (by rewrite HQ).
  assert (Fields (QuorumUp m) = [quorum_handler; arg; comma_list (before ++ [g; tail])]) as ->.
  { unfold Fields. rewrite HQ, !bytes_of_app.
    change (bytes_of " " ++ bytes_of arg ++ bytes_of " " ++ bytes_of (comma_list (before ++ [g; tail])))
      with (32 :: bytes_of arg ++ 32 :: bytes_of (comma_list (before ++ [g; tail]))).
    rewrite fields_three.
    - cbn [fmap list_fmap]. by rewrite !of_bytes_bytes.
    - exact quorum_handler_word.
    - done.
    - by apply comma_list_solid.
    - done.
    - intros H. apply Hne. by destruct arg.
    - rewrite comma_list_bytes, fmap_app. simpl. by destruct before as [|p [|]]; simpl; intros [? ?]%app_eq_nil. }
  rewrite decide_False by (intros H; by apply H). cbv zeta.
  assert (SplitComma (comma_list (before ++ [g; tail])) = before ++ [g; tail]) as ->.
  { unfold SplitComma. rewrite comma_list_bytes, split_join.
    - rewrite <- list_fmap_compose. rewrite <- (list_fmap_id (before ++ [g; tail])) at 2.
      apply list_fmap_ext. intros _ s _. apply of_bytes_bytes.
    - by rewrite fmap_app; destruct before.
    - apply Forall_fmap. eapply Forall_impl; [exact Hps|]. by intros s [_ H]. }
  rewrite length_app. simpl.
  destruct (Nat.ltb_spec (length before + 2) 2); [lia|].
  rewrite app_nth2 by lia. by replace (length before + 2 - 2 - length before)%nat with 0%nat by lia.
Qed.

(** [Prepare] refuses a configuration exactly when it has no announce
    group and its quorum script is not the expected one; a configuration it
    accepts keeps its announce group, or takes the one of the script. *)
Theorem Prepare_announce_group `{UC : UnicodeCase} (m : Config) :
  match Prepare m with
  | Err e => SAnnounceGroup m = "" /\ announceGroupFromQuorumScript m = Err e
  | Ok m' =>
      (if decide (SAnnounceGroup m = "") then announceGroupFromQuorumScript m = Ok (SAnnounceGroup m')
       else SAnnounceGroup m' = SAnnounceGroup m) /\
      VIP m' = Addr_Unmap (VIP m) /\ Protocol m' = ToUpper (Protocol m) /\
      Real.Key <$> Reals m' = (fun r => key.MkReal (Addr_Unmap (IP r)) (RPort r)) <$> Reals m
  end.
Proof.
  unfold Prepare, validate. simpl.
  assert (forall c, Real.Key <$> ((fun r => Real.Prepare (propagate c r)) <$> Reals m) =
                    (fun r => key.MkReal (Addr_Unmap (IP r)) (RPort r)) <$> Reals m) as Hk.
  { intros c. rewrite <- list_fmap_compose. by apply list_fmap_ext. }
  destruct (decide (SAnnounceGroup m = "")) as [Hg|Hg]; simpl; [|by split_and!].
  unfold announceGroupFromQuorumScript at 1. simpl. fold (announceGroupFromQuorumScript m).
  change (if decide (QuorumUp m = "") then _ else _) with (announceGroupFromQuorumScript m).
  destruct (announceGroupFromQuorumScript m) as [g|e]; simpl; by split_and!.
Qed.
End configuration.

(** ** Concrete runs *)

Section concrete.
Definition world0 : World := MkWorld (Announcer.New config1) (NewBalancer true).

Definition svc_config (q h : Z) (group : string) (rs : list Real.Config) : Config :=
  MkConfig host1 80 "TCP" "wrr" "TUN" q h "" "" group None 0 false "" "" None sched0 rs.

(** Two reals, of ports 80 and 81; the first may be inhibited. *)
Definition other_config : Real.Config :=
  Real.MkConfig (AddrV4 1) 81 10 false None "TUN" sched0 [tcp 80] [] [] [].
Definition two_reals (inhibit : bool) : list Real.Config := [real_config inhibit [tcp 80; tcp 443]; other_config].
Definition rk1 : key.Real := key.MkReal (AddrV4 1) 80.
Definition rk2 : key.Real := key.MkReal (AddrV4 1) 81.

(** Both reals start and succeed. *)
Definition start (cfg : Config) : list svc_op :=
  [OpReloadService 0 cfg; OpActivate 0 rk1; OpActivate 0 rk2; OpReal 1 rk1 succeed; OpReal 1 rk2 succeed].
Definition started (cfg : Config) : Service * World := for_each do_svc (start cfg) (New cfg, world0).

(** The configuration of the witnesses: quorum 15, hysteresis 5. *)
Definition cfg1 : Config := svc_config 15 5 "a" (two_reals false).

Definition start_down : list svc_op := start cfg1 ++ [OpReal 2 rk2 fail].

Lemma start_ok : svc_ops_ok start_down (New cfg1, world0).
Proof. apply svc_ops_okb_ok. vm_compute. reflexivity. Qed.


Lemma Reload_reals_witness :
  let '(m, w) := for_each do_svc start_down (New cfg1, world0) in
  let '(m', w') := Reload 3 (svc_config 15 5 "a" [other_config]) m w in
  forall k, is_Some (reals m' !! k) <-> k = rk2.
Proof.
  assert (delta_inv (bevents (wbalancer world0)) all_down all_down) as Hd by (apply delta_inv_new).
  assert (forall k, key.BService k = Key cfg1 -> all_down k ≈ down) as Hb by (intros; split; reflexivity).
  destruct (do_svcs_inv all_down all_down start_down (New cfg1, world0) start_ok
              (svc_inv_New all_down all_down cfg1 world0 Hd Hb)) as [Hinv _].
  destruct (for_each do_svc start_down (New cfg1, world0)) as [m w] eqn:E.
  assert (Forall (fun c => InhibitOnFailure c = false) (Reals (svc_config 15 5 "a" [other_config]))) as Hi
    by (repeat constructor).
  assert (NoDup (Real.Key <$> Reals (svc_config 15 5 "a" [other_config]))) as Hn
    by (apply (bool_decide_unpack _); vm_compute; exact I).
  assert (shutdown m = false) as Hsh
    by (apply (f_equal (fun s => shutdown s.1)) in E; vm_compute in E; symmetry; exact E).
  pose proof (Reload_reals all_down all_down 3 (svc_config 15 5 "a" [other_config]) m w Hi Hn Hinv Hsh) as H.
  destruct (Reload 3 _ m w) as [m' w']. destruct H as (_ & _ & H & _).
  intros k. rewrite H. change (Real.Key <$> _) with [rk2]. apply list_elem_of_singleton.
Defined.

(** An inhibited real that starts, succeeds and fails. *)
Definition inhibited_fleet : gmap key.Real Real :=
  {[rk1 := (Real.Run 0 true (Real.New (real_config true [tcp 80]))).2]}.
Definition up_and_down : list (Z * key.Real * xevent.Event) := [(1, rk1, succeed); (2, rk1, fail)].

Definition real_okb (e : xevent.Event) (r : Real) : bool :=
  (bool_decide (xevent.EType e = xevent.Enable) || negb (xevent.SEnable (xevent.ENew e))) &&
  negb (bool_decide (xevent.EType e = xevent.Shutdown)).

Lemma real_okb_ok e r : real_okb e r = true -> es_ok e r.
Proof.
  unfold real_okb. intros [H1 H2]%andb_prop. split.
  - apply orb_prop in H1 as [H1|H1]; [left; by apply bool_decide_eq_true in H1|right]. by destruct (xevent.SEnable _).
  - intros (He & _). by rewrite bool_decide_eq_true_2 in H2.
Qed.

Lemma fleet_accounting_witness :
  fleet_inv (inhibited_fleet, New cfg1, world0) /\ fleet_ok up_and_down (inhibited_fleet, New cfg1, world0) /\
  let '(fleet, m, w) := for_each fleet_step up_and_down (inhibited_fleet, New cfg1, world0) in
  Weight (state m) = wrap64 (fleet_weight fleet) /\ realsEnabled m = 1.
Proof.
  assert (fleet_inv (inhibited_fleet, New cfg1, world0)) as Hinv.
  { split; [split_and!; vm_compute; reflexivity|]. 
    intros k r Hr. cbn [fst] in Hr. unfold inhibited_fleet in Hr. apply lookup_singleton_Some in Hr as [_ <-].
    intros Hi. vm_compute in Hi. discriminate. }
  assert (fleet_ok up_and_down (inhibited_fleet, New cfg1, world0)) as Hok
    by (apply (fleet_okb_ok real_okb); [exact real_okb_ok|vm_compute; reflexivity]).
  split; [exact Hinv|]. split; [exact Hok|].
  pose proof (fleet_accounting up_and_down inhibited_fleet (New cfg1) world0 Hinv Hok) as H.
  destruct (for_each fleet_step up_and_down _) as [[fleet m] w] eqn:E.
  destruct H as (H1 & _ & _). split; [exact H1|].
  apply (f_equal (fun s => realsEnabled s.1.2)) in E. vm_compute in E. symmetry. exact E.
Defined.

Definition all_disabled : key.Service -> ServiceStatus := fun _ => ServiceDisabled.

Lemma service_announces_itself_witness :
  let '(m, w) := handleEvents [up1; up2] (New cfg1) world0 in
  delta_inv (serviceEventRegistry (wannouncer w)) all_disabled
    (fupd all_disabled (Key cfg1) ServiceEnabled).
Proof.
  assert (SAnnounceGroup (config (New cfg1)) <> "") as Hg by (vm_compute; discriminate).
  assert (delta_inv (serviceEventRegistry (wannouncer world0)) all_disabled all_disabled) as Hd by (apply delta_inv_new).
  pose proof (service_announces_itself [up1; up2] (New cfg1) world0 all_disabled all_disabled Hg Hd eq_refl) as H.
  destruct (handleEvents [up1; up2] (New cfg1) world0) as [m w] eqn:E.
  assert (Alive (state m) = true) as Ha
    by (apply (f_equal (fun s => Alive (state s.1))) in E; vm_compute in E; symmetry; exact E).
  rewrite Ha in H. exact H.
Defined.

Lemma announce_group_roundtrip_witness :
  let script := "/etc/keepalived/quorum-handler2.sh up 10.0.0.1,b-100,1" in
  announceGroupFromQuorumScript (MkConfig host1 80 "TCP" "wrr" "TUN" 1 0 script "" "" None 0 false "" "" None sched0 []) =
  Ok "b-100".
Proof.
  cbv zeta. apply (announce_group_roundtrip _ "up" "b-100" "1" ["10.0.0.1"]).
  - apply (bool_decide_unpack _). vm_compute. exact I.
  - discriminate.
  - apply (bool_decide_unpack _). vm_compute. exact I.
  - reflexivity.
Defined.

(** With [InhibitOnFailure] the account of a service can go wrong.  A
    service of two healthy reals of weight 10 and quorum 10 loses the first, an
    inhibited real of two checkers, by a reload: its weight is taken off twice,
    and the service goes down although the real that stays has the weight of
    the quorum. *)
Theorem inhibited_stop_breaks_account :
  let cfg := svc_config 10 0 "a" (two_reals true) in
  let '(m, w) := started cfg in
  let '(m', w') := Reload 3 (svc_config 10 0 "a" [other_config]) m w in
  Weight (state m) = 20 /\ Alive (state m) = true /\
  Weight (state m') = 0 /\ Alive (state m') = false /\
  msize (reals m') = 1 /\ real_weight <$> reals m' !! rk2 = Some 10.
Proof. vm_compute. repeat split. Qed.

(** A service whose quorum and hysteresis add up to zero is enabled while
    none of its reals is: the test for the upper bound comes first. *)
Theorem zero_quorum_without_reals :
  let '(m, w) := Reload 0 (svc_config 0 0 "a" []) (New (svc_config 0 0 "a" [])) world0 in
  Weight (state m) = 0 /\ Alive (state m) = true.
Proof. vm_compute. repeat split. Qed.

(** A service that is alive and gets its first announce group by a reload
    is not reported to the announcer: events are registered when the service
    goes up or down only. *)
Theorem late_announce_group_not_registered :
  let '(m, w) := started (svc_config 10 0 "" (two_reals false)) in
  let '(m', w') := Reload 3 (svc_config 10 0 "a" (two_reals false)) m w in
  Alive (state m') = true /\ SAnnounceGroup (config m') = "a" /\
  events (serviceEventRegistry (wannouncer w')) = ∅.
Proof. vm_compute. repeat split. Qed.
End concrete.
