(* ===== verification/Activation.v ===== *)
(** * The activation of a real

    Before a real starts its checkers it waits until the load balancer knows it:
    [waitActivation] of [internal/core/real/real.go] with its listening goroutine,
    the activation function of [internal/core/service/service.go], and the goroutine
    of [LookupSubscription] of [internal/balancer/balancer.go], as the steps of a
    relation.  What the real does when it is activated is in [Real] and
    [Lifetime]. *)

From stdpp Require Import strings numbers gmap sets list relations.
From S2P Require Import Prelude.
From S2P Require Import Types.
From S2P Require Import Balancer.
From S2P Require Import Service.

Open Scope Z_scope.

Section activation.
Context `{MR : MapRange} (key : key.Balancer).

(** The goroutine of [waitActivation], in the activation function: before
    [LookupSubscription], in the [select], and behind it. *)
Inductive call_at :=
| Calling
| Selecting
| Answered (activated : bool)
| Returned (activated : bool).

(** The goroutine that listens to the shutdown of the real. *)
Inductive listen_at := Listening | ListenEnded.

Record Activation := MkActivation {
  bal : Balancer;
  call : call_at;
  listener : listen_at;
  sub : Subscription;      (* the goroutine of the subscription; [SubNone] before it is started *)
  stopped : bool;          (* the shutdown of the real *)
  ctx : bool;              (* the context passed to the activation function is cancelled *)
}.

(** A real that was given an activation function, as all are when the balancer
    supports the load balancer's state; without one it does not wait. *)
Definition waiting (b : Balancer) : Activation := MkActivation b Calling Listening SubNone false false.

Inductive own : Activation -> Activation -> Prop :=
| call_unsubscribed b l st c :
    LookupSubscription key b = SubNone ->
    own (MkActivation b Calling l SubNone st c) (MkActivation b (Answered true) l SubNone st c)
| call_subscribes b l st c :
    LookupSubscription key b = SubEntering ->
    own (MkActivation b Calling l SubNone st c) (MkActivation b Selecting l SubEntering st c)
| call_cancelled b l s st :
    own (MkActivation b Selecting l s st true) (MkActivation b (Answered false) l s st true)
| call_told a b l s st c :
    activated s = Some a -> own (MkActivation b Selecting l s st c) (MkActivation b (Answered a) l s st c)
| call_returns a b l s st c :
    own (MkActivation b (Answered a) l s st c) (MkActivation b (Returned a) l s st true)
| listen_done b r s st :
    own (MkActivation b r Listening s st true) (MkActivation b r ListenEnded s st true)
| listen_cancels b r s c :
    own (MkActivation b r Listening s true c) (MkActivation b r ListenEnded s true true)
| sub_enters state b r l st c :
    bstate b = Some state ->
    own (MkActivation b r l SubEntering st c) (MkActivation b r l (SubWaiting (Subscribe state)) st c)
| sub_finds ch state b r l st c :
    bstate b = Some state -> closed ch state = true -> Lookup key state = true ->
    own (MkActivation b r l (SubWaiting ch) st c) (MkActivation b r l SubNotified st c)
| sub_misses ch state b r l st c :
    bstate b = Some state -> closed ch state = true -> Lookup key state = false ->
    own (MkActivation b r l (SubWaiting ch) st c) (MkActivation b r l SubEntering st c)
| sub_cancelled ch b r l st c :
    bshutdown b || c = true ->
    own (MkActivation b r l (SubWaiting ch) st c) (MkActivation b r l SubCancelled st c).

(** The balancer reads the state of the load balancer, or is stopped; the real is
    stopped. *)
Inductive env : Activation -> Activation -> Prop :=
| state_updated new b r l s st c :
    env (MkActivation b r l s st c) (MkActivation (stater_tick (E := unit) (Ok new) b) r l s st c)
| balancer_stops b r l s st c :
    env (MkActivation b r l s st c) (MkActivation (StopBalancer b) r l s st c)
| real_stops b r l s st c :
    env (MkActivation b r l s st c) (MkActivation b r l s true c).

Definition reach (b : Balancer) (p : Activation) : Prop := rtc (either own env) (waiting b) p.

(** ** What holds of every run *)

Definition returned (r : call_at) : bool := match r with Returned _ => true | _ => false end.

(** Somebody has asked for the end. *)
Definition released (p : Activation) : bool := stopped p || bshutdown (bal p).

(** The goroutine of the subscription is in its loop. *)
Definition subscribed (s : Subscription) : bool := match s with SubEntering | SubWaiting _ => true | _ => false end.

Definition call_ok (r : call_at) (s : Subscription) (c rel : bool) : Prop :=
  match r with
  | Calling => s = SubNone
  | Selecting => s <> SubNone
  | Answered true => s = SubNone \/ s = SubNotified
  | Answered false => rel = true
  | Returned true => c = true /\ (s = SubNone \/ s = SubNotified)
  | Returned false => c = true /\ rel = true
  end.

Definition sub_ok (b : Balancer) (s : Subscription) (rel : bool) : Prop :=
  match s with
  | SubEntering => is_Some (bstate b)
  | SubWaiting ch => exists state, bstate b = Some state /\ (ch <= notify state)%nat
  | SubCancelled => rel = true
  | _ => True
  end.

Definition inv (p : Activation) : Prop :=
  (ctx p = true -> stopped p = true \/ returned (call p) = true) /\
  (listener p = ListenEnded -> ctx p = true) /\
  call_ok (call p) (sub p) (ctx p) (released p) /\
  sub_ok (bal p) (sub p) (released p).

Lemma call_ok_sub r s s' c rel : call_ok r s c rel -> subscribed s = true -> s' <> SubNone -> call_ok r s' c rel.
Proof. destruct r as [| |[]|[]]; cbn; intros H Hs Hs'; intuition (subst; done). Qed.

Lemma call_ok_mono r s c c' rel rel' :
  (c = true -> c' = true) -> (rel = true -> rel' = true) -> call_ok r s c rel -> call_ok r s c' rel'.
Proof. destruct r as [| |[]|[]]; cbn; intuition. Qed.

Lemma sub_ok_mono b s rel rel' : (rel = true -> rel' = true) -> sub_ok b s rel -> sub_ok b s rel'.
Proof. destruct s; cbn; auto. Qed.

Lemma wait_own_inv p q : own p q -> inv p -> inv q.
Proof.
  unfold inv, released. intros Hs.
  destruct Hs as [| | |a b l s st c Ha|[] b l s st c| | |state b r l st c Hb|ch state b r l st c Hb|ch state b r l st c Hb|ch b r l st c Hc];
    cbn -[call_ok]; intros (Hctx & Hli & Hca & Hsu); subst; split_and!; try done; try (by intuition).
  - by left.
  - unfold LookupSubscription in *. destruct (bstate b); [done|discriminate].
  - cbn. destruct Hctx as [->|?]; done.
  - destruct a, s; simplify_eq/=; auto.
  - revert Hca. by apply call_ok_mono.
  - by eapply call_ok_sub.
  - cbn. exists state. split; [done|]. unfold Subscribe. lia.
  - by eapply call_ok_sub.
  - by eapply call_ok_sub.
  - by eapply call_ok_sub.
  - cbn. destruct (bshutdown b); [by rewrite orb_true_r|]. cbn in Hc. subst c. destruct (Hctx eq_refl) as [->|Hr]; [done|].
    destruct r as [| | |[]]; try done; cbn in Hca; [by destruct Hca as [_ [?|?]]|by destruct Hca].
Qed.

Lemma wait_env_inv p q : env p q -> inv p -> inv q.
Proof.
  unfold inv, released. intros Hs.
  destruct Hs as [new b r l s st c| |]; cbn -[call_ok]; intros (Hctx & Hli & Hca & Hsu); split_and!; try done; try (by intuition).
  - destruct s; cbn in *; try done; [destruct Hsu as [state ->]; cbn; eauto|].
    destruct Hsu as (state & -> & ?). exists (State_Update new state). split; [done|]. cbn. lia.
  - revert Hca. apply call_ok_mono; [done|]. intros ?. apply orb_true_r.
  - destruct s; cbn in *; rewrite ?orb_true_r; done.
  - revert Hca. by apply call_ok_mono.
  - revert Hsu. by apply sub_ok_mono.
Qed.

Lemma waiting_inv b : inv (waiting b).
Proof. by split_and!. Qed.

Lemma wait_reach_inv b p : reach b p -> inv p.
Proof. intros Hr. apply (either_inv own env inv (waiting b) p); eauto using wait_own_inv, wait_env_inv, waiting_inv. Qed.

Lemma wait_steps_inv p q : rtc (either own env) p q -> inv p -> inv q.
Proof. apply either_inv; eauto using wait_own_inv, wait_env_inv. Qed.

(** ** A real that is stopped is not waited for *)

Definition call_left (r : call_at) : nat := match r with Calling => 5 | Selecting => 2 | Answered _ => 1 | Returned _ => 0 end.

Definition sub_left (b : Balancer) (s : Subscription) : nat :=
  match s with
  | SubEntering => 2
  | SubWaiting ch => if from_option (closed ch) false (bstate b) then 3 else 1
  | _ => 0
  end.

Definition left (p : Activation) : nat :=
  (call_left (call p) + sub_left (bal p) (sub p) + match listener p with Listening => 1 | ListenEnded => 0 end)%nat.

Lemma closed_current state : closed (Subscribe state) state = false.
Proof. apply Nat.ltb_irrefl. Qed.

Lemma wait_own_left p q : own p q -> (left q < left p)%nat.
Proof.
  destruct 1 as [| | |a b l s st c Ha|[] b l s st c| | |state b r l st c Hb|ch state b r l st c Hb Hc|ch state b r l st c Hb Hc|ch b r l st c Hc];
    unfold left; cbn [call sub bal listener call_left sub_left]; try lia.
  - rewrite Hb. cbn [from_option]. rewrite closed_current. lia.
  - rewrite Hb. cbn [from_option]. rewrite Hc. lia.
  - rewrite Hb. cbn [from_option]. rewrite Hc. lia.
  - destruct (from_option _ _ _); lia.
Qed.

Lemma wait_env_left p q : env p q -> (left q <= left p + 2)%nat.
Proof. destruct 1 as [new b r l s st c| |]; unfold left; destruct s; cbn; repeat case_match; lia. Qed.

Lemma stuck_returned p :
  inv p -> released p = true \/ (exists a, call p = Answered a \/ call p = Returned a) -> (forall q, ~ own p q) ->
  returned (call p) = true /\ listener p = ListenEnded /\ subscribed (sub p) = false.
Proof.
  destruct p as [b r l s st c]. unfold inv, released. cbn -[call_ok]. intros (Hctx & Hli & Hca & Hsu) Hor Hn.
  assert (forall a, r <> Answered a) as Hna by (intros a ->; eapply Hn, call_returns).
  assert (l = Listening -> st = false /\ c = false) as Hl.
  { intros ->. destruct c; [exfalso; eapply Hn, listen_done|]. destruct st; [exfalso; eapply Hn, listen_cancels|done]. }
  assert (s <> SubEntering) as He by (intros ->; destruct Hsu as [state Hs]; eapply Hn, sub_enters; done).
  assert (forall ch, s = SubWaiting ch -> bshutdown b = false /\ c = false) as Hw.
  { intros ch ->. destruct (bshutdown b || c) eqn:Hb; [exfalso; eapply Hn, sub_cancelled; done|by apply orb_false_iff]. }
  assert (r <> Calling) as Hc1.
  { intros ->. cbn in Hca. subst s. destruct (LookupSubscription key b) eqn:E;
      [eapply Hn, call_unsubscribed; done|eapply Hn, call_subscribes; done|..];
      unfold LookupSubscription in E; destruct (bstate b); try discriminate; by case_match. }
  assert (r <> Selecting) as Hc2.
  { intros ->. cbn in Hca. destruct s as [| |ch| |]; try done; [|eapply Hn; by eapply (call_told true)|eapply Hn; by eapply (call_told false)].
    destruct (Hw ch eq_refl) as [Hb ->]. rewrite Hb, orb_false_r in Hor. destruct Hor as [->|(a & [?|?])]; try done.
    destruct l; [by destruct (Hl eq_refl)|]. by specialize (Hli eq_refl). }
  destruct r as [| |a|a]; try done; [by destruct (Hna a)|].
  assert (c = true) as -> by (destruct a; by destruct Hca).
  split; [done|]. split; [destruct l; [by destruct (Hl eq_refl)|done]|]. destruct s as [| |ch| |]; try done. by destruct (Hw ch eq_refl).
Qed.

(** C37: when the real or the balancer is stopped, or the question is answered, the
    wait ends, whatever the order of the steps: they are bounded by the number of
    updates of the state meanwhile, and where none is left the wait has returned
    and neither of its two goroutines is left behind. *)
Theorem activation_ends (b : Balancer) (p q : Activation) (n e : nat) :
  reach b p -> released p = true \/ (exists a, call p = Answered a \/ call p = Returned a) ->
  takes own env n e p q ->
  (n <= 6 + 2 * e)%nat /\
  ((forall q', ~ own q q') ->
   returned (call q) = true /\ listener q = ListenEnded /\ subscribed (sub q) = false).
Proof.
  intros Hr Hor Hpq. pose proof (wait_reach_inv _ _ Hr) as Hi. split.
  - pose proof (takes_bound own env left 2 n e p q wait_own_left wait_env_left Hpq) as Hb.
    assert (left p <= 6)%nat; [|lia]. destruct Hi as (_ & _ & Hca & _). unfold left.
    destruct (call p) as [| |[]|[]], (listener p); cbn in *; rewrite ?Hca; cbn; try lia;
      unfold sub_left; repeat case_match; lia.
  - pose proof (takes_either _ _ _ _ _ _ Hpq) as Hrtc. apply stuck_returned; [by apply (wait_steps_inv p q)|].
    revert Hor. apply (either_inv own env (fun p => released p = true \/ exists a, call p = Answered a \/ call p = Returned a) p q); [..|done].
    + unfold released. destruct 1; cbn; intros [?|(x & [?|?])]; simplify_eq; eauto.
    + unfold released. destruct 1; cbn; rewrite ?orb_true_r; auto.
Qed.

(** ** What the answer means *)

(** The load balancer has the real, or does not tell. *)
Definition known (p : Activation) : Prop :=
  match bstate (bal p) with None => True | Some state => Lookup key state = true end.

Definition positive (p : Activation) : Prop :=
  call p = Answered true \/ call p = Returned true \/ sub p = SubNotified.

Lemma positive_own p q : inv p -> own p q -> positive q -> positive p \/ known p.
Proof.
  unfold positive, known. intros Hi Hs.
  destruct Hs as [b l st c H| | |a b l s st c Ha|a b l s st c| | | | | |]; cbn; intros Hq; try (left; by intuition congruence).
  - right. unfold LookupSubscription in H. destruct (bstate b) as [state|]; [|done]. by destruct (Lookup key state).
  - left. destruct Hi as (_ & _ & Hca & _). cbn in Hca. destruct Hq as [[= ->]|[?|?]]; try done; [|by auto]. destruct s; try done; auto.
  - right. by rewrite H.
Qed.

Lemma positive_env p q : env p q -> positive q -> positive p.
Proof. unfold positive. by destruct 1. Qed.

(** The wait is over with a yes only if, at some moment since it began, the
    state of the load balancer had the real (or no state is kept), and with a no
    only if the real or the balancer has been stopped. *)
Theorem activation_answers (b : Balancer) (p : Activation) (a : bool) :
  reach b p -> call p = Returned a ->
  if a then exists q, reach b q /\ rtc (either own env) q p /\ known q else released p = true.
Proof.
  intros Hr Hc. destruct a.
  - assert (positive p) as Hp by (right; by left). clear Hc. unfold reach in Hr. revert Hr Hp.
    revert p. apply (rtc_ind_r (fun p => positive p -> exists q, reach b q /\ rtc (either own env) q p /\ known q));
      [by intros [?|[?|?]]|]. intros y z Hy Hs IH Hp.
    assert (positive y \/ known y) as [Hpy|Hk].
    { destruct Hs as [Ho|He]; [|left; by eapply positive_env]. eapply positive_own; [|done..]. by apply (wait_reach_inv b). }
    + destruct (IH Hpy) as (q & Hq & Hqy & Hk). exists q. split; [done|]. split; [|done]. etrans; [done|]. by apply rtc_once.
    + exists y. split; [done|]. split; [by apply rtc_once|done].
  - destruct (wait_reach_inv _ _ Hr) as (_ & _ & Hca & _). rewrite Hc in Hca. by destruct Hca.
Qed.

(** ** A real that appears is activated *)

(** The goroutines move, or the state is updated and still has the real. *)
Definition stays (p q : Activation) : Prop := own p q \/ (env p q /\ known q /\ released q = false).

(** The subscription has been told, or is about to look. *)
Definition appears (p : Activation) : Prop :=
  released p = false /\ ctx p = returned (call p) /\
  (exists state, bstate (bal p) = Some state /\ Lookup key state = true /\
     match sub p with SubWaiting ch => closed ch state = true | SubNotified => True | _ => False end) /\
  (call p = Selecting \/ (sub p = SubNotified /\ (call p = Answered true \/ call p = Returned true))).

Lemma own_appears p q : own p q -> appears p -> appears q.
Proof.
  unfold appears, released. intros Hs.
  destruct Hs as [| | |a b l s st c Ha|a b l s st c| | | |ch state b r l st c Hb|ch state b r l st c Hb Hc Hlo|ch b r l st c Hb]; cbn;
    intros (Hr & Hx & (st' & Hst & Hl & Hsu) & Hca); subst; simplify_eq/=; try (by intuition).
  - destruct s; simplify_eq/=; try done. split_and!; eauto 6.
  - split_and!; try done; eauto. right. by destruct Hca as [?|[? [[= ->]|?]]]; auto.
  - split_and!; try done; eauto.
  - split_and!; try done; eauto. left. by destruct Hca as [?|[? ?]].
  - congruence.
  - destruct (bshutdown b); [by rewrite orb_true_r in Hr|]. cbn in Hb. destruct r; try done; destruct Hca as [?|[? ?]]; done.
Qed.

Lemma closed_le ch state : closed ch state = true -> (ch <= notify state)%nat.
Proof. intros H%Nat.ltb_lt. lia. Qed.

Lemma closed_after ch state new : (ch <= notify state)%nat -> closed ch (State_Update new state) = true.
Proof. intros H. apply Nat.ltb_lt. simpl. lia. Qed.

#[local] Arguments closed : simpl never.

Lemma env_appears p q : env p q -> known q -> released q = false -> appears p -> appears q.
Proof.
  unfold appears, known, released. destruct 1 as [new b r l s st c| |]; cbn; intros Hk Hr (_ & Hx & (st' & Hst & Hl & Hsu) & Hca).
  - rewrite Hst in *. cbn in *. split_and!; try done. exists (State_Update new st'). split_and!; try done.
    destruct s as [| |ch| |]; try done. by apply closed_after, closed_le.
  - by rewrite orb_true_r in Hr.
  - done.
Qed.

Lemma stays_appears p q : rtc stays p q -> appears p -> appears q.
Proof. induction 1 as [|x y z [Ho|(He & Hk & Hr)] _ IH]; eauto using own_appears, env_appears. Qed.

(** C38: a real that waits is activated by the first update of the state that has
    it: as long as later updates keep it and nobody stops, every end of the steps
    is the wait's return with a yes. *)
Theorem update_activates (b : Balancer) (p q : Activation) (ch : nat) (new : gmap string services_) :
  reach b p -> sub p = SubWaiting ch -> call p = Selecting -> released p = false ->
  let p' := MkActivation (stater_tick (E := unit) (Ok new) (bal p)) (call p) (listener p) (sub p) (stopped p) (ctx p) in
  known p' -> rtc stays p' q -> (forall q', ~ own q q') ->
  call q = Returned true.
Proof.
  intros Hr Hs Hc Hre p' Hk Hq Hn.
  assert (appears p') as Hp.
  { destruct p as [b' r l s st c]. cbn in Hs, Hc. subst s r. unfold p', known, appears, released in *. cbn in *.
    destruct (wait_reach_inv _ _ Hr) as (Hctx & _ & _ & (state & Hst & Hch)). cbn in *. rewrite Hst in *. cbn in *.
    split_and!; [done| |exists (State_Update new state); split_and!; [done|done|by apply closed_after]|by left].
    destruct c; [|done]. destruct (Hctx eq_refl) as [->|?]; done. }
  assert (appears q) as (H1 & H2 & (state & Hst & Hl & Hsu) & Hca).
  { by apply (stays_appears p' q). }
  destruct q as [b' r l s st c]; cbn in *. destruct Hca as [->|[-> [->| ->]]]; [|exfalso; eapply Hn, call_returns|done].
  exfalso. destruct s as [| |ch'| |]; try done; [by eapply Hn, sub_finds|by eapply Hn, (call_told true)].
Qed.
End activation.

(** ** Concrete runs *)

Section concrete.
Local Tactic Notation "run_step" uconstr(c) := eapply rtc_l; [left; eapply c; first [done|vm_compute; reflexivity]|].
Local Tactic Notation "own_step" uconstr(c) := eapply takes_own; [eapply c; first [done|vm_compute; reflexivity]|].

(** The wait for [real1]: it has subscribed; the state has the real; it was
    stopped instead. *)
Definition asking (st : bool) : Activation := MkActivation (NewBalancer true) Selecting Listening (SubWaiting 0) st false.
Definition told : Balancer := stater_tick (E := unit) (Ok one_real) (NewBalancer true).
Definition told_ : Activation := MkActivation told Selecting Listening (SubWaiting 0) false false.
Definition active : Activation := MkActivation told (Returned true) ListenEnded SubNotified false true.
Definition refused : Activation := MkActivation (NewBalancer true) (Returned false) ListenEnded SubCancelled true true.

Lemma asking_reachable : reach real1 (NewBalancer true) (asking false).
Proof. unfold reach, waiting. run_step call_subscribes. run_step sub_enters. apply rtc_refl. Qed.

Lemma stopped_reachable : reach real1 (NewBalancer true) (asking true).
Proof. eapply rtc_r; [apply asking_reachable|]. right. apply real_stops. Qed.

Lemma has_real1 : Lookup real1 (State_Update one_real NewState) = true.
Proof. vm_compute. reflexivity. Qed.

Lemma told_activates : rtc (stays real1) told_ active.
Proof.
  unfold told_. eapply rtc_l; [left; apply (sub_finds _ 0 (State_Update one_real NewState)); [done|done|apply has_real1]|].
  eapply rtc_l; [left; by eapply (call_told _ true)|]. eapply rtc_l; [left; eapply call_returns|].
  eapply rtc_l; [left; eapply listen_done|]. apply rtc_refl.
Qed.

Lemma active_stuck q : ~ own real1 active q.
Proof. intros H. unfold active in H. inversion H; subst; discriminate. Qed.

Lemma update_activates_witness : call active = Returned true.
Proof.
  exact (update_activates real1 (NewBalancer true) (asking false) active 0 one_real asking_reachable eq_refl eq_refl eq_refl
    ltac:(vm_compute; reflexivity) told_activates active_stuck).
Defined.

Lemma active_reachable : reach real1 (NewBalancer true) active.
Proof.
  unfold reach. etrans; [apply asking_reachable|]. eapply rtc_l; [right; apply (state_updated one_real)|].
  apply (rtc_subrel (stays real1)); [intros x y [H|[H _]]; [by left|by right]|apply told_activates].
Qed.

Lemma activation_answers_witness : exists q, reach real1 (NewBalancer true) q /\ known real1 q.
Proof.
  destruct (activation_answers real1 (NewBalancer true) active true active_reachable eq_refl) as (q & Hq & _ & Hk).
  exists q. split; [exact Hq|exact Hk].
Defined.

Lemma refused_ends : takes (own real1) env 4 0 (asking true) refused.
Proof.
  unfold asking. own_step listen_cancels. own_step sub_cancelled. own_step (call_told _ false). own_step call_returns. apply takes_nothing.
Qed.

Lemma activation_ends_witness : (4 <= 6 + 2 * 0)%nat /\ returned (call refused) = true.
Proof.
  destruct (activation_ends real1 (NewBalancer true) (asking true) refused 4 0 stopped_reachable (or_introl eq_refl) refused_ends) as [H1 H2].
  split; [exact H1|]. apply H2. intros q Hq. unfold refused in Hq. inversion Hq; subst; discriminate.
Defined.
End concrete.
