(* ===== verification/Interleaving.v ===== *)
(** * Handlers that interleave

    The handlers of [internal/core/real/handler.go] and
    [internal/core/service/handler.go] run in the goroutines of the checkers.  A
    real locks its state while it judges an event, and the service locks its
    account, but the way from one to the other, to the balancer and to the
    announcer is not locked.  Here an event on its way is a thread, and an
    action moves one thread to its next lock.  The account holds whatever the
    order; what the balancer and the announcer are told needs more. *)

From Stdlib Require Import SpecFloat.
From stdpp Require Import strings numbers gmap sets list.
From S2P Require Import Prelude.
From S2P Require Import Types.
From S2P Require Import Registry.
From S2P Require Import Utils.
From S2P Require Import Prefixes.
From S2P Require Import Announcer.
From S2P Require Import Balancer.
From S2P Require Import Scheduler.
From S2P Require Import Check.
From S2P Require Import Text.
From S2P Require Import Checker.
From S2P Require Import Real.
From S2P Require Import Service.

Open Scope Z_scope.
Open Scope go_scope.

(** ** Threads *)

(** Where an event is. *)
Inductive thread :=
| Handling (now : Z) (k : key.Real) (e : xevent.Event)   (* before the real's lock *)
| Passing (e : xevent.Event)         (* before the service's lock, in [processEvent] *)
| Storing (e : xevent.Event)         (* before the lock of the balancer's registry *)
| Updating                           (* before [quorumState] reads the weight *)
| Deciding (q : quorum)              (* before the alive flag is looked at and set *)
| Reading                            (* it has changed; before it is read again *)
| Registering (st : ServiceStatus).  (* before the lock of the service events' registry *)

Section interleaving.
Context {R : Type} `{ES : EventSource R}.

(** One action of a thread; [None] when it has returned. *)
Definition advance (t : thread) (fleet : gmap key.Real R) (m : Service) (w : World) :
    option thread * gmap key.Real R * Service * World :=
  match t with
  | Handling now k e =>
      match fleet !! k with
      | None => (None, fleet, m, w)
      | Some r => let '(o, r) := es_handle now e r in (Passing <$> o, <[k := r]> fleet, m, w)
      end
  | Passing e => let '(e, m) := processEvent e m in (Some (Storing e), fleet, m, w)
  | Storing e => (Some Updating, fleet, m, MkWorld (wannouncer w) (Balancer.HandleEvent e (wbalancer w)))
  | Updating => (Some (Deciding (quorumState m)), fleet, m, w)
  | Deciding q =>
      let '(announceChanged, m) :=
        match q with
        | quorumUp => enableService m
        | quorumDown => disableService m
        | quorumHold => (false, m)
        end in
      (if announceChanged && negb (bool_decide (SAnnounceGroup (config m) = "")) then Some Reading else None, fleet, m, w)
  | Reading => (Some (Registering (service_status_of (Alive (state m)))), fleet, m, w)
  | Registering st => (None, fleet, m, MkWorld (RegisterServiceEvent (skey m) st (wannouncer w)) (wbalancer w))
  end.

(** The reals of a service, the service, and the events on their way. *)
Record Conc := MkConc {
  fleet : gmap key.Real R;
  svc : Service;
  cworld : World;
  threads : list thread;
}.

(** A checker reports, or thread [i] moves. *)
Inductive action := Arrive (now : Z) (k : key.Real) (e : xevent.Event) | Advance (i : nat).

Definition act (a : action) (c : Conc) : Conc :=
  match a with
  | Arrive now k e => MkConc (fleet c) (svc c) (cworld c) (threads c ++ [Handling now k e])
  | Advance i =>
      match threads c !! i with
      | None => c
      | Some t =>
          let '(o, f, m, w) := advance t (fleet c) (svc c) (cworld c) in
          MkConc f m w (take i (threads c) ++ option_list o ++ drop (S i) (threads c))
      end
  end.

Definition run (l : list action) (c : Conc) : Conc := for_each act l c.

Lemma run_cons a l c : run (a :: l) c = run l (act a c).
Proof. done. Qed.

Lemma act_alone t f m w :
  act (Advance 0) (MkConc f m w [t]) =
  let '(o, f', m', w') := advance t f m w in MkConc f' m' w' (option_list o).
Proof. cbn. by destruct (advance t f m w) as [[[[t'|] f'] m'] w']. Qed.

Lemma run_none n f m w : run (replicate n (Advance 0)) (MkConc f m w []) = MkConc f m w [].
Proof. induction n as [|n IH]; [done|exact IH]. Qed.

Lemma run_alone n t f m w :
  run (replicate (S n) (Advance 0)) (MkConc f m w [t]) =
  let '(o, f', m', w') := advance t f m w in run (replicate n (Advance 0)) (MkConc f' m' w' (option_list o)).
Proof. change (replicate (S n) (Advance 0)) with (Advance 0 :: replicate n (Advance 0)). rewrite run_cons, act_alone.
  by destruct (advance t f m w) as [[[o f'] m'] w']. Qed.

Lemma announces_alone f m w :
  run (replicate 4 (Advance 0)) (MkConc f m w [Updating]) =
  let '(m', w') := processAnnounce m w in MkConc f m' w' [].
Proof.
  rewrite run_alone. cbn [advance option_list option_rect]. rewrite run_alone. unfold processAnnounce, updateAnnounce. cbn [advance].
  destruct (match quorumState m with quorumHold => _ | quorumUp => _ | quorumDown => _ end) as [changed m'].
  destruct (changed && negb _); cbn [option_list option_rect]; [|by rewrite run_none].
  rewrite run_alone. cbn [advance option_list option_rect]. by rewrite run_alone.
Qed.


(** A condition on every action of a run, in the state it is taken in. *)
Fixpoint along (P : action -> Conc -> Prop) (l : list action) (c : Conc) : Prop :=
  match l with
  | [] => True
  | a :: l => P a c /\ along P l (act a c)
  end.

Fixpoint alongb (P : action -> Conc -> bool) (l : list action) (c : Conc) : bool :=
  match l with
  | [] => true
  | a :: l => P a c && alongb P l (act a c)
  end.

Lemma alongb_along (P : action -> Conc -> bool) (Q : action -> Conc -> Prop) l c :
  (forall a c, P a c = true -> Q a c) -> alongb P l c = true -> along Q l c.
Proof.
  intros HPQ. revert c. induction l as [|a l IH]; intros c; cbn; [done|].
  intros [H1 H2]%andb_prop. split; [by apply HPQ|by apply IH].
Qed.

Lemma along_inv (P : action -> Conc -> Prop) (I : Conc -> Prop) l c :
  (forall a c, P a c -> I c -> I (act a c)) -> along P l c -> I c -> I (run l c).
Proof.
  intros Hstep. revert c. induction l as [|a l IH]; intros c; [done|].
  intros [H1 H2] HI. rewrite run_cons. apply IH; [done|by apply Hstep].
Qed.

(** An invariant in which the threads have no order. *)
Definition holds (I : gmap key.Real R -> Service -> World -> list thread -> Prop) (c : Conc) : Prop :=
  I (fleet c) (svc c) (cworld c) (threads c).

Lemma act_lift (I : gmap key.Real R -> Service -> World -> list thread -> Prop) a c :
  (forall f m w l l', l ≡ₚ l' -> I f m w l -> I f m w l') ->
  match a with
  | Arrive now k e => I (fleet c) (svc c) (cworld c) (threads c) -> I (fleet c) (svc c) (cworld c) (Handling now k e :: threads c)
  | Advance i =>
      forall t l, threads c !! i = Some t -> threads c ≡ₚ t :: l -> I (fleet c) (svc c) (cworld c) (t :: l) ->
      let '(o, f, m, w) := advance t (fleet c) (svc c) (cworld c) in I f m w (option_list o ++ l)
  end ->
  holds I c -> holds I (act a c).
Proof.
  unfold holds. intros Hperm Hstep HI. destruct a as [now k e|i]; cbn [act].
  - eapply Hperm; [apply Permutation_cons_append|]. by apply Hstep.
  - destruct (threads c !! i) as [t|] eqn:Ht; [|done].
    assert (threads c ≡ₚ t :: take i (threads c) ++ drop (S i) (threads c)) as Hp
      by (rewrite <- (take_drop_middle _ _ _ Ht) at 1; by rewrite <- Permutation_middle).
    specialize (Hstep t _ eq_refl Hp (Hperm _ _ _ _ _ Hp HI)).
    destruct (advance t _ _ _) as [[[o f'] m'] w']. cbn [fleet svc cworld threads].
    eapply Hperm; [|exact Hstep]. by rewrite Permutation_app_swap_app.
Qed.

(** A real is only told of events it can handle. *)
Definition handles (a : action) (c : Conc) : Prop :=
  match a with
  | Advance i =>
      match threads c !! i with
      | Some (Handling _ k e) => forall r, fleet c !! k = Some r -> es_ok e r
      | _ => True
      end
  | Arrive _ _ _ => True
  end.

(** ** The account *)

Fixpoint lsum (f : thread -> Z) (l : list thread) : Z :=
  match l with
  | [] => 0
  | t :: l => f t + lsum f l
  end.

Lemma lsum_app f l1 l2 : lsum f (l1 ++ l2) = lsum f l1 + lsum f l2.
Proof. induction l1 as [|t l1 IH]; cbn; [done|]. rewrite IH. lia. Qed.

(** What the account does not know yet. *)
Definition pending_weight (t : thread) : Z :=
  match t with
  | Passing e => xevent.status_weight (xevent.ENew e) - xevent.status_weight (xevent.EInit e)
  | _ => 0
  end.

Definition pending_alive (t : thread) : Z :=
  match t with
  | Passing e => xevent.status_alive (xevent.ENew e) - xevent.status_alive (xevent.EInit e)
  | _ => 0
  end.

Definition shaped (t : thread) : Prop := match t with Passing e => event_shape e | _ => True end.

Definition account_inv (f : gmap key.Real R) (m : Service) (w : World) (l : list thread) : Prop :=
  accounts m (fleet_weight f - lsum pending_weight l) (fleet_alive f - lsum pending_alive l) /\
  (forall k r, f !! k = Some r -> es_inv r) /\ Forall shaped l.

Lemma lsum_perm f l l' : l ≡ₚ l' -> lsum f l = lsum f l'.
Proof. induction 1; cbn; lia. Qed.

Lemma account_perm f m w l l' : l ≡ₚ l' -> account_inv f m w l -> account_inv f m w l'.
Proof. intros Hp. unfold account_inv. by rewrite (lsum_perm _ _ _ Hp), (lsum_perm pending_alive _ _ Hp), Hp. Qed.

(** A real has handled an event: its status changes by what the event says. *)
Lemma handled now k e (f : gmap key.Real R) r o r' :
  f !! k = Some r -> es_inv r -> es_ok e r -> es_handle now e r = (o, r') ->
  es_inv r' /\ Forall shaped (option_list (Passing <$> o)) /\
  fleet_weight (<[k := r']> f) = fleet_weight f + lsum pending_weight (option_list (Passing <$> o)) /\
  fleet_alive (<[k := r']> f) = fleet_alive f + lsum pending_alive (option_list (Passing <$> o)).
Proof.
  intros Hr Hi Hok He. pose proof (es_spec now e r Hi Hok) as HS. rewrite He in HS. destruct HS as (Hi' & _ & HS).
  unfold fleet_weight, fleet_alive.
  rewrite (msum_update (fun r => xevent.status_weight (es_status r)) f k r r' Hr),
          (msum_update (fun r => xevent.status_alive (es_status r)) f k r r' Hr).
  destruct o as [e'|]; cbn.
  - destruct HS as (-> & -> & Hs & _). split_and!; [done|by constructor|lia|lia].
  - rewrite HS. split_and!; [done|constructor|lia|lia].
Qed.

Lemma accounts_eq m tw ta tw' ta' : accounts m tw ta -> tw = tw' -> ta = ta' -> accounts m tw' ta'.
Proof. by intros H <- <-. Qed.

(** What a thread does to the account. *)
Lemma advance_accounts t f m w pw pa :
  accounts m (fleet_weight f - (pw + pending_weight t)) (fleet_alive f - (pa + pending_alive t)) ->
  (forall k r, f !! k = Some r -> es_inv r) -> shaped t ->
  match t with Handling _ k e => forall r, f !! k = Some r -> es_ok e r | _ => True end ->
  let '(o, f', m', w') := advance t f m w in
  accounts m' (fleet_weight f' - (pw + lsum pending_weight (option_list o))) (fleet_alive f' - (pa + lsum pending_alive (option_list o))) /\
  (forall k r, f' !! k = Some r -> es_inv r) /\ Forall shaped (option_list o).
Proof.
  intros Hacc Hfi Hsh Hok.
  destruct t as [now k e|e|e| |q| |st]; cbn [advance pending_weight pending_alive] in *; try done.
  - destruct (f !! k) as [r|] eqn:Hr; [|done]. destruct (es_handle now e r) as [o r'] eqn:He.
    destruct (handled now k e f r o r' Hr (Hfi k r Hr) (Hok r eq_refl) He) as (Hi & Hs & -> & ->).
    split_and!; [|by apply map_Forall_insert_2|done]. eapply accounts_eq; [exact Hacc|lia|lia].
  - pose proof (processEvent_account e m _ _ Hsh Hacc) as HP. destruct (processEvent e m) as [e' m'].
    destruct HP as (_ & _ & Hacc' & _). split_and!; [|done|by constructor].
    eapply accounts_eq; [exact Hacc'|cbn; lia|cbn; lia].
  - split_and!; [done|done|by constructor].
  - split_and!; [done|done|by constructor].
  - unfold enableService, disableService. destruct q, (Alive (state m)); cbn; destruct (bool_decide (SAnnounceGroup (config m) = "")); cbn;
      split_and!; try done; by repeat constructor.
  - split_and!; [done|done|by constructor].
Qed.

Lemma act_account a c : handles a c -> holds account_inv c -> holds account_inv (act a c).
Proof.
  intros Hok. apply act_lift; [apply account_perm|]. destruct a as [now k e|i].
  - intros (Hacc & Hfi & Hsh). split_and!; [exact Hacc|done|by constructor].
  - intros t l Ht _ (Hacc & Hfi & Hsh). cbn [handles] in Hok. rewrite Ht in Hok. apply Forall_cons in Hsh as [Hst Hsh].
    pose proof (advance_accounts t (fleet c) (svc c) (cworld c) (lsum pending_weight l) (lsum pending_alive l)) as HA.
    rewrite !(Z.add_comm (lsum _ l)) in HA at 1. specialize (HA Hacc Hfi Hst Hok).
    destruct (advance t _ _ _) as [[[o f'] m'] w']. destruct HA as (H1 & H2 & H3). split_and!; [|done|by apply Forall_app].
    rewrite !lsum_app. eapply accounts_eq; [exact H1|lia|lia].
Qed.

(** The account of a service holds at every moment, however its handlers
    interleave: what it says is what its reals say, less what the events
    between a real and the service have to add; and what its reals say when
    there is no such event. *)
Theorem interleaved_accounting (l : list action) (f : gmap key.Real R) (m : Service) (w : World) :
  fleet_inv (f, m, w) -> along handles l (MkConc f m w []) ->
  let c := run l (MkConc f m w []) in
  let passing := List.filter (fun t => match t with Passing _ => true | _ => false end) (threads c) in
  accounts (svc c) (fleet_weight (fleet c) - lsum pending_weight passing)
                   (fleet_alive (fleet c) - lsum pending_alive passing) /\
  (passing = [] -> accounts (svc c) (fleet_weight (fleet c)) (fleet_alive (fleet c))).
Proof.
  intros [Hacc Hfi] Hal. cbv zeta. assert (holds account_inv (run l (MkConc f m w []))) as (Ha & _ & _).
  { apply (along_inv handles (holds account_inv) l _ act_account Hal). unfold holds, account_inv. cbn. rewrite !Z.sub_0_r. by split_and!. }
  set (c := run l _) in *. assert (forall p ths, (forall t, match t with Passing _ => True | _ => p t = 0 end) ->
    lsum p (List.filter (fun t => match t with Passing _ => true | _ => false end) ths) = lsum p ths) as Hf.
  { intros p ths Hp. induction ths as [|t ths IH]; [done|]. specialize (Hp t). destruct t; cbn in *; lia. }
  rewrite !Hf by by intros []. split; [done|]. intros Hn.
  rewrite <- (Hf pending_weight), <- (Hf pending_alive), Hn in Ha by by intros []. cbn in Ha. by rewrite !Z.sub_0_r in Ha.
Qed.

(** ** Termination *)

(** How many actions a thread has left at most. *)
Definition left (t : thread) : Z :=
  match t with
  | Handling _ _ _ => 7
  | Passing _ => 6
  | Storing _ => 5
  | Updating => 4
  | Deciding _ => 3
  | Reading => 2
  | Registering _ => 1
  end.

Lemma advance_left t f m w : lsum left (option_list (advance t f m w).1.1.1) < left t.
Proof.
  destruct t as [now k e|e|e| |q| |st]; cbn [advance]; try (cbn; lia).
  - destruct (f !! k) as [r|]; [|cbn; lia]. destruct (es_handle now e r) as [[e'|] r']; cbn; lia.
  - destruct (processEvent e m). cbn; lia.
  - set (p := match q with quorumHold => _ | quorumUp => _ | quorumDown => _ end). destruct p as [changed m'].
    destruct (changed && _); cbn; lia.
Qed.

Lemma act_left i c : is_Some (threads c !! i) -> lsum left (threads (act (Advance i) c)) < lsum left (threads c).
Proof.
  intros [t Ht]. cbn [act]. rewrite Ht. pose proof (advance_left t (fleet c) (svc c) (cworld c)) as HA.
  pose proof (f_equal (lsum left) (take_drop_middle _ _ _ Ht)) as E. rewrite lsum_app in E. cbn [lsum] in E.
  destruct (advance t _ _ _) as [[[o f'] m'] w']. cbn [threads fst] in *. rewrite !lsum_app. lia.
Qed.

(** A schedule that only moves threads, and none that has ended. *)
Definition moves (a : action) (c : Conc) : Prop :=
  match a with Advance i => is_Some (threads c !! i) | Arrive _ _ _ => False end.

(** No handler waits for another: without new events every schedule comes to
    an end, at most seven actions for a thread, and a state in which no thread
    can move has none. *)
Theorem handlers_terminate (l : list action) (c : Conc) :
  along moves l c ->
  Z.of_nat (length l) <= lsum left (threads c) - lsum left (threads (run l c)) /\
  lsum left (threads c) <= 7 * Z.of_nat (length (threads c)) /\
  ((forall i, ~ moves (Advance i) (run l c)) -> threads (run l c) = []).
Proof.
  intros Hal. split_and!.
  - revert c Hal. induction l as [|a l IH]; intros c; [cbn; lia|]. intros [Ha Hal]. rewrite run_cons.
    specialize (IH _ Hal). destruct a as [|i]; [done|]. pose proof (act_left i c Ha). cbn [length]. lia.
  - induction (threads c) as [|t ths IH]; cbn [lsum length]; [lia|]. destruct t; cbn [left]; lia.
  - intros Hn. destruct (threads (run l c)) as [|t ths] eqn:Ht; [done|]. destruct (Hn 0%nat). cbn [moves]. rewrite Ht. by eexists.
Qed.

(** ** What the load balancer is told *)

(** The real of an event that has not reached the balancer. *)
Definition flies (t : thread) : option xevent.Event := match t with Passing e | Storing e => Some e | _ => None end.

Definition real_of (t : thread) : option key.Real :=
  match t with
  | Handling _ k _ => Some k
  | _ => (fun e => key.BReal (xevent.EBalancer e)) <$> flies t
  end.

(** The balancer should know the status of every real of the service. *)
Definition fleet_view (base : key.Balancer -> xevent.Status) (sk : key.Service) (f : gmap key.Real R) (k : key.Balancer) :
    xevent.Status :=
  if decide (key.BService k = sk) then
    match f !! key.BReal k with
    | Some r => es_status r
    | None => down
    end
  else base k.

(** A real is told of an event when it has no other on its way. *)
Definition one_at_a_time (a : action) (c : Conc) : Prop :=
  handles a c /\ match a with Arrive _ k _ => k ∉ omap real_of (threads c) | Advance _ => True end.

Section flight.
Context (applied base : key.Balancer -> xevent.Status).

(** What the balancer has been told leads to [current], which is the view of
    the reals except where an event is on its way. *)
Definition flight (f : gmap key.Real R) (sk : key.Service) (b : Balancer) (l : list thread) : Prop :=
  (forall k r, f !! k = Some r -> es_inv r /\ es_key r = k) /\ NoDup (omap real_of l) /\
  (forall e, Storing e ∈ l -> key.BService (xevent.EBalancer e) = sk) /\
  exists current, delta_inv (bevents b) applied current /\
    (forall t e, t ∈ l -> flies t = Some e ->
       let k := key.BReal (xevent.EBalancer e) in
       xevent.EInit e ≈ current (key.MkBalancer sk k) /\ exists r, f !! k = Some r /\ xevent.ENew e ≈ es_status r) /\
    (forall k, (forall t e, t ∈ l -> flies t = Some e -> k <> key.MkBalancer sk (key.BReal (xevent.EBalancer e))) ->
       current k ≈ fleet_view base sk f k).

Lemma flight_perm f sk b l l' : l ≡ₚ l' -> flight f sk b l -> flight f sk b l'.
Proof.
  intros Hp (H1 & H2 & H3 & cur & Hd & H4 & H5). split_and!; [done|by rewrite <- Hp|intros e; rewrite <- Hp; apply H3|].
  exists cur. split_and!; [done|intros t e; rewrite <- Hp; apply H4|].
  intros k Hk. apply H5. intros t e. rewrite Hp. apply Hk.
Qed.

(** A thread that brings nothing to the balancer. *)
Lemma flight_other f sk b t o l :
  flies t = None -> match o with Some t' => real_of t' = None | None => True end ->
  flight f sk b (t :: l) -> flight f sk b (option_list o ++ l).
Proof.
  intros Ht Ho (H1 & H2 & H3 & cur & Hd & H4 & H5).
  assert (forall t', real_of t' = None -> flies t' = None) as Hf by (by intros []).
  assert (forall t', t' ∈ option_list o ++ l -> o = Some t' \/ t' ∈ l) as Hin by (intros t'; destruct o; set_solver).
  split_and!; [done| | |exists cur; split_and!].
  - assert (NoDup (omap real_of l)) as Hl.
    { cbn in H2. destruct (real_of t); [by apply NoDup_cons in H2 as [_ ?]|done]. }
    destruct o as [t'|]; cbn in *; [by rewrite Ho|done].
  - intros e [He|He]%Hin; [by subst o|]. apply H3. by right.
  - done.
  - intros t' e [He|He]%Hin Hfl; [subst o; by rewrite (Hf t' Ho) in Hfl|]. apply (H4 t'); [by right|done].
  - intros k Hk. apply H5. intros t' e [->|He]%elem_of_cons Hfl; [by rewrite Ht in Hfl|].
    apply (Hk t'); [|done]. apply elem_of_app. by right.
Qed.

(** The thread of a real is the only one of it. *)
Lemma real_fresh t k l t' e :
  real_of t = Some k -> NoDup (omap real_of (t :: l)) -> t' ∈ l -> flies t' = Some e -> key.BReal (xevent.EBalancer e) <> k.
Proof.
  intros Ht. cbn. rewrite Ht. intros [Hk _]%NoDup_cons Hin Hfl Heq. apply Hk, list_elem_of_omap. exists t'.
  split; [done|]. destruct t'; try done; cbn in *; congruence.
Qed.

(** A real handles an event. *)
Lemma flight_handled now k e f sk b l r :
  f !! k = Some r -> es_ok e r -> flight f sk b (Handling now k e :: l) ->
  let '(o, r') := es_handle now e r in flight (<[k := r']> f) sk b (option_list (Passing <$> o) ++ l).
Proof.
  intros Hr Hok HF. pose proof HF as (H1 & H2 & H3 & cur & Hd & H4 & H5).
  destruct (H1 k r Hr) as [Hi Hk]. pose proof (es_spec now e r Hi Hok) as HS.
  destruct (es_handle now e r) as [o r']. destruct HS as (Hi' & Hk' & HS).
  pose proof (fun t' e' => real_fresh (Handling now k e) k l t' e' eq_refl H2) as Hfr.
  assert (forall t', t' ∈ option_list (Passing <$> o) ++ l -> (exists e', o = Some e' /\ t' = Passing e') \/ t' ∈ l) as Hin
    by (intros t'; destruct o as [e'|]; cbn; [|by right]; intros [->|?]%elem_of_cons; eauto).
  assert (cur (key.MkBalancer sk k) ≈ es_status r) as Hcur.
  { etrans; [apply H5|by unfold fleet_view; cbn; rewrite decide_True, Hr by done].
    intros t' e' [->|Ht']%elem_of_cons Hfl; [done|]. intros [= Heq]. by apply (Hfr t' e' Ht' Hfl). }
  split_and!; [| | |exists cur; split_and!].
  - intros k2 r2. rewrite lookup_insert. case_decide as Hk2; [|apply H1]. intros [= <-]. split; [done|congruence].
  - cbn in H2. destruct o as [e'|]; cbn; [|by apply NoDup_cons in H2 as [_ ?]]. destruct HS as (_ & _ & _ & ->). by rewrite Hk.
  - intros e' [(? & _ & ?)|Ht']%Hin; [done|]. apply H3. by right.
  - done.
  - intros t' e' [(e2 & -> & ->)|Ht']%Hin Hfl.
    + injection Hfl as <-. destruct HS as (HS1 & HS2 & _ & HS4). cbn. rewrite HS4, Hk, Hcur. split; [done|].
      exists r'. by rewrite lookup_insert_eq.
    + pose proof (Hfr t' e' Ht' Hfl) as Hne. cbn. rewrite lookup_insert_ne by done. apply (H4 t'); [by right|done].
  - intros k' Hk2. destruct (decide (k' = key.MkBalancer sk k)) as [->|Hne].
    + rewrite Hcur. unfold fleet_view. cbn. rewrite decide_True, lookup_insert_eq by done. destruct o as [e'|]; [|done].
      exfalso. apply (Hk2 (Passing e') e'); [by left|done|]. destruct HS as (_ & _ & _ & ->). by rewrite Hk.
    + etrans; [apply H5|].
      * intros t' e' [->|Ht']%elem_of_cons Hfl; [done|]. apply (Hk2 t'); [|done]. apply elem_of_app. by right.
      * unfold fleet_view. destruct (decide (key.BService k' = sk)); [|done]. rewrite lookup_insert_ne; [done|].
        intros ->. by destruct k'; cbn in *; subst.
Qed.

(** The service passes it on, with its own key. *)
Lemma flight_passed e e' f sk b l :
  xevent.ENew e' = xevent.ENew e -> xevent.EInit e' = xevent.EInit e ->
  xevent.EBalancer e' = key.MkBalancer sk (key.BReal (xevent.EBalancer e)) ->
  flight f sk b (Passing e :: l) -> flight f sk b (Storing e' :: l).
Proof.
  intros HN HI HB (H1 & H2 & H3 & cur & Hd & H4 & H5).
  split_and!; [done|cbn in *; by rewrite HB| |exists cur; split_and!; [done| |]].
  - intros e2 [[= ->]|Ht]%elem_of_cons; [by rewrite HB|]. apply H3. by right.
  - intros t e2 [->|Ht]%elem_of_cons Hfl; [|apply (H4 t); [by right|done]]. injection Hfl as <-. cbn. rewrite HN, HI, HB.
    apply (H4 (Passing e) e); [by left|done].
  - intros k Hk. apply H5. intros t e2 [->|Ht]%elem_of_cons Hfl.
    + injection Hfl as <-. specialize (Hk (Storing e') e' ltac:(by left) eq_refl). by rewrite HB in Hk.
    + apply (Hk t); [by right|done].
Qed.

(** The balancer registers it. *)
Lemma flight_stored e f sk b l :
  flight f sk b (Storing e :: l) -> flight f sk (Balancer.HandleEvent e b) (Updating :: l).
Proof.
  intros (H1 & H2 & H3 & cur & Hd & H4 & H5).
  assert (xevent.EBalancer e = key.MkBalancer sk (key.BReal (xevent.EBalancer e))) as Hb.
  { pose proof (H3 e ltac:(by left)) as <-. by destruct (xevent.EBalancer e). }
  destruct (H4 (Storing e) e ltac:(by left) eq_refl) as (HI & r & Hr & HN).
  pose proof (fun t' e' => real_fresh (Storing e) _ l t' e' eq_refl H2) as Hfr.
  split_and!; [done| | |exists (fupd cur (xevent.EBalancer e) (xevent.ENew e)); split_and!].
  - cbn in *. by apply NoDup_cons in H2 as [_ ?].
  - intros e2 [?|Ht]%elem_of_cons; [done|]. apply H3. by right.
  - apply (delta_inv_Store (bevents b) applied cur (xevent.EBalancer e) e Hd). unfold based_on. cbn. by rewrite Hb.
  - intros t e2 [->|Ht]%elem_of_cons Hfl; [done|]. cbn. unfold fupd. rewrite decide_False.
    + apply (H4 t); [by right|done].
    + intros Heq. apply (Hfr t e2 Ht Hfl). by rewrite Heq.
  - intros k Hk. unfold fupd. destruct (decide (xevent.EBalancer e = k)) as [<-|Hne].
    + unfold fleet_view. rewrite decide_True by (by rewrite Hb). rewrite Hr. exact HN.
    + apply H5. intros t e2 [->|Ht]%elem_of_cons Hfl; [|apply (Hk t); [by right|done]].
      injection Hfl as <-. rewrite <- Hb. congruence.
Qed.

Lemma advance_flight t f m w l :
  match t with Handling _ k e => forall r, f !! k = Some r -> es_ok e r | _ => True end ->
  flight f (skey m) (wbalancer w) (t :: l) ->
  let '(o, f', m', w') := advance t f m w in
  skey m' = skey m /\ flight f' (skey m') (wbalancer w') (option_list o ++ l).
Proof.
  intros Hok HF. destruct t as [now k e|e|e| |q| |st]; cbn [advance].
  - destruct (f !! k) as [r|] eqn:Hr; [|by split; [|apply (flight_other _ _ _ _ None) in HF]].
    pose proof (flight_handled now k e f _ _ l r Hr (Hok r eq_refl) HF) as H. by destruct (es_handle now e r) as [o r'].
  - assert (skey (processEvent e m).2 = skey m) as Hk.
    { unfold processEvent, processSucceed. destruct e as [[] ? ? ?]; cbn; [by destruct (negb _)|done|done]. }
    assert (xevent.ENew (processEvent e m).1 = xevent.ENew e /\ xevent.EInit (processEvent e m).1 = xevent.EInit e /\
            xevent.EBalancer (processEvent e m).1 = key.MkBalancer (skey m) (key.BReal (xevent.EBalancer e))) as (E1 & E2 & E3)
      by (unfold processEvent; by destruct e as [[] ? ? ?]).
    destruct (processEvent e m) as [e' m']. cbn in *. split; [done|]. rewrite Hk. by apply (flight_passed e).
  - split; [done|]. by apply flight_stored.
  - split; [done|]. by apply (flight_other _ _ _ Updating (Some _)).
  - set (p := match q with quorumHold => _ | quorumUp => _ | quorumDown => _ end).
    assert (skey p.2 = skey m) as Hp by (subst p; unfold enableService, disableService; by destruct q, (Alive (state m))).
    destruct p as [changed m']. cbn in Hp. split; [done|]. rewrite Hp.
    by apply (flight_other _ _ _ (Deciding q)); [|destruct (changed && _)|].
  - split; [done|]. by apply (flight_other _ _ _ Reading (Some _)).
  - split; [done|]. by apply (flight_other _ _ _ (Registering st) None).
Qed.

Definition flight_inv (sk : key.Service) (f : gmap key.Real R) (m : Service) (w : World) (l : list thread) : Prop :=
  skey m = sk /\ flight f sk (wbalancer w) l.

Lemma act_flight sk a c : one_at_a_time a c -> holds (flight_inv sk) c -> holds (flight_inv sk) (act a c).
Proof.
  intros [Hok Hone]. apply act_lift; [intros f m w l l' Hp [? ?]; split; [done|by eapply flight_perm]|].
  destruct a as [now k e|i].
  - intros [Hk (H1 & H2 & H3 & cur & Hd & H4 & H5)].
    split; [done|]. split_and!; [done|by constructor| |exists cur; split_and!; [done| |]].
    + intros e' [?|?]%elem_of_cons; [done|by apply H3].
    + intros t e' [->|?]%elem_of_cons Hfl; [done|by apply (H4 t)].
    + intros k' Hk2. apply H5. intros t e' Ht. apply Hk2. by right.
  - intros t l Ht _ [<- HF]. cbn [handles] in Hok. rewrite Ht in Hok.
    pose proof (advance_flight t (fleet c) (svc c) (cworld c) l Hok HF) as HA.
    destruct (advance t _ _ _) as [[[o f'] m'] w']. destruct HA as [Hk HA]. split; [done|]. by rewrite <- Hk.
Qed.
End flight.

(** When every real has its events handled one at a time, as [HandleEvent]
    of a real with one checker does, the handlers of different reals may
    interleave in any way: as soon as no event is between a real and the
    balancer, the pending events of the balancer lead from what was applied to
    exactly the status of every real of the service. *)
Theorem one_event_at_a_time_tracks (applied base : key.Balancer -> xevent.Status) (l : list action)
    (f : gmap key.Real R) (m : Service) (w : World) :
  (forall k r, f !! k = Some r -> es_inv r /\ es_key r = k) ->
  delta_inv (bevents (wbalancer w)) applied (fleet_view base (skey m) f) ->
  along one_at_a_time l (MkConc f m w []) ->
  let c := run l (MkConc f m w []) in
  (forall t, t ∈ threads c -> flies t = None) ->
  delta_inv (bevents (wbalancer (cworld c))) applied (fleet_view base (skey m) (fleet c)).
Proof.
  intros Hf Hd Hal. cbv zeta.
  assert (holds (flight_inv applied base (skey m)) (run l (MkConc f m w []))) as [_ (_ & _ & _ & cur & Hd' & _ & Hcur)].
  { apply (along_inv one_at_a_time _ l _ (act_flight applied base (skey m)) Hal).
    split; [done|]. cbn. split_and!; [done|constructor|by intros ? ?%not_elem_of_nil|].
    exists (fleet_view base (skey m) f). split_and!; [done|by intros ? ? ?%not_elem_of_nil|done]. }
  intros Hq. eapply delta_inv_proper; [|exact Hd']. intros k. apply Hcur. intros t e Ht Hfl. by rewrite (Hq t Ht) in Hfl.
Qed.

(** ** What the announcer is told *)

(** Between the look at the weight and the service events' registry. *)
Definition late (t : thread) : bool := match t with Deciding _ | Reading | Registering _ => true | _ => false end.
Definition lates (l : list thread) : list thread := List.filter late l.

(** On the way to the look at the weight. *)
Definition early (t : thread) : bool := match t with Storing _ | Updating => true | _ => false end.

(** A thread looks at the weight when no other has and goes on. *)
Definition decisions_alone (a : action) (c : Conc) : Prop :=
  match a with
  | Advance i => threads c !! i = Some Updating -> lates (threads c) = []
  | Arrive _ _ _ => True
  end.

(** What the announcer has been told, and what the late thread knows. *)
Definition told (o : option thread) (m : Service) : ServiceStatus :=
  match o with
  | Some Reading | Some (Registering _) => service_status_of (negb (Alive (state m)))
  | _ => service_status_of (Alive (state m))
  end.

Definition decided (o : option thread) (m : Service) : Prop :=
  match o with
  | Some (Deciding q) => q = quorumState m
  | _ => next_alive m = Alive (state m)
  end.

Definition reads (o : option thread) (m : Service) : Prop :=
  match o with
  | Some (Registering st) => st = service_status_of (Alive (state m))
  | _ => True
  end.

Section serial.
Context (applied current : key.Service -> ServiceStatus).

Definition serial (m : Service) (w : World) (l : list thread) : Prop :=
  SAnnounceGroup (config m) <> "" /\
  exists o, lates l = option_list o /\
    delta_inv (serviceEventRegistry (wannouncer w)) applied (fupd current (skey m) (told o m)) /\ reads o m /\
    (Forall (fun t => early t = false) l -> decided o m).

Lemma lates_perm l l' : l ≡ₚ l' -> lates l ≡ₚ lates l'.
Proof. unfold lates. induction 1; cbn; repeat case_match; by (econstructor; eauto) || eauto using Permutation. Qed.

Lemma serial_perm m w l l' : l ≡ₚ l' -> serial m w l -> serial m w l'.
Proof.
  intros Hp (Hg & o & Ho & Hd & Hr & Hdec). split; [done|]. exists o. split_and!; [|done|done|by rewrite <- Hp].
  pose proof (lates_perm _ _ Hp) as H. rewrite Ho in H. destruct o as [t|]; cbn in *.
  - by apply Permutation_singleton_l in H.
  - by apply Permutation_nil_l in H.
Qed.

(** A thread that is not late moves, or ends, before the look at the weight. *)
Lemma serial_before m m' w w' t o l :
  late t = false -> match o with Some t' => late t' = false | None => True end ->
  config m' = config m -> skey m' = skey m -> Alive (state m') = Alive (state m) -> wannouncer w' = wannouncer w ->
  (Forall (fun t => early t = false) (option_list o ++ l) -> early t = false /\ state m' = state m) ->
  serial m w (t :: l) -> serial m' w' (option_list o ++ l).
Proof.
  intros Ht Ho Hc Hk Ha Hw He (Hg & o' & Hl & Hd & Hr & Hdec). unfold serial. rewrite Hc, Hk, Hw. split; [done|]. exists o'.
  assert (told o' m' = told o' m) as -> by (unfold told; by rewrite Ha).
  assert (reads o' m' = reads o' m) as -> by (unfold reads; by rewrite Ha).
  split_and!; [|done|done|].
  - cbn in Hl. rewrite Ht in Hl. destruct o as [t'|]; cbn; [by rewrite Ho|done].
  - intros HF. destruct (He HF) as [Het Hs]. assert (quorumState m' = quorumState m) as Hq by (unfold quorumState; by rewrite Hc, Hs).
    assert (decided o' m' = decided o' m) as -> by (unfold decided, next_alive; by rewrite Hq, Ha).
    apply Hdec. constructor; [done|]. by apply Forall_app in HF as [_ ?].
Qed.

Lemma deciding_spec q m :
  let p := match q with quorumHold => (false, m) | quorumUp => enableService m | quorumDown => disableService m end in
  same_but_alive m p.2 /\ p.1 = xorb (Alive (state m)) (Alive (state p.2)) /\
  (q = quorumState m -> next_alive p.2 = Alive (state p.2)).
Proof.
  assert (forall m' : Service, quorumState m' = quorumState m -> Alive (state m') = match q with quorumHold => Alive (state m) | quorumUp => true | quorumDown => false end ->
    q = quorumState m -> next_alive m' = Alive (state m')) as H by (intros m' Hq Ha ->; unfold next_alive; rewrite Hq, Ha; by destruct (quorumState m)).
  unfold same_but_alive. destruct q; cbv zeta; [|unfold enableService|unfold disableService];
    destruct (Alive (state m)) eqn:Ha; cbn -[next_alive]; rewrite ?Ha; split_and!; try done; intros Hq; by rewrite H.
Qed.

Lemma advance_serial t (f : gmap key.Real R) m w l :
  (t = Updating -> lates l = []) -> serial m w (t :: l) ->
  let '(o, f', m', w') := advance t f m w in
  skey m' = skey m /\ serial m' w' (option_list o ++ l).
Proof.
  intros Hone HS. destruct t as [now k e|e|e| |q| |st]; cbn [advance].
  - assert (forall o, match o with Some t' => exists e, t' = Passing e | None => True end -> serial m w (option_list o ++ l)) as H.
    { intros o Ho. apply (serial_before m m w w (Handling now k e)); try done. by destruct o; [destruct Ho as [? ->]|]. }
    destruct (f !! k) as [r|]; [|split; [done|exact (H None I)]].
    destruct (es_handle now e r) as [[e'|] r']; (split; [done|]); [apply (H (Some (Passing e'))); eauto|exact (H None I)].
  - assert (same_reals m (processEvent e m).2 /\ Alive (state (processEvent e m).2) = Alive (state m)) as [(Hc & Hk & _) Ha].
    { unfold processEvent, processSucceed, same_reals. destruct e as [[] ? ? ?]; cbn; [by destruct (negb _)|done|done]. }
    destruct (processEvent e m) as [e' m']. cbn in *. split; [done|].
    apply (serial_before m m' w w (Passing e) (Some (Storing e'))); try done. by intros [? _]%Forall_cons.
  - split; [done|]. apply (serial_before m m w _ (Storing e) (Some Updating)); try done. by intros [? _]%Forall_cons.
  - split; [done|]. destruct HS as (Hg & o & Ho & Hd & Hr & Hdec). split; [done|]. change (lates l = option_list o) in Ho. rewrite (Hone eq_refl) in Ho.
    destruct o; [done|]. exists (Some (Deciding (quorumState m))). split_and!; [|done|done|done].
    change (Deciding (quorumState m) :: lates l = [Deciding (quorumState m)]). by rewrite (Hone eq_refl).
  - destruct HS as (Hg & o & Ho & Hd & Hr & Hdec). destruct o as [t|]; [|done]. injection Ho as <- Hl. fold (lates l) in Hl.
    set (p := match q with quorumHold => _ | quorumUp => _ | quorumDown => _ end).
    assert (same_but_alive m p.2 /\ p.1 = xorb (Alive (state m)) (Alive (state p.2)) /\
            (q = quorumState m -> next_alive p.2 = Alive (state p.2))) as (Hs & Hp & Hq) by (by apply deciding_spec).
    destruct p as [changed m']. cbn [fst snd] in *. destruct Hs as (Hc & Hk & _). split; [done|]. rewrite Hc, bool_decide_eq_false_2, andb_true_r by done.
    unfold serial. rewrite Hc, Hk. split; [done|]. exists (if changed then Some Reading else None). split_and!.
    + destruct changed; cbn; fold (lates l); by rewrite Hl.
    + cbn [told] in Hd. subst changed. destruct (Alive (state m)) eqn:E1, (Alive (state m')) eqn:E2; cbn; by rewrite E2.
    + by destruct changed.
    + intros HF. assert (next_alive m' = Alive (state m')) as Hn; [|by destruct changed].
      apply Hq. apply Hdec. constructor; [done|]. by apply Forall_app in HF as [_ ?].
  - destruct HS as (Hg & o & Ho & Hd & Hr & Hdec). split; [done|]. split; [done|]. cbn in Ho.
    destruct o as [t|]; [|done]. injection Ho as <- Hl. exists (Some (Registering (service_status_of (Alive (state m))))). split_and!; [|done|done|].
    + unfold lates. cbn [option_list option_rect app List.filter late]. by rewrite Hl.
    + intros [_ HF]%Forall_cons. apply Hdec. by constructor.
  - destruct HS as (Hg & o & Ho & Hd & Hr & Hdec). split; [done|]. split; [done|]. cbn in Ho.
    destruct o as [t|]; [|done]. injection Ho as <- Hl. exists None. split_and!; [done| |done|].
    + cbn in Hr. subst st. cbn [told]. cbn. eapply delta_inv_ext; [|eapply delta_inv_Store; [exact Hd|]].
      * intros k. unfold fupd. cbn. by destruct (decide _).
      * unfold fupd. rewrite decide_True by done. cbn. by destruct (Alive (state m)).
    + intros HF. apply Hdec. by constructor.
Qed.

Definition serial_inv (sk : key.Service) (f : gmap key.Real R) (m : Service) (w : World) (l : list thread) : Prop :=
  skey m = sk /\ serial m w l.

Lemma act_serial sk a c : decisions_alone a c -> holds (serial_inv sk) c -> holds (serial_inv sk) (act a c).
Proof.
  intros Hone. apply act_lift; [intros f m w l l' Hp [? ?]; split; [done|by eapply serial_perm]|].
  destruct a as [now k e|i].
  - intros [Hk (Hg & o & Ho & Hd & Hr & Hdec)]. split; [done|]. split; [done|]. exists o. split_and!; [done..|].
    intros [_ HF]%Forall_cons. by apply Hdec.
  - intros t l Ht Hp [<- HS]. cbn [decisions_alone] in Hone.
    assert (t = Updating -> lates l = []) as Hu.
    { intros ->. pose proof (lates_perm _ _ Hp) as H. rewrite (Hone Ht) in H. by apply Permutation_nil_l in H. }
    pose proof (advance_serial t (fleet c) (svc c) (cworld c) l Hu HS) as HA.
    by destruct (advance t _ _ _) as [[[o f'] m'] w'].
Qed.
End serial.

(** C9: the announcement is right as long as no two events of a service are
    decided at once.  The handlers may interleave in any other way: when none
    is past the account, the service is alive exactly as its latest weight says,
    and the pending service events lead the announcer to it. *)
Theorem decisions_alone_announce (applied current : key.Service -> ServiceStatus) (l : list action)
    (f : gmap key.Real R) (m : Service) (w : World) :
  SAnnounceGroup (config m) <> "" -> next_alive m = Alive (state m) ->
  delta_inv (serviceEventRegistry (wannouncer w)) applied current ->
  current (skey m) = service_status_of (Alive (state m)) ->
  along decisions_alone l (MkConc f m w []) ->
  let c := run l (MkConc f m w []) in
  (forall t, t ∈ threads c -> early t = false /\ late t = false) ->
  Alive (state (svc c)) = next_alive (svc c) /\
  delta_inv (serviceEventRegistry (wannouncer (cworld c))) applied
    (fupd current (skey m) (service_status_of (Alive (state (svc c))))).
Proof.
  intros Hg Hn Hd Hc Hal. cbv zeta.
  assert (holds (serial_inv applied current (skey m)) (run l (MkConc f m w []))) as [Hk (_ & o & Ho & Hd' & _ & Hdec)].
  { apply (along_inv decisions_alone _ l _ (act_serial applied current (skey m)) Hal). split; [done|]. split; [done|].
    exists None. split_and!; [done| |done|done]. cbn [told]. eapply delta_inv_ext; [|exact Hd].
    intros k. unfold fupd. cbn. destruct (decide (skey m = k)) as [<-|]; [by rewrite Hc|done]. }
  intros Hq. assert (o = None) as ->.
  { destruct o as [t|]; [|done]. exfalso. assert (t ∈ lates (threads (run l (MkConc f m w [])))) as Ht by (rewrite Ho; by left).
    apply list_elem_of_In, filter_In in Ht as [Ht Hl]. destruct (Hq t) as [_ H]; [by apply list_elem_of_In|congruence]. }
  rewrite Hk in Hd'. split; [|exact Hd']. symmetry. apply Hdec. apply Forall_forall. intros t Ht. by apply Hq.
Qed.
End interleaving.

(** ** Concrete schedules *)

Section concrete.
Definition handlesb (a : action) (c : Conc (R := Real)) : bool :=
  match a with
  | Advance i =>
      match threads c !! i with
      | Some (Handling _ k e) => match fleet c !! k with Some r => real_okb e r | None => true end
      | _ => true
      end
  | Arrive _ _ _ => true
  end.

Definition one_at_a_timeb (a : action) (c : Conc (R := Real)) : bool :=
  handlesb a c && match a with Arrive _ k _ => bool_decide (k ∉ omap real_of (threads c)) | Advance _ => true end.

Definition decisions_aloneb (a : action) (c : Conc (R := Real)) : bool :=
  match a with
  | Advance i =>
      match threads c !! i with
      | Some Updating => match lates (threads c) with [] => true | _ => false end
      | _ => true
      end
  | Arrive _ _ _ => true
  end.

Lemma handlesb_ok a c : handlesb a c = true -> handles a c.
Proof.
  unfold handlesb, handles. destruct a as [|i]; [done|]. destruct (threads c !! i) as [[now k e| | | | | |]|]; try done.
  intros H r Hr. rewrite Hr in H. by apply real_okb_ok.
Qed.

Lemma one_at_a_timeb_ok a c : one_at_a_timeb a c = true -> one_at_a_time a c.
Proof.
  unfold one_at_a_timeb. intros [H1 H2]%andb_prop. split; [by apply handlesb_ok|].
  destruct a; [by apply bool_decide_eq_true in H2|done].
Qed.

Lemma decisions_aloneb_ok a c : decisions_aloneb a c = true -> decisions_alone a c.
Proof.
  unfold decisions_aloneb, decisions_alone. destruct a as [|i]; [done|]. intros H Ht. rewrite Ht in H. by destruct (lates _).
Qed.

(** Two reals that run and are down, in a service of quorum 10. *)
Definition started_real (c : Real.Config) : Real := (Real.Run 0 true (Real.New c)).2.
Definition two_fleet : gmap key.Real Real :=
  {[rk1 := started_real (real_config false [tcp 80; tcp 443]); rk2 := started_real other_config]}.
Definition svc10 : Service := New (svc_config 10 0 "a" (two_reals false)).
Definition conc0 : Conc := MkConc two_fleet svc10 world0 [].

(** An event from its arrival to its end. *)
Definition whole (now : Z) (k : key.Real) (e : xevent.Event) : list action := Arrive now k e :: replicate 7 (Advance 0).

(** Both reals come up, their events taking turns up to the quorum. *)
Definition turns : list action :=
  [Arrive 1 rk1 succeed; Arrive 1 rk2 succeed; Advance 1; Advance 0; Advance 1; Advance 1; Advance 0; Advance 0] ++
  replicate 4 (Advance 1) ++ replicate 4 (Advance 0).

Lemma two_fleet_inv k r : two_fleet !! k = Some r -> es_inv r /\ es_key r = k.
Proof.
  unfold two_fleet. intros [[<- <-]|[_ [<- <-]%lookup_singleton_Some]]%lookup_insert_Some;
    (split; [intros Hi; vm_compute in Hi; discriminate|vm_compute; reflexivity]).
Qed.

Lemma two_fleet_down : delta_inv (bevents (wbalancer world0)) all_down (fleet_view all_down (skey svc10) two_fleet).
Proof.
  eapply delta_inv_proper; [|apply delta_inv_new]. intros k. unfold fleet_view. case_decide; [|done].
  destruct (two_fleet !! key.BReal k) as [r|] eqn:Hr; [|done]. unfold two_fleet in Hr.
  apply lookup_insert_Some in Hr as [[_ <-]|[_ [_ <-]%lookup_singleton_Some]]; split; reflexivity.
Qed.

Lemma conc0_accounts : fleet_inv (two_fleet, svc10, world0).
Proof. split; [split_and!; vm_compute; reflexivity|]. intros k r Hr. by apply (two_fleet_inv k). Qed.

(** After four actions both reals are up, and the account knows of one. *)
Lemma interleaved_accounting_witness :
  let c := run (take 5 turns) conc0 in
  along handles (take 5 turns) conc0 /\ Weight (state (svc c)) = 10 /\ fleet_weight (fleet c) = 20 /\
  accounts (svc c) (fleet_weight (fleet c) - 10) (fleet_alive (fleet c) - 1).
Proof.
  assert (along handles (take 5 turns) conc0) as Hal
    by (apply (alongb_along handlesb); [exact handlesb_ok|vm_compute; reflexivity]).
  split; [exact Hal|]. split; [vm_compute; reflexivity|]. split; [vm_compute; reflexivity|].
  exact (proj1 (interleaved_accounting (take 5 turns) two_fleet svc10 world0 conc0_accounts Hal)).
Defined.

Lemma one_event_at_a_time_tracks_witness :
  along one_at_a_time turns conc0 /\
  delta_inv (bevents (wbalancer (cworld (run turns conc0)))) all_down
    (fleet_view all_down (skey svc10) (fleet (run turns conc0))).
Proof.
  assert (along one_at_a_time turns conc0) as Hal
    by (apply (alongb_along one_at_a_timeb); [exact one_at_a_timeb_ok|vm_compute; reflexivity]).
  split; [exact Hal|].
  apply (one_event_at_a_time_tracks all_down all_down turns two_fleet svc10 world0 two_fleet_inv).
  - apply two_fleet_down.
  - exact Hal.
  - intros t Ht. change (threads _) with (@nil thread) in Ht. by apply not_elem_of_nil in Ht.
Defined.

Lemma decisions_alone_announce_witness :
  along decisions_alone turns conc0 /\ Alive (state (svc (run turns conc0))) = true /\
  delta_inv (serviceEventRegistry (wannouncer (cworld (run turns conc0)))) all_disabled
    (fupd all_disabled (skey svc10) ServiceEnabled).
Proof.
  assert (along decisions_alone turns conc0) as Hal
    by (apply (alongb_along decisions_aloneb); [exact decisions_aloneb_ok|vm_compute; reflexivity]).
  assert (SAnnounceGroup (config svc10) <> "") as Hg by (vm_compute; discriminate).
  split; [exact Hal|].
  destruct (decisions_alone_announce all_disabled all_disabled turns two_fleet svc10 world0 Hg eq_refl
              ltac:(apply delta_inv_new) eq_refl Hal) as [Ha Hd].
  { intros t Ht. change (threads _) with (@nil thread) in Ht. by apply not_elem_of_nil in Ht. }
  assert (Alive (state (svc (run turns conc0))) = true) as Hr by (vm_compute; reflexivity).
  split; [exact Hr|]. change (MkConc two_fleet svc10 world0 []) with conc0 in Hd. rewrite Hr in Hd. exact Hd.
Defined.

Definition movesb (a : action) (c : Conc (R := Real)) : bool :=
  match a with Advance i => bool_decide (is_Some (threads c !! i)) | Arrive _ _ _ => false end.

Lemma movesb_ok a c : movesb a c = true -> moves a c.
Proof. destruct a as [|i]; [done|]. by intros H%bool_decide_eq_true. Qed.

(** The second thread has nothing to announce. *)
Definition moving : list action := drop 2 (take 14 turns).

Lemma handlers_terminate_witness :
  let c := run (take 2 turns) conc0 in
  along moves moving c /\ length moving = 12%nat /\ lsum left (threads c) = 14 /\ threads (run moving c) = [].
Proof.
  cbv zeta. set (c := run (take 2 turns) conc0).
  assert (along moves moving c) as Hal by (apply (alongb_along movesb); [exact movesb_ok|vm_compute; reflexivity]).
  split; [exact Hal|]. split; [reflexivity|]. split; [vm_compute; reflexivity|].
  apply (handlers_terminate moving c Hal). intros i [t Ht].
  assert (threads (run moving c) = []) as Hn by (vm_compute; reflexivity). rewrite Hn, lookup_nil in Ht. discriminate Ht.
Defined.

(** A real of two checkers is up.  One checker fails and the other succeeds
    again; the real handles the failure first, but the success reaches the
    balancer first.  The balancer is left with a pending event that disables a
    real that is enabled, and no event of the real is on its way. *)
Theorem reordered_events_disable_a_healthy_real :
  let c := run (whole 1 rk1 succeed ++
                [Arrive 2 rk1 fail; Advance 0; Arrive 3 rk1 succeed] ++ replicate 6 (Advance 1) ++ replicate 6 (Advance 0)) conc0 in
  threads c = [] /\ (fun r => xevent.SEnable (es_status r)) <$> fleet c !! rk1 = Some true /\
  (fun e => xevent.SEnable (xevent.ENew e)) <$> events (bevents (wbalancer (cworld c))) !! key.MkBalancer (skey svc10) rk1 = Some false.
Proof. vm_compute. repeat split. Qed.

(** A service of quorum 10 is alive by its second real.  That one fails, and
    its handler sees that the quorum is lost; before it goes on the first real
    comes up, whose handler finds the service still alive.  The service is then
    disabled and withdrawn, with the weight of its quorum. *)
Theorem stale_quorum_withdraws :
  let c := run (whole 1 rk2 succeed ++
                [Arrive 2 rk2 fail] ++ replicate 4 (Advance 0) ++ [Arrive 3 rk1 succeed] ++ replicate 5 (Advance 1) ++
                replicate 3 (Advance 0)) conc0 in
  threads c = [] /\ Weight (state (svc c)) = 10 /\ next_alive (svc c) = true /\ Alive (state (svc c)) = false /\
  (* the announcer was told of the first change, and the second took it back *)
  events (serviceEventRegistry (wannouncer (cworld c))) !! skey svc10 = None.
Proof. vm_compute. repeat split. Qed.
End concrete.
