(* ===== verification/Reloading.v ===== *)
(** * A reload while handlers run

    [Reload] of [internal/core/service/service.go] does not hold the locks that the
    handlers take: while it goes through the configured reals, their events are on
    their way as in [Interleaving].  Here the assignments of a reload - a real gets
    its new configuration, a new real appears, a stopped one is forgotten, the
    service gets its configuration and processes its announcement - are actions
    among those of the handlers. *)

From Stdlib Require Import SpecFloat.
From stdpp Require Import strings numbers gmap sets list.
From S2P Require Import Prelude.
From S2P Require Import Types.
From S2P Require Import Registry.
From S2P Require Import Announcer.
From S2P Require Import Balancer.
From S2P Require Import Scheduler.
From S2P Require Import Checker.
From S2P Require Import Real.
From S2P Require Import Service.
From S2P Require Import Interleaving.

Open Scope Z_scope.
Open Scope go_scope.

Section reloading.
Context {R : Type} `{ES : EventSource R}.

Inductive control :=
| Handler (a : action)
| Replace (k : key.Real) (g : R -> R)   (* [knownReal.Reload] has stopped what is outdated, and assigns *)
| Create (r : R)                        (* a new real *)
| Forget (k : key.Real)                 (* [real.Stop] has returned *)
| Configure (cfg : Service.Config)      (* [m.config = config] *)
| Announce.                             (* [m.processAnnounce()], in the goroutine of the reload *)

Definition ctl (a : control) (c : Conc (R := R)) : Conc :=
  match a with
  | Handler a => act a c
  | Replace k g =>
      match fleet c !! k with
      | Some r => MkConc (<[k := g r]> (fleet c)) (svc c) (cworld c) (threads c)
      | None => c
      end
  | Create r => MkConc (<[es_key r := r]> (fleet c)) (svc c) (cworld c) (threads c)
  | Forget k => MkConc (delete k (fleet c)) (svc c) (cworld c) (threads c)
  | Configure cfg =>
      let m := svc c in
      let m := MkService cfg (skey m) (reals m) (realsPool m) (state m) (realsTotal m) (realsEnabled m) (shutdown m) in
      MkConc (fleet c) m (cworld c) (threads c)
  | Announce => MkConc (fleet c) (svc c) (cworld c) (threads c ++ [Updating])
  end.

Definition play (l : list control) (c : Conc) : Conc := for_each ctl l c.

Fixpoint throughout (P : control -> Conc -> Prop) (l : list control) (c : Conc) : Prop :=
  match l with
  | [] => True
  | a :: l => P a c /\ throughout P l (ctl a c)
  end.

Lemma throughout_inv (P : control -> Conc -> Prop) (I : Conc -> Prop) l c :
  (forall a c, P a c -> I c -> I (ctl a c)) -> throughout P l c -> I c -> I (play l c).
Proof.
  intros Hstep. revert c. induction l as [|a l IH]; intros c; [done|].
  intros [H1 H2] HI. apply (IH (ctl a c)); [done|by apply Hstep].
Qed.

(** What a reload does and does not: the new configuration of a real leaves its
    status alone, a new real is down and not known, a stopped real is down and
    none of its events is on its way. *)
Definition careful (P : action -> Conc -> Prop) (a : control) (c : Conc) : Prop :=
  match a with
  | Handler a => P a c
  | Replace k g => forall r, fleet c !! k = Some r -> es_inv r -> es_inv (g r) /\ es_key (g r) = es_key r /\ es_status (g r) ≈ es_status r
  | Create r => fleet c !! es_key r = None /\ es_inv r /\ es_status r ≈ down
  | Forget k => k ∉ omap real_of (threads c) /\ forall r, fleet c !! k = Some r -> es_status r ≈ down
  | Configure _ | Announce => True
  end.

(** The handlers' actions of a schedule are a schedule. *)
Lemma play_app l1 l2 c : play (l1 ++ l2) c = play l2 (play l1 c).
Proof. unfold play, for_each. by rewrite foldl_app. Qed.

Lemma throughout_app P l1 l2 c : throughout P (l1 ++ l2) c <-> throughout P l1 c /\ throughout P l2 (play l1 c).
Proof. revert c. induction l1 as [|a l1 IH]; intros c; [by cbn; intuition|]. cbn. rewrite IH. by intuition. Qed.

Lemma play_handlers l c : play (Handler <$> l) c = run l c.
Proof. revert c. induction l as [|a l IH]; intros c; [done|]. apply (IH (act a c)). Qed.

Lemma throughout_handlers P l c : along P l c -> throughout (careful P) (Handler <$> l) c.
Proof. revert c. induction l as [|a l IH]; intros c; [done|]. intros [H1 H2]. split; [done|by apply IH]. Qed.

(** ** The account *)

Lemma fleet_replaced (f : gmap key.Real R) k r r' :
  f !! k = Some r -> es_status r' ≈ es_status r ->
  fleet_weight (<[k := r']> f) = fleet_weight f /\ fleet_alive (<[k := r']> f) = fleet_alive f.
Proof.
  intros Hr Hs. unfold fleet_weight, fleet_alive.
  rewrite (msum_update (fun r => xevent.status_weight (es_status r)) f k r r' Hr),
          (msum_update (fun r => xevent.status_alive (es_status r)) f k r r' Hr), Hs. lia.
Qed.

Lemma fleet_created (f : gmap key.Real R) k r :
  f !! k = None -> es_status r ≈ down -> fleet_weight (<[k := r]> f) = fleet_weight f /\ fleet_alive (<[k := r]> f) = fleet_alive f.
Proof. intros Hk Hs. unfold fleet_weight, fleet_alive. rewrite !msum_insert, Hs by done. done. Qed.

Lemma fleet_forgotten (f : gmap key.Real R) k :
  (forall r, f !! k = Some r -> es_status r ≈ down) ->
  fleet_weight (delete k f) = fleet_weight f /\ fleet_alive (delete k f) = fleet_alive f.
Proof.
  intros Hk. destruct (f !! k) as [r|] eqn:Hr; [|by rewrite delete_id].
  unfold fleet_weight, fleet_alive. specialize (Hk r eq_refl).
  rewrite (msum_delete (fun r => xevent.status_weight (es_status r)) f k r Hr),
          (msum_delete (fun r => xevent.status_alive (es_status r)) f k r Hr), Hk. done.
Qed.

Lemma ctl_account a c : careful handles a c -> holds account_inv c -> holds account_inv (ctl a c).
Proof.
  destruct a as [a|k g|r|k|cfg|]; cbn [careful ctl]; intros Hc HI; [by apply act_account|..]; destruct HI as (Ha & Hf & Hs).
  - destruct (fleet c !! k) as [r|] eqn:Hr; [|done]. destruct (Hc r eq_refl (Hf k r Hr)) as (Hi & _ & Hst).
    destruct (fleet_replaced (fleet c) k r (g r) Hr Hst) as [E1 E2].
    split_and!; cbn; [by rewrite E1, E2|by apply map_Forall_insert_2|done].
  - destruct Hc as (Hr & Hi & Hst). destruct (fleet_created (fleet c) _ r Hr Hst) as [E1 E2].
    split_and!; cbn; [by rewrite E1, E2|by apply map_Forall_insert_2|done].
  - destruct Hc as [_ Hst]. destruct (fleet_forgotten (fleet c) k Hst) as [E1 E2].
    split_and!; cbn; [by rewrite E1, E2|by apply map_Forall_delete|done].
  - done.
  - split_and!; cbn; [by rewrite !lsum_app, !Z.add_0_r|done|]. apply Forall_app. split; [done|by repeat constructor].
Qed.


(** ** What the load balancer is told *)

Section told.
Context (applied base : key.Balancer -> xevent.Status).

(** The reals change, and what the balancer should know of them does not. *)
Lemma flight_fleet (f : gmap key.Real R) f' sk b l :
  (forall k r, f' !! k = Some r -> es_inv r /\ es_key r = k) ->
  (forall k, fleet_view base sk f' k ≈ fleet_view base sk f k) ->
  (forall t e r, t ∈ l -> flies t = Some e -> f !! key.BReal (xevent.EBalancer e) = Some r ->
     exists r', f' !! key.BReal (xevent.EBalancer e) = Some r' /\ es_status r' ≈ es_status r) ->
  flight applied base f sk b l -> flight applied base f' sk b l.
Proof.
  intros Hf Hv Hk (_ & H2 & H3 & cur & Hd & H4 & H5). split_and!; [done..|]. exists cur. split_and!; [done| |].
  - intros t e Ht Hfl. destruct (H4 t e Ht Hfl) as (HI & r & Hr & HN). split; [done|].
    destruct (Hk t e r Ht Hfl Hr) as (r' & Hr' & Hs). exists r'. split; [done|]. by rewrite Hs.
  - intros k Hfr. rewrite Hv. by apply H5.
Qed.

Lemma view_status sk (f : gmap key.Real R) k r :
  (forall r', f !! k = Some r' -> es_status r ≈ es_status r') -> (f !! k = None -> es_status r ≈ down) ->
  forall k', fleet_view base sk (<[k := r]> f) k' ≈ fleet_view base sk f k'.
Proof.
  intros H1 H2 k'. unfold fleet_view. destruct (decide _); [|done]. rewrite lookup_insert.
  destruct (decide (k = key.BReal k')) as [<-|]; [|done]. destruct (f !! k) as [r'|]; [by apply H1|by apply H2].
Qed.

Lemma fleet_keyed (f : gmap key.Real R) k r :
  (forall k r, f !! k = Some r -> es_inv r /\ es_key r = k) -> es_inv r -> es_key r = k ->
  forall k' r', <[k := r]> f !! k' = Some r' -> es_inv r' /\ es_key r' = k'.
Proof. intros Hf Hi Hk k' r'. rewrite lookup_insert. case_decide as Hk'; [|apply Hf]. intros [= <-]. split; [done|congruence]. Qed.

Lemma flies_real t e : flies t = Some e -> real_of t = Some (key.BReal (xevent.EBalancer e)).
Proof. destruct t; try done; cbn; by intros [= ->]. Qed.

Lemma ctl_flight sk a c :
  careful one_at_a_time a c -> holds (flight_inv applied base sk) c -> holds (flight_inv applied base sk) (ctl a c).
Proof.
  destruct a as [a|k g|r|k|cfg|]; cbn [careful ctl]; intros Hc HI; [by apply act_flight|..]; destruct HI as [Hsk HF].
  - destruct (fleet c !! k) as [r|] eqn:Hr; [|by split]. pose proof HF as (H1 & _). destruct (H1 k r Hr) as [Hi Hk].
    destruct (Hc r eq_refl Hi) as (Hi' & Hk' & Hst). split; [done|]. eapply flight_fleet; [..|exact HF].
    + apply fleet_keyed; [done|done|congruence].
    + apply view_status; [by intros r' [= <-]%(eq_trans (eq_sym Hr))|congruence].
    + intros t e r' Ht Hfl Hr'. cbn [fleet]. rewrite lookup_insert. case_decide as Hd; [|by exists r']. exists (g r). split; [done|].
      rewrite <- Hd, Hr in Hr'. by injection Hr' as <-.
  - destruct Hc as (Hr & Hi & Hst). split; [done|]. pose proof HF as (H1 & _). eapply flight_fleet; [..|exact HF].
    + by apply fleet_keyed.
    + apply view_status; [congruence|done].
    + intros t e r' Ht Hfl Hr'. cbn [fleet]. rewrite lookup_insert_ne by congruence. by exists r'.
  - destruct Hc as [Hk Hst]. split; [done|]. pose proof HF as (H1 & _). eapply flight_fleet; [..|exact HF].
    + cbn [fleet]. intros k' r' [_ Hr']%lookup_delete_Some. by apply H1.
    + intros k'. unfold fleet_view. cbn [fleet]. destruct (decide _); [|done]. rewrite lookup_delete. destruct (decide (k = key.BReal k')) as [->|]; [|done].
      destruct (fleet c !! key.BReal k') as [r|] eqn:Hr; [|done]. symmetry. by apply Hst.
    + intros t e r' Ht Hfl Hr'. cbn [fleet]. rewrite lookup_delete_ne; [by exists r'|]. intros ->. apply Hk, list_elem_of_omap. exists t.
      split; [done|by apply flies_real].
  - by split.
  - split; [done|]. cbn. destruct HF as (H1 & H2 & H3 & cur & Hd & H4 & H5).
    assert (forall t, t ∈ threads c ++ [Updating] -> t ∈ threads c \/ t = Updating) as Hin by (intros t; set_solver).
    split_and!; [done|by rewrite omap_app, app_nil_r|intros e [?|?]%Hin; [by apply H3|done]|]. exists cur. split_and!; [done| |].
    + intros t e [?| ->]%Hin Hfl; [by apply (H4 t)|done].
    + intros k Hk. apply H5. intros t e Ht. apply Hk. set_solver.
Qed.
End told.

End reloading.

(** ** The reals of the program *)

Section reals.
Context `{F : FloatToInt} `{MR : MapRange}.

(** The assignments at the end of [reload] of [internal/core/real/real.go]. *)
Definition assigned (cfg : Real.Config) (l : reloadLoop) (m : Real) : Real :=
  let s := Real.state m in
  let s := Real.MkState (Real.Alive s) (Real.Weight s) (Real.Transitions s) (dynamicWeight_ l) (TransitionTimestamp s) (Inhibited s) in
  MkReal cfg (rkey m) (newCheckers l) (pool l) s (isActive m) (Real.shutdown m).

(** A reload of a real that is not interrupted sends the shutdown events of the
    checkers it stops, and then assigns. *)
Lemma reload_assigns now cfg (m : Real) :
  Real.shutdown m = false ->
  let l := for_each (reloadChecker (bool_decide (ForwardingMethod (Real.config m) <> ForwardingMethod cfg))
                       (bool_decide (RWeight (Real.config m) <> RWeight cfg)) (RWeight cfg)) (checkers_of cfg)
             (MkReloadLoop (checkers m) ∅ (checkersPool m) false) in
  reload now cfg m = let '(evs, m') := stopCheckers now (oldCheckers l) m in (evs, assigned cfg l m').
Proof. intros Hs. unfold reload. by rewrite Hs. Qed.

Lemma careful_Replace P k cfg l c : careful P (Replace k (assigned cfg l)) c.
Proof. intros r _ Hi. split; [exact Hi|]. by split. Qed.

Lemma careful_Create P cfg c : fleet c !! Real.Key cfg = None -> careful P (Create (Real.New cfg)) c.
Proof. intros Hk. by split_and!. Qed.
End reals.

Section concrete.
(** The first real gets another weight, and the service another quorum, while the
    first events of both reals are on their way; a third real is created and
    given up. *)
Definition heavier : Real -> Real := assigned (real_config false [tcp 80]) (MkReloadLoop ∅ ∅ [] false).
Definition third : Real.Config := Real.MkConfig (AddrV4 7) 80 5 false None "TUN" sched0 [] [] [] [].
Definition reconfigure : list control :=
  [Replace rk1 heavier; Create (Real.New third); Configure (svc_config 15 0 "a" (two_reals false)); Forget (Real.Key third); Announce].
Definition schedule : list control := (Handler <$> take 5 turns) ++ reconfigure ++ (Handler <$> drop 5 turns ++ replicate 4 (Advance 0)).

Lemma reconfigure_careful (P : action -> Conc -> Prop) : throughout (careful P) reconfigure (run (take 5 turns) conc0).
Proof.
  split; [apply careful_Replace|]. split; [apply careful_Create; vm_compute; reflexivity|]. split; [done|]. split; [|done].
  set (c := ctl _ _).
  assert (fleet c !! Real.Key third = Some (Real.New third) /\ omap real_of (threads c) = [rk1; rk2]) as [Hr Ht] by (split; vm_compute; reflexivity).
  split; [rewrite Ht; by intros [?|[?|?%not_elem_of_nil]%elem_of_cons]%elem_of_cons|]. intros r. rewrite Hr. by intros [= <-].
Qed.

Lemma schedule_careful (P : action -> Conc -> Prop) (Pb : action -> Conc -> bool) :
  (forall a c, Pb a c = true -> P a c) -> alongb Pb (take 5 turns) conc0 = true ->
  alongb Pb (drop 5 turns ++ replicate 4 (Advance 0)) (play reconfigure (run (take 5 turns) conc0)) = true ->
  throughout (careful P) schedule conc0.
Proof.
  intros HP H1 H2. unfold schedule. rewrite !throughout_app, !play_handlers.
  split; [by apply throughout_handlers, (alongb_along Pb)|]. split; [apply reconfigure_careful|].
  by apply throughout_handlers, (alongb_along Pb).
Qed.


End concrete.
