(* ===== verification/Delivery.v ===== *)
(** * Handlers that interleave with the balancer's updates

    The handlers of a service ([Interleaving]) together with the goroutine of
    [updater] in [internal/balancer/balancer.go], which passes on what they have
    registered: to the load balancer, and to the announcer.  The update keeps the
    lock of the events' registry while it makes its requests, so it is one action
    for the handlers; the service events it has taken are its own until it has
    passed them on. *)

From Stdlib Require Import SpecFloat.
From stdpp Require Import strings numbers gmap sets list.
From S2P Require Import Prelude.
From S2P Require Import Types.
From S2P Require Import Registry.
From S2P Require Import Utils.
From S2P Require Import Prefixes.
From S2P Require Import Announcer.
From S2P Require Import Balancer.
From S2P Require Import Real.
From S2P Require Import Service.
From S2P Require Import Interleaving.

Open Scope Z_scope.
Open Scope go_scope.

Section delivery.
Context {R : Type} `{ES : EventSource R} `{MR : MapRange} {W E : Type} `{CL : LoadBalancerLaws W E}.

Record Sys := MkSys { handlers : Conc (R := R); lb : W }.

Inductive sys_action := Handler (a : action) | Update.

(** The log of the update is returned with it. *)
Definition update (s : Sys) : Sys * list (balancerLog E) :=
  let c := handlers s in
  let '(b, a, w, log) := updateBalancer (wbalancer (cworld c)) (wannouncer (cworld c)) (lb s) in
  (MkSys (MkConc (fleet c) (svc c) (MkWorld a b) (threads c)) w, log).

(** An update leaves the service, its reals and the events on their way alone. *)
Lemma update_keeps s :
  fleet (handlers (update s).1) = fleet (handlers s) /\ svc (handlers (update s).1) = svc (handlers s) /\
  threads (handlers (update s).1) = threads (handlers s).
Proof. unfold update. by destruct (updateBalancer _ _ _) as [[[? ?] ?] ?]. Qed.

Definition sys_act (x : sys_action) (s : Sys) : Sys :=
  match x with
  | Handler a => MkSys (act a (handlers s)) (lb s)
  | Update => (update s).1
  end.

Definition sys_run (l : list sys_action) (s : Sys) : Sys := for_each sys_act l s.

(** The events of a real one at a time, decisions one at a time, and no flush
    refused ([refused_flush_not_retried]); requests may be. *)
Definition sys_ok (x : sys_action) (s : Sys) : Prop :=
  match x with
  | Handler a => one_at_a_time a (handlers s) /\ decisions_alone a (handlers s)
  | Update =>
      msize (events (bevents (wbalancer (cworld (handlers s))))) < two63 /\ existsb is_LogFlush (update s).2 = false
  end.

Fixpoint sys_along (l : list sys_action) (s : Sys) : Prop :=
  match l with
  | [] => True
  | x :: l => sys_ok x s /\ sys_along l (sys_act x s)
  end.

Section invariant.
Context (base : key.Balancer -> xevent.Status) (sk : key.Service).

Definition sys_inv (s : Sys) : Prop :=
  let c := handlers s in
  let a := wannouncer (cworld c) in
  holds (flight_inv (configured (lb s)) base sk) c /\
  (forall k, active_status (lb s) k = configured (lb s) k) /\
  ann_inv a /\
  exists applied current, holds (serial_inv applied current sk) c /\ service_status a sk = Some (applied sk).

(** A handler leaves the announcer as it is, or registers an event. *)
Lemma act_announcer a c :
  wannouncer (cworld (act a c)) = wannouncer (cworld c) \/
  exists s st, wannouncer (cworld (act a c)) = RegisterServiceEvent s st (wannouncer (cworld c)).
Proof.
  destruct a as [now k e|i]; cbn [act]; [by left|]. destruct (threads c !! i) as [t|]; [|by left].
  destruct t as [now k e|e|e| |q| |st]; cbn [advance]; try (by left); try (by right; eauto).
  - destruct (fleet c !! k) as [r|]; [|by left]. destruct (es_handle now e r). by left.
  - destruct (processEvent e (svc c)). by left.
  - destruct (match q with quorumHold => _ | quorumUp => _ | quorumDown => _ end). by left.
Qed.

Lemma sys_handler a s : one_at_a_time a (handlers s) -> decisions_alone a (handlers s) -> sys_inv s -> sys_inv (sys_act (Handler a) s).
Proof.
  destruct s as [c w]. unfold sys_inv. cbn [handlers lb sys_act]. intros H1 H2 (Hf & Ha & Hi & applied & current & Hs & Hst).
  split_and!; [by apply act_flight|done| |exists applied, current; split; [by apply act_serial|]].
  - destruct (act_announcer a c) as [->|(s & st & ->)]; [done|exact (do_ann_inv (OpRegister s st) _ I Hi)].
  - destruct (act_announcer a c) as [->|(s & st & ->)]; exact Hst.
Qed.

(** An update keeps what the load balancer knows in step with what the handlers
    have told the balancer. *)
Lemma update_flight s :
  msize (events (bevents (wbalancer (cworld (handlers s))))) < two63 -> existsb is_LogFlush (update s).2 = false ->
  holds (flight_inv (configured (lb s)) base sk) (handlers s) -> (forall k, active_status (lb s) k = configured (lb s) k) ->
  holds (flight_inv (configured (lb (update s).1)) base sk) (handlers (update s).1) /\
  (forall k, active_status (lb (update s).1) k = configured (lb (update s).1) k) /\
  (existsb is_LogReal (update s).2 = false -> forall k cur,
    delta_inv (bevents (wbalancer (cworld (handlers s)))) (configured (lb s)) cur -> configured (lb (update s).1) k ≈ cur k).
Proof.
  destruct s as [[f m [a b] ths] w]. unfold update, holds, flight_inv. cbn [handlers lb fleet svc cworld threads wannouncer wbalancer].
  destruct (updateBalancer b a w) as [[[b' a'] w'] log] eqn:Eu. cbn [handlers lb fleet svc cworld threads wannouncer wbalancer fst snd].
  intros Hsz Hlog (Hk & HF) Hact.
  assert (forall cur, delta_inv (bevents b) (configured w) cur ->
    delta_inv (bevents b') (configured w') cur /\ (forall k, active_status w' k = configured w' k) /\
    (existsb is_LogReal log = false -> forall k, configured w' k ≈ cur k)) as HU.
  { intros cur Hcur. destruct (updateBalancer_inv b a w cur b' a' w' log Hsz Eu) as [[Hd' Ha'] Hc]; [by split|done|]. by split_and!. }
  destruct HF as (H1 & H2 & H3 & cur & Hcur & H4 & H5). destruct (HU cur Hcur) as (Hd' & Ha' & _).
  split; [split; [done|]; split; [done|]; split; [done|]; split; [done|]; by exists cur|]. split; [done|].
  intros Hr k cur' Hcur'. by apply HU.
Qed.

(** What was pending for the announcer has been passed on. *)
Lemma update_serial applied current s :
  let a := wannouncer (cworld (handlers s)) in
  ann_inv a -> holds (serial_inv applied current sk) (handlers s) -> service_status a sk = Some (applied sk) ->
  let c' := handlers (update s).1 in
  ann_inv (wannouncer (cworld c')) /\ events (serviceEventRegistry (wannouncer (cworld c'))) = ∅ /\
  exists applied', holds (serial_inv applied' current sk) c' /\ service_status (wannouncer (cworld c')) sk = Some (applied' sk).
Proof.
  destruct s as [[f m [a b] ths] w]. unfold update, holds, serial_inv. cbn [handlers lb fleet svc cworld threads wannouncer wbalancer].
  destruct (updateBalancer b a w) as [[[b' a'] w'] log] eqn:Eu. cbn [handlers lb fleet svc cworld threads wannouncer wbalancer fst snd].
  intros Hi (Hk & Hg & o & Ho & Hd & Hr & Hdec) Hst.
  destruct (updateBalancer_delivers b b' a a' w w' log sk Hi Eu) as (Hi' & Hempty & Hst').
  split; [done|]. split; [done|]. pose proof (Hd sk) as Hdk. unfold fupd in Hdk. rewrite Hk, decide_True in Hdk by done.
  rewrite Hst in Hst'. cbn in Hst'.
  exists (fupd current sk (told o m)). split.
  - split; [done|]. split; [done|]. exists o. split_and!; [done| |done|done]. intros k. cbn [wannouncer]. rewrite Hempty, lookup_empty, Hk. done.
  - rewrite Hst'. unfold fupd. rewrite decide_True by done. f_equal.
    cbn [wannouncer] in Hdk. destruct (events (serviceEventRegistry a) !! sk) as [st|]; [|done]. by destruct Hdk as [Hdk _].
Qed.

Lemma sys_update s :
  msize (events (bevents (wbalancer (cworld (handlers s))))) < two63 -> existsb is_LogFlush (update s).2 = false ->
  sys_inv s ->
  sys_inv (update s).1 /\ events (serviceEventRegistry (wannouncer (cworld (handlers (update s).1)))) = ∅ /\
  (existsb is_LogReal (update s).2 = false -> forall k cur,
    delta_inv (bevents (wbalancer (cworld (handlers s)))) (configured (lb s)) cur -> configured (lb (update s).1) k ≈ cur k).
Proof.
  intros Hsz Hlog (HF & Hact & Hi & applied & current & Hs & Hst).
  destruct (update_flight s Hsz Hlog HF Hact) as (HF' & Hact' & Hdel).
  destruct (update_serial applied current s Hi Hs Hst) as (Hi' & Hempty & applied' & Hs' & Hst').
  split; [|by split]. split; [done|]. split; [done|]. split; [done|]. by exists applied', current.
Qed.
End invariant.

Lemma sys_along_inv base sk l s : sys_along l s -> sys_inv base sk s -> sys_inv base sk (sys_run l s).
Proof.
  revert s. induction l as [|x l IH]; intros s; [done|]. intros [Hx Hl] Hi. change (sys_run (x :: l) s) with (sys_run l (sys_act x s)).
  apply IH; [done|]. destruct x as [a|]; [by apply sys_handler; destruct Hx|]. by apply sys_update; destruct Hx.
Qed.

Lemma sys_along_app l x s : sys_along (l ++ [x]) s -> sys_along l s /\ sys_ok x (sys_run l s).
Proof.
  revert s. induction l as [|y l IH]; intros s; cbn [app sys_along]; [intros [? _]; by split|]. intros [Hy Hl].
  destruct (IH _ Hl) as [H1 H2]. by split; [split|].
Qed.

End delivery.

(** ** A concrete schedule *)

Section concrete.
Notation sys := (Sys (R := Real) (W := LB)).

Definition sys_okb (x : sys_action) (s : sys) : bool :=
  match x with
  | Handler a => one_at_a_timeb a (handlers s) && decisions_aloneb a (handlers s)
  | Update =>
      (msize (events (bevents (wbalancer (cworld (handlers s))))) <? two63) && negb (existsb is_LogFlush (update s).2)
  end.

Fixpoint sys_alongb (l : list sys_action) (s : sys) : bool :=
  match l with
  | [] => true
  | x :: l => sys_okb x s && sys_alongb l (sys_act x s)
  end.

Lemma sys_alongb_ok l s : sys_alongb l s = true -> sys_along l s.
Proof.
  revert s. induction l as [|x l IH]; intros s; [done|]. cbn [sys_alongb]. intros [H1 H2]%andb_prop. split; [|by apply IH].
  destruct x as [a|]; cbn [sys_okb] in H1; apply andb_prop in H1 as [H1 H3]; split.
  - by apply one_at_a_timeb_ok.
  - by apply decisions_aloneb_ok.
  - by apply Z.ltb_lt.
  - by apply negb_true_iff in H3.
Qed.

(** The announcer knows the service, which has no reals up. *)
Definition known : Announcer := do_ann (OpReloadServices {[skey svc10 := "a"%string]}) (Announcer.New config1).

(** An update that takes the event of the second real alone, and is refused its
    request, comes between the handlers. *)
Definition with_updates : list sys_action := (Handler <$> take 6 turns) ++ [Update] ++ (Handler <$> drop 6 turns).
Definition sys0 : sys := MkSys (MkConc two_fleet svc10 (MkWorld known (NewBalancer true)) []) (empty_lb [true]).

End concrete.
