(* ===== verification/Concurrent.v ===== *)
(** * Checkers, handlers and the balancer at the same time

    The goroutines of the checkers ([Checking]), the handlers their events run
    through ([Interleaving]) and the updates of the balancer ([Delivery]) of one
    service whose reals have a checker each and no [InhibitOnFailure].  A checker
    calls its handler under the lock of its state, so its events follow one another;
    nothing else is assumed of the order of the steps. *)

From Stdlib Require Import SpecFloat.
From stdpp Require Import strings numbers gmap sets list relations.
From S2P Require Import Prelude.
From S2P Require Import Types.
From S2P Require Import Registry.
From S2P Require Import Balancer.
From S2P Require Import Scheduler.
From S2P Require Import Check.
From S2P Require Import Checker.
From S2P Require Import Checking.
From S2P Require Import Real.
From S2P Require Import Service.
From S2P Require Import Interleaving.
From S2P Require Import Delivery.

Open Scope Z_scope.
Open Scope go_scope.

Section concurrent.
Context `{F : FloatToInt} `{MR : MapRange} {X W E : Type} `{CL : LoadBalancerLaws W E}.
Context (tls : key.Real -> tlsConfig) (rnd : key.Real -> float64).

Record Prog := MkProg {
  checks : gmap key.Real (Checking (X := X));   (* the checker of each real *)
  sys : Sys (R := Real) (W := W);
}.

Inductive prog_step : Prog -> Prog -> Prop :=
| checker_moves k p q cs s :
    cs !! k = Some p -> either (Checking.own (tls k) (rnd k)) (Checking.env (rnd k)) p q -> sent q = sent p ->
    prog_step (MkProg cs s) (MkProg (<[k := q]> cs) s)
| checker_reports now e k p q cs s :
    cs !! k = Some p -> Checking.own (tls k) (rnd k) p q -> sent q = sent p ++ [e] ->
    k ∉ omap real_of (threads (handlers s)) ->
    prog_step (MkProg cs s) (MkProg (<[k := q]> cs) (sys_act (Handler (Arrive now k e)) s))
| handler_moves i cs s :
    prog_step (MkProg cs s) (MkProg cs (sys_act (Handler (Advance i)) s))
| balancer_updates cs s :
    msize (events (bevents (wbalancer (cworld (handlers s))))) < two63 -> existsb is_LogFlush (update s).2 = false ->
    prog_step (MkProg cs s) (MkProg cs (sys_act Update s)).

(** ** What a checker says, and what its real makes of it *)

(** The last thing a checker has said is that its check succeeds. *)
Definition live (p : Checking (X := X)) : bool :=
  match Checking.running p with
  | Sent | Ended => false
  | _ => Checker.SAlive (Checker.state (chk p))
  end.

Definition says (e : xevent.Event) : bool := bool_decide (xevent.EType e = xevent.Enable).
Definition event_ok (e : xevent.Event) : Prop := xevent.EType e = xevent.Enable \/ xevent.SEnable (xevent.ENew e) = false.

Lemma ProcessCheck_says now md (opErr : option (opError X)) m :
  is_shutdown opErr = false ->
  let '(ev, m') := Checker.ProcessCheck now md opErr m in
  match ev with
  | Some e => event_ok e /\ says e = Checker.SAlive (Checker.state m')
  | None => Checker.SAlive (Checker.state m') = Checker.SAlive (Checker.state m)
  end.
Proof.
  intros Hs. unfold Checker.ProcessCheck. destruct (MAlive md).
  - pose proof (processSucceed_functional now md m) as HF. cbv zeta in HF.
    destruct (Checker.processSucceed now md m) as [ev m']. destruct HF as (-> & _ & _ & ->). cbn [Checker.SAlive].
    destruct (Checker.SAlive (Checker.state m)); cbn [negb orb]; [|by split; [left|]].
    destruct (negb _ || _); [by split; [left|]|done].
  - unfold Checker.processFail, Checker.disableChecker, Checker.failedAttempt. rewrite Hs.
    destruct (_ <? _); cbn; [by split; [right|]|done].
Qed.

Lemma own_says c tls' rnd' p q :
  Checking.inv c p -> Checking.own tls' rnd' p q ->
  (sent q = sent p /\ live q = live p) \/ (exists e, sent q = sent p ++ [e] /\ event_ok e /\ says e = live q).
Proof.
  intros Hi Hs.
  destruct Hs as [| |m w st sh pa ch wg se| | |
    |now ev m' p t i md opErr m w st sh pa ch wg se Hp Ht| | |now ev m' m w st sh pa ch wg se Hp| | | | | |]; try (by left).
  - left. split; [done|]. unfold live. cbn [Checking.running chk].
    by destruct (scheduled_cases (X := X) (Run_start (pa || ch) (sched rnd' m)).1) as [->|[_ ->]].
  - destruct Hi as (_ & _ & (Hop & _) & _). cbn in Hop.
    pose proof (ProcessCheck_says now md opErr m Hop) as HP. rewrite Hp in HP.
    destruct ev as [e|]; [right; exists e|left]; cbn; rewrite ?app_nil_r; unfold live; cbn;
      destruct (scheduled_cases (X := X) p) as [->|[_ ->]]; done.
  - right. exists shutdown_event. pose proof (shutdownEvent_sends (X := X) now m) as He. rewrite Hp in He. cbn in He. subst ev.
    split; [done|]. split; [by right|done].
Qed.

Lemma env_says rnd' p q : Checking.env (X := X) rnd' p q -> sent q = sent p /\ live q = live p.
Proof. by destruct 1. Qed.

(** A real that is not inhibited, and will not be. *)
Definition plain (r : Real) : Prop := Inhibited (Real.state r) = false /\ InhibitOnFailure (Real.config r) = false.

Lemma HandleEvent_says now e (r : Real) :
  plain r -> let r' := (Real.HandleEvent now e r).2 in plain r' /\ Real.Alive (Real.state r') = says e.
Proof.
  destruct r as [c k cs pl [al w tr dyn ts inh] act sh], e as [ty b nw ini]. unfold plain, says. cbn. intros [-> Hi].
  destruct ty; unfold Real.HandleEvent, Real.processSucceed, Real.processFail, Real.updateWeight, enableReal, disableReal; cbn -[handleDynamicWeight].
  - by destruct (w =? handleDynamicWeight _ _ _), al.
  - by rewrite Hi; destruct al.
  - by rewrite Hi; destruct al.
Qed.

Lemma plain_ok e r : plain r -> event_ok e -> real_ok e r.
Proof. intros [_ Hi] He. split; [done|]. rewrite Hi. by intros (_ & _ & _ & ?). Qed.

(** ** The invariant *)

(** The event of a checker that its real has not judged says what the checker
    says; a real without one is as its checker says. *)
Definition agree (cs : gmap key.Real (Checking (X := X))) (f : gmap key.Real Real) (l : list thread) : Prop :=
  (forall k p, cs !! k = Some p ->
     (exists c, Checking.inv c p) /\
     exists r, f !! k = Some r /\
       (forall now e, Handling now k e ∈ l -> event_ok e /\ says e = live p) /\
       ((forall now e, Handling now k e ∉ l) -> Real.Alive (Real.state r) = live p)) /\
  (forall k r, f !! k = Some r -> is_Some (cs !! k) /\ plain r).

Lemma agree_same cs f l l' :
  (forall now k e, Handling now k e ∈ l' <-> Handling now k e ∈ l) -> agree cs f l -> agree cs f l'.
Proof.
  intros Hl [H1 H2]. split; [|done]. intros k p Hp. destruct (H1 k p Hp) as (Hc & r & Hr & Hh & Ha). split; [done|].
  exists r. split; [done|]. split; [intros now e ?%Hl; by apply (Hh now)|]. intros Hn. apply Ha. intros now e ?%Hl. by apply (Hn now e).
Qed.

(** A checker goes on, and says what it has said, or something new. *)
Lemma agree_checker cs f l l' k p q :
  cs !! k = Some p -> (exists c, Checking.inv c q) ->
  (forall now k' e, k' <> k -> Handling now k' e ∈ l' <-> Handling now k' e ∈ l) ->
  ((live q = live p /\ forall now e, Handling now k e ∈ l' <-> Handling now k e ∈ l) \/
   exists now e, event_ok e /\ says e = live q /\ forall now' e', Handling now' k e' ∈ l' <-> now' = now /\ e' = e) ->
  agree cs f l -> agree (<[k := q]> cs) f l'.
Proof.
  intros Hk Hq Hl Hs [H1 H2]. split; [|intros k' r Hr; rewrite lookup_insert_is_Some'; destruct (H2 k' r Hr); split; [by right|done]].
  intros k' p'. rewrite lookup_insert. case_decide as Hd.
  - intros [= <-]. subst k'. split; [done|]. destruct (H1 k p Hk) as (_ & r & Hr & Hh & Ha). exists r. split; [done|].
    destruct Hs as [[Hlv Hs]|(now & e & Hok & Hsay & Hs)].
    + rewrite Hlv. split; [intros now e ?%Hs; by apply (Hh now)|]. intros Hn. apply Ha. intros now e ?%Hs. by apply (Hn now e).
    + split; [by intros now' e' [-> ->]%Hs|]. intros Hn. destruct (Hn now e). by apply Hs.
  - intros Hp'. destruct (H1 k' p' Hp') as (Hc & r & Hr & Hh & Ha). split; [done|]. exists r. split; [done|].
    split; [intros now e ?%Hl; [by apply (Hh now)|done]|]. intros Hn. apply Ha. intros now e Hin. apply (Hn now e). by apply Hl.
Qed.

(** A real judges its event. *)
Lemma agree_handled cs f l now k e r o :
  f !! k = Some r -> NoDup (omap real_of (Handling now k e :: l)) -> agree cs f (Handling now k e :: l) ->
  agree cs (<[k := (Real.HandleEvent now e r).2]> f) (option_list (Passing <$> o) ++ l).
Proof.
  intros Hr [Hk _]%NoDup_cons [H1 H2]. destruct (H2 k r Hr) as [[p Hp] Hpl].
  destruct (HandleEvent_says now e r Hpl) as [Hpl' Hsay].
  assert (forall now' e', Handling now' k e' ∉ l) as Hfr by (intros now' e' Hin; apply Hk, list_elem_of_omap; by eexists).
  assert (forall now' k' e', Handling now' k' e' ∈ option_list (Passing <$> o) ++ l -> Handling now' k' e' ∈ l) as Hin
    by (intros now' k' e'; destruct o; cbn; [by intros [?|?]%elem_of_cons|done]).
  split.
  - intros k' p' Hp'. destruct (H1 k' p' Hp') as (Hc & r' & Hr' & Hh & Ha). split; [done|]. rewrite lookup_insert. case_decide as Hd.
    + subst k'. eexists. split; [done|]. destruct (Hh now e) as [_ Hs]; [by left|]. rewrite Hsay, Hs.
      split; [|done]. intros now' e' ?%Hin. by destruct (Hfr now' e').
    + exists r'. split; [done|]. split; [intros now' e' ?%Hin; apply (Hh now'); by right|]. intros Hn. apply Ha.
      intros now' e' [[= ]|?]%elem_of_cons; [done|]. apply (Hn now' e'). apply elem_of_app. by right.
  - intros k' r'. rewrite lookup_insert. case_decide as Hd; [|apply H2]. intros [= <-]. subst k'. split; [by eexists|done].
Qed.

Lemma act_agree cs i c :
  NoDup (omap real_of (threads c)) -> holds (fun f _ _ l => agree cs f l) c ->
  holds (fun f _ _ l => agree cs f l) (act (Advance i) c).
Proof.
  intros Hn. apply (act_lift (fun f _ _ l => agree cs f l)).
  { intros f m w l l' Hp. apply agree_same. intros. by rewrite Hp. }
  intros t l _ Hp HI. assert (NoDup (omap real_of (t :: l))) as Hn' by (by rewrite <- Hp). clear Hn Hp.
  assert (forall o, (match t with Handling _ _ _ => False | _ => True end) ->
    match o with Some (Handling _ _ _) => False | _ => True end -> agree cs (fleet c) (option_list o ++ l)) as Hother.
  { intros o Ht Ho. eapply agree_same; [|exact HI]. intros now k e. rewrite elem_of_app, elem_of_cons.
    destruct o as [t'|]; cbn; [rewrite list_elem_of_singleton|rewrite elem_of_nil]; split; intros [Hx|Hx]; auto; subst; done. }
  destruct t as [now k e|e|e| |q| |st]; cbn [advance].
  - destruct (fleet c !! k) as [r|] eqn:Hr.
    + pose proof (fun o => agree_handled cs (fleet c) l now k e r o Hr Hn' HI) as HA. cbn [es_handle Real_EventSource].
      specialize (HA (Real.HandleEvent now e r).1). by destruct (Real.HandleEvent now e r).
    + destruct HI as [H1 H2]. split; [|done]. intros k' p Hp. destruct (H1 k' p Hp) as (Hc & r & Hr' & Hh & Ha). split; [done|].
      exists r. split; [done|]. split; [intros now' e' ?; apply (Hh now'); by right|]. intros Hnn. apply Ha.
      intros now' e' [[= -> -> ->]|?]%elem_of_cons; [by rewrite Hr in Hr'|]. by apply (Hnn now' e').
  - destruct (processEvent e (svc c)) as [e' m']. by apply (Hother (Some (Storing e'))).
  - by apply (Hother (Some Updating)).
  - by apply (Hother (Some (Deciding _))).
  - destruct (match q with quorumHold => _ | quorumUp => _ | quorumDown => _ end) as [changed m'].
    apply Hother; [done|]. by destruct (changed && _).
  - by apply (Hother (Some (Registering _))).
  - by apply (Hother None).
Qed.

Section invariant.
Context (base : key.Balancer -> xevent.Status) (sk : key.Service).

Definition prog_inv (P : Prog) : Prop :=
  let s := sys P in
  holds (flight_inv (configured (lb s)) base sk) (handlers s) /\
  (forall k, active_status (lb s) k = configured (lb s) k) /\
  holds account_inv (handlers s) /\
  holds (fun f _ _ l => agree (checks P) f l) (handlers s).

Lemma flight_NoDup P : prog_inv P -> NoDup (omap real_of (threads (handlers (sys P)))).
Proof. by intros ((_ & _ & Hn & _) & _). Qed.

(** The conditions that the theorems of the handlers put on a schedule hold of
    every one. *)
Lemma advance_ok P i : prog_inv P -> one_at_a_time (Advance i) (handlers (sys P)).
Proof.
  intros (_ & _ & _ & [H1 H2]). split; [|done]. cbn. destruct (threads _ !! i) as [[now k e| | | | | |]|] eqn:Ht; try done.
  intros r Hr. destruct (H2 k r Hr) as [[p Hp] Hpl]. destruct (H1 k p Hp) as (_ & r' & Hr' & Hh & _).
  apply plain_ok; [done|]. apply (Hh now). by eapply list_elem_of_lookup_2.
Qed.

Lemma prog_step_inv P Q : prog_step P Q -> prog_inv P -> prog_inv Q.
Proof.
  intros Hs Hi. destruct Hs as [k p q cs s Hk Hs Hsent|now e k p q cs s Hk Hs Hsent Hfree|i cs s|cs s Hsz Hlog].
  - destruct Hi as (HF & Ha & Hacc & Hag). split; [done|]. split; [done|]. split; [done|]. cbn.
    destruct (proj1 Hag k p Hk) as ((c & Hc) & _).
    assert (live q = live p) as Hlv.
    { destruct Hs as [Ho|He]; [|by apply env_says in He as [_ ?]]. destruct (own_says c _ _ p q Hc Ho) as [[_ ?]|(e & He & _)]; [done|].
      rewrite Hsent in He. apply (f_equal length) in He. rewrite length_app in He. cbn in He. lia. }
    assert (Checking.inv c q) as Hq by (destruct Hs as [Ho|He]; [by eapply own_inv|by eapply env_inv]).
    eapply agree_checker; [done|by exists c|done|left; by split|done].
  - pose proof Hi as (HF & Ha & Hacc & Hag).
    destruct (proj1 Hag k p Hk) as ((c & Hc) & _). cbn [sys] in *. split; [|split; [done|split]].
    + apply (act_flight _ _ _ (Arrive now k e)); [by split|exact HF].
    + by apply (act_account (Arrive now k e)).
    + destruct (own_says c _ _ p q Hc Hs) as [[Hn _]|(e' & He & Hok & Hsay)].
      { rewrite Hsent in Hn. apply (f_equal length) in Hn. rewrite length_app in Hn. cbn in Hn. lia. }
      rewrite Hsent in He. apply app_inj_tail in He as [_ <-].
      assert (forall now' e', Handling now' k e' ∉ threads (handlers s)) as Hno
        by (intros now' e' Hin; apply Hfree, list_elem_of_omap; by eexists).
      change (agree (<[k := q]> cs) (fleet (handlers s)) (threads (handlers s) ++ [Handling now k e])).
      eapply agree_checker; [done|exists c; by eapply own_inv| |right; exists now, e; split; [done|split; [done|]]|exact Hag].
      * intros now' k' e' Hne. rewrite elem_of_app, list_elem_of_singleton. split; [intros [?|[= -> -> ->]]; done|by left].
      * intros now' e'. rewrite elem_of_app, list_elem_of_singleton. split; [by intros [?%Hno|[= -> ->]]|intros [-> ->]; by right].
  - pose proof (advance_ok _ i Hi) as Hone. pose proof (flight_NoDup _ Hi) as Hn. destruct Hi as (HF & Ha & Hacc & Hag). cbn [sys checks] in *.
    split; [by apply act_flight|]. split; [done|]. split; [by apply (act_account (Advance i)); [apply Hone|]|]. by apply act_agree.
  - destruct Hi as (HF & Ha & Hacc & Hag). cbn [sys checks] in *. destruct (update_flight base sk s Hsz Hlog HF Ha) as (HF' & Ha' & _).
    destruct (update_keeps s) as (E1 & E2 & E3).
    split; [exact HF'|]. split; [exact Ha'|]. unfold holds. cbn [sys sys_act checks]. by rewrite E1, E2, E3.
Qed.
End invariant.

(** ** What the checks find reaches the load balancer *)

(** Checkers that have not begun, each with its real, which is down. *)
Definition starts (cs : gmap key.Real (Checking (X := X))) (f : gmap key.Real Real) : Prop :=
  (forall k p, cs !! k = Some p -> (exists m, p = launched m /\ Checker.SAlive (Checker.state m) = false) /\ is_Some (f !! k)) /\
  (forall k r, f !! k = Some r -> is_Some (cs !! k) /\ plain r /\ rkey r = k /\ Real.Alive (Real.state r) = false).

Lemma starts_agree cs f : starts cs f -> agree cs f [].
Proof.
  intros [H1 H2]. split.
  - intros k p Hp. destruct (H1 k p Hp) as ((m & -> & Hm) & r & Hr). split; [exists (Checker.config m); apply launched_inv|].
    exists r. split; [done|]. split; [by intros ? ? ?%not_elem_of_nil|]. intros _. destruct (H2 k r Hr) as (_ & _ & _ & Ha).
    unfold live. cbn. by rewrite Hm.
  - intros k r Hr. by destruct (H2 k r Hr) as (? & ? & _).
Qed.

End concurrent.

(** ** A concrete run *)

Section concrete.
Local Notation step := (prog_step (X := unit) (W := LB) (E := unit) (fun _ => None) (fun _ => f64_of_Z 0)).

(** A service of one real, whose checker starts, connects, and reports. *)
Definition one_fleet : gmap key.Real Real := {[rk2 := started_real other_config]}.
Definition one_checker (p : Checking (X := unit)) : gmap key.Real Checking := {[rk2 := p]}.
Definition one_sys : Sys (R := Real) (W := LB) := MkSys (MkConc one_fleet svc10 (MkWorld known (NewBalancer true)) []) (empty_lb []).
Definition reported_sys : Sys (R := Real) (W := LB) :=
  sys_run (Handler <$> Arrive 1 rk2 up_event :: replicate 7 (Advance 0)) one_sys.
Definition processing_ : Checking (X := unit) :=
  MkChecking (Checker.New Checking.tcp 10) (Processing 0 (MkMetadata true weight.Omitted false) None) WatchSelect StopNone false false false 2 [].

Lemma one_moves p q s :
  either (Checking.own None (f64_of_Z 0)) (Checking.env (f64_of_Z 0)) p q -> sent q = sent p ->
  step (MkProg (one_checker p) s) (MkProg (one_checker q) s).
Proof.
  intros Hs Hq. unfold one_checker. rewrite <- (insert_singleton_eq rk2 q p).
  eapply (checker_moves (fun _ => None) (fun _ => f64_of_Z 0) rk2 p q); [apply lookup_singleton_eq|exact Hs|exact Hq].
Qed.

Lemma starts_one : starts (one_checker (launched (Checker.New Checking.tcp 10))) one_fleet.
Proof.
  unfold one_checker, one_fleet. split.
  - intros k p [<- <-]%lookup_singleton_Some. split; [by eexists|]. exists (started_real other_config). apply lookup_singleton_eq.
  - intros k r [<- <-]%lookup_singleton_Some. split_and!; [eexists; apply lookup_singleton_eq| |vm_compute; reflexivity..].
    split; vm_compute; reflexivity.
Qed.

Local Tactic Notation "check_own" uconstr(r) :=
  eapply rtc_l; [eapply one_moves; [left; eapply r; first [done|vm_compute; reflexivity]|reflexivity]|].

Lemma one_reports : rtc step (MkProg (one_checker (launched (Checker.New Checking.tcp 10))) one_sys)
  (MkProg (one_checker (alive_ false StopNone)) reported_sys).
Proof.
  unfold launched. check_own run_counts. check_own run_watches. check_own run_schedules.
  eapply rtc_l; [eapply one_moves; [right; eapply timer_expires; vm_compute; reflexivity|reflexivity]|].
  check_own job_reads.
  eapply rtc_l; [eapply one_moves; [left; eapply (job_returns _ _ connects); vm_compute; reflexivity|reflexivity]|].
  eapply rtc_l.
  { eapply (checker_reports (fun _ => None) (fun _ => f64_of_Z 0) 1 up_event rk2 _ (alive_ false StopNone)).
    - apply lookup_singleton_eq.
    - eapply (job_processes _ _ 1 (Some up_event) checked WaitLoop _ 0 (MkMetadata true weight.Omitted false) None
        (Checker.New Checking.tcp 10) WatchSelect StopNone false false false 1 []); vm_compute; reflexivity.
    - reflexivity.
    - by apply not_elem_of_nil. }
  unfold one_checker. rewrite insert_singleton_eq.
  do 7 (eapply rtc_l; [apply (handler_moves _ _ 0)|]). apply rtc_refl.
Qed.

End concrete.
