(* ===== verification/Lifetime.v ===== *)
(** * The life of a real

    [Run], its goroutine with the initial reload, and [Stop] of
    [internal/core/real/real.go], with the real's worker pool and the goroutines
    of its checkers: the order of their actions, every lock of it, and whether
    they end.  What a reload and a stop do to the state of the real is in
    [Real]; a checker is here a number and what it has been told. *)

From stdpp Require Import strings list relations.
From S2P Require Import Prelude.

Section life.

(** The checkers of the configuration, in the order in which [reload] meets them. *)
Context (configured : list nat).

(** The goroutine of [Run]: in [waitActivation], after it, and in the pool's loop,
    which has read the channel ([RunLoop false]: it was nil). *)
Inductive run_at :=
| WaitActivation
| Activated
| RunLoop (open_ : bool)
| RunGot (c : nat)           (* a checker is received, and not counted yet *)
| RunReturned
| RunNotActivated.

(** The goroutine of the initial reload. *)
Inductive reload_at :=
| ReloadNone
| ReloadNext (todo new : list nat)
| ReloadAdding (c : nat) (todo new : list nat)   (* [Add] holds the pool's read lock *)
| ReloadSaving (new : list nat)                  (* before [checkersMu] *)
| ReloadDone.

(** The goroutine that calls [Stop]; from [StopEach] on it holds [checkersMu]. *)
Inductive stop_at :=
| StopNone
| StopSignalled
| StopEach (rest : list nat)
| StopWait (c : nat) (rest : list nat)   (* [checker.Stop] has given the signal *)
| StopClosing                            (* before the pool's write lock *)
| StopWaiting                            (* the pool is closed; in its wait group *)
| StopReturned.

Record Life := MkLife {
  lrun : run_at;
  lreload : reload_at;
  lstop : stop_at;
  shutdown : bool;
  checkers : list nat;
  closed : bool;            (* the pool's channel, closed and then nil *)
  launched : list nat;      (* goroutines before [eventsWG.Add] of the checker *)
  checking : list nat;      (* goroutines after it *)
  told : list nat;          (* checkers whose shutdown signal was given *)
  cancelled : bool;         (* the context of the program *)
}.

Definition created : Life := MkLife WaitActivation ReloadNone StopNone false [] false [] [] [] false.

Definition holds_checkersMu (s : stop_at) : bool :=
  match s with StopEach _ | StopWait _ _ | StopClosing | StopWaiting => true | _ => false end.

Inductive step : Life -> Life -> Prop :=
(* Run *)
| activate rl s sh cs cl la ch to ca :
    step (MkLife WaitActivation rl s sh cs cl la ch to ca)
         (MkLife Activated (ReloadNext configured []) s sh cs cl la ch to ca)
| not_activated rl s cs cl la ch to ca :
    step (MkLife WaitActivation rl s true cs cl la ch to ca) (MkLife RunNotActivated rl s true cs cl la ch to ca)
| run_start rl s sh cs cl la ch to ca :
    step (MkLife Activated rl s sh cs cl la ch to ca) (MkLife (RunLoop (negb cl)) rl s sh cs cl la ch to ca)
| run_launch c rl s sh cs cl la ch to ca :
    step (MkLife (RunGot c) rl s sh cs cl la ch to ca) (MkLife (RunLoop true) rl s sh cs cl (c :: la) ch to ca)
| run_exit rl s sh cs la ch to ca :
    step (MkLife (RunLoop true) rl s sh cs true la ch to ca) (MkLife RunReturned rl s sh cs true la ch to ca)
(* the checkers *)
| checker_runs c r rl s sh cs cl la1 la2 ch to ca :
    step (MkLife r rl s sh cs cl (la1 ++ c :: la2) ch to ca) (MkLife r rl s sh cs cl (la1 ++ la2) (c :: ch) to ca)
| checker_ends c r rl s sh cs cl la ch1 ch2 to ca :
    c ∈ to \/ ca = true ->
    step (MkLife r rl s sh cs cl la (ch1 ++ c :: ch2) to ca) (MkLife r rl s sh cs cl la (ch1 ++ ch2) to ca)
| cancel r rl s sh cs cl la ch to :
    step (MkLife r rl s sh cs cl la ch to false) (MkLife r rl s sh cs cl la ch to true)
(* the reload *)
| reload_aborted r c todo new s cs cl la ch to ca :
    step (MkLife r (ReloadNext (c :: todo) new) s true cs cl la ch to ca) (MkLife r ReloadDone s true cs cl la ch to ca)
| reload_adds r c todo new s cs cl la ch to ca :
    s <> StopWaiting ->
    step (MkLife r (ReloadNext (c :: todo) new) s false cs cl la ch to ca)
         (MkLife r (ReloadAdding c todo new) s false cs cl la ch to ca)
| add_skip r c todo new s sh cs la ch to ca :
    step (MkLife r (ReloadAdding c todo new) s sh cs true la ch to ca)
         (MkLife r (ReloadNext todo (new ++ [c])) s sh cs true la ch to ca)
| add_send c todo new s sh cs la ch to ca :
    step (MkLife (RunLoop true) (ReloadAdding c todo new) s sh cs false la ch to ca)
         (MkLife (RunGot c) (ReloadNext todo (new ++ [c])) s sh cs false la ch to ca)
| reload_looped r new s sh cs cl la ch to ca :
    step (MkLife r (ReloadNext [] new) s sh cs cl la ch to ca) (MkLife r (ReloadSaving new) s sh cs cl la ch to ca)
| reload_saves r new s sh cs cl la ch to ca :
    holds_checkersMu s = false ->
    step (MkLife r (ReloadSaving new) s sh cs cl la ch to ca) (MkLife r ReloadDone s sh new cl la ch to ca)
(* Stop *)
| stop_signals r rl sh cs cl la ch to ca :
    step (MkLife r rl StopNone sh cs cl la ch to ca) (MkLife r rl StopSignalled true cs cl la ch to ca)
| stop_locks r rl sh cs cl la ch to ca :
    step (MkLife r rl StopSignalled sh cs cl la ch to ca) (MkLife r rl (StopEach cs) sh cs cl la ch to ca)
| stop_tells c rest r rl sh cs cl la ch to ca :
    step (MkLife r rl (StopEach (c :: rest)) sh cs cl la ch to ca) (MkLife r rl (StopWait c rest) sh cs cl la ch (c :: to) ca)
| stop_next c rest r rl sh cs cl la ch to ca :
    c ∉ ch ->
    step (MkLife r rl (StopWait c rest) sh cs cl la ch to ca) (MkLife r rl (StopEach rest) sh cs cl la ch to ca)
| stop_told r rl sh cs cl la ch to ca :
    step (MkLife r rl (StopEach []) sh cs cl la ch to ca) (MkLife r rl StopClosing sh cs cl la ch to ca)
| stop_closes r rl sh cs cl la ch to ca :
    (forall c todo new, rl <> ReloadAdding c todo new) ->
    step (MkLife r rl StopClosing sh cs cl la ch to ca) (MkLife r rl StopWaiting sh cs true la ch to ca)
| stop_returns r rl sh cs cl to ca :
    step (MkLife r rl StopWaiting sh cs cl [] [] to ca) (MkLife r rl StopReturned sh cs cl [] [] to ca).

(** ** Every run ends *)

(** What is left to do: the steps a checker has before it, and those of the
    goroutines. *)
Definition run_left (r : run_at) : nat :=
  match r with
  | WaitActivation => 6 * length configured + 6
  | Activated => 2
  | RunLoop _ => 1
  | RunGot _ => 5
  | RunReturned | RunNotActivated => 0
  end.

Definition reload_left (r : reload_at) : nat :=
  match r with
  | ReloadNext todo _ => 6 * length todo + 3
  | ReloadAdding _ todo _ => 6 * length todo + 8
  | ReloadSaving _ => 2
  | ReloadNone | ReloadDone => 0
  end.

Definition stop_left (s : stop_at) : nat :=
  match s with
  | StopNone => 3 * length configured + 7
  | StopSignalled => 3 * length configured + 6
  | StopEach rest => 3 * length rest + 5
  | StopWait _ rest => 3 * length rest + 6
  | StopClosing => 4
  | StopWaiting => 3
  | StopReturned => 0
  end.

Definition left (p : Life) : nat :=
  run_left (lrun p) + reload_left (lreload p) + stop_left (lstop p) + 3 * length (launched p) + 2 * length (checking p) +
  (if cancelled p then 0 else 1).

(** What [reload] has seen is in the configuration. *)
Definition bounded (p : Life) : Prop :=
  (length (checkers p) <= length configured)%nat /\
  match lreload p with
  | ReloadNone | ReloadDone => True
  | ReloadNext todo new => (length todo + length new <= length configured)%nat
  | ReloadAdding _ todo new => (length todo + length new < length configured)%nat
  | ReloadSaving new => (length new <= length configured)%nat
  end /\
  (lrun p = WaitActivation -> lreload p = ReloadNone).

Lemma step_bounded p q : step p q -> bounded p -> bounded q.
Proof.
  intros Hs. unfold bounded.
  destruct Hs; cbn; rewrite ?length_app; cbn; intros (H1 & H2 & H3); repeat split; try done; try lia;
    try (by intros ?; discriminate); intros Hw; specialize (H3 Hw); discriminate.
Qed.

Lemma step_left p q : step p q -> bounded p -> (left q < left p)%nat.
Proof.
  intros Hs (H1 & _ & H3). unfold left.
  destruct Hs; cbn in *; rewrite ?length_app; cbn [length]; try lia.
Qed.

Lemma created_bounded : bounded created.
Proof. repeat split; cbn; lia. Qed.

Lemma steps_bounded p q : rtc step p q -> bounded p -> bounded q.
Proof. induction 1; eauto using step_bounded. Qed.

(** Every run of a real is finite, whatever is interleaved with what: the
    goroutines of a real with [n] checkers take at most [9 n + 14] steps. *)
Lemma every_life_ends (n : nat) (p q : Life) :
  rtc step created p -> nsteps step n p q -> (n <= 9 * length configured + 14)%nat.
Proof.
  intros Hp Hn. apply rtc_nsteps in Hp as [k Hk]. pose proof (nsteps_trans _ _ _ _ _ Hk Hn) as Hq.
  pose proof (nsteps_bound step bounded left _ created q step_bounded step_left Hq created_bounded) as H.
  unfold left in H at 2. cbn in H. lia.
Qed.

(** ** A stop after the reload *)

Definition received (r : run_at) : list nat := match r with RunGot c => [c] | _ => [] end.

(** The checkers the pool has been handed and that have not ended. *)
Definition alive (p : Life) (c : nat) : Prop := c ∈ received (lrun p) \/ c ∈ launched p \/ c ∈ checking p.

(** Before the stop, [reload] goes through the configuration in order. *)
Definition progress (p : Life) : Prop :=
  lstop p = StopNone ->
  shutdown p = false /\ closed p = false /\ told p = [] /\
  match lrun p with
  | WaitActivation => lreload p = ReloadNone
  | Activated | RunLoop true | RunGot _ => True
  | RunLoop false | RunReturned | RunNotActivated => False
  end /\
  match lreload p with
  | ReloadNone => forall c, ~ alive p c
  | ReloadNext todo new => configured = new ++ todo /\ forall c, alive p c -> c ∈ new
  | ReloadAdding c todo new => configured = new ++ c :: todo /\ forall c, alive p c -> c ∈ new
  | ReloadSaving new => configured = new /\ forall c, alive p c -> c ∈ configured
  | ReloadDone => checkers p = configured /\ forall c, alive p c -> c ∈ configured
  end.

(** After it, the stop tells every checker. *)
Definition all_told (p : Life) (rest : list nat) : Prop := forall c, c ∈ configured -> c ∈ told p \/ c ∈ rest.

Definition stopping (p : Life) : Prop :=
  lreload p = ReloadDone /\ checkers p = configured /\ (forall c, alive p c -> c ∈ configured) /\
  match lrun p with
  | RunLoop true | RunGot _ => True
  | RunReturned => closed p = true
  | _ => False
  end /\
  match lstop p with
  | StopNone | StopSignalled => closed p = false
  | StopEach rest => closed p = false /\ all_told p rest
  | StopWait c rest => closed p = false /\ c ∈ told p /\ all_told p rest
  | StopClosing => closed p = false /\ all_told p []
  | StopWaiting | StopReturned => closed p = true /\ all_told p []
  end.

(** Cases on where the goroutines are. *)
Ltac at_each :=
  repeat match goal with
    | H : context [match ?x with _ => _ end] |- _ => is_var x; destruct x
    | |- context [match ?x with _ => _ end] => is_var x; destruct x
    end;
  destruct_and?; split_and?; try done; try congruence.

Lemma step_progress p q : step p q -> progress p -> progress q.
Proof.
  intros Hs. unfold progress, alive. destruct Hs; cbn; intros HP HN; try discriminate HN; specialize (HP HN);
    destruct HP as (H1 & H2 & H3 & H4 & H5); subst; try done; at_each; try set_solver;
    [by rewrite <- app_assoc|by rewrite (app_nil_r new) in * ..].
Qed.

Lemma step_stopping p q : step p q -> stopping p -> stopping q.
Proof.
  intros Hs. unfold stopping, alive, all_told. destruct Hs; cbn; intros (H1 & H2 & H3 & H4 & H5); subst; try done; at_each; try set_solver.
Qed.

Lemma created_progress : progress created.
Proof. intros _. cbn. split_and!; try done. intros c. unfold alive. cbn. set_solver. Qed.

Lemma step_stop_none p q : step p q -> lstop q = StopNone -> lstop p = StopNone.
Proof. by destruct 1. Qed.

(** The stop begins behind the initial reload, which the pool has run. *)
Lemma reloaded_stopping p :
  rtc step created p -> lstop p = StopNone -> lreload p = ReloadDone -> lrun p <> Activated -> stopping p.
Proof.
  intros Hr Hn Hl Ha. destruct (rtc_inv step progress _ _ step_progress Hr created_progress Hn) as (H1 & H2 & H3 & H4 & H5).
  rewrite Hl in H5. destruct H5 as [H5 H6]. unfold stopping. rewrite Hn. split_and!; [done..| |done].
  destruct (lrun p) as [| |[]| | |]; congruence || done.
Qed.

(** A step that is not the end of the program. *)
Definition moves (p q : Life) : Prop := step p q /\ cancelled q = cancelled p.

Lemma stopping_ends p :
  stopping p -> (forall q, ~ moves p q) -> lstop p = StopReturned /\ lrun p = RunReturned /\ launched p = [] /\ checking p = [].
Proof.
  destruct p as [r rl s sh cs cl la ch to ca]. unfold stopping, alive, all_told. cbn.
  intros (-> & -> & Hal & Hr & Hs) Hstuck.
  assert (forall q, step (MkLife r ReloadDone s sh configured cl la ch to ca) q -> cancelled q = ca -> False) as Hq
    by (intros q H1 H2; by apply (Hstuck q)). clear Hstuck.
  destruct la as [|c la]; [|exfalso; apply (Hq _ (checker_runs c r ReloadDone s sh configured cl [] la ch to ca)); done].
  assert (forall c, c ∈ ch -> c ∈ to -> False) as Hch.
  { intros c (ch1 & ch2 & ->)%list_elem_of_split Hto.
    apply (Hq _ (checker_ends c r ReloadDone s sh configured cl [] ch1 ch2 to ca (or_introl Hto))); done. }
  assert (forall c, r <> RunGot c) as Hg.
  { intros c ->. apply (Hq _ (run_launch c ReloadDone s sh configured cl [] ch to ca)); done. }
  destruct s as [| |rest|c rest| | |].
  - exfalso. apply (Hq _ (stop_signals r ReloadDone sh configured cl [] ch to ca)); done.
  - exfalso. apply (Hq _ (stop_locks r ReloadDone sh configured cl [] ch to ca)); done.
  - exfalso. destruct rest as [|c rest]; [apply (Hq _ (stop_told r ReloadDone sh configured cl [] ch to ca)); done|].
    apply (Hq _ (stop_tells c rest r ReloadDone sh configured cl [] ch to ca)); done.
  - exfalso. destruct Hs as (_ & Hto & _).
    refine (Hq _ (stop_next c rest r ReloadDone sh configured cl [] ch to ca _) _); [|done]. intros Hc. by apply (Hch c).
  - exfalso. refine (Hq _ (stop_closes r ReloadDone sh configured cl [] ch to ca _) _); done.
  - exfalso. destruct Hs as [-> Hto]. destruct ch as [|c ch].
    + apply (Hq _ (stop_returns r ReloadDone sh configured true to ca)); done.
    + apply (Hch c); [by left|]. destruct (Hto c) as [?|?%not_elem_of_nil]; [|done..]. apply Hal. right; right. by left.
  - destruct Hs as [-> Hto]. split; [done|]. assert (ch = []) as ->.
    { destruct ch as [|c ch]; [done|]. exfalso. apply (Hch c); [by left|].
      destruct (Hto c) as [?|?%not_elem_of_nil]; [|done..]. apply Hal. right; right. by left. }
    split_and!; try done. destruct r as [| |[]|c| |]; try done.
    + exfalso. apply (Hq _ (run_exit ReloadDone StopReturned sh configured [] [] to ca)); done.
    + by destruct (Hg c).
Qed.

End life.

(** ** A stop that comes too early *)

Section early.
(** One step of a concrete run. *)
Local Ltac run_step c := eapply rtc_l; [apply c; try done; try (by left)|cbn].

(** A real of one checker that runs, before and behind its stop. *)
Definition reloaded : Life := MkLife (RunLoop true) ReloadDone StopNone false [1%nat] false [] [1%nat] [] false.
Definition ended : Life := MkLife RunReturned ReloadDone StopReturned true [1%nat] true [] [] [1%nat] false.

Lemma reloaded_reachable : rtc (step [1%nat]) (created) reloaded.
Proof.
  unfold created.
  run_step activate. run_step run_start. run_step reload_adds. run_step add_send. run_step run_launch.
  eapply rtc_l; [apply (checker_runs _ 1%nat _ _ _ _ _ _ [] [])|cbn].
  run_step reload_looped. run_step reload_saves. apply rtc_refl.
Qed.


(** The initial reload hands a checker to the pool before it saves the map.  A
    stop in between does not find it: [Stop] waits in the pool's wait group for a
    checker that nobody tells to stop, as long as the program runs. *)
Theorem Stop_misses_new_checker :
  exists p, rtc (step [1%nat]) created p /\ lstop p = StopWaiting /\ checking p = [1%nat] /\
    forall q, rtc (step [1%nat]) p q -> cancelled q = false -> lstop q = StopWaiting /\ checking q = [1%nat].
Proof.
  exists (MkLife (RunLoop true) (ReloadNext [] [1%nat]) StopWaiting true [] true [] [1%nat] [] false).
  split; [|split; [done|split; [done|]]].
  - unfold created.
    run_step activate. run_step run_start. run_step reload_adds. run_step add_send. run_step run_launch.
    eapply rtc_l; [apply (checker_runs _ 1%nat _ _ _ _ _ _ [] [])|cbn].
    run_step stop_signals. run_step stop_locks. run_step stop_told. run_step stop_closes. apply rtc_refl.
  - set (I := fun p => cancelled p = false -> lstop p = StopWaiting /\ checking p = [1%nat] /\ launched p = [] /\ told p = [] /\
      (lrun p = RunLoop true \/ lrun p = RunReturned) /\ (forall c todo new, lreload p <> ReloadAdding c todo new /\ lreload p <> ReloadNext (c :: todo) new)).
    assert (forall p q, step [1%nat] p q -> I p -> I q) as HI.
    { intros p q Hs. unfold I. destruct Hs; cbn; intros HP Hc; try discriminate Hc; subst; specialize (HP eq_refl) || specialize (HP Hc);
        destruct HP as (H1 & H2 & H3 & H4 & H5 & H6); try discriminate; simplify_eq; try (by destruct la1);
        try (destruct H5; discriminate); split_and!; try done; try (by left); try (by right).
      all: try (by destruct (H6 c todo new)). by destruct H as [?%not_elem_of_nil|?]. }
    intros q Hq Hc. destruct (rtc_inv (step [1%nat]) I _ _ HI Hq) as (H1 & H2 & _); [|done|done].
    intros _. cbn. split_and!; try done. by left.
Qed.

(** A real that is activated, or needs no activation, and is stopped before its
    pool has looked at the channel: [Run] ranges over nil and never returns, even
    when the program ends, and the service's pool waits for it. *)
Theorem stopped_before_its_pool_runs (configured : list nat) :
  exists p, rtc (step configured) created p /\ lstop p = StopReturned /\
    forall q, rtc (step configured) p q -> lrun q = RunLoop false.
Proof.
  exists (MkLife (RunLoop false) (ReloadNext configured []) StopReturned true [] true [] [] [] false).
  split; [|split; [done|]].
  - unfold created. run_step activate. run_step stop_signals. run_step stop_locks. run_step stop_told. run_step stop_closes.
    run_step stop_returns. run_step run_start. apply rtc_refl.
  - intros q Hq. apply (rtc_inv (step configured) (fun p => lrun p = RunLoop false) _ _) in Hq; [done| |done].
    intros p p' Hs Hp. destruct Hs; cbn in *; done || (by inversion Hp).
Qed.
End early.
