(* ===== verification/ServiceLifetime.v ===== *)
(** * The life of a service

    [Run], its goroutine with the initial [Reload], and [Stop] of
    [internal/core/service/service.go], with the service's worker pool: the order of
    their actions, every lock of it, and whether they end.  What a reload and a
    stop do to the state of the service is in [Service]; a real is here a number.
    That a real which is told to stop ends is the matter of [Lifetime]; that
    the handlers [Stop] waits for end, of [Interleaving.handlers_terminate]. *)

From stdpp Require Import strings list relations.
From S2P Require Import Prelude.

Section life.

(** The reals of the configuration. *)
Context (configured : list nat).

(** The goroutine of [Run]; [RunLoop false] ranges over nil. *)
Inductive run_at :=
| RunStart
| RunReloading            (* the goroutine of the reload is started *)
| RunLoop (open_ : bool)
| RunGot (r : nat)        (* a real is received, and not counted yet *)
| RunReturned.

(** The goroutine of the initial reload; from [ReloadNext] on it holds [realsMu]. *)
Inductive reload_at :=
| ReloadNone
| ReloadStarted
| ReloadNext (todo new : list nat)
| ReloadAdding (r : nat) (todo new : list nat)   (* [Add] holds the pool's read lock *)
| ReloadDone.

(** The goroutine that calls [Stop]; from [StopEach] on it holds [realsMu]. *)
Inductive stop_at :=
| StopNone
| StopSignalled
| StopEach (rest : list nat)
| StopClosing            (* before the pool's write lock *)
| StopWaiting            (* the pool is closed; in its wait group *)
| StopReturned.

Record Life := MkLife {
  lrun : run_at;
  lreload : reload_at;
  lstop : stop_at;
  shutdown : bool;
  reals : list nat;
  closed : bool;            (* the pool's channel, closed and then nil *)
  running : list nat;       (* goroutines of the pool *)
  told : list nat;          (* reals that were stopped *)
}.

Definition created : Life := MkLife RunStart ReloadNone StopNone false [] false [] [].

Definition reload_locks (r : reload_at) : bool := match r with ReloadNext _ _ | ReloadAdding _ _ _ => true | _ => false end.
Definition stop_locks (s : stop_at) : bool := match s with StopEach _ | StopClosing | StopWaiting => true | _ => false end.

Inductive step : Life -> Life -> Prop :=
(* Run *)
| run_reloads rl s sh rs cl ru to :
    step (MkLife RunStart rl s sh rs cl ru to) (MkLife RunReloading ReloadStarted s sh rs cl ru to)
| run_start rl s sh rs cl ru to :
    step (MkLife RunReloading rl s sh rs cl ru to) (MkLife (RunLoop (negb cl)) rl s sh rs cl ru to)
| run_launch r rl s sh rs cl ru to :
    step (MkLife (RunGot r) rl s sh rs cl ru to) (MkLife (RunLoop true) rl s sh rs cl (r :: ru) to)
| run_exit rl s sh rs ru to :
    step (MkLife (RunLoop true) rl s sh rs true ru to) (MkLife RunReturned rl s sh rs true ru to)
(* the reals *)
| real_ends r u rl s sh rs cl ru1 ru2 to :
    r ∈ to ->
    step (MkLife u rl s sh rs cl (ru1 ++ r :: ru2) to) (MkLife u rl s sh rs cl (ru1 ++ ru2) to)
(* the reload *)
| reload_locked u s sh rs cl ru to :
    stop_locks s = false ->
    step (MkLife u ReloadStarted s sh rs cl ru to) (MkLife u (ReloadNext configured []) s sh rs cl ru to)
| reload_aborted u r todo new s rs cl ru to :
    step (MkLife u (ReloadNext (r :: todo) new) s true rs cl ru to) (MkLife u ReloadDone s true rs cl ru to)
| reload_adds u r todo new s rs cl ru to :
    step (MkLife u (ReloadNext (r :: todo) new) s false rs cl ru to) (MkLife u (ReloadAdding r todo new) s false rs cl ru to)
| add_skip u r todo new s sh rs ru to :
    step (MkLife u (ReloadAdding r todo new) s sh rs true ru to) (MkLife u (ReloadNext todo (new ++ [r])) s sh rs true ru to)
| add_send r todo new s sh rs ru to :
    step (MkLife (RunLoop true) (ReloadAdding r todo new) s sh rs false ru to)
         (MkLife (RunGot r) (ReloadNext todo (new ++ [r])) s sh rs false ru to)
| reload_saves u new s sh rs cl ru to :
    step (MkLife u (ReloadNext [] new) s sh rs cl ru to) (MkLife u ReloadDone s sh new cl ru to)
(* Stop *)
| stop_signals u rl sh rs cl ru to :
    step (MkLife u rl StopNone sh rs cl ru to) (MkLife u rl StopSignalled true rs cl ru to)
| stop_locked u rl sh rs cl ru to :
    reload_locks rl = false ->
    step (MkLife u rl StopSignalled sh rs cl ru to) (MkLife u rl (StopEach rs) sh rs cl ru to)
| stop_stops r rest u rl sh rs cl ru to :
    step (MkLife u rl (StopEach (r :: rest)) sh rs cl ru to) (MkLife u rl (StopEach rest) sh rs cl ru (r :: to))
| stop_stopped u rl sh rs cl ru to :
    step (MkLife u rl (StopEach []) sh rs cl ru to) (MkLife u rl StopClosing sh rs cl ru to)
| stop_closes u rl sh rs cl ru to :
    step (MkLife u rl StopClosing sh rs cl ru to) (MkLife u rl StopWaiting sh rs true ru to)
| stop_returns u rl sh rs cl to :
    step (MkLife u rl StopWaiting sh rs cl [] to) (MkLife u rl StopReturned sh rs cl [] to).

(** ** Every run ends *)

Definition run_left (u : run_at) : nat :=
  match u with
  | RunStart => 5 * length configured + 5
  | RunReloading => 2
  | RunLoop _ => 1
  | RunGot _ => 3
  | RunReturned => 0
  end.

Definition reload_left (r : reload_at) : nat :=
  match r with
  | ReloadStarted => 5 * length configured + 2
  | ReloadNext todo _ => 5 * length todo + 1
  | ReloadAdding _ todo _ => 5 * length todo + 5
  | ReloadNone | ReloadDone => 0
  end.

Definition stop_left (s : stop_at) : nat :=
  match s with
  | StopNone => length configured + 6
  | StopSignalled => length configured + 5
  | StopEach rest => length rest + 3
  | StopClosing => 2
  | StopWaiting => 1
  | StopReturned => 0
  end.

Definition left (p : Life) : nat := run_left (lrun p) + reload_left (lreload p) + stop_left (lstop p) + length (running p).

(** What the reload has seen is in the configuration. *)
Definition bounded (p : Life) : Prop :=
  (length (reals p) <= length configured)%nat /\
  match lreload p with
  | ReloadNext todo new => (length todo + length new <= length configured)%nat
  | ReloadAdding _ todo new => (length todo + length new < length configured)%nat
  | _ => True
  end /\
  (lrun p = RunStart -> lreload p = ReloadNone).

Lemma service_step_bounded p q : step p q -> bounded p -> bounded q.
Proof.
  intros Hs. unfold bounded.
  destruct Hs; cbn; rewrite ?length_app; cbn; intros (H1 & H2 & H3); repeat split; try done; try lia;
    try (by intros ?; discriminate); intros Hw; specialize (H3 Hw); discriminate.
Qed.

Lemma service_step_left p q : step p q -> bounded p -> (left q < left p)%nat.
Proof.
  intros Hs (H1 & _ & H3). unfold left.
  destruct Hs; cbn in *; rewrite ?length_app; cbn [length]; try lia.
Qed.

Lemma service_created_bounded : bounded created.
Proof. repeat split; cbn; lia. Qed.

(** The goroutines of a service of [n] reals take at most [6 n + 11] steps. *)
Lemma service_every_life_ends (n : nat) (p q : Life) :
  rtc step created p -> nsteps step n p q -> (n <= 6 * length configured + 11)%nat.
Proof.
  intros Hp Hn. apply rtc_nsteps in Hp as [k Hk]. pose proof (nsteps_trans _ _ _ _ _ Hk Hn) as Hq.
  pose proof (nsteps_bound step bounded left _ created q service_step_bounded service_step_left Hq service_created_bounded) as H.
  unfold left in H at 2. cbn in H. lia.
Qed.

(** ** A stop after the reload *)

Definition received (u : run_at) : list nat := match u with RunGot r => [r] | _ => [] end.

(** The reals the pool has been handed and that have not ended. *)
Definition alive (p : Life) (r : nat) : Prop := r ∈ received (lrun p) \/ r ∈ running p.

(** Before the stop, the reload goes through the configuration in order. *)
Definition progress (p : Life) : Prop :=
  lstop p = StopNone ->
  shutdown p = false /\ closed p = false /\ told p = [] /\
  match lrun p with
  | RunStart => lreload p = ReloadNone
  | RunReloading | RunLoop true | RunGot _ => True
  | RunLoop false | RunReturned => False
  end /\
  match lreload p with
  | ReloadNone | ReloadStarted => forall r, ~ alive p r
  | ReloadNext todo new => configured = new ++ todo /\ forall r, alive p r -> r ∈ new
  | ReloadAdding r todo new => configured = new ++ r :: todo /\ forall r, alive p r -> r ∈ new
  | ReloadDone => reals p = configured /\ forall r, alive p r -> r ∈ configured
  end.

(** After it, the stop tells every real. *)
Definition all_told (p : Life) (rest : list nat) : Prop := forall r, r ∈ configured -> r ∈ told p \/ r ∈ rest.

Definition stopping (p : Life) : Prop :=
  lreload p = ReloadDone /\ reals p = configured /\ (forall r, alive p r -> r ∈ configured) /\
  match lrun p with
  | RunLoop true | RunGot _ => True
  | RunReturned => closed p = true
  | _ => False
  end /\
  match lstop p with
  | StopNone | StopSignalled => closed p = false
  | StopEach rest => closed p = false /\ all_told p rest
  | StopClosing => closed p = false /\ all_told p []
  | StopWaiting | StopReturned => closed p = true /\ all_told p []
  end.

(** Cases on where the goroutines are. *)
Local Ltac at_each :=
  repeat match goal with
    | H : context [match ?x with _ => _ end] |- _ => is_var x; destruct x
    | |- context [match ?x with _ => _ end] => is_var x; destruct x
    end;
  destruct_and?; split_and?; try done; try congruence.

Lemma service_step_progress p q : step p q -> progress p -> progress q.
Proof.
  intros Hs. unfold progress, alive. destruct Hs; cbn; intros HP HN; try discriminate HN; specialize (HP HN);
    destruct HP as (H1 & H2 & H3 & H4 & H5); subst; try done; at_each; try set_solver;
    [by rewrite <- app_assoc|by rewrite (app_nil_r new) in * ..].
Qed.

Lemma service_step_stopping p q : step p q -> stopping p -> stopping q.
Proof.
  intros Hs. unfold stopping, alive, all_told. destruct Hs; cbn; intros (H1 & H2 & H3 & H4 & H5); subst; try done; at_each; try set_solver.
Qed.

Lemma service_created_progress : progress created.
Proof. intros _. cbn. split_and!; try done. intros r. unfold alive. cbn. set_solver. Qed.

(** The stop begins behind the initial reload, with the pool's loop begun. *)
Lemma service_reloaded_stopping p :
  rtc step created p -> lstop p = StopNone -> lreload p = ReloadDone -> lrun p <> RunReloading -> stopping p.
Proof.
  intros Hr Hn Hl Ha. destruct (rtc_inv step progress _ _ service_step_progress Hr service_created_progress Hn) as (H1 & H2 & H3 & H4 & H5).
  rewrite Hl in H5. destruct H5 as [H5 H6]. unfold stopping. rewrite Hn. split_and!; [done..| |done].
  destruct (lrun p) as [| |[]| |]; congruence || done.
Qed.

Lemma service_stopping_ends p :
  stopping p -> (forall q, ~ step p q) -> lstop p = StopReturned /\ lrun p = RunReturned /\ running p = [].
Proof.
  destruct p as [u rl s sh rs cl ru to]. unfold stopping, alive, all_told. cbn.
  intros (-> & -> & Hal & Hr & Hs) Hn.
  assert (forall r, r ∈ ru -> r ∈ to -> False) as Hru
    by (intros r (ru1 & ru2 & ->)%list_elem_of_split Hto; by eapply Hn, real_ends).
  assert (forall r, u <> RunGot r) as Hg by (intros r ->; eapply Hn, run_launch).
  destruct s as [| |rest| | |].
  - exfalso. eapply Hn, stop_signals.
  - exfalso. by eapply Hn, stop_locked.
  - exfalso. destruct rest as [|r rest]; [eapply Hn, stop_stopped|eapply Hn, stop_stops].
  - exfalso. eapply Hn, stop_closes.
  - exfalso. destruct Hs as [-> Hto]. destruct ru as [|r ru]; [eapply Hn, stop_returns|].
    apply (Hru r); [by left|]. destruct (Hto r) as [?|?%not_elem_of_nil]; [|done..]. apply Hal. right. by left.
  - destruct Hs as [-> Hto]. split; [done|]. assert (ru = []) as ->.
    { destruct ru as [|r ru]; [done|]. exfalso. apply (Hru r); [by left|].
      destruct (Hto r) as [?|?%not_elem_of_nil]; [|done..]. apply Hal. right. by left. }
    split; [|done]. destruct u as [| |[]|r|]; try done; [exfalso; eapply Hn, run_exit|by destruct (Hg r)].
Qed.

End life.

(** ** A stop that comes in between *)

Section interrupted.
Local Tactic Notation "run_step" uconstr(c) := eapply rtc_l; [apply c; done|cbn].

(** A service of one real that runs, before and behind its stop. *)
Definition reloaded : Life := MkLife (RunLoop true) ReloadDone StopNone false [1%nat] false [1%nat] [].
Definition ended : Life := MkLife RunReturned ReloadDone StopReturned true [1%nat] true [] [1%nat].

Lemma service_reloaded_reachable : rtc (step [1%nat]) created reloaded.
Proof.
  unfold created.
  run_step run_reloads. run_step run_start. run_step reload_locked. run_step reload_adds. run_step add_send. run_step run_launch.
  run_step reload_saves. apply rtc_refl.
Qed.


(** An initial reload that a stop interrupts forgets the reals it has started: it
    returns without saving them.  [Stop] stops none of them, and waits in the
    pool's wait group for good: a real's pool ends only when the real is stopped,
    the end of the program's context does not end it. *)
Theorem interrupted_reload_hangs (r1 r2 : nat) (rest : list nat) :
  exists p, rtc (step (r1 :: r2 :: rest)) created p /\ lstop p = StopWaiting /\ running p = [r1] /\
    forall q, rtc (step (r1 :: r2 :: rest)) p q -> lstop q = StopWaiting /\ running q = [r1].
Proof.
  exists (MkLife (RunLoop true) ReloadDone StopWaiting true [] true [r1] []). split; [|split; [done|split; [done|]]].
  - unfold created.
    run_step run_reloads. run_step run_start. run_step reload_locked. run_step reload_adds. run_step add_send. run_step run_launch.
    run_step stop_signals. run_step reload_aborted. run_step stop_locked. run_step stop_stopped. run_step stop_closes. apply rtc_refl.
  - set (I := fun p => lstop p = StopWaiting /\ running p = [r1] /\ told p = [] /\ lreload p = ReloadDone /\
      (lrun p = RunLoop true \/ lrun p = RunReturned)).
    assert (forall p q, step (r1 :: r2 :: rest) p q -> I p -> I q) as HI.
    { intros p q Hs. unfold I. destruct Hs; cbn; intros (H1 & H2 & H3 & H4 & H5); try discriminate; subst;
        try (by destruct H5); split_and!; try done; try (by right). by apply not_elem_of_nil in H. }
    intros q Hq. destruct (rtc_inv _ I _ _ HI Hq) as (H1 & H2 & _); [|done]. split_and!; try done. by left.
Qed.
End interrupted.
