(* ===== verification/Core.v ===== *)
(** * The core and its manager

    [internal/core]: the configuration of all services, the reload of the set of
    services, and the manager that loads, prepares and applies a configuration. *)

From Stdlib Require Import SpecFloat.
From stdpp Require Import strings numbers gmap sets list.
From S2P Require Import Prelude.
From S2P Require Import Types.
From S2P Require Import Registry.
From S2P Require Import Utils.
From S2P Require Import Prefixes.
From S2P Require Import Announcer.
From S2P Require Import Balancer.
From S2P Require Import Scheduler.
From S2P Require Import Check.
From S2P Require Import Text.
From S2P Require Import Checker.
From S2P Require Import Real.
From S2P Require Import Service.

Open Scope Z_scope.
Open Scope go_scope.

(** ** config.go *)

Record Config := MkConfig { Services : list Service.Config }.

(** [service.Key().Prefix()] *)
Definition service_prefix (c : Service.Config) : Prefix := key.Service_Prefix (Service.Key c).

(** The body of the loop of [validateAnnounceGroups]: the map of prefixes and
    the services seen so far. *)
Definition validateService (service : Service.Config) (s : gmap Prefix string * list Service.Config) :
    gmap Prefix string * list Service.Config :=
  let '(prefixes, seen) := s in
  if decide (SAnnounceGroup service = "") then (prefixes, seen ++ [service])
  else
    let prefix := service_prefix service in
    let prefixes :=
      match prefixes !! prefix with
      | Some _ => prefixes
      | None => <[prefix := SAnnounceGroup service]> prefixes
      end in
    (prefixes, seen ++ [set_announce_group (default "" (prefixes !! prefix)) service]).

Definition validateAnnounceGroups (m : Config) : Config :=
  MkConfig (for_each validateService (Services m) (∅, [])).2.

(** The caller drops a configuration whose preparation failed. *)
Fixpoint prepareServices `{UnicodeCase} (services : list Service.Config) : res configError (list Service.Config) :=
  match services with
  | [] => Ok []
  | service :: services =>
      let? service := Service.Prepare service in
      let? services := prepareServices services in
      Ok (service :: services)
  end.

Definition Prepare `{UnicodeCase} (m : Config) : res configError Config :=
  let? services := prepareServices (Services m) in
  Ok (validateAnnounceGroups (MkConfig services)).

(** ** core.go *)

Record Core := MkCore {
  services : gmap key.Service Service;
  servicesPool : list key.Service;   (* the services given to the pool *)
  shutdown : bool;
}.

Definition New : Core := MkCore ∅ [] false.

(** The mapping of services to their announce groups. *)
Definition servicesForAnnouncer (config : Config) : gmap key.Service string :=
  for_each
    (fun cfg services =>
       if decide (SAnnounceGroup cfg <> "") then <[Service.Key cfg := SAnnounceGroup cfg]> services else services)
    (Services config) ∅.

Section core.
Context `{F : FloatToInt} `{MR : MapRange}.

(** The default case of the loop of [Reload] for one service; [newServices] is
    the map under construction, [services m] the old one. *)
Definition reloadService (now : Z) (cfg : Service.Config) (s : gmap key.Service Service * Core * World) :
    gmap key.Service Service * Core * World :=
  let '(newServices, m, w) := s in
  let key := Service.Key cfg in
  match services m !! key with
  | Some knownService =>
      let '(knownService, w) := Service.Reload now cfg knownService w in
      (<[key := knownService]> newServices, MkCore (delete key (services m)) (servicesPool m) (shutdown m), w)
  | None =>
      (<[key := Service.New cfg]> newServices, MkCore (services m) (servicesPool m ++ [key]) (shutdown m), w)
  end.

(** The loop. [stops i]: the shutdown of the core was triggered before
    iteration [i] looked at it ([Stop] triggers it without the lock). The
    result tells whether the loop was left early. *)
Fixpoint reloadServices (now : Z) (stops : nat -> bool) (i : nat) (cfgs : list Service.Config)
    (s : gmap key.Service Service * Core * World) : bool * (gmap key.Service Service * Core * World) :=
  match cfgs with
  | [] => (false, s)
  | cfg :: cfgs =>
      let '(newServices, m, w) := s in
      if shutdown m || stops i then (true, (newServices, MkCore (services m) (servicesPool m) true, w))
      else reloadServices now stops (S i) cfgs (reloadService now cfg s)
  end.

(** Stopping every service of a map. *)
Definition stopServices (now : Z) (old : gmap key.Service Service) (m : Core) (w : World) : Core * World :=
  for_range old
    (fun k service '(m, w) =>
       let '(service, w) := Service.Stop now service w in
       (MkCore (<[k := service]> (services m)) (servicesPool m) (shutdown m), w))
    (m, w).

Definition Reload (now : Z) (stops : nat -> bool) (config : Config) (m : Core) (w : World) :
    option announcerError * Core * World :=
  let '(err, a) := Announcer.ReloadServices (servicesForAnnouncer config) (wannouncer w) in
  let w := MkWorld a (wbalancer w) in
  match err with
  | Some err => (Some err, m, w)
  | None =>
      let '(aborted, (newServices, m, w)) := reloadServices now stops 0 (Services config) (∅, m, w) in
      if aborted then (None, m, w)
      else
        let '(m, w) := stopServices now (services m) m w in
        (None, MkCore newServices (servicesPool m) (shutdown m), w)
  end.

Definition Stop (now : Z) (m : Core) (w : World) : Core * World :=
  let m := MkCore (services m) (servicesPool m) true in
  stopServices now (services m) m w.

(** ** status.go *)

Definition Status (m : Core) : list ServiceStatusMsg :=
  for_range (services m) (fun _ service status => status ++ [Service_Status service]) [].
End core.

(** No shutdown during a reload. *)
Definition never : nat -> bool := fun _ => false.

(** ** manager.go *)

Inductive ConfigFormat := KeepalivedFormat | JSONFormat | OtherFormat (format : string).

(** What a loader does: the JSON one panics. *)
Inductive loader (E : Type) :=
| KeepalivedConfigLoader (LoadConfig : string -> res E Config)
| JSONConfigLoader.
Arguments KeepalivedConfigLoader {E}.
Arguments JSONConfigLoader {E}.

Record ServicesConfig := MkServicesConfig { Format : ConfigFormat; Path : string; DumpPath : string }.

Section manager.
Context `{F : FloatToInt} `{MR : MapRange} `{UC : UnicodeCase}.
(** [E]: the errors of the loader, [ED] those of the dump. *)
Context {E ED : Type}.

Record Manager := MkManager {
  mconfig : ServicesConfig;
  mcore : Core;
  mloader : loader E;
  updateTS : option Z;   (* the zero time at first *)
}.

Definition NewManager (LoadConfig : string -> res E Config) (config : ServicesConfig) (core : Core) : option Manager :=
  match Format config with
  | KeepalivedFormat => Some (MkManager config core (KeepalivedConfigLoader LoadConfig) None)
  | JSONFormat => Some (MkManager config core JSONConfigLoader None)
  | OtherFormat _ => None   (* unknown services configuration format *)
  end.

Inductive managerError :=
| ErrLoad (e : E)
| ErrPrepare (e : configError)
| ErrReload (e : announcerError)
| ErrDump (e : ED)
| Panic.

Definition loadConfig (m : Manager) : res managerError Config :=
  match mloader m with
  | KeepalivedConfigLoader load =>
      match load (Path (mconfig m)) with Ok c => Ok c | Err e => Err (ErrLoad e) end
  | JSONConfigLoader => Err Panic
  end.

(** [dump path json] writes the file; it is the operating system's. *)
Context (dump : string -> json -> option ED).

Definition Dump (g : exp.Globals) (path : string) (config : Config) : option ED :=
  dump path (JArray (Service.MarshalJSON g <$> Services config)).

Definition Manager_Reload (g : exp.Globals) (now : Z) (stops : nat -> bool) (m : Manager) (w : World) :
    option managerError * Manager * World :=
  match loadConfig m with
  | Err e => (Some e, m, w)
  | Ok config =>
      match Prepare config with
      | Err e => (Some (ErrPrepare e), m, w)
      | Ok config =>
          let '(err, core, w) := Reload now stops config (mcore m) w in
          match err with
          | Some e => (Some (ErrReload e), MkManager (mconfig m) core (mloader m) (updateTS m), w)
          | None =>
              let m := MkManager (mconfig m) core (mloader m) (Some now) in
              (ErrDump <$> Dump g (DumpPath (mconfig m)) config, m, w)
          end
      end
  end.

Definition GetStatus (m : Manager) : option Z * list ServiceStatusMsg := (updateTS m, Status (mcore m)).
End manager.

(** ** Announce groups *)

Section groups.
Context `{F : FloatToInt} `{MR : MapRange} `{UC : UnicodeCase}.
Implicit Types (l : list Service.Config) (c : Service.Config).

(** The group of the first service with an announce group among those of a
    prefix. *)
Fixpoint first_group (p : Prefix) l : option string :=
  match l with
  | [] => None
  | c :: l =>
      if bool_decide (SAnnounceGroup c <> "") && bool_decide (service_prefix c = p) then Some (SAnnounceGroup c)
      else first_group p l
  end.

Definition regroup l c : Service.Config :=
  if decide (SAnnounceGroup c = "") then c
  else set_announce_group (default "" (first_group (service_prefix c) l)) c.

Lemma first_group_app p l1 l2 :
  first_group p (l1 ++ l2) = match first_group p l1 with Some g => Some g | None => first_group p l2 end.
Proof. induction l1 as [|c l1 IH]; simpl; [done|]. by destruct (_ && _). Qed.

Lemma first_group_in c l :
  c ∈ l -> SAnnounceGroup c <> "" -> exists g, first_group (service_prefix c) l = Some g /\ g <> "".
Proof.
  intros Hin Hg. induction Hin as [c l|c d l Hin IH]; simpl.
  - rewrite !bool_decide_eq_true_2 by done. simpl. eauto.
  - case_bool_decide as H1; simpl; [|by apply IH]. case_bool_decide; [|by apply IH]. eauto.
Qed.

Lemma validate_regroup (m : Config) :
  Services (validateAnnounceGroups m) = regroup (Services m) <$> Services m.
Proof.
  unfold validateAnnounceGroups. simpl.
  cut (let s := for_each validateService (Services m) (∅, []) in
       (forall p, s.1 !! p = first_group p (Services m)) /\ s.2 = regroup (Services m) <$> Services m); [by intros [_ ->]|].
  loop (fun (l : list Service.Config) (s : gmap Prefix string * list Service.Config) =>
          (forall p, s.1 !! p = first_group p l) /\ s.2 = regroup l <$> l).
  { split; [|done]. intros p. apply lookup_empty. }
  intros l c _ [ps seen] _. simpl. intros [Hp ->].
  assert (forall d, d ∈ l -> regroup (l ++ [c]) d = regroup l d) as Hold.
  { intros d Hd. unfold regroup. case_decide as Hg; [done|]. rewrite first_group_app.
    by destruct (first_group_in d l Hd Hg) as (g & -> & _). }
  rewrite fmap_app. simpl.
  assert (regroup (l ++ [c]) <$> l = regroup l <$> l) as ->
    by (apply list_fmap_ext; intros i d Hd; apply Hold, (list_elem_of_lookup_2 _ _ _ Hd)).
  unfold validateService. destruct (decide (SAnnounceGroup c = "")) as [Hg|Hg]; simpl.
  - split; [|unfold regroup at 3; by rewrite decide_True]. intros p. rewrite Hp, first_group_app. simpl. rewrite (bool_decide_eq_false_2 (SAnnounceGroup c <> "")) by tauto.
    simpl. by destruct (first_group p l).
  - assert (forall p, (match ps !! service_prefix c with Some _ => ps
                       | None => <[service_prefix c := SAnnounceGroup c]> ps end) !! p = first_group p (l ++ [c])) as Hps.
    { intros p. rewrite first_group_app, <- Hp. simpl. rewrite bool_decide_eq_true_2 by done. simpl.
      destruct (ps !! service_prefix c) as [g|] eqn:Hc.
      - case_bool_decide as Hpp; [|by destruct (ps !! p)]. rewrite <- Hpp, Hc. done.
      - rewrite lookup_insert. case_decide as Hpp.
        + rewrite <- Hpp, Hc, bool_decide_eq_true_2 by done. done.
        + rewrite bool_decide_eq_false_2 by done. by destruct (ps !! p). }
    split; [exact Hps|]. rewrite Hps. do 2 f_equal. unfold regroup. by rewrite decide_False.
Qed.

Lemma servicesForAnnouncer_spec (m : Config) s g :
  servicesForAnnouncer m !! s = Some g ->
  exists c, c ∈ Services m /\ Service.Key c = s /\ SAnnounceGroup c = g /\ g <> "".
Proof.
  unfold servicesForAnnouncer. revert s g.
  loop (fun (l : list Service.Config) (svcs : gmap key.Service string) => forall s g, svcs !! s = Some g ->
          exists c, c ∈ l /\ Service.Key c = s /\ SAnnounceGroup c = g /\ g <> "").
  { intros s g. by rewrite lookup_empty. }
  intros l c _ svcs _ IH s g.
  assert (svcs !! s = Some g -> exists c0, c0 ∈ l ++ [c] /\ Service.Key c0 = s /\ SAnnounceGroup c0 = g /\ g <> "") as Hold.
  { intros (c0 & Hin & H)%IH. exists c0. split; [|done]. apply elem_of_app. by left. }
  case_decide as Hg; [|exact Hold]. rewrite lookup_insert. case_decide as Hs; [|exact Hold].
  intros [= <-]. exists c. split_and!; [|done|done|done]. apply elem_of_app. right. by left.
Qed.

Lemma servicesForAnnouncer_complete (m : Config) c :
  c ∈ Services m -> SAnnounceGroup c <> "" -> is_Some (servicesForAnnouncer m !! Service.Key c).
Proof.
  intros Hin Hg. revert c Hin Hg. unfold servicesForAnnouncer.
  loop (fun (l : list Service.Config) (svcs : gmap key.Service string) => forall c, c ∈ l -> SAnnounceGroup c <> "" ->
          is_Some (svcs !! Service.Key c)).
  { intros c Hin. by apply not_elem_of_nil in Hin. }
  intros l c _ svcs _ IH d [Hd| ->%list_elem_of_singleton]%elem_of_app Hg.
  - specialize (IH d Hd Hg). destruct (decide (SAnnounceGroup c <> "")); [|done].
    rewrite lookup_insert. by case_decide.
  - rewrite decide_True by done. by rewrite lookup_insert_eq.
Qed.

Lemma regroup_group l c : c ∈ l -> (SAnnounceGroup (regroup l c) = "" <-> SAnnounceGroup c = "").
Proof.
  intros Hin. unfold regroup. case_decide as Hg; [done|].
  destruct (first_group_in c l Hin Hg) as (g & -> & Hne). simpl. tauto.
Qed.

Lemma regroup_prefix l c : service_prefix (regroup l c) = service_prefix c.
Proof. unfold regroup. by case_decide. Qed.

Lemma validated_consistent (m : Config) : consistent_groups (servicesForAnnouncer (validateAnnounceGroups m)).
Proof.
  intros s1 s2 g1 g2 (c1 & Hc1 & <- & Hg1 & Hn1)%servicesForAnnouncer_spec
    (c2 & Hc2 & <- & Hg2 & Hn2)%servicesForAnnouncer_spec Hp.
  rewrite validate_regroup in Hc1, Hc2.
  apply list_elem_of_fmap in Hc1 as (d1 & -> & Hd1). apply list_elem_of_fmap in Hc2 as (d2 & -> & Hd2).
  change (service_prefix (regroup (Services m) d1) = service_prefix (regroup (Services m) d2)) in Hp.
  rewrite !regroup_prefix in Hp. rewrite <- Hg1, <- Hg2 in *.
  rewrite regroup_group in Hn1, Hn2 by done. unfold regroup.
  rewrite !decide_False by done. simpl. by rewrite Hp.
Qed.
End groups.

(** ** The account of all services *)

Section account.
Context `{F : FloatToInt} `{MR : MapRange}.
Implicit Types (svcs : gmap key.Service Service) (m : Service) (c : Core) (w : World).

(** What the load balancer should have: the status of every real of every
    service, and "disabled" for everything else. *)
Definition core_view svcs (k : key.Balancer) : xevent.Status :=
  match svcs !! key.BService k with
  | Some m => match Service.reals m !! key.BReal k with Some r => Real.Status (Real.state r) | None => down end
  | None => down
  end.

(** Configurations of services without [InhibitOnFailure] whose reals differ. *)
Definition cfg_ok (cfg : Service.Config) : Prop :=
  Forall (fun r => InhibitOnFailure r = false) (Reals cfg) /\ NoDup (Real.Key <$> Reals cfg).

Definition local_ok (k : key.Service) m : Prop :=
  skey m = k /\ accounts m (msum real_weight (Service.reals m)) (msum real_alive (Service.reals m)) /\
  realsTotal m = msize (Service.reals m) /\ plain_reals (Service.reals m) /\ cfg_ok (Service.config m) /\
  Service.shutdown m = false.

Definition core_inv (applied : key.Balancer -> xevent.Status) svcs w : Prop :=
  (forall k m, svcs !! k = Some m -> local_ok k m) /\
  delta_inv (bevents (wbalancer w)) applied (core_view svcs).

(** One service seen from the core, and back. *)
Lemma core_view_service svcs k m rs kb :
  service_view (core_view svcs) k rs kb ≈
  (if decide (key.BService kb = k)
   then match rs !! key.BReal kb with Some r => Real.Status (Real.state r) | None => down end
   else core_view svcs kb).
Proof. unfold service_view. by case_decide. Qed.

Lemma core_inv_svc applied svcs w k m :
  core_inv applied svcs w -> svcs !! k = Some m -> svc_inv applied (core_view svcs) m w.
Proof.
  intros [Hl Hd] Hk. destruct (Hl k m Hk) as (Hs & H1 & H2 & H3 & _). split_and!; [done..|].
  unfold view_inv. eapply delta_inv_proper; [|exact Hd]. intros kb. rewrite (core_view_service _ _ m), Hs.
  case_decide as Hb; [|done]. unfold core_view. by rewrite Hb, Hk.
Qed.

Lemma core_inv_update applied svcs w k m' w' :
  core_inv applied svcs w -> svc_inv applied (core_view svcs) m' w' -> skey m' = k -> cfg_ok (Service.config m') ->
  Service.shutdown m' = false -> core_inv applied (<[k := m']> svcs) w'.
Proof.
  intros [Hl Hd] (H1 & H2 & H3 & H4) Hs Hc Hsh. split.
  - intros k2 m2. rewrite lookup_insert. case_decide as Hk; [|apply Hl]. intros [= <-]. by subst k2.
  - eapply delta_inv_proper; [|exact H4]. intros kb. rewrite (core_view_service _ _ m'), Hs.
    unfold core_view. rewrite lookup_insert. case_decide as Hk.
    + rewrite decide_True by done. done.
    + rewrite decide_False by congruence. done.
Qed.

(** A service without reals may be added or dropped. *)
Lemma core_inv_add applied svcs w k m :
  core_inv applied svcs w -> svcs !! k = None -> local_ok k m -> Service.reals m = ∅ ->
  core_inv applied (<[k := m]> svcs) w.
Proof.
  intros [Hl Hd] Hk Hm Hr. split.
  - intros k2 m2. rewrite lookup_insert. case_decide as Hk2; [|apply Hl]. intros [= <-]. by subst k2.
  - eapply delta_inv_proper; [|exact Hd]. intros kb. unfold core_view. rewrite lookup_insert.
    case_decide as Hk2; [|done]. by rewrite <- Hk2, Hk, Hr, lookup_empty.
Qed.

Lemma New_local_ok cfg : cfg_ok cfg -> local_ok (Service.Key cfg) (Service.New cfg).
Proof.
  intros Hc. unfold local_ok. cbn. destruct sums_empty as (-> & -> & ->). by split_and!.
Qed.

(** The loop over the configured services: [new] and the old services are
    disjoint, and their union keeps the invariant. *)
Definition loop_ok (applied : key.Balancer -> xevent.Status) (known : gmap key.Service Service)
    (visited : list Service.Config) (s : gmap key.Service Service * Core * World) : Prop :=
  let '(new, c, w) := s in
  core_inv applied (new ∪ services c) w /\
  (forall k, is_Some (new !! k) <-> k ∈ Service.Key <$> visited) /\
  (forall k, k ∈ Service.Key <$> visited -> services c !! k = None) /\
  (forall k, ~ k ∈ Service.Key <$> visited -> services c !! k = known !! k) /\
  (forall cfg m, cfg ∈ visited -> new !! Service.Key cfg = Some m -> Service.config m = cfg).

Lemma loop_ok_lookup applied known visited new c w k :
  loop_ok applied known visited (new, c, w) ->
  (new ∪ services c) !! k = if decide (k ∈ Service.Key <$> visited) then new !! k else services c !! k.
Proof.
  intros (_ & Hn & Ho & _ & _). case_decide as Hk.
  - apply Hn in Hk as [m Hm]. rewrite Hm. by apply lookup_union_Some_l.
  - apply lookup_union_r, eq_None_not_Some. by rewrite Hn.
Qed.

Lemma reloadService_ok applied known now visited cfg s :
  loop_ok applied known visited s -> ~ Service.Key cfg ∈ Service.Key <$> visited -> cfg_ok cfg ->
  loop_ok applied known (visited ++ [cfg]) (reloadService now cfg s).
Proof.
  destruct s as [[new c] w]. intros Hok Hnk Hc. pose proof Hok as (Hinv & Hn & Ho & Hkn & Hcf).
  pose proof (loop_ok_lookup _ _ _ _ _ _ (Service.Key cfg) Hok) as Hlk. rewrite decide_False in Hlk by done.
  assert (forall (m : Service) k, is_Some (<[Service.Key cfg := m]> new !! k) <-> k ∈ Service.Key <$> visited ++ [cfg]) as Hdom.
  { intros m k. rewrite fmap_app, elem_of_app. simpl. rewrite list_elem_of_singleton, lookup_insert.
    case_decide as Hk; [split; [intros _; by right|done]|]. rewrite Hn. split; [by left|]. intros [?|?]; [done|congruence]. }
  assert (forall (m : Service), Service.config m = cfg ->
    forall cfg2 m2, cfg2 ∈ visited ++ [cfg] -> <[Service.Key cfg := m]> new !! Service.Key cfg2 = Some m2 ->
    Service.config m2 = cfg2) as Hcfs.
  { intros m Hmc cfg2 m2 [H2| ->%list_elem_of_singleton]%elem_of_app; rewrite lookup_insert; case_decide as Hk.
    - exfalso. apply Hnk. rewrite Hk. by apply list_elem_of_fmap_2.
    - by apply Hcf.
    - by intros [= <-].
    - done. }
  unfold reloadService. destruct (services c !! Service.Key cfg) as [m|] eqn:Hm.
  - pose proof (core_inv_svc _ _ _ _ _ Hinv Hlk) as Hsvc.
    pose proof (Reload_inv applied _ now cfg m w (proj1 Hc) (proj2 Hc) Hsvc) as HR.
    destruct (Service.Reload now cfg m w) as [m' w']. destruct HR as (Hsvc' & Hs' & Hsh' & Hcfg').
    destruct (proj1 Hinv _ _ Hlk) as (Hs & _ & _ & _ & _ & Hsh). destruct (Hcfg' Hsh) as [Hcf' _].
    split_and!; simpl.
    + pose proof (core_inv_update applied _ _ (Service.Key cfg) m' w' Hinv Hsvc' ltac:(congruence) ltac:(by rewrite Hcf') ltac:(congruence)) as HU.
      replace (<[Service.Key cfg:=m']> new ∪ delete (Service.Key cfg) (services c))
        with (<[Service.Key cfg:=m']> (new ∪ services c)); [done|].
      rewrite <- insert_union_l. apply map_eq. intros k. rewrite !lookup_insert. case_decide as Hk; [done|].
      rewrite !lookup_union. by rewrite lookup_delete_ne.
    + apply Hdom.
    + intros k. rewrite lookup_delete. case_decide as Hk; [done|]. rewrite fmap_app, elem_of_app.
      intros [?| ->%list_elem_of_singleton]; [by apply Ho|done].
    + intros k. rewrite fmap_app, not_elem_of_app. simpl. intros [H1 H2%not_elem_of_cons].
      rewrite lookup_delete_ne by (intros <-; by destruct H2). by apply Hkn.
    + by apply Hcfs.
  - split_and!; simpl.
    + rewrite <- insert_union_l. apply core_inv_add; [done|by rewrite Hlk|by apply New_local_ok|done].
    + apply Hdom.
    + intros k. rewrite fmap_app, elem_of_app. intros [?| ->%list_elem_of_singleton]; [by apply Ho|done].
    + intros k. rewrite fmap_app, not_elem_of_app. intros [H1 _]. by apply Hkn.
    + by apply Hcfs.
Qed.

(** The state the loop ends in when no shutdown interferes. *)
Lemma reloadServices_ok applied known now cfgs : forall visited i s,
  loop_ok applied known visited s -> NoDup (Service.Key <$> visited ++ cfgs) -> Forall cfg_ok cfgs ->
  shutdown s.1.2 = false ->
  let '(aborted, s') := reloadServices now never i cfgs s in
  aborted = false /\ loop_ok applied known (visited ++ cfgs) s' /\ shutdown s'.1.2 = false.
Proof.
  induction cfgs as [|cfg cfgs IH]; intros visited i s Hok Hnd Hc Hsh; simpl.
  { by rewrite app_nil_r. }
  destruct s as [[new c] w]. simpl in Hsh. rewrite Hsh. simpl.
  apply Forall_cons in Hc as [Hc1 Hc]. rewrite fmap_app in Hnd.
  assert (~ Service.Key cfg ∈ Service.Key <$> visited) as Hnk.
  { apply NoDup_app in Hnd as (_ & Hd & _). intros Hin. by apply (Hd _ Hin); left. }
  pose proof (reloadService_ok applied known now visited cfg _ Hok Hnk Hc1) as Hok'.
  rewrite (cons_middle cfg), app_assoc. apply IH; [done| |done|].
  - by rewrite <- app_assoc, <- cons_middle, fmap_app.
  - unfold reloadService. destruct (services c !! _) as [m|]; [by destruct (Service.Reload now cfg m w)|done].
Qed.

(** Stopping a map of services leaves the others' view. *)
Lemma Service_Stop_ok applied svcs now k m w :
  core_inv applied svcs w -> svcs !! k = Some m ->
  let '(m', w') := Service.Stop now m w in core_inv applied (delete k svcs) w'.
Proof.
  intros Hinv Hk. pose proof (core_inv_svc _ _ _ _ _ Hinv Hk) as (Hacc & Htot & Hpl & Hv).
  pose proof (proj1 Hinv _ _ Hk) as (Hs & _).
  unfold Service.Stop. set (m1 := MkService _ _ _ _ _ _ _ _).
  pose proof (stopReals_inv applied (core_view svcs) now 0 (Service.reals m) ∅ m1 w 0 0 Hpl) as HS.
  change (Service.reals m1) with (Service.reals m).
  destruct (stopReals now 0 (Service.reals m) m1 w) as [m' w'].
  destruct HS as (_ & Hs' & _ & _ & _ & _ & Hv'); [intros; apply lookup_empty|exact Hacc| |].
  { unfold view_inv. rewrite map_empty_union. exact Hv. }
  split; [intros k2 m2; rewrite lookup_delete_Some; intros [_ H2]; by apply (proj1 Hinv)|].
  eapply delta_inv_proper; [|exact Hv']. intros kb. rewrite (core_view_service _ _ m).
  change (skey m1) with (skey m) in Hs'. rewrite Hs', Hs. unfold core_view. rewrite lookup_delete.
  case_decide as Hb.
  - rewrite decide_True by done. by rewrite lookup_empty.
  - rewrite decide_False by congruence. done.
Qed.

Lemma stopServices_ok applied new now old c w :
  core_inv applied (new ∪ old) w -> (forall k, is_Some (old !! k) -> new !! k = None) ->
  let '(c', w') := stopServices now old c w in
  core_inv applied new w' /\ shutdown c' = shutdown c /\ servicesPool c' = servicesPool c.
Proof.
  intros Hinv Hdisj. unfold stopServices.
  pose proof (for_range_ind (fun (done_ : gmap key.Service Service) (s : Core * World) =>
    core_inv applied ((new ∪ old) ∖ done_) s.2 /\ shutdown s.1 = shutdown c /\ servicesPool s.1 = servicesPool c)
    old (fun k service '(m, w) =>
       let '(service, w) := Service.Stop now service w in
       (MkCore (<[k := service]> (services m)) (servicesPool m) (shutdown m), w)) (c, w)) as HI.
  destruct (for_range old _ (c, w)) as [c' w']. simpl in HI.
  destruct HI as (H1 & H2 & H3).
  - split; [|done]. by rewrite map_difference_empty.
  - intros k m done_ [c1 w1] Hd Hk _ (H1 & H2 & H3). simpl in *.
    assert (((new ∪ old) ∖ done_) !! k = Some m) as Hm.
    { apply lookup_difference_Some. split; [|done]. rewrite lookup_union_r; [done|]. apply Hdisj. eauto. }
    pose proof (Service_Stop_ok applied _ now k m w1 H1 Hm) as HS.
    destruct (Service.Stop now m w1) as [m' w1']. simpl. split; [|done].
    replace ((new ∪ old) ∖ <[k:=m]> done_) with (delete k ((new ∪ old) ∖ done_)); [done|].
    apply map_eq. intros k2. rewrite lookup_delete, !lookup_difference, lookup_insert. by case_decide.
  - split; [|done]. replace new with ((new ∪ old) ∖ old); [done|].
    apply map_eq. intros k. rewrite lookup_difference. destruct (old !! k) as [m|] eqn:Hk.
    + symmetry. apply Hdisj. eauto.
    + by apply lookup_union_l.
Qed.

Lemma core_loop_start applied c w : core_inv applied (services c) w -> loop_ok applied (services c) [] (∅, c, w).
Proof.
  intros Hinv. split_and!; [by rewrite map_empty_union| | |done|].
  - intros k. rewrite lookup_empty. split; [by intros []|]. by intros ?%not_elem_of_nil.
  - by intros k ?%not_elem_of_nil.
  - by intros cfg m ?%not_elem_of_nil.
Qed.

(** Reloading the core with a configuration that lists each service once. *)
Lemma core_Reload_ok applied now (config : Config) c w :
  core_inv applied (services c) w -> shutdown c = false ->
  NoDup (Service.Key <$> Services config) -> Forall cfg_ok (Services config) ->
  let '(err, c', w') := Reload now never config c w in
  core_inv applied (services c') w' /\ shutdown c' = false /\
  (err = None ->
   (forall k, is_Some (services c' !! k) <-> k ∈ Service.Key <$> Services config) /\
   (forall cfg m, cfg ∈ Services config -> services c' !! Service.Key cfg = Some m -> Service.config m = cfg)).
Proof.
  intros Hinv Hsh Hnd Hc. unfold Reload.
  destruct (Announcer.ReloadServices _ _) as [[e|] a]; [by split_and!|].
  assert (core_inv applied (services c) (MkWorld a (wbalancer w))) as Hinv' by exact Hinv.
  pose proof (reloadServices_ok applied (services c) now (Services config) [] 0
                (∅, c, MkWorld a (wbalancer w)) (core_loop_start _ _ _ Hinv') Hnd Hc Hsh) as HL.
  destruct (reloadServices _ _ _ _ _) as [aborted [[new c1] w1]]. destruct HL as (-> & Hok & Hsh1).
  pose proof Hok as (Hi & Hn & Ho & _ & Hcf). simpl in Hn, Ho, Hsh1, Hcf.
  pose proof (stopServices_ok applied new now (services c1) c1 w1 Hi) as HS.
  destruct (stopServices now (services c1) c1 w1) as [c2 w2]. destruct HS as (H1 & H2 & _).
  { intros k [m Hm]. apply eq_None_not_Some. intros Hin%Hn. by rewrite (Ho k Hin) in Hm. }
  split_and!; [done| |done]. simpl. congruence.
Qed.

(** ** Runs of the core *)

Inductive core_op :=
| OpReload (now : Z) (config : Config)
| OpRun (now : Z) (k : key.Service)          (* the pool starts the service [k] *)
| OpService (k : key.Service) (o : svc_op).  (* a real of the service [k] moves *)

Definition onService (f : Service -> World -> Service * World) (k : key.Service) (c : Core) (w : World) : Core * World :=
  match services c !! k with
  | None => (c, w)
  | Some m => let '(m, w) := f m w in (MkCore (<[k := m]> (services c)) (servicesPool c) (shutdown c), w)
  end.

Definition do_core (o : core_op) (s : Core * World) : Core * World :=
  match o with
  | OpReload now config => let '(_, c, w) := Reload now never config s.1 s.2 in (c, w)
  | OpRun now k => onService (Service.Run now) k s.1 s.2
  | OpService k o => onService (fun m w => do_svc o (m, w)) k s.1 s.2
  end.

Definition core_op_ok (o : core_op) (c : Core) : Prop :=
  match o with
  | OpReload _ config => NoDup (Service.Key <$> Services config) /\ Forall cfg_ok (Services config)
  | OpRun _ _ => True
  | OpService k (OpReloadService _ _) => False
  | OpService k o => forall m, services c !! k = Some m -> svc_op_ok o m
  end.

Fixpoint core_ops_ok (l : list core_op) (s : Core * World) : Prop :=
  match l with
  | [] => True
  | o :: l => core_op_ok o s.1 /\ core_ops_ok l (do_core o s)
  end.

Lemma onService_inv applied f k c w :
  core_inv applied (services c) w ->
  (forall m, services c !! k = Some m -> svc_inv applied (core_view (services c)) m w -> cfg_ok (Service.config m) ->
     Service.shutdown m = false ->
     let '(m', w') := f m w in
     svc_inv applied (core_view (services c)) m' w' /\ same_service m m') ->
  let '(c', w') := onService f k c w in core_inv applied (services c') w' /\ shutdown c' = shutdown c.
Proof.
  intros Hinv Hf. unfold onService. destruct (services c !! k) as [m|] eqn:Hk; [|done].
  destruct (proj1 Hinv _ _ Hk) as (Hs & _ & _ & _ & Hc & Hsh).
  specialize (Hf m eq_refl (core_inv_svc _ _ _ _ _ Hinv Hk) Hc Hsh).
  destruct (f m w) as [m' w']. destruct Hf as (Hsvc & H1 & H2 & H3). split; [|done].
  apply (core_inv_update applied (services c) w); [done|done|congruence|by rewrite H1|congruence].
Qed.

Lemma do_core_inv applied o s :
  core_op_ok o s.1 -> core_inv applied (services s.1) s.2 -> shutdown s.1 = false ->
  core_inv applied (services (do_core o s).1) (do_core o s).2 /\ shutdown (do_core o s).1 = false.
Proof.
  destruct s as [c w]. simpl. intros Hok Hinv Hsh. destruct o as [now config|now k|k o]; simpl in *.
  - destruct Hok as [Hnd Hc]. pose proof (core_Reload_ok applied now config c w Hinv Hsh Hnd Hc) as HR.
    destruct (Reload now never config c w) as [[err c'] w']. simpl. tauto.
  - pose proof (onService_inv applied (Service.Run now) k c w Hinv) as HO.
    destruct (onService (Service.Run now) k c w) as [c' w']. simpl. rewrite <- Hsh. apply HO.
    intros m _ Hsvc [Hc1 Hc2] Hsh1. unfold Service.Run.
    pose proof (Reload_inv applied _ now (Service.config m) m w Hc1 Hc2 Hsvc) as HR.
    destruct (Service.Reload now (Service.config m) m w) as [m' w1'].
    destruct HR as (H1 & H2 & H3 & H4). split; [done|]. destruct (H4 Hsh1). done.
  - pose proof (onService_inv applied (fun m w => do_svc o (m, w)) k c w Hinv) as HO.
    destruct (onService _ k c w) as [c' w']. simpl. rewrite <- Hsh. apply HO.
    intros m Hm Hsvc _ _. destruct o as [now rk e|now rk|now cfg]; [| |done].
    + pose proof (do_svc_inv applied _ (OpReal now rk e) (m, w) (Hok m Hm) Hsvc) as [H1 _].
      pose proof (realEvent_same now rk e m w) as H2. simpl in *. by destruct (realEvent now rk e m w).
    + pose proof (do_svc_inv applied _ (OpActivate now rk) (m, w) (Hok m Hm) Hsvc) as [H1 _].
      pose proof (realRun_same now rk m w) as H2. simpl in *. by destruct (realRun now rk m w).
Qed.

Lemma do_cores_inv applied l s :
  core_ops_ok l s -> core_inv applied (services s.1) s.2 -> shutdown s.1 = false ->
  core_inv applied (services (for_each do_core l s).1) (for_each do_core l s).2 /\
  shutdown (for_each do_core l s).1 = false.
Proof.
  unfold for_each. revert s. induction l as [|o l IH]; intros s; simpl; [done|].
  intros [Ho Hl] Hinv Hsh. destruct (do_core_inv applied o s Ho Hinv Hsh). by apply IH.
Qed.

Lemma core_inv_New applied w :
  delta_inv (bevents (wbalancer w)) applied (fun _ => down) -> core_inv applied (services New) w.
Proof.
  intros Hd. split; [intros k m; simpl; by rewrite lookup_empty|].
  eapply delta_inv_proper; [|exact Hd]. intros k. unfold core_view. simpl. by rewrite lookup_empty.
Qed.

(** C5: the account of the whole program is exact.  Start with no services and
    the load balancer's reals disabled; after any sequence of configuration
    reloads (that list each service and each of its reals once, without
    [InhibitOnFailure]), starts of services and reals, and events of checkers,
    every service weighs what its enabled reals weigh and counts them, and the
    events pending in the balancer lead from what was applied to exactly the
    current status of every real of every service: those of removed reals and
    of removed services are disabled. *)
Theorem core_accounting (applied : key.Balancer -> xevent.Status) (l : list core_op) (w0 : World) :
  delta_inv (bevents (wbalancer w0)) applied (fun _ => down) ->
  core_ops_ok l (New, w0) ->
  let '(c, w) := for_each do_core l (New, w0) in
  (forall k m, services c !! k = Some m ->
     skey m = k /\ Weight (state m) = wrap64 (msum real_weight (Service.reals m)) /\
     RealsAlive (state m) = wrap64 (msum real_alive (Service.reals m)) /\
     realsEnabled m = msum real_alive (Service.reals m) /\ realsTotal m = msize (Service.reals m)) /\
  delta_inv (bevents (wbalancer w)) applied (core_view (services c)).
Proof.
  intros Hd Hl. destruct (do_cores_inv applied l (New, w0) Hl (core_inv_New _ _ Hd) eq_refl) as [[H1 H2] _].
  destruct (for_each do_core l (New, w0)) as [c w]. split; [|done].
  intros k m Hk. destruct (H1 k m Hk) as (Hs & (A1 & A2 & A3) & Ht & _). by split_and!.
Qed.

End account.

(** ** Configurations and their refusal *)

Section refusal.
Context `{F : FloatToInt} `{MR : MapRange} `{UC : UnicodeCase}.
Implicit Types (l : list Service.Config) (c : Service.Config) (w : World).

Lemma regroup_by_prefix l c1 c2 :
  c1 ∈ l -> c2 ∈ l -> service_prefix c1 = service_prefix c2 ->
  SAnnounceGroup (regroup l c1) <> "" -> SAnnounceGroup (regroup l c2) <> "" ->
  SAnnounceGroup (regroup l c1) = SAnnounceGroup (regroup l c2).
Proof.
  intros H1 H2 Hp Hg1 Hg2. rewrite regroup_group in Hg1, Hg2 by done.
  unfold regroup. rewrite !decide_False by done. simpl. by rewrite Hp.
Qed.

Lemma first_group_Some p l g : first_group p l = Some g -> exists c, c ∈ l /\ service_prefix c = p /\ SAnnounceGroup c = g /\ g <> "".
Proof.
  induction l as [|c l IH]; simpl; [done|]. case_bool_decide as H1; simpl.
  - case_bool_decide as H2; [intros [= <-]; exists c; split_and!; [left|done..]|].
    intros (d & Hd & H)%IH. exists d. split; [by right|done].
  - intros (d & Hd & H)%IH. exists d. split; [by right|done].
Qed.

Lemma first_group_regroup p l : first_group p (regroup l <$> l) = first_group p l.
Proof.
  destruct (first_group p (regroup l <$> l)) as [g|] eqn:Hg.
  - apply first_group_Some in Hg as (d & (c & -> & Hc)%list_elem_of_fmap & Hp & <- & Hne).
    rewrite regroup_prefix in Hp. rewrite regroup_group in Hne by done. subst p.
    unfold regroup. rewrite decide_False by done. simpl.
    destruct (first_group_in c l Hc Hne) as (g & -> & _). done.
  - destruct (first_group p l) as [g|] eqn:Hl; [|done].
    apply first_group_Some in Hl as (c & Hc & <- & <- & Hne).
    assert (regroup l c ∈ regroup l <$> l) as Hin by (by apply list_elem_of_fmap_2).
    destruct (first_group_in _ _ Hin) as (g & Hg' & _); [by rewrite regroup_group|].
    rewrite regroup_prefix in Hg'. congruence.
Qed.

(** [validateAnnounceGroups] gives every service that has an announce group
    the one of the first such service of its prefix, and changes nothing else;
    the groups handed to the announcer are consistent, and validating again
    changes nothing. *)
Theorem validateAnnounceGroups_functional (m : Config) :
  Services (validateAnnounceGroups m) = regroup (Services m) <$> Services m /\
  consistent_groups (servicesForAnnouncer (validateAnnounceGroups m)) /\
  validateAnnounceGroups (validateAnnounceGroups m) = validateAnnounceGroups m.
Proof.
  split; [apply validate_regroup|]. split; [apply validated_consistent|].
  assert (forall m1 m2 : Config, Services m1 = Services m2 -> m1 = m2) as Hext
    by (intros [] []; simpl; congruence).
  apply Hext. rewrite validate_regroup, validate_regroup. rewrite <- list_fmap_compose.
  apply list_fmap_ext. intros i c Hc%list_elem_of_lookup_2. unfold compose.
  unfold regroup at 1. case_decide as Hg; [done|]. rewrite regroup_group in Hg by done.
  rewrite first_group_regroup, regroup_prefix. unfold regroup. rewrite decide_False by done.
  by destruct c.
Qed.

Lemma validated_known (m : Config) (r : AnnounceGroupRegistry) :
  known_groups (servicesForAnnouncer (validateAnnounceGroups m)) r <->
  forall c, c ∈ Services (validateAnnounceGroups m) -> SAnnounceGroup c <> "" -> SAnnounceGroup c ∈ groups r.
Proof.
  split.
  - intros Hk c Hc Hg. destruct (servicesForAnnouncer_complete _ c Hc Hg) as [g Hl].
    destruct (servicesForAnnouncer_spec _ _ _ Hl) as (c' & Hc' & Hkey & Hg' & Hne).
    replace (SAnnounceGroup c) with g; [by apply (Hk _ _ Hl)|].
    rewrite <- Hg' in *. rewrite validate_regroup in Hc, Hc'.
    apply list_elem_of_fmap in Hc as (d & -> & Hd). apply list_elem_of_fmap in Hc' as (d' & -> & Hd').
    apply regroup_by_prefix; [done|done| |done|done].
    rewrite <- (regroup_prefix (Services m) d), <- (regroup_prefix (Services m) d').
    unfold service_prefix. by rewrite Hkey.
  - intros Hc s g (c & Hin & _ & <- & Hne)%servicesForAnnouncer_spec. by apply Hc.
Qed.

(** C17: a prepared configuration is refused only for an unknown announce group.
    The reload of the core succeeds exactly when every announce group in use is
    one of the announcer's; when it fails, the core, the announcer and the
    balancer are as before. *)
Theorem prepared_Reload_refused (m0 config : Config) (now : Z) (stops : nat -> bool) (c : Core) (w : World) :
  Prepare m0 = Ok config ->
  let '(err, c', w') := Reload now stops config c w in
  (err = None <-> forall cfg, cfg ∈ Services config -> SAnnounceGroup cfg <> "" ->
     SAnnounceGroup cfg ∈ groups (announceGroups (wannouncer w))) /\
  (err <> None -> c' = c /\ w' = w).
Proof.
  unfold Prepare. destruct (prepareServices (Services m0)) as [svcs|]; simpl; [|done]. intros [= <-].
  set (m := MkConfig svcs). pose proof (validated_known m (announceGroups (wannouncer w))) as HK. unfold Reload, ReloadServices.
  destruct (group_by_prefix (servicesForAnnouncer (validateAnnounceGroups m)) (announceGroups (wannouncer w))) as [gbp|e] eqn:Hg.
  - destruct (group_by_prefix_Ok _ _ _ Hg) as (Hk & _ & _). pose proof (proj1 HK Hk).
    destruct (reloadServices _ _ _ _ _) as [[] [[new c1] w1]]; [done|].
    by destruct (stopServices now (services c1) c1 w1).
  - split; [|by destruct w]. split; [done|]. intros Hk. apply HK in Hk.
    destruct (group_by_prefix_complete _ _ Hk (validated_consistent m)) as [gbp Hg']. congruence.
Qed.

(** What a request to reload does, on every branch.  A configuration that
    cannot be loaded or prepared, or that the announcer refuses, changes
    nothing, not even the timestamp; any other is in force, also when the
    request fails because the dump could not be written. *)
Theorem Manager_Reload_functional {E ED} (dump : string -> json -> option ED) (g : exp.Globals) (now : Z)
    (stops : nat -> bool) (m : @Manager E) (w : World) :
  let '(err, m', w') := Manager_Reload dump g now stops m w in
  match err with
  | None | Some (ErrDump _) =>
      exists c0 config : Config, loadConfig (ED:=ED) m = Ok c0 /\ Prepare c0 = Ok config /\
        Reload now stops config (mcore m) w = (None, mcore m', w') /\ updateTS m' = Some now /\
        Dump dump g (DumpPath (mconfig m)) config = match err with Some (ErrDump e) => Some e | _ => None end
  | _ => m' = m /\ w' = w
  end.
Proof.
  unfold Manager_Reload. destruct (loadConfig m) as [c0|e] eqn:Hload.
  2:{ unfold loadConfig in Hload. destruct (mloader m) as [load|]; [destruct (load _)|]; by simplify_eq. }
  destruct (Prepare c0) as [config|e] eqn:Hprep; [|done].
  destruct (Reload now stops config (mcore m) w) as [[[e|] core] w'] eqn:HR.
  - unfold Reload, ReloadServices in HR. destruct (group_by_prefix _ _) as [gbp|e'].
    + destruct (reloadServices _ _ _ _ _) as [[] [[new c1] w1]]; [done|].
      by destruct (stopServices now (services c1) c1 w1).
    + injection HR as _ <- <-. by destruct m, w.
  - simpl. destruct (Dump dump g (DumpPath (mconfig m)) config) as [e|] eqn:HD; simpl;
      exists c0, config; (split_and!; [done..|exact HD]).
Qed.
End refusal.

(** ** Concrete runs *)

Section concrete.
Definition op_okb (o : core_op) (c : Core) : bool :=
  match o with
  | OpReload _ config =>
      bool_decide (NoDup (Service.Key <$> Services config)) &&
      forallb (fun cfg => forallb (fun r => negb (InhibitOnFailure r)) (Reals cfg) &&
                          bool_decide (NoDup (Real.Key <$> Reals cfg))) (Services config)
  | OpRun _ _ => true
  | OpService k (OpReloadService _ _) => false
  | OpService k o => match services c !! k with Some m => svc_op_okb o m | None => true end
  end.

Fixpoint ops_okb (l : list core_op) (s : Core * World) : bool :=
  match l with
  | [] => true
  | o :: l => op_okb o s.1 && ops_okb l (do_core o s)
  end.

Lemma cfgs_okb_ok l :
  forallb (fun cfg => forallb (fun r => negb (InhibitOnFailure r)) (Reals cfg) &&
                      bool_decide (NoDup (Real.Key <$> Reals cfg))) l = true -> Forall cfg_ok l.
Proof.
  rewrite forallb_forall. intros H. apply Forall_forall. intros cfg Hc%list_elem_of_In.
  specialize (H cfg Hc). apply andb_prop in H as [H1 H2]. split; [|by apply bool_decide_eq_true in H2].
  rewrite forallb_forall in H1. apply Forall_forall. intros r Hr%list_elem_of_In. specialize (H1 r Hr).
  by destruct (InhibitOnFailure r).
Qed.

Lemma op_okb_ok o c : op_okb o c = true -> core_op_ok o c.
Proof.
  destruct o as [now config|now k|k o]; [|done|].
  - simpl. intros [H1 H2]%andb_prop. split; [by apply bool_decide_eq_true in H1|by apply cfgs_okb_ok].
  - destruct o as [now rk e|now rk|now cfg]; [| |done]; intros H m Hm; cbn in H; rewrite Hm in H;
      by apply svc_op_okb_ok.
Qed.

Lemma ops_okb_ok l s : ops_okb l s = true -> core_ops_ok l s.
Proof.
  revert s. induction l as [|o l IH]; intros s; simpl; [done|].
  intros [H1 H2]%andb_prop. split; [by apply op_okb_ok|by apply IH].
Qed.

(** Two services of one real each. *)
Definition svc1 : Service.Config := svc_config 10 0 "a" [other_config].
Definition svc2 : Service.Config :=
  Service.MkConfig host2 53 "UDP" "wrr" "TUN" 10 0 "" "" "b" None 0 false "" "" None sched0 [other_config].
Definition both : Config := MkConfig [svc1; svc2].
Definition sk1 : key.Service := Service.Key svc1.
Definition sk2 : key.Service := Service.Key svc2.

Definition boot (config : Config) : list core_op :=
  [OpReload 0 config; OpRun 0 sk1; OpRun 0 sk2; OpService sk1 (OpActivate 0 rk2); OpService sk2 (OpActivate 0 rk2);
   OpService sk1 (OpReal 1 rk2 succeed); OpService sk2 (OpReal 1 rk2 succeed)].

(** Both services start; the second is removed. *)
Definition boot_and_remove : list core_op := boot both ++ [OpReload 2 (MkConfig [svc1])].

Lemma boot_ok : core_ops_ok boot_and_remove (New, world0).
Proof. apply ops_okb_ok. vm_compute. reflexivity. Qed.

Definition up_key (k : key.Service) : key.Balancer := key.MkBalancer k rk2.

Lemma core_accounting_witness :
  let '(c, w) := for_each do_core boot_and_remove (New, world0) in
  msize (services c) = 1 /\ delta_inv (bevents (wbalancer w)) all_down (core_view (services c)) /\
  core_view (services c) (up_key sk1) = xevent.MkStatus true 10 /\ core_view (services c) (up_key sk2) = down.
Proof.
  assert (delta_inv (bevents (wbalancer world0)) all_down (fun _ => down)) as Hd by (apply delta_inv_new).
  pose proof (core_accounting all_down boot_and_remove world0 Hd boot_ok) as H.
  destruct (for_each do_core boot_and_remove (New, world0)) as [c w] eqn:E.
  destruct H as [_ H].
  pose proof (f_equal (fun s : Core * World => msize (services s.1)) E) as E1.
  pose proof (f_equal (fun s : Core * World => core_view (services s.1) (up_key sk1)) E) as E2.
  pose proof (f_equal (fun s : Core * World => core_view (services s.1) (up_key sk2)) E) as E3.
  vm_compute in E1, E2, E3.
  split; [symmetry; exact E1|]. split; [exact H|]. split; [symmetry; exact E2|symmetry; exact E3].
Defined.


(** A configuration with a group the announcer does not know. *)
Lemma prepared_Reload_refused_witness :
  let '(err, c', w') := Reload 0 never (MkConfig [Service.MkConfig host1 80 "TCP" "wrr" "TUN" 10 0 "" "" "z" None 0 false "" "" None sched0 []]) New world0 in
  err <> None /\ c' = New.
Proof.
  set (config := MkConfig _).
  assert (Prepare config = Ok config) as Hp by (vm_compute; reflexivity).
  pose proof (prepared_Reload_refused config config 0 never New world0 Hp) as H.
  destruct (Reload 0 never config New world0) as [[err c'] w']. destruct H as [H1 H2].
  assert (err <> None) as He.
  { intros Hn. pose proof (proj1 H1 Hn _ (list_elem_of_here _ _) ltac:(discriminate)) as Hin.
    apply (bool_decide_pack _) in Hin. vm_compute in Hin. exact Hin. }
  split; [exact He|]. by destruct (H2 He).
Defined.

(** A reload that a shutdown interrupts forgets the services it has
    handled: they are in neither map, so [Stop] does not stop them.  Here the
    only real of the first service is still to be enabled after the stop, while
    the one of the second is disabled. *)
Theorem interrupted_Reload_forgets :
  let '(c, w) := for_each do_core (boot both) (New, world0) in
  let '(err, c1, w1) := Reload 2 (fun i => (1 <=? i)%nat) both c w in
  let '(c2, w2) := Stop 3 c1 w1 in
  let pending k := (fun e => xevent.SEnable (xevent.ENew e)) <$> events (bevents (wbalancer w2)) !! up_key k in
  err = None /\ shutdown c1 = true /\ msize (services c) = 2 /\ services c1 !! sk1 = None /\
  pending sk1 = Some true /\ pending sk2 = Some false.
Proof. vm_compute. repeat split. Qed.

(** A service configured twice is started again by every reload, and the
    one it replaces is never stopped. *)
Theorem duplicate_service_leaks :
  let twice := MkConfig [svc1; svc1] in
  let '(_, c1, w1) := Reload 0 never twice New world0 in
  let '(_, c2, w2) := Reload 1 never twice c1 w1 in
  length (servicesPool c1) = 2%nat /\ msize (services c1) = 1 /\
  length (servicesPool c2) = 3%nat /\ msize (services c2) = 1.
Proof. vm_compute. repeat split. Qed.
End concrete.
