(* ===== verification/Keepalived.v ===== *)
(** * The keepalived configuration language

    [pkg/keepalived/parser.go]: the tokens of a line, the tree of items of a
    file with its blocks and includes. *)

From Stdlib Require Import Ascii.
From stdpp Require Import strings numbers gmap sets list.
From S2P Require Import Prelude.
From S2P Require Import Types.
From S2P Require Import Check.
From S2P Require Import Text.

Open Scope Z_scope.
Open Scope go_scope.

(** ** parser.go: tokens *)

Definition isSpace (r : Z) : bool := (r =? 32) || (r =? 9).

Definition isSpecial (r : Z) : bool := (r =? 35) || (r =? 123) || (r =? 125).

(** Where the scan of a line is: between tokens, in a word, or in a quoted
    string after what it read, the last rune being an escape or not. *)
Inductive mode :=
| MOuter
| MWord (acc : list Z)
| MQuote (acc : list Z) (escaped : bool).

Definition emit (t : list Z) (r : list (list Z) * bool) : list (list Z) * bool := (t :: r.1, r.2).

(** The loop of [splitLine] over the runes after the leading spaces: the tokens,
    and [openedQuote].  The rune that ends a word is consumed with it. *)
Fixpoint tokens (m : mode) (data : list Z) : list (list Z) * bool :=
  match data with
  | [] =>
      match m with
      | MOuter => ([], false)
      | MWord acc => ([acc], false)
      | MQuote acc _ => ([acc], true)
      end
  | r :: data =>
      match m with
      | MOuter =>
          if isSpecial r then emit [r] (tokens MOuter data)
          else if r =? 34 then tokens (MQuote [] false) data
          else if isSpace r then tokens MOuter data
          else tokens (MWord [r]) data
      | MWord acc =>
          if isSpace r || isSpecial r then emit acc (tokens MOuter data)
          else tokens (MWord (acc ++ [r])) data
      | MQuote acc escaped =>
          if (r =? 34) && negb escaped then emit acc (tokens MOuter data)
          else tokens (MQuote (acc ++ [r]) ((r =? 92) && negb escaped)) data
      end
  end.

Fixpoint skip_spaces (data : list Z) : list Z :=
  match data with r :: data' => if IsSpace r then skip_spaces data' else data | [] => [] end.

(** [None]: unmatched quotation mark. *)
Definition splitLine (line : list Z) : option (list string) :=
  let '(res, openedQuote) := tokens MOuter (skip_spaces (Runes line)) in
  if openedQuote then None else Some ((fun t => of_bytes (EncodeRunes t)) <$> res).

(** ** parser.go: the tree *)

Inductive confItem := MkItem (Name : string) (Values : list string) (SubItems : list confItem) (Path File : string).

Definition Name (i : confItem) : string := let '(MkItem n _ _ _ _) := i in n.
Definition Values (i : confItem) : list string := let '(MkItem _ v _ _ _) := i in v.
Definition SubItems (i : confItem) : list confItem := let '(MkItem _ _ s _ _) := i in s.

(** The operating system: opening and reading a file, and the files that match
    a pattern. *)
Class FileSystem := {
  osError : Type;
  ReadFile : string -> res osError (list Z);
  Glob : string -> res osError (list string);
}.

Definition name_char (c : ascii) : bool :=
  let n := Z.of_nat (nat_of_ascii c) in
  in_range 97 122 n || in_range 65 90 n || in_range 48 57 n || (n =? 95) || (n =? 45).

(** [^[a-zA-Z0-9_-]+$]. *)
Definition valid_name (s : string) : bool :=
  negb (bool_decide (s = "")) && forallb name_char (String.list_ascii_of_string s).

Definition has_char (n : Z) (s : string) : bool := existsb (Z.eqb n) (bytes_of s).

Definition starts_with (n : Z) (s : string) : bool := match bytes_of s with b :: _ => b =? n | [] => false end.

Definition is_comment (s : string) : bool := starts_with 35 s || starts_with 33 s.

Definition string_path (f : list Z -> list Z) (s : string) : string := of_bytes (f (bytes_of s)).

Section parser.
Context `{FS : FileSystem}.

Inductive parseError :=
| ErrUnmatchedQuote (line : list Z)
| ErrInvalidInclude
| ErrFileList (e : osError)
| ErrInclude (file : string) (e : parseError)
| ErrComplexName
| ErrBadName (token : string)
| ErrOpen (e : osError)
| ErrUnbalancedBrace.

(** A result, or [None] when the definitions run out of fuel. *)
Definition outcome (A : Type) : Type := option (res parseError A).

Definition bind {A B} (r : outcome A) (k : A -> outcome B) : outcome B :=
  match r with Some (Ok a) => k a | Some (Err e) => Some (Err e) | None => None end.

(** The items of the files of an include, in the order of [Glob]. *)
Fixpoint includeFiles (parseFile : string -> outcome confItem) (files : list string) (acc : list confItem) :
    outcome (list confItem) :=
  match files with
  | [] => Some (Ok acc)
  | file :: files =>
      match parseFile file with
      | None => None
      | Some (Err e) => Some (Err (ErrInclude file e))
      | Some (Ok include) => includeFiles parseFile files (acc ++ SubItems include)
      end
  end.

(** The values of an item, and whether a block opens. *)
Definition block_open (toks : list string) : list string * bool :=
  match reverse toks with
  | t :: rest => if bool_decide (t = "{") then (reverse rest, true) else (toks, false)
  | [] => (toks, false)
  end.

(** The loop of [parseConfig] on the lines left in the scanner; [acc] is [res].
    The result has the lines after the end of the block.  A line is consumed in
    each round. *)
Fixpoint parseConfig (parseFile : string -> outcome confItem) (fuel : nat) (path name : string)
    (lines : list (list Z)) (unbalancedBraces : Z) (acc : list confItem) :
    outcome (list confItem * list (list Z) * Z) :=
  match fuel with
  | O => None
  | S fuel =>
      match lines with
      | [] => Some (Ok (acc, [], unbalancedBraces))
      | line :: lines =>
          match splitLine line with
          | None => Some (Err (ErrUnmatchedQuote line))
          | Some [] => parseConfig parseFile fuel path name lines unbalancedBraces acc
          | Some (t0 :: toks) =>
              if is_comment t0 then parseConfig parseFile fuel path name lines unbalancedBraces acc
              else if bool_decide (t0 = "}") then Some (Ok (acc, lines, unbalancedBraces -i 1))
              else if bool_decide (t0 = "include") then
                match toks with
                | [pattern] =>
                    match Glob (of_bytes (Join (bytes_of path) (bytes_of pattern))) with
                    | Err e => Some (Err (ErrFileList e))
                    | Ok files =>
                        bind (includeFiles parseFile files acc)
                          (parseConfig parseFile fuel path name lines unbalancedBraces)
                    end
                | _ => Some (Err ErrInvalidInclude)
                end
              else if has_char 123 t0 then Some (Err ErrComplexName)
              else if negb (valid_name t0) then Some (Err (ErrBadName t0))
              else
                let '(values, opens) := block_open toks in
                if opens then
                  bind (parseConfig parseFile fuel path name lines (unbalancedBraces +i 1) [])
                    (fun '(subs, lines, unbalancedBraces) =>
                       parseConfig parseFile fuel path name lines unbalancedBraces
                         (acc ++ [MkItem t0 values subs path name]))
                else parseConfig parseFile fuel path name lines unbalancedBraces (acc ++ [MkItem t0 values [] path name])
          end
      end
  end.

(** [depth] bounds the nesting of includes. *)
Fixpoint parseFile (depth : nat) (path : string) : outcome confItem :=
  match depth with
  | O => None
  | S depth =>
      match ReadFile path with
      | Err e => Some (Err (ErrOpen e))
      | Ok data =>
          let lines := ScanLines data in
          let dir := string_path Dir path in
          let base := string_path Base path in
          bind (parseConfig (parseFile depth) (S (length lines)) dir base lines 0 [])
            (fun '(subs, _, unbalancedBraces) =>
               if unbalancedBraces =? 0 then Some (Ok (MkItem "" [] subs dir base)) else Some (Err ErrUnbalancedBrace))
      end
  end.
End parser.

(** ** Fuel *)

Section fuel.
Context `{FS : FileSystem} (pf : string -> outcome confItem) (path name : string).

Lemma bind_Ok {A B} (r : outcome A) (k : A -> outcome B) b :
  bind r k = Some (Ok b) -> exists a, r = Some (Ok a) /\ k a = Some (Ok b).
Proof. destruct r as [[a|e]|]; simpl; [eauto|done|done]. Qed.

Lemma bind_ext {A B} (r1 r2 : outcome A) (k1 k2 : A -> outcome B) :
  r1 = r2 -> (forall a, r1 = Some (Ok a) -> k1 a = k2 a) -> bind r1 k1 = bind r2 k2.
Proof. intros <- Hk. destruct r1 as [[a|e]|]; simpl; [by apply Hk|done|done]. Qed.

(** A block leaves fewer lines. *)
Lemma parseConfig_shorter fuel lines u acc items rest u' :
  parseConfig pf fuel path name lines u acc = Some (Ok (items, rest, u')) -> (length rest <= length lines)%nat.
Proof.
  revert lines u acc items rest u'. induction fuel as [|fuel IH]; intros lines u acc items rest u'; [done|]. simpl.
  destruct lines as [|line lines]; [by intros [= <- <- <-]|]. simpl.
  destruct (splitLine line) as [[|t0 toks]|]; [intros H%IH; lia| |done].
  destruct (is_comment t0); [intros H%IH; lia|].
  destruct (bool_decide (t0 = "}")); [intros [= <- <- <-]; lia|].
  destruct (bool_decide (t0 = "include")).
  { destruct toks as [|pattern [|]]; [done| |done]. destruct (Glob _) as [files|]; [|done].
    intros (acc' & _ & H%IH)%bind_Ok. lia. }
  destruct (has_char 123 t0); [done|]. destruct (negb (valid_name t0)); [done|].
  destruct (block_open toks) as [values []].
  - intros ([[subs lines1] u1] & H1%IH & H2%IH)%bind_Ok. lia.
  - intros H%IH. lia.
Qed.

(** Any fuel above the number of lines gives the same result. *)
Lemma parseConfig_fuel f1 : forall f2 lines u acc,
  (length lines < f1)%nat -> (length lines < f2)%nat ->
  parseConfig pf f1 path name lines u acc = parseConfig pf f2 path name lines u acc.
Proof.
  induction f1 as [|f1 IH]; intros [|f2] lines u acc H1 H2; [lia..|]. simpl.
  destruct lines as [|line lines]; [done|]. simpl in H1, H2.
  destruct (splitLine line) as [[|t0 toks]|]; [apply IH; lia| |done].
  destruct (is_comment t0); [apply IH; lia|].
  destruct (bool_decide (t0 = "}")); [done|].
  destruct (bool_decide (t0 = "include")).
  { destruct toks as [|pattern [|]]; [done| |done]. destruct (Glob _) as [files|]; [|done].
    apply bind_ext; [done|]. intros acc' _. apply IH; lia. }
  destruct (has_char 123 t0); [done|]. destruct (negb (valid_name t0)); [done|].
  destruct (block_open toks) as [values []]; [|apply IH; lia].
  apply bind_ext; [apply IH; lia|]. intros [[subs lines1] u1] Hs%parseConfig_shorter. apply IH; lia.
Qed.

(** [file] is included by one of the lines. *)
Definition included (lines : list (list Z)) (file : string) : Prop :=
  exists line pattern files, line ∈ lines /\ splitLine line = Some ["include"; pattern] /\
    Glob (of_bytes (Join (bytes_of path) (bytes_of pattern))) = Ok files /\ file ∈ files.

Lemma included_suffix lines1 lines2 file : included lines2 file -> included (lines1 ++ lines2) file.
Proof.
  intros (line & pattern & files & H1 & H2). exists line, pattern, files. split; [|done].
  apply elem_of_app. by right.
Qed.

(** With includes that return, that fuel is enough. *)
Lemma includeFiles_total files acc :
  (forall file, file ∈ files -> pf file <> None) -> includeFiles pf files acc <> None.
Proof.
  revert acc. induction files as [|file files IH]; intros acc Hpf; simpl; [done|].
  destruct (pf file) as [[i|e]|] eqn:Hf; [|done|by destruct (Hpf file ltac:(left))].
  apply IH. intros f Hin. apply Hpf. by right.
Qed.

Lemma parseConfig_suffix fuel lines u acc items rest u' :
  parseConfig pf fuel path name lines u acc = Some (Ok (items, rest, u')) -> exists l, lines = l ++ rest.
Proof.
  revert lines u acc items rest u'. induction fuel as [|fuel IH]; intros lines u acc items rest u'; [done|]. simpl.
  destruct lines as [|line lines]; [intros [= <- <- <-]; by exists []|].
  assert (forall u acc, parseConfig pf fuel path name lines u acc = Some (Ok (items, rest, u')) ->
    exists l, line :: lines = l ++ rest) as Hcons by (intros u1 a [l ->]%IH; by exists (line :: l)).
  destruct (splitLine line) as [[|t0 toks]|]; [apply Hcons| |done].
  destruct (is_comment t0); [apply Hcons|].
  destruct (bool_decide (t0 = "}")); [intros [= <- <- <-]; by exists [line]|].
  destruct (bool_decide (t0 = "include")).
  { destruct toks as [|pattern [|]]; [done| |done]. destruct (Glob _) as [files|]; [|done].
    intros (acc' & _ & H)%bind_Ok. by eapply Hcons. }
  destruct (has_char 123 t0); [done|]. destruct (negb (valid_name t0)); [done|].
  destruct (block_open toks) as [values []]; [|apply Hcons].
  intros ([[subs lines1] u1] & [l1 ->]%IH & [l2 ->]%IH)%bind_Ok. exists (line :: l1 ++ l2). simpl. by rewrite <- app_assoc.
Qed.

Lemma parseConfig_total fuel : forall lines u acc,
  (forall file, included lines file -> pf file <> None) -> (length lines < fuel)%nat ->
  parseConfig pf fuel path name lines u acc <> None.
Proof.
  induction fuel as [|fuel IH]; intros lines u acc Hpf Hf; [lia|]. simpl.
  destruct lines as [|line lines]; [done|]. simpl in Hf.
  assert (forall file, included lines file -> pf file <> None) as Hpf'
    by (intros file H; apply Hpf; by apply (included_suffix [line])).
  destruct (splitLine line) as [[|t0 toks]|] eqn:Hs; [by apply IH; [|lia]| |done].
  destruct (is_comment t0); [by apply IH; [|lia]|].
  destruct (bool_decide (t0 = "}")); [done|].
  destruct (bool_decide (t0 = "include")) eqn:Ht.
  { destruct toks as [|pattern [|]]; [done| |done]. destruct (Glob _) as [files|] eqn:Hg; [|done].
    apply bool_decide_eq_true in Ht as ->.
    assert (includeFiles pf files acc <> None) as Hi.
    { apply includeFiles_total. intros file Hin. apply Hpf. exists line, pattern, files. split; [by left|done]. }
    destruct (includeFiles pf files acc) as [[a|e]|]; simpl; [by apply IH; [|lia]|done|done]. }
  destruct (has_char 123 t0); [done|]. destruct (negb (valid_name t0)); [done|].
  destruct (block_open toks) as [values []]; [|by apply IH; [|lia]].
  destruct (parseConfig pf fuel path name lines (u +i 1) []) as [[[[subs lines1] u1]|e]|] eqn:Hp; simpl; [|done|].
  - pose proof (parseConfig_shorter _ _ _ _ _ _ _ Hp) as Hl. apply parseConfig_suffix in Hp as [l ->].
    apply IH; [|lia]. intros file H. apply Hpf'. by apply included_suffix.
  - by destruct (IH lines (u +i 1) [] Hpf'); [lia|].
Qed.
End fuel.

(** ** Braces *)

Section braces.
Context `{FS : FileSystem}.

Inductive line_kind := Opens | Closes | Plain.

(** What a line does to the nesting of blocks. *)
Definition kind (line : list Z) : line_kind :=
  match splitLine line with
  | Some (t0 :: toks) =>
      if is_comment t0 then Plain
      else if bool_decide (t0 = "}") then Closes
      else if bool_decide (t0 = "include") then Plain
      else if (block_open toks).2 then Opens else Plain
  | _ => Plain
  end.

(** The nesting after some lines; [None] when a block is closed that was not
    opened. *)
Fixpoint nesting (d : nat) (lines : list (list Z)) : option nat :=
  match lines with
  | [] => Some d
  | line :: lines =>
      match kind line with
      | Opens => nesting (S d) lines
      | Closes => match d with O => None | S d => nesting d lines end
      | Plain => nesting d lines
      end
  end.

Lemma parseConfig_nesting pf path name fuel : forall lines u acc items rest u',
  Z.of_nat (length lines) < two63 - 1 -> - two63 < u -> u + Z.of_nat (length lines) < two63 ->
  parseConfig pf fuel path name lines u acc = Some (Ok (items, rest, u')) ->
  (u' = u - 1 /\ (length rest < length lines)%nat /\ (forall d, nesting (S d) lines = nesting d rest) /\ nesting 0 lines = None) \/
  (rest = [] /\ exists k, u' = u + Z.of_nat k /\ (k <= length lines)%nat /\ forall d, nesting d lines = Some (d + k)%nat).
Proof.
  assert (forall u : Z, - two63 < u -> u < two63 -> u -i 1 = u - 1) as Hsub by (intros; apply wrap64_small; unfold is_int64; lia).
  assert (forall u : Z, - two63 < u -> u + 1 < two63 -> u +i 1 = u + 1) as Hadd by (intros; apply wrap64_small; unfold is_int64; lia).
  induction fuel as [|fuel IH]; intros lines u acc items rest u' Hlen Hu1 Hu2; [done|]. simpl.
  destruct lines as [|line lines].
  { intros [= <- <- <-]. right. split; [done|]. exists 0%nat. split_and!; [lia|simpl; lia|].
    intros d. simpl. f_equal. lia. }
  simpl in *. unfold kind.
  assert (forall acc, parseConfig pf fuel path name lines u acc = Some (Ok (items, rest, u')) ->
    (u' = u - 1 /\ (length rest < S (length lines))%nat /\ (forall d, nesting (S d) lines = nesting d rest) /\ nesting 0 lines = None) \/
    (rest = [] /\ exists k, u' = u + Z.of_nat k /\ (k <= S (length lines))%nat /\ forall d, nesting d lines = Some (d + k)%nat)) as Hplain.
  { intros acc' Hp. apply IH in Hp as [(H1 & H2 & H3 & H4)|(H1 & k & H2 & H3 & H4)]; [left|right|lia..].
    - split_and!; [done|lia|done|done].
    - split; [done|]. exists k. split_and!; [done|lia|done]. }
  destruct (splitLine line) as [[|t0 toks]|]; [by apply Hplain| |done].
  destruct (is_comment t0); [by apply Hplain|].
  destruct (bool_decide (t0 = "}")).
  { intros [= <- <- <-]. left. split_and!; [by apply Hsub; lia|lia|done|done]. }
  destruct (bool_decide (t0 = "include")).
  { destruct toks as [|pattern [|]]; [done| |done]. destruct (Glob _) as [files|]; [|done].
    intros (acc' & _ & H)%bind_Ok. by eapply Hplain. }
  destruct (has_char 123 t0); [done|]. destruct (negb (valid_name t0)); [done|].
  destruct (block_open toks) as [values []]; simpl; [|by apply Hplain].
  intros ([[subs lines1] u1] & H1 & H2)%bind_Ok.
  apply IH in H1 as [(H11 & H12 & H13 & _)|(-> & k & H12 & H13 & H14)]; [| |rewrite ?Hadd; lia..].
  - rewrite Hadd in H11 by lia. assert (u1 = u) as -> by lia.
    apply IH in H2 as [(H21 & H22 & H23 & H24)|(H21 & k & H22 & H23 & H24)]; [| |lia..].
    + left. split_and!; [done|lia| |].
      * intros d. rewrite H13. apply H23.
      * by rewrite H13.
    + right. split; [done|]. exists k. split_and!; [done|lia|]. intros d. by rewrite H13.
  - rewrite Hadd in H12 by lia. destruct fuel as [|fuel]; [done|]. simpl in H2. injection H2 as <- <- <-.
    right. split; [done|]. exists (S k). split_and!; [lia|lia|]. intros d. rewrite H14. f_equal. lia.
Qed.

(** An accepted file has balanced blocks: reading its lines in order, no
    block is closed that was not opened, and every block that is opened is
    closed. *)
Theorem accepted_is_balanced (depth : nat) (path : string) (root : confItem) (data : list Z) :
  parseFile depth path = Some (Ok root) -> ReadFile path = Ok data ->
  Z.of_nat (length (ScanLines data)) < two63 - 1 ->
  nesting 0 (ScanLines data) = Some 0%nat.
Proof.
  destruct depth as [|depth]; [done|]. cbn [parseFile]. intros Hp Hr Hlen. rewrite Hr in Hp.
  apply bind_Ok in Hp as ([[subs rest] u] & Hp & Hu). destruct (Z.eqb_spec u 0) as [->|]; [|done].
  apply parseConfig_nesting in Hp as [(H & _)|(_ & k & Hk & _ & Hn)]; [lia| |done|pose proof two63_pos; lia|lia].
  rewrite Hn. f_equal. lia.
Qed.
End braces.

(** ** Includes *)

Section includes.
Context `{FS : FileSystem}.

(** The file [file] is included by the file [path]. *)
Definition includes (path file : string) : Prop :=
  exists data, ReadFile path = Ok data /\ included (string_path Dir path) (ScanLines data) file.

Lemma parse_ranked (rank : string -> nat) (path : string) :
  (forall p file, includes p file -> (rank file < rank p)%nat) ->
  forall depth, (rank path < depth)%nat -> parseFile depth path <> None.
Proof.
  intros Hrank depth. revert path. induction depth as [|depth IH]; intros path Hd; [lia|]. cbn [parseFile].
  destruct (ReadFile path) as [data|] eqn:Hr; [|done]. cbv zeta.
  assert (parseConfig (parseFile depth) (S (length (ScanLines data))) (string_path Dir path)
            (string_path Base path) (ScanLines data) 0 [] <> None) as Ht.
  { apply parseConfig_total; [|lia]. intros file Hin. apply IH.
    specialize (Hrank path file). cut (rank file < rank path)%nat; [lia|]. apply Hrank. by exists data. }
  destruct (parseConfig _ _ _ _ _ _ _) as [[[[subs rest] u]|e]|]; simpl; [by destruct (u =? 0)|done|done].
Qed.

(** Parsing ends when includes do not go round: if every included file ranks
    below the file that includes it, the rank of a file bounds the depth that is
    needed; the bound on the lines of one file is always enough. *)
Theorem parseFile_terminates (rank : string -> nat) (path : string) :
  (forall p file, includes p file -> (rank file < rank p)%nat) ->
  forall depth, (rank path < depth)%nat -> parseFile depth path <> None.
Proof. apply parse_ranked. Qed.
End includes.

(** ** Printing *)

(** A value is printed between quotes. *)
Definition quoted (v : string) : list Z := 32 :: 34 :: bytes_of v ++ [34].

Definition head_line (name : string) (values : list string) : list Z := bytes_of name ++ flat_map quoted values.

Fixpoint item_lines (i : confItem) : list (list Z) :=
  match i with
  | MkItem name values [] _ _ => [head_line name values]
  | MkItem name values subs _ _ => (head_line name values ++ [32; 123]) :: flat_map item_lines subs ++ [[125]]
  end.

Definition items_lines (items : list confItem) : list (list Z) := flat_map item_lines items.

Definition text_of (lines : list (list Z)) : list Z := flat_map (fun l => l ++ [10]) lines.

(** Text in UTF-8 without quotation marks, backslashes and newlines. *)
Definition text_ok (v : string) : Prop :=
  exists rs, bytes_of v = EncodeRunes rs /\ Forall (fun r => scalar r /\ r <> 34 /\ r <> 92 /\ r <> 10) rs.

(** The items of a file that can be written this way: a value that is an opening
    brace may not come last, since quotes do not protect it. *)
Fixpoint item_ok (dir base : string) (i : confItem) : Prop :=
  match i with
  | MkItem name values subs path file =>
      valid_name name = true /\ name <> "include" /\ Forall text_ok values /\
      (subs = [] -> last values <> Some "{") /\ path = dir /\ file = base /\
      fold_right (fun s acc => item_ok dir base s /\ acc) True subs
  end.

Lemma item_ok_Forall (dir base : string) (subs : list confItem) :
  fold_right (fun s acc => item_ok dir base s /\ acc) True subs <-> Forall (item_ok dir base) subs.
Proof. induction subs as [|s subs IH]; simpl; [done|]. by rewrite Forall_cons, IH. Qed.

Lemma confItem_ind' (P : confItem -> Prop) :
  (forall name values subs path file, Forall P subs -> P (MkItem name values subs path file)) -> forall i, P i.
Proof.
  intros Hstep. fix IH 1. intros [name values subs path file]. apply Hstep.
  induction subs as [|s subs IHs]; [constructor|]. constructor; [apply IH|exact IHs].
Qed.

(** *** Tokens of a printed line *)

Lemma EncodeRunes_app l1 l2 : EncodeRunes (l1 ++ l2) = EncodeRunes l1 ++ EncodeRunes l2.
Proof. apply bind_app. Qed.

Lemma scalar_ascii b : 0 <= b < 128 -> scalar b.
Proof. unfold scalar. lia. Qed.

Lemma EncodeRunes_ascii l : Forall (fun b => 0 <= b < 128) l -> EncodeRunes l = l.
Proof.
  intros Hl. unfold EncodeRunes. induction Hl as [|b l Hb Hl IH]; [done|]. rewrite bind_cons, IH.
  unfold EncodeRune. rewrite bool_decide_eq_true_2 by (unfold scalar; lia). simpl. by destruct (Z.ltb_spec b 128); [|lia].
Qed.

Lemma tokens_quote acc rs l :
  Forall (fun r => scalar r /\ r <> 34 /\ r <> 92 /\ r <> 10) rs ->
  tokens (MQuote acc false) (rs ++ 34 :: l) = emit (acc ++ rs) (tokens MOuter l).
Proof.
  intros Hrs. revert acc. induction Hrs as [|r rs (_ & H1 & H2 & _) _ IH]; intros acc; simpl; [by rewrite app_nil_r|].
  destruct (Z.eqb_spec r 34); [done|]. simpl. destruct (Z.eqb_spec r 92); [done|]. simpl. rewrite IH.
  by rewrite <- app_assoc.
Qed.

Lemma tokens_values vss l :
  Forall (Forall (fun r => scalar r /\ r <> 34 /\ r <> 92 /\ r <> 10)) vss ->
  tokens MOuter (flat_map (fun rs => 32 :: 34 :: rs ++ [34]) vss ++ l) =
  (vss ++ (tokens MOuter l).1, (tokens MOuter l).2).
Proof.
  induction 1 as [|rs vss Hrs _ IH]; [cbn [flat_map app]; by destruct (tokens MOuter l)|].
  cbn [flat_map]. change ((32 :: 34 :: rs ++ [34]) ++ flat_map (fun rs => 32 :: 34 :: rs ++ [34]) vss)
    with (32 :: 34 :: (rs ++ [34]) ++ flat_map (fun rs => 32 :: 34 :: rs ++ [34]) vss).
  cbn [app tokens isSpecial isSpace orb Z.eqb Pos.eqb]. rewrite <- !app_assoc. cbn [app].
  rewrite tokens_quote by done. rewrite IH. done.
Qed.

Lemma name_char_range c : name_char c = true ->
  let n := Z.of_nat (nat_of_ascii c) in 45 <= n <= 122 /\ n <> 123 /\ n <> 125 /\ n <> 35 /\ n <> 34 /\ n <> 32.
Proof. unfold name_char, in_range. intros H. cbv zeta. lia. Qed.

Lemma valid_name_bytes n : valid_name n = true -> bytes_of n <> [] /\ Forall (fun b => 45 <= b <= 122) (bytes_of n).
Proof.
  unfold valid_name. intros [H1 H2]%andb_prop. split.
  - destruct n; [done|]. done.
  - unfold bytes_of. apply Forall_fmap. rewrite forallb_forall in H2. apply Forall_forall.
    intros c Hc%list_elem_of_In. specialize (H2 c Hc). apply name_char_range in H2. simpl in *. lia.
Qed.

Lemma plain_rune r : 45 <= r <= 122 -> IsSpace r = false /\ isSpecial r = false /\ isSpace r = false /\ (r =? 34) = false.
Proof. intros H. unfold IsSpace, isSpecial, isSpace, in_range. lia. Qed.

Lemma tokens_word acc ws l :
  Forall (fun b => 45 <= b <= 122) ws -> tokens (MWord acc) (ws ++ l) = tokens (MWord (acc ++ ws)) l.
Proof.
  intros Hw. revert acc. induction Hw as [|r ws Hr _ IH]; intros acc; simpl; [by rewrite app_nil_r|].
  destruct (plain_rune r Hr) as (_ & -> & -> & _). simpl. rewrite IH. by rewrite <- app_assoc.
Qed.

(** The line of an item, with its opening brace if there is one. *)
Lemma splitLine_head name values (brace : bool) :
  valid_name name = true -> Forall text_ok values ->
  splitLine (head_line name values ++ if brace then [32; 123] else []) =
  Some (name :: values ++ if brace then ["{"] else []).
Proof.
  intros Hn Hv. destruct (valid_name_bytes name Hn) as [Hne Hb].
  assert (exists vss, Forall (Forall (fun r => scalar r /\ r <> 34 /\ r <> 92 /\ r <> 10)) vss /\
            flat_map quoted values = EncodeRunes (flat_map (fun rs => 32 :: 34 :: rs ++ [34]) vss) /\
            Forall scalar (flat_map (fun rs => 32 :: 34 :: rs ++ [34]) vss) /\
            (fun t => of_bytes (EncodeRunes t)) <$> vss = values) as (vss & H1 & H2 & H3 & H4).
  { clear Hn Hne Hb. induction Hv as [|v vs (rs & Hrs & Hok) _ (vss & H1 & H2 & H3 & H4)]; [by exists []|].
    exists (rs :: vss). split_and!; [by constructor| | |].
    - cbn [flat_map]. rewrite EncodeRunes_app, H2. f_equal. unfold quoted.
      change (32 :: 34 :: rs ++ [34]) with ([32; 34] ++ rs ++ [34]).
      rewrite !EncodeRunes_app, <- Hrs. by rewrite !EncodeRunes_ascii by (repeat constructor; lia).
    - cbn [flat_map]. apply Forall_app. split; [|done].
      do 2 (constructor; [apply scalar_ascii; lia|]). apply Forall_app.
      split; [by eapply Forall_impl; [exact Hok|]; intros r []|]. constructor; [apply scalar_ascii; lia|constructor].
    - cbn [fmap list_fmap]. rewrite <- Hrs, of_bytes_bytes. f_equal. exact H4. }
  set (tail := if brace then [32; 123] else []).
  assert (EncodeRunes tail = tail /\ Forall scalar tail) as [Ht1 Ht2].
  { subst tail. destruct brace; (split; [done|]); repeat (constructor; [apply scalar_ascii; lia|]); constructor. }
  assert (head_line name values ++ tail =
          EncodeRunes (bytes_of name ++ flat_map (fun rs => 32 :: 34 :: rs ++ [34]) vss ++ tail)) as ->.
  { unfold head_line. rewrite !EncodeRunes_app, Ht1, <- H2, EncodeRunes_ascii; [by rewrite <- app_assoc|].
    eapply Forall_impl; [exact Hb|]. simpl. lia. }
  unfold splitLine. rewrite Runes_EncodeRunes.
  2:{ rewrite !Forall_app. split_and!; [|done|done]. eapply Forall_impl; [exact Hb|]. unfold scalar. simpl. lia. }
  destruct (bytes_of name) as [|r ws] eqn:Hbn; [done|]. apply Forall_cons in Hb as [Hr Hws].
  destruct (plain_rune r Hr) as (Hr1 & Hr2 & Hr3 & Hr4).
  cbn [app skip_spaces]. rewrite Hr1. cbn [tokens]. rewrite Hr2, Hr4, Hr3, tokens_word by done. cbn [app].
  assert (tokens (MWord (r :: ws)) (flat_map (fun rs => 32 :: 34 :: rs ++ [34]) vss ++ tail) =
          (((r :: ws) :: vss) ++ (if brace then [[123]] else []), false)) as ->.
  { assert (tokens MOuter (flat_map (fun rs => 32 :: 34 :: rs ++ [34]) vss ++ tail) =
            (vss ++ (if brace then [[123]] else []), false)) as Ho
      by (rewrite tokens_values by done; subst tail; by destruct brace).
    destruct vss as [|rs vss]; [by subst tail; destruct brace|].
    cbn [flat_map app] in *.
    match type of Ho with tokens _ ?l = _ => change (emit (r :: ws) (tokens MOuter l) = ((r :: ws) :: (rs :: vss) ++ (if brace then [[123]] else []), false)) end.
    by rewrite Ho. }
  f_equal. rewrite fmap_app. cbn [fmap list_fmap]. rewrite <- Hbn.
  rewrite EncodeRunes_ascii, of_bytes_bytes.
  2:{ rewrite Hbn. constructor; [lia|]. eapply Forall_impl; [exact Hws|]. simpl. lia. }
  cbn [app]. f_equal. f_equal; [exact H4|]. by destruct brace.
Qed.

(** *** The tree of a printed file *)

Lemma name_not_special name :
  valid_name name = true -> is_comment name = false /\ name <> "}" /\ has_char 123 name = false.
Proof.
  intros Hn. destruct (valid_name_bytes name Hn) as [Hne Hb]. split_and!.
  - unfold is_comment, starts_with. destruct (bytes_of name) as [|b l]; [done|]. apply Forall_cons in Hb as [Hb _].
    apply orb_false_iff. split; apply Z.eqb_neq; lia.
  - intros ->. apply Forall_cons in Hb as [Hb _]. vm_compute in Hb. destruct Hb as [_ Hb]. by apply Hb.
  - unfold has_char. apply not_true_iff_false. intros (b & Hin & He)%existsb_exists. apply Z.eqb_eq in He as <-.
    rewrite Forall_forall in Hb. specialize (Hb 123). apply list_elem_of_In in Hin. specialize (Hb Hin). lia.
Qed.

Lemma block_open_brace values : block_open (values ++ ["{"]) = (values, true).
Proof. unfold block_open. rewrite reverse_snoc, bool_decide_eq_true_2 by done. by rewrite reverse_involutive. Qed.

Lemma block_open_none values : last values <> Some "{" -> block_open values = (values, false).
Proof.
  unfold block_open. rewrite <- head_reverse. intros Hl.
  destruct (reverse values) as [|t rest]; [done|]. simpl in Hl. by rewrite bool_decide_eq_false_2 by congruence.
Qed.

Section printed.
Context `{FS : FileSystem} (pf : string -> outcome confItem) (dir base : string).

Lemma parse_head fuel name values (brace : bool) tail u acc :
  valid_name name = true -> name <> "include" -> Forall text_ok values -> (brace = false -> last values <> Some "{") ->
  parseConfig pf (S fuel) dir base ((head_line name values ++ if brace then [32; 123] else []) :: tail) u acc =
  if brace then
    bind (parseConfig pf fuel dir base tail (u +i 1) [])
      (fun '(subs, lines, u) => parseConfig pf fuel dir base lines u (acc ++ [MkItem name values subs dir base]))
  else parseConfig pf fuel dir base tail u (acc ++ [MkItem name values [] dir base]).
Proof.
  intros Hn Hi Hv Hl. cbn [parseConfig]. rewrite splitLine_head by done.
  destruct (name_not_special name Hn) as (-> & H2 & ->). rewrite Hn.
  rewrite !bool_decide_eq_false_2 by done. cbn [negb].
  destruct brace; [by rewrite block_open_brace|]. rewrite app_nil_r. by rewrite block_open_none by auto.
Qed.

Lemma parse_close fuel tail u acc :
  is_int64 u -> parseConfig pf (S fuel) dir base ([125] :: tail) (u +i 1) acc = Some (Ok (acc, tail, u)).
Proof.
  intros Hu. cbn [parseConfig]. change (splitLine [125]) with (Some ["}"]). cbv iota.
  change (is_comment "}") with false. cbv iota. rewrite bool_decide_eq_true_2 by done. do 3 f_equal.
  rewrite wrap64_sub_l. rewrite wrap64_small; [lia|]. by replace (u + 1 - 1) with u by lia.
Qed.

Lemma parse_items items :
  Forall (item_ok dir base) items -> forall fuel tail u acc, is_int64 u ->
  (length (items_lines items ++ tail) < fuel)%nat ->
  parseConfig pf fuel dir base (items_lines items ++ tail) u acc =
  parseConfig pf fuel dir base tail u (acc ++ items).
Proof.
  set (P i := item_ok dir base i -> forall fuel tail u acc, is_int64 u -> (length (item_lines i ++ tail) < fuel)%nat ->
    parseConfig pf fuel dir base (item_lines i ++ tail) u acc = parseConfig pf fuel dir base tail u (acc ++ [i])).
  assert (forall items, Forall P items -> Forall (item_ok dir base) items -> forall fuel tail u acc, is_int64 u ->
    (length (items_lines items ++ tail) < fuel)%nat ->
    parseConfig pf fuel dir base (items_lines items ++ tail) u acc = parseConfig pf fuel dir base tail u (acc ++ items)) as Hlist.
  { clear items. intros items Hp. induction Hp as [|i items Hp _ IH]; intros Hok fuel tail u acc Hu Hf.
    - simpl. by rewrite app_nil_r.
    - apply Forall_cons in Hok as [Hi Hok]. unfold items_lines in *. cbn [flat_map] in *. rewrite <- app_assoc in *.
      rewrite (Hp Hi) by done. rewrite IH; [by rewrite <- app_assoc|done|done|]. rewrite length_app in Hf. lia. }
  intros Hok. apply Hlist; [|done]. apply Forall_forall. intros i _. clear items Hok. unfold P.
  induction i as [name values subs path file IHs] using confItem_ind'.
  intros (Hn & Hi & Hv & Hl & -> & -> & Hs%item_ok_Forall) fuel tail u acc Hu Hf.
  destruct fuel as [|fuel]; [lia|]. destruct subs as [|s subs].
  - cbn [item_lines app] in *. pose proof (parse_head fuel name values false tail u acc Hn Hi Hv (fun _ => Hl eq_refl)) as Hp.
    rewrite app_nil_r in Hp. rewrite Hp. apply parseConfig_fuel; simpl in Hf; lia.
  - set (sub := s :: subs) in *. 
    assert (item_lines (MkItem name values sub dir base) =
            (head_line name values ++ [32; 123]) :: items_lines sub ++ [[125]]) as Heq by done.
    rewrite Heq in *. cbn [app length] in *. rewrite !length_app in Hf. cbn [length] in Hf.
    rewrite (parse_head fuel name values true) by done. rewrite <- app_assoc. cbn [app].
    rewrite (Hlist sub IHs Hs); [|apply wrap64_range|rewrite length_app; cbn [length]; lia].
    destruct fuel as [|fuel]; [lia|]. rewrite parse_close by done. cbn [bind app].
    apply parseConfig_fuel; lia.
Qed.
End printed.

Definition short (l : list Z) : Prop := (length l < MaxScanTokenSize)%nat.

(** *** Lines of a printed file *)

Lemma scan_line l rest cur :
  Forall (fun b => b <> 10) l -> (length (cur ++ l) < MaxScanTokenSize)%nat ->
  scan_lines (l ++ 10 :: rest) cur = drop_cr (cur ++ l) :: scan_lines rest [].
Proof.
  intros Hl. revert cur. induction Hl as [|b l Hb _ IH]; intros cur Hs; cbn [app scan_lines].
  - rewrite app_nil_r in *. rewrite Z.eqb_refl. by destruct (Nat.leb_spec MaxScanTokenSize (length cur)); [lia|].
  - destruct (Z.eqb_spec b 10); [done|]. rewrite IH; by rewrite <- app_assoc.
Qed.

(** An overlong line ends the scan. *)
Lemma scan_overlong l rest cur :
  Forall (fun b => b <> 10) l -> (MaxScanTokenSize <= length (cur ++ l))%nat -> scan_lines (l ++ 10 :: rest) cur = [].
Proof.
  intros Hl. revert cur. induction Hl as [|b l Hb _ IH]; intros cur Hs; cbn [app scan_lines].
  - rewrite app_nil_r in *. rewrite Z.eqb_refl. by destruct (Nat.leb_spec MaxScanTokenSize (length cur)); [|lia].
  - destruct (Z.eqb_spec b 10); [done|]. apply IH. by rewrite <- app_assoc.
Qed.

Lemma scan_text_of lines rest :
  Forall (fun l => short l /\ Forall (fun b => b <> 10) l /\ drop_cr l = l) lines ->
  ScanLines (text_of lines ++ rest) = lines ++ ScanLines rest.
Proof.
  unfold ScanLines, text_of. induction 1 as [|l lines (Hs & Hn & Hc) _ IH]; [done|].
  cbn [flat_map]. rewrite <- !app_assoc. cbn [app]. rewrite scan_line by done. by rewrite IH, app_nil_l, Hc.
Qed.

Lemma EncodeRune_newline r : scalar r -> r <> 10 -> Forall (fun b => b <> 10) (EncodeRune r).
Proof.
  intros Hs Hr. unfold EncodeRune. rewrite bool_decide_eq_true_2 by done. cbn [negb]. destruct Hs as [Hs _].
  repeat case_match; repeat (constructor; [div_lia|]); constructor.
Qed.

Lemma drop_cr_snoc l b : b <> 13 -> drop_cr (l ++ [b]) = l ++ [b].
Proof. unfold drop_cr. rewrite reverse_snoc. intros Hb. repeat case_match; by simplify_eq. Qed.

Lemma drop_cr_last l : (forall l' b, l = l' ++ [b] -> b <> 13) -> drop_cr l = l.
Proof. destruct l as [|b l] using rev_ind; [done|]. intros H. apply drop_cr_snoc. by apply (H l). Qed.

Lemma head_line_ok name values :
  valid_name name = true -> Forall text_ok values ->
  Forall (fun b => b <> 10) (head_line name values) /\ drop_cr (head_line name values) = head_line name values.
Proof.
  intros Hn Hv. destruct (valid_name_bytes name Hn) as [Hne Hb]. unfold head_line. split.
  - apply Forall_app. split; [eapply Forall_impl; [exact Hb|]; simpl; lia|].
    induction Hv as [|v vs (rs & Hrs & Hok) _ IH]; [done|]. cbn [flat_map]. apply Forall_app. split; [|done].
    unfold quoted. rewrite Hrs. repeat (constructor; [lia|]). apply Forall_app. split; [|by repeat constructor].
    unfold EncodeRunes. apply Forall_forall. intros b (r & Hbr & Hr)%list_elem_of_bind.
    rewrite Forall_forall in Hok. destruct (Hok r Hr) as (Hs & _ & _ & H10).
    pose proof (EncodeRune_newline r Hs H10) as HE. rewrite Forall_forall in HE. by apply HE.
  - destruct values as [|v vs _] using rev_ind.
    + cbn [flat_map]. rewrite app_nil_r. apply drop_cr_last. intros l' b Hl. rewrite Hl in Hb.
      apply Forall_app in Hb as [_ [Hb _]%Forall_cons]. lia.
    + rewrite flat_map_app. cbn [flat_map]. rewrite app_nil_r. unfold quoted.
      change (32 :: 34 :: bytes_of v ++ [34]) with ((32 :: 34 :: bytes_of v) ++ [34]).
      rewrite !app_assoc. by apply drop_cr_snoc.
Qed.

Lemma item_lines_ok dir base i :
  item_ok dir base i -> Forall (fun l => Forall (fun b => b <> 10) l /\ drop_cr l = l) (item_lines i).
Proof.
  induction i as [name values subs path file IHs] using confItem_ind'.
  intros (Hn & _ & Hv & _ & _ & _ & Hs%item_ok_Forall). destruct (head_line_ok name values Hn Hv) as [H1 H2].
  destruct subs as [|s subs]; [by repeat constructor|].
  assert (Forall (fun l => Forall (fun b => b <> 10) l /\ drop_cr l = l) (flat_map item_lines (s :: subs))) as Hl.
  { apply Forall_forall. intros l (x & Hx & Hl)%list_elem_of_In%in_flat_map.
    apply list_elem_of_In in Hx, Hl. rewrite Forall_forall in IHs, Hs.
    specialize (IHs x Hx (Hs x Hx)). rewrite Forall_forall in IHs. by apply IHs. }
  constructor; [|apply Forall_app; split; [exact Hl|]].
  - split; [apply Forall_app; split; [done|by repeat constructor]|].
    change [32; 123] with ([32] ++ [123]). rewrite app_assoc. by apply drop_cr_snoc.
  - constructor; [|constructor]. split; [by repeat constructor|by apply (drop_cr_snoc [])].
Qed.

Section roundtrip.
Context `{FS : FileSystem}.

Lemma printed_lines_ok dir base items :
  Forall (item_ok dir base) items -> Forall short (items_lines items) ->
  Forall (fun l => short l /\ Forall (fun b => b <> 10) l /\ drop_cr l = l) (items_lines items).
Proof.
  intros Hok Hs. apply Forall_forall. intros l Hl. rewrite Forall_forall in Hs. split; [by apply Hs|].
  apply list_elem_of_In, in_flat_map in Hl as (i & Hi & Hl). apply list_elem_of_In in Hi, Hl.
  rewrite Forall_forall in Hok. pose proof (item_lines_ok _ _ i (Hok i Hi)) as HF.
  rewrite Forall_forall in HF. by apply HF.
Qed.

Lemma parse_printed depth path items rest :
  ReadFile path = Ok (text_of (items_lines items) ++ rest) -> ScanLines rest = [] ->
  Forall (item_ok (string_path Dir path) (string_path Base path)) items -> Forall short (items_lines items) ->
  parseFile (S depth) path = Some (Ok (MkItem "" [] items (string_path Dir path) (string_path Base path))).
Proof.
  intros Hr Hrest Hok Hs. cbn [parseFile]. rewrite Hr. cbv zeta.
  rewrite scan_text_of, Hrest, app_nil_r by (by eapply printed_lines_ok).
  pose proof (parse_items (parseFile depth) (string_path Dir path) (string_path Base path) items Hok
                (S (length (items_lines items))) [] 0 []) as HP.
  rewrite app_nil_r in HP. rewrite HP; [done| |lia]. unfold is_int64. pose proof two63_pos. lia.
Qed.


(** A line of 64 KiB or more ends the configuration silently: the error of
    the scanner is not looked at, and what was read up to there is accepted
    without the rest of the file. *)
Theorem overlong_line_truncates (depth : nat) (path : string) (items : list confItem) (long rest : list Z) :
  ReadFile path = Ok (text_of (items_lines items) ++ long ++ 10 :: rest) ->
  Forall (item_ok (string_path Dir path) (string_path Base path)) items -> Forall short (items_lines items) ->
  Forall (fun b => b <> 10) long -> (MaxScanTokenSize <= length long)%nat ->
  parseFile (S depth) path = Some (Ok (MkItem "" [] items (string_path Dir path) (string_path Base path))).
Proof. intros Hr Hok Hs Hl Hlen. eapply parse_printed; [exact Hr| |done|done]. by apply scan_overlong. Qed.
End roundtrip.

(** ** Concrete files *)

Section concrete.
(** A file system of text files; patterns match themselves only. *)
Definition disk (files : list (string * list Z)) : FileSystem := {|
  osError := unit;
  ReadFile p := match find (fun f => bool_decide (f.1 = p)) files with Some f => Ok f.2 | None => Err tt end;
  Glob p := Ok (fst <$> filter (fun f => f.1 = p) files);
|}.

Definition main : string := "/etc/keepalived.conf".
Definition text (s : string) : list Z := bytes_of s.
Definition nl : string := of_bytes [10].
Definition qt : string := of_bytes [34].

Definition example_items : list confItem :=
  let item n v s := MkItem n v s "/etc" "keepalived.conf" in
  [item "virtual_server" ["10.0.0.1"; "80"]
     [item "protocol" ["TCP"] []; item "quorum_up" ["/bin/quorum up, a"] [];
      item "real_server" ["10.0.0.2"; "80"] [item "weight" ["1"] []; item "TCP_CHECK" [] [item "connect_port" ["80"] []]]]].

Definition example_disk : FileSystem := disk [(main, text_of (items_lines example_items))].

Lemma text_ok_ascii v :
  forallb (fun b => (b <? 128) && negb (b =? 34) && negb (b =? 92) && negb (b =? 10) && (0 <=? b)) (bytes_of v) = true -> text_ok v.
Proof.
  intros H. rewrite forallb_forall in H.
  assert (forall b, b ∈ bytes_of v -> 0 <= b < 128 /\ b <> 34 /\ b <> 92 /\ b <> 10) as Hb.
  { intros b Hb%list_elem_of_In. specialize (H b Hb). lia. }
  exists (bytes_of v). split.
  - symmetry. apply EncodeRunes_ascii. apply Forall_forall. intros b Hin. by apply Hb.
  - apply Forall_forall. intros b Hin. destruct (Hb b Hin) as (H1 & H2 & H3 & H4). split_and!; [by apply scalar_ascii|done..].
Qed.

Lemma example_items_ok : Forall (item_ok "/etc" "keepalived.conf") example_items.
Proof.
  repeat (constructor || split || (apply text_ok_ascii; vm_compute; reflexivity) || (vm_compute; reflexivity) ||
          discriminate || intros).
Qed.


Lemma accepted_is_balanced_witness :
  nesting 0 (ScanLines (text_of (items_lines example_items))) = Some 0%nat.
Proof.
  apply (@accepted_is_balanced example_disk 1 main (MkItem "" [] example_items "/etc" "keepalived.conf")
           (text_of (items_lines example_items))).
  - vm_compute. reflexivity.
  - reflexivity.
  - vm_compute. reflexivity.
Defined.

(** A file that includes another one. *)
Definition two_files : FileSystem :=
  disk [("/etc/a", text ("include b" +:+ nl)); ("/etc/b", text ("quorum 1" +:+ nl))].

Definition two_rank (p : string) : nat := if bool_decide (p = "/etc/a") then 1 else 0.

Lemma two_files_ranked : forall p file, @includes two_files p file -> (two_rank file < two_rank p)%nat.
Proof.
  intros p file (data & Hr & line & pattern & files & Hl & Hs & Hg & Hf).
  destruct (decide (p = "/etc/a")) as [->|Hna].
  - injection Hr as <-. change (ScanLines _) with [text "include b"] in Hl. apply list_elem_of_singleton in Hl as ->.
    vm_compute in Hs. injection Hs as <-. vm_compute in Hg. injection Hg as <-.
    apply list_elem_of_singleton in Hf as ->. vm_compute. lia.
  - destruct (decide (p = "/etc/b")) as [->|Hnb].
    + injection Hr as <-. change (ScanLines _) with [text "quorum 1"] in Hl. apply list_elem_of_singleton in Hl as ->.
      vm_compute in Hs. discriminate.
    + exfalso. revert Hr. cbn. rewrite !bool_decide_eq_false_2 by congruence. discriminate.
Qed.

Lemma parseFile_terminates_witness : @parseFile two_files 2 "/etc/a" <> None.
Proof. apply (@parseFile_terminates two_files two_rank "/etc/a" two_files_ranked). vm_compute. lia. Defined.

(** A file that includes itself is never parsed: no bound on the nesting of
    includes is enough. *)
Theorem self_include_diverges (depth : nat) :
  @parseFile (disk [("/etc/a", text ("include a" +:+ nl))]) depth "/etc/a" = None.
Proof.
  induction depth as [|depth IH]; [done|]. cbn [parseFile].
  change (ReadFile "/etc/a") with (Ok (E:=unit) (text ("include a" +:+ nl))). cbv iota zeta.
  change (ScanLines (text ("include a" +:+ nl))) with [text "include a"]. cbn [length parseConfig].
  change (splitLine (text "include a")) with (Some ["include"; "a"]). cbv iota.
  change (is_comment "include") with false. change (bool_decide ("include" = "}")) with false.
  change (bool_decide ("include" = "include")) with true. cbv iota.
  change (Glob _) with (Ok (E:=unit) ["/etc/a"]). cbn [includeFiles]. by rewrite IH.
Qed.

(** Special characters and quotes in a line.  A brace that directly follows
    a word is swallowed; what follows a value is not a comment but more values;
    and a quoted brace at the end of a line opens a block. *)
Theorem splitLine_surprises :
  splitLine (text "url{") = Some ["url"] /\
  splitLine (text "weight 1 # half") = Some ["weight"; "1"; "#"; "half"] /\
  splitLine (text ("group " +:+ qt +:+ "{" +:+ qt)) = Some ["group"; "{"] /\
  block_open ["{"] = ([], true).
Proof. vm_compute. repeat split. Qed.

Definition long_disk (items : list confItem) : FileSystem :=
  disk [(main, text_of (items_lines items) ++ repeat 32 MaxScanTokenSize ++ 10 :: text "real_server {")].

Lemma overlong_line_truncates_witness :
  @parseFile (long_disk example_items) 1 main = Some (Ok (MkItem "" [] example_items "/etc" "keepalived.conf")).
Proof.
  apply (@overlong_line_truncates (long_disk example_items) 0 main example_items (repeat 32 MaxScanTokenSize) (text "real_server {")).
  - reflexivity.
  - exact example_items_ok.
  - apply (bool_decide_unpack _). vm_compute. exact I.
  - apply Forall_forall. intros b Hb%list_elem_of_In%repeat_spec. by subst.
  - by rewrite repeat_length.
Defined.
End concrete.
