(* ===== verification/Decoder.v ===== *)
(** * Decoding a configuration

    [pkg/keepalived/decoder.go]: the assignment of a tree of items to a value,
    driven by the value's type and the tags of its fields, and the functions of
    [strconv] and [net/netip] that read scalars. *)

From Stdlib Require Import SpecFloat Ascii.
From stdpp Require Import strings numbers gmap sets list.
From S2P Require Import Prelude.
From S2P Require Import Types.
From S2P Require Import Bytes.
From S2P Require Import Scheduler.
From S2P Require Import Check.
From S2P Require Import Text.
From S2P Require Import Keepalived.

Open Scope Z_scope.
Open Scope go_scope.

(** ** [netip.ParseAddr] *)

Definition is_digit_byte (b : Z) : bool := in_range 48 57 b.

(** [parseIPv4Fields]: the fields read so far, the value and the number of
    digits of the current one, and whether the previous byte was a dot. *)
Fixpoint ipv4_fields (l : list Z) (fields : list Z) (v digLen : Z) (dot : bool) : option (list Z) :=
  match l with
  | [] => if (length fields =? 3)%nat then Some (fields ++ [v]) else None
  | b :: l =>
      if is_digit_byte b then
        if (digLen =? 1) && (v =? 0) then None
        else
          let v := v * 10 + (b - 48) in
          if 255 <? v then None else ipv4_fields l fields v (digLen + 1) false
      else if b =? 46 then
        if dot || bool_decide (l = []) || (length fields =? 3)%nat then None
        else ipv4_fields l (fields ++ [v]) 0 0 true
      else None
  end.

(** A leading dot is refused like two dots in a row. *)
Definition parseIPv4Fields (l : list Z) : option (list Z) := ipv4_fields l [] 0 0 true.

Definition hex_value (b : Z) : option Z :=
  if in_range 48 57 b then Some (b - 48)
  else if in_range 97 102 b then Some (b - 87)
  else if in_range 65 70 b then Some (b - 55)
  else None.

(** The hexadecimal digits at the front: their number, their value and the rest;
    [None] for more than four digits or a value over 16 bits. *)
Fixpoint hex_group (l : list Z) (off acc : Z) : option (Z * Z * list Z) :=
  match l with
  | [] => Some (off, acc, [])
  | b :: l' =>
      match hex_value b with
      | None => Some (off, acc, l)
      | Some d =>
          let acc := acc * 16 + d in
          if (3 <? off) || (65535 <? acc) then None else hex_group l' (off + 1) acc
      end
  end.

(** The loop of [parseIPv6]: [ip] holds the bytes so far, [ellipsis] the position
    of the double colon.  The result has the text left; a group takes two bytes. *)
Fixpoint ipv6_groups (fuel : nat) (s ip : list Z) (ellipsis : option nat) : option (list Z * option nat * list Z) :=
  match fuel with
  | O => Some (ip, ellipsis, s)
  | S fuel =>
      match hex_group s 0 0 with
      | None => None
      | Some (off, acc, rest) =>
          if off =? 0 then None
          else if match rest with b :: _ => b =? 46 | [] => false end then
            if (bool_decide (ellipsis = None) && negb (length ip =? 12)%nat) || (12 <? length ip)%nat then None
            else match parseIPv4Fields s with Some f => Some (ip ++ f, ellipsis, []) | None => None end
          else
            let ip := ip ++ [acc / 256; acc mod 256] in
            match rest with
            | [] => Some (ip, ellipsis, [])
            | b :: rest =>
                if negb (b =? 58) then None
                else
                  match rest with
                  | [] => None
                  | b' :: rest' =>
                      if b' =? 58 then
                        match ellipsis with
                        | Some _ => None
                        | None =>
                            if decide (rest' = []) then Some (ip, Some (length ip), [])
                            else ipv6_groups fuel rest' ip (Some (length ip))
                        end
                      else ipv6_groups fuel rest ip ellipsis
                  end
            end
      end
  end.

Definition WithZone (a : Addr) (zone : string) : Addr := match a with AddrV6 ip _ => AddrV6 ip zone | _ => a end.

(** The sixteen bytes, with the double colon expanded. *)
Definition expand (ip : list Z) (ellipsis : option nat) : option (list Z) :=
  if (length ip <? 16)%nat then
    match ellipsis with
    | None => None
    | Some e => Some (take e ip ++ repeat 0 (16 - length ip) ++ drop e ip)
    end
  else match ellipsis with Some _ => None | None => Some ip end.

Definition parseIPv6 (l : list Z) : option Addr :=
  let zone_split :=
    match split_loop 37 l [] with
    | [s] => Some (s, "")
    | s :: z => let zone := join_with 37 z in if decide (zone = []) then None else Some (s, of_bytes zone)
    | [] => None
    end in
  match zone_split with
  | None => None
  | Some (s, zone) =>
      let finish '(ip, ellipsis, rest) :=
        if decide (rest <> []) then None
        else (fun bytes => WithZone (AddrV6 (be_value bytes) "") zone) <$> expand ip ellipsis in
      match s with
      | 58 :: 58 :: [] => Some (WithZone (AddrV6 0 "") zone)
      | 58 :: 58 :: s => ipv6_groups 8 s [] (Some 0%nat) ≫= finish
      | _ => ipv6_groups 8 s [] None ≫= finish
      end
  end.

(** The first dot, colon or percent sign tells the family. *)
Fixpoint ParseAddr_bytes (l rest : list Z) : option Addr :=
  match rest with
  | [] => None
  | b :: rest =>
      if b =? 46 then (fun f => AddrV4 (be_value f)) <$> parseIPv4Fields l
      else if b =? 58 then parseIPv6 l
      else if b =? 37 then None
      else ParseAddr_bytes l rest
  end.

Definition ParseAddr (s : string) : option Addr := ParseAddr_bytes (bytes_of s) (bytes_of s).

Section addr_examples.
Example addr1 : ParseAddr "10.0.0.1" = Some (AddrV4 167772161).
Proof. reflexivity. Qed.
Example addr2 : ParseAddr "2001:db8::1" = Some (AddrV6 (8193 * 2 ^ 112 + 3512 * 2 ^ 96 + 1) "").
Proof. vm_compute. reflexivity. Qed.
Example addr3 : ParseAddr "::ffff:1.2.3.4%eth0" = Some (AddrV6 (65535 * 2 ^ 32 + 16909060) "eth0").
Proof. vm_compute. reflexivity. Qed.
Example addr4 : ParseAddr <$> ["1.2.3"; "1.2.3.256"; "01.2.3.4"; "1::2::3"; "12345::"; "1:2:3:4:5:6:7"; ":1"; "fe80::%"; ""; "a"; "1..2.3"; ".1.2.3"] =
  repeat None 12.
Proof. vm_compute. reflexivity. Qed.
Example addr5 : ParseAddr "::" = Some (AddrV6 0 "") /\ ParseAddr "1::" = Some (AddrV6 (2 ^ 112) "") /\
  ParseAddr "1:2:3:4:5:6:7::" = Some (AddrV6 (be_value [0;1;0;2;0;3;0;4;0;5;0;6;0;7;0;0]) "") /\
  ParseAddr "1:2:3:4:5:6:7:8" = Some (AddrV6 (be_value [0;1;0;2;0;3;0;4;0;5;0;6;0;7;0;8]) "").
Proof. vm_compute. repeat split. Qed.
End addr_examples.

(** ** [strconv.ParseFloat] with 64 bits *)

(** [underscoreOK]: underscores separate digits, or a base prefix and a digit.
    [prev] is the last byte seen: a digit (48), an underscore (95), the start
    (94) or another byte (33). *)
Fixpoint underscores_ok (hex : bool) (l : list Z) (prev : Z) : bool :=
  match l with
  | [] => negb (prev =? 95)
  | b :: l =>
      if is_digit_byte b || (hex && in_range 97 102 (lower_byte b)) then underscores_ok hex l 48
      else if b =? 95 then if prev =? 48 then underscores_ok hex l 95 else false
      else if prev =? 95 then false
      else underscores_ok hex l 33
  end.

Definition is_base_letter (b : Z) : bool := (b =? 98) || (b =? 111) || (b =? 120).

Definition underscoreOK (l : list Z) : bool :=
  let l := match l with b :: l' => if (b =? 45) || (b =? 43) then l' else l | [] => l end in
  match l with
  | 48 :: c :: l' => if is_base_letter (lower_byte c) then underscores_ok (lower_byte c =? 120) l' 48 else underscores_ok false l 94
  | _ => underscores_ok false l 94
  end.

(** What the loop over the digits has read: mantissa, digits seen, digits after
    the dot, whether a dot and underscores were seen; and the rest. *)
Record mantissa := MkMantissa { mant : Z; sawdigits : bool; after : Z; sawdot : bool; unders : bool }.

Fixpoint read_digits (base : Z) (l : list Z) (m : mantissa) : mantissa * list Z :=
  match l with
  | [] => (m, [])
  | b :: l' =>
      let digit d :=
        read_digits base l' (MkMantissa (mant m * base + d) true (after m + if sawdot m then 1 else 0) (sawdot m) (unders m)) in
      if b =? 95 then read_digits base l' (MkMantissa (mant m) (sawdigits m) (after m) (sawdot m) true)
      else if b =? 46 then
        if sawdot m then (m, l) else read_digits base l' (MkMantissa (mant m) (sawdigits m) (after m) true (unders m))
      else if is_digit_byte b then digit (b - 48)
      else if (base =? 16) && in_range 97 102 (lower_byte b) then digit (lower_byte b - 87)
      else (m, l)
  end.

(** The digits of an exponent; its value is cut at 10000. *)
Fixpoint read_exponent (l : list Z) (e : Z) (under : bool) : Z * bool * list Z :=
  match l with
  | [] => (e, under, [])
  | b :: l' =>
      if b =? 95 then read_exponent l' e true
      else if is_digit_byte b then read_exponent l' (if e <? 10000 then e * 10 + (b - 48) else e) under
      else (e, under, l)
  end.

Definition inf : list Z := bytes_of "inf".
Definition infinity : list Z := bytes_of "infinity".
Definition nan : list Z := bytes_of "nan".

(** [special]: infinities and NaN, in any case. *)
Definition special_float (l : list Z) : option float64 :=
  let low := lower_byte <$> l in
  let is_inf l := bool_decide (l = inf) || bool_decide (l = infinity) in
  match low with
  | 43 :: l => if is_inf l then Some (S754_infinity false) else None
  | 45 :: l => if is_inf l then Some (S754_infinity true) else None
  | _ => if is_inf low then Some (S754_infinity false) else if bool_decide (low = nan) then Some S754_nan else None
  end.

(** The nearest number to [m * 10^e], ties to even. *)
Definition of_decimal (neg : bool) (m e : Z) : float64 :=
  if m =? 0 then S754_zero neg
  else if 0 <=? e then binary_normalize 53 1024 (if neg then - (m * 10 ^ e) else m * 10 ^ e) 0 neg
  else let '(mz, ez, lz) := SFdiv_core_binary 53 1024 m 0 (10 ^ (- e)) 0 in binary_round_aux 53 1024 neg mz ez lz.

Definition of_binary (neg : bool) (m e : Z) : float64 :=
  if m =? 0 then S754_zero neg else binary_normalize 53 1024 (if neg then - m else m) e neg.

Definition is_infinite (x : float64) : bool := match x with S754_infinity _ => true | _ => false end.

(** [readFloat] and the conversion: the whole text has to be a number. *)
Definition read_float (l : list Z) : res numError float64 :=
  let '(neg, l1) := match l with b :: l' => if b =? 45 then (true, l') else if b =? 43 then (false, l') else (false, l) | [] => (false, l) end in
  let '(base, l2) := match l1 with 48 :: c :: (_ :: _) as l' => if lower_byte c =? 120 then (16, drop 2 l1) else (10, l1) | _ => (10, l1) end in
  let '(m, l3) := read_digits base l2 (MkMantissa 0 false 0 false false) in
  if negb (sawdigits m) then Err ErrSyntax else
  let expchar := if base =? 16 then 112 else 101 in
  let finish (e : Z) (under : bool) (rest : list Z) :=
    if negb (bool_decide (rest = [])) || (under && negb (underscoreOK l)) then Err ErrSyntax
    else
      let x := if base =? 16 then of_binary neg (mant m) (e - 4 * after m) else of_decimal neg (mant m) (e - after m) in
      if is_infinite x then Err ErrRange else Ok x in
  match l3 with
  | b :: l4 =>
      if lower_byte b =? expchar then
        let '(eneg, l5) := match l4 with b :: l' => if b =? 43 then (false, l') else if b =? 45 then (true, l') else (false, l4) | [] => (false, l4) end in
        match l5 with
        | b :: _ =>
            if is_digit_byte b then
              let '(e, under, rest) := read_exponent l5 0 (unders m) in finish (if eneg then - e else e) under rest
            else Err ErrSyntax
        | [] => Err ErrSyntax
        end
      else if base =? 16 then Err ErrSyntax
      else finish 0 (unders m) l3
  | [] => if base =? 16 then Err ErrSyntax else finish 0 (unders m) []
  end.

Definition ParseFloat (s : string) : res numError float64 :=
  match special_float (bytes_of s) with
  | Some x => Ok x
  | None => read_float (bytes_of s)
  end.

Section float_examples.
Example float1 : ParseFloat <$> ["1.5"; "0.1"; "-2e3"; "1e23"; ".5"; "0x1.8p1"; "Inf"; "-0"; "1_0.5"] =
  [Ok (S754_finite false 6755399441055744 (-52)); Ok (S754_finite false 7205759403792794 (-56));
   Ok (S754_finite true 8796093022208000 (-42)); Ok (S754_finite false 5960464477539062 24);
   Ok (S754_finite false 4503599627370496 (-53)); Ok (S754_finite false 6755399441055744 (-51));
   Ok (S754_infinity false); Ok (S754_zero true); Ok (S754_finite false 5910974510923776 (-49))].
Proof. vm_compute. reflexivity. Qed.
Example float2 : ParseFloat <$> [""; "."; "1e"; "1..2"; "0x1"; "_1"; "1 "; "e5"; "1e400"] =
  repeat (Err ErrSyntax) 8 ++ [Err ErrRange].
Proof. vm_compute. reflexivity. Qed.
End float_examples.

(** ** Values and types

    [reflect] as far as the decoder uses it: values of the types that occur, and
    the types with the tags of their fields. *)

Inductive val :=
| VBool (b : bool)
| VString (s : string)
| VInt (z : Z)
| VFloat (f : float64)
| VAddr (a : Addr)
| VSlice (l : list val)
| VPtr (o : option val)
| VStruct (fields : list val).

Inductive decodeError :=
| ErrNotSingle
| ErrNumber (e : numError)
| ErrText (s : string)                    (* the error of an [UnmarshalText] *)
| ErrUnexpectedPosition (v : string) (id : nat)
| ErrUnknownType
| ErrIllTyped.                            (* a value that is not of its type: [reflect] panics *)

(** The tag of a field; the tags of the repository never combine. *)
Inductive tag :=
| NoTag
| NameTag (names : list string) (default : string)
| PosTag (pos : nat)
| NestedTag.

(** A type with [UnmarshalText]: the method, the zero value and the values it
    has. *)
Record textType := MkTextType {
  Unmarshal : string -> res decodeError val;
  tzero : val;
  tvalues : val -> bool;
}.

Inductive ty :=
| TBool | TString | TUint16 | TUint | TInt | TInt32 | TFloat64
| TOpaque                                 (* a struct whose fields cannot be set *)
| TText (x : textType) (under : ty)       (* its underlying type *)
| TSlice (t : ty)
| TPtr (t : ty)
| TStruct (Default : option (list val -> list val)) (fields : list (tag * ty)).

Fixpoint zero (t : ty) : val :=
  match t with
  | TBool => VBool false
  | TString => VString ""
  | TUint16 | TUint | TInt | TInt32 => VInt 0
  | TFloat64 => VFloat (S754_zero false)
  | TOpaque => VStruct []
  | TText x _ => tzero x
  | TSlice _ => VSlice []
  | TPtr _ => VPtr None
  | TStruct _ fields => VStruct ((fix go fs := match fs with [] => [] | (_, t) :: fs => zero t :: go fs end) fields)
  end.

(** The part of a value at a path of field numbers, and its replacement. *)
Fixpoint vget (p : list nat) (v : val) : option val :=
  match p with
  | [] => Some v
  | i :: p => match v with VStruct fs => fs !! i ≫= vget p | _ => None end
  end.

Fixpoint vset (p : list nat) (x v : val) : val :=
  match p with
  | [] => x
  | i :: p =>
      match v with
      | VStruct fs => match fs !! i with Some f => VStruct (<[i := vset p x f]> fs) | None => v end
      | _ => v
      end
  end.

(** ** decoder.go *)

Definition configIsSingle (cfg : confItem) : bool :=
  (length (Values cfg) =? 1)%nat && (length (SubItems cfg) =? 0)%nat.

Definition configGetSingle (cfg : confItem) : res decodeError string :=
  if configIsSingle cfg then match Values cfg with v :: _ => Ok v | [] => Err ErrNotSingle end else Err ErrNotSingle.

(** A [reflect.Value] of a field: where it is and how an item is assigned to it. *)
Record fieldRef := MkRef { rpath : list nat; rassign : confItem -> val -> res decodeError val }.

(** What [getStructInfo] returns; a later field takes a name over. *)
Record structInfo := MkInfo {
  byPos : gmap nat fieldRef;
  byName : gmap string fieldRef;
  defaultInfo : gmap string string;
}.

Definition no_info : structInfo := MkInfo ∅ ∅ ∅.

Definition under_field (i : nat) (r : fieldRef) : fieldRef := MkRef (i :: rpath r) (rassign r).

(** The merge of a later field's info. *)
Definition merge_info (m later : structInfo) : structInfo :=
  MkInfo (byPos later ∪ byPos m) (byName later ∪ byName m) (defaultInfo later ∪ defaultInfo m).

(** The info of the [i]-th field. *)
Definition field_info (i : nat) (t : tag) (assign : confItem -> val -> res decodeError val) (nested : structInfo) : structInfo :=
  match t with
  | NoTag => no_info
  | NameTag names d =>
      MkInfo ∅ (list_to_map ((fun n => (n, MkRef [i] assign)) <$> names))
        (if decide (d = "") then ∅ else list_to_map ((fun n => (n, d)) <$> names))
  | PosTag p => MkInfo {[p := MkRef [i] assign]} ∅ ∅
  | NestedTag => MkInfo (under_field i <$> byPos nested) (under_field i <$> byName nested) (defaultInfo nested)
  end.

Definition assign_ref (r : fieldRef) (item : confItem) (v : val) : res decodeError val :=
  match vget (rpath r) v with
  | None => Err ErrIllTyped
  | Some x => let? x := rassign r item x in Ok (vset (rpath r) x v)
  end.

(** The loop over the positional values. *)
Fixpoint assign_positional (info : structInfo) (id : nat) (values : list string) (v : val) : res decodeError val :=
  match values with
  | [] => Ok v
  | x :: values =>
      match byPos info !! id with
      | None => Err (ErrUnexpectedPosition x id)
      | Some r => let? v := assign_ref r (MkItem "" [x] [] "" "") v in assign_positional info (S id) values v
      end
  end.

(** The loop over the items of a block; the names whose default is still to be
    used when they come without a value. *)
Fixpoint assign_items (info : structInfo) (items : list confItem) (defaults : gmap string string) (v : val) :
    res decodeError val :=
  match items with
  | [] => Ok v
  | item :: items =>
      match byName info !! Name item with
      | None => assign_items info items defaults v
      | Some r =>
          let item :=
            match defaults !! Name item, Values item, item with
            | Some d, [], MkItem n _ s p f => MkItem n (Fields d) s p f
            | _, _, _ => item
            end in
          let? v := assign_ref r item v in
          assign_items info items (delete (Name item) defaults) v
      end
  end.

Section decoder.
Context `{MR : MapRange}.

Definition assign_defaults (info : structInfo) (v : val) : res decodeError val :=
  for_range_err (defaultInfo info)
    (fun name d v =>
       match byName info !! name with
       | Some r => assign_ref r (MkItem name (Fields d) [] "" "") v
       | None => Err ErrIllTyped
       end) v.

(** The struct case of [configAssignConf]. *)
Definition assign_struct (Default : option (list val -> list val)) (info : structInfo) (cfg : confItem) (v : val) :
    res decodeError val :=
  match v with
  | VStruct fs =>
      let v := VStruct (match Default with Some f => f fs | None => fs end) in
      let? v := assign_positional info 0 (Values cfg) v in
      let? v := assign_defaults info v in
      assign_items info (SubItems cfg) (defaultInfo info) v
  | _ => Err ErrIllTyped
  end.

Definition scalar_case (read : string -> res decodeError val) (cfg : confItem) : res decodeError val :=
  let? s := configGetSingle cfg in read s.

Definition number (r : res numError Z) : res decodeError val :=
  match r with Ok z => Ok (VInt z) | Err e => Err (ErrNumber e) end.

(** [configAssignConf] and [getStructInfo] of a type, together since each needs
    the other for the fields. *)
Fixpoint decoder (t : ty) : (confItem -> val -> res decodeError val) * structInfo :=
  match t with
  | TBool => (fun _ _ => Ok (VBool true), no_info)
  | TString => (fun cfg _ => scalar_case (fun s => Ok (VString s)) cfg, no_info)
  | TUint16 => (fun cfg _ => scalar_case (fun s => number (ParseUint s 16)) cfg, no_info)
  | TUint => (fun cfg _ => scalar_case (fun s => number (ParseUint s 64)) cfg, no_info)
  | TInt => (fun cfg _ => scalar_case (fun s => number (ParseInt s)) cfg, no_info)
  | TInt32 => (fun _ _ => Err ErrUnknownType, no_info)
  | TFloat64 =>
      (fun cfg _ => scalar_case (fun s => match ParseFloat s with Ok f => Ok (VFloat f) | Err e => Err (ErrNumber e) end) cfg,
       no_info)
  | TOpaque =>
      (fun cfg v => match Values cfg with [] => Ok v | x :: _ => Err (ErrUnexpectedPosition x 0) end, no_info)
  | TText x under =>
      (fun cfg v =>
         if configIsSingle cfg then scalar_case (Unmarshal x) cfg else (decoder under).1 cfg v,
       (decoder under).2)
  | TSlice t =>
      (fun cfg v =>
         let? member := (decoder t).1 cfg (zero t) in
         match v with VSlice l => Ok (VSlice (l ++ [member])) | _ => Err ErrIllTyped end,
       no_info)
  | TPtr t => (fun cfg _ => let? member := (decoder t).1 cfg (zero t) in Ok (VPtr (Some member)), no_info)
  | TStruct Default fields =>
      let info :=
        (fix go (i : nat) (fs : list (tag * ty)) : structInfo :=
           match fs with
           | [] => no_info
           | (tg, t) :: fs => merge_info (field_info i tg (decoder t).1 (decoder t).2) (go (S i) fs)
           end) 0%nat fields in
      (assign_struct Default info, info)
  end.

Definition configAssignConf (t : ty) (cfg : confItem) (v : val) : res decodeError val := (decoder t).1 cfg v.

Definition getStructInfo (t : ty) : structInfo := (decoder t).2.

(** [configDecode] into a pointer to a struct. *)
Definition configDecode (t : ty) (cfg : confItem) (v : val) : res decodeError val :=
  match t with TStruct _ _ => configAssignConf t cfg v | _ => Err ErrIllTyped end.
End decoder.

(** ** Decoding keeps types *)

Section typing.
Context `{MR : MapRange}.

(** The members of a slice of pointers are never nil. *)
Definition present (t : ty) (v : val) : Prop := match t with TPtr _ => v <> VPtr None | _ => True end.

Fixpoint typed (t : ty) (v : val) : Prop :=
  match t, v with
  | TBool, VBool _ | TString, VString _ | TInt32, VInt _ | TFloat64, VFloat _ => True
  | TUint16, VInt z => 0 <= z < 2 ^ 16
  | TUint, VInt z => 0 <= z < 2 ^ 64
  | TInt, VInt z => is_int64 z
  | TOpaque, _ => True
  | TText x _, v => tvalues x v = true
  | TSlice t, VSlice l => fold_right (fun v acc => (typed t v /\ present t v) /\ acc) True l
  | TPtr t, VPtr o => match o with Some v => typed t v | None => True end
  | TStruct _ fields, VStruct vs =>
      (fix go fs vs : Prop :=
         match fs, vs with
         | [], [] => True
         | (_, t) :: fs, v :: vs => typed t v /\ go fs vs
         | _, _ => False
         end) fields vs
  | _, _ => False
  end.

Lemma typed_slice t l : typed (TSlice t) (VSlice l) <-> Forall (fun v => typed t v /\ present t v) l.
Proof. simpl. induction l as [|v l IH]; simpl; [done|]. by rewrite Forall_cons, IH. Qed.

Lemma typed_struct d fields vs : typed (TStruct d fields) (VStruct vs) <-> Forall2 (fun f v => typed f.2 v) fields vs.
Proof.
  simpl. revert vs. induction fields as [|[tg t] fields IH]; intros [|v vs]; simpl.
  - split; [constructor|done].
  - split; [done|]. intros H. inversion H.
  - split; [done|]. intros H. inversion H.
  - rewrite Forall2_cons, IH. done.
Qed.

Lemma typed_struct_inv d fields v : typed (TStruct d fields) v -> exists vs, v = VStruct vs.
Proof. destruct v; simpl; try done. eauto. Qed.

(** The types the decoder is used with: methods respect the types, a type with
    [UnmarshalText] is otherwise a number, a text or opaque, a nested field is a
    struct, and a default belongs to a name. *)
Fixpoint wf_ty (t : ty) : Prop :=
  match t with
  | TText x under =>
      tvalues x (tzero x) = true /\
      (forall s, match Unmarshal x s with Ok v => tvalues x v = true | Err e => e <> ErrIllTyped end) /\
      match under with TOpaque | TInt | TInt32 | TString => True | _ => False end
  | TSlice t | TPtr t => wf_ty t
  | TStruct d fields =>
      (forall vs f, d = Some f -> typed t (VStruct vs) -> typed t (VStruct (f vs))) /\
      fold_right (fun f acc => wf_ty f.2 /\ match f.1, f.2 with NestedTag, TStruct _ _ => True | NestedTag, _ => False | _, _ => True end /\ acc) True fields
  | _ => True
  end.

Definition nested_ok (f : tag * ty) : Prop :=
  match f.1, f.2 with NestedTag, TStruct _ _ => True | NestedTag, _ => False | _, _ => True end.

Lemma wf_fields (fields : list (tag * ty)) :
  fold_right (fun f acc => wf_ty f.2 /\ match f.1, f.2 with NestedTag, TStruct _ _ => True | NestedTag, _ => False | _, _ => True end /\ acc) True fields <->
  Forall (fun f => wf_ty f.2 /\ nested_ok f) fields.
Proof. induction fields as [|f fields IH]; simpl; [done|]. rewrite Forall_cons, IH. unfold nested_ok. tauto. Qed.

Lemma ty_ind' (P : ty -> Prop) :
  P TBool -> P TString -> P TUint16 -> P TUint -> P TInt -> P TInt32 -> P TFloat64 -> P TOpaque ->
  (forall x under, P under -> P (TText x under)) -> (forall t, P t -> P (TSlice t)) -> (forall t, P t -> P (TPtr t)) ->
  (forall d fields, Forall (fun f => P f.2) fields -> P (TStruct d fields)) -> forall t, P t.
Proof.
  intros H1 H2 H3 H4 H5 H6 H7 H8 H9 H10 H11 H12. fix IH 1. intros [| | | | | | | |x u|t|t|d fields];
    [done|done|done|done|done|done|done|done|apply H9, IH|apply H10, IH|apply H11, IH|apply H12].
  induction fields as [|f fields IHf]; [constructor|]. constructor; [apply IH|exact IHf].
Qed.

(** A result of the right type, or an error other than ill-typed. *)
Definition keeps (t : ty) (r : res decodeError val) : Prop :=
  match r with Ok v => typed t v | Err e => e <> ErrIllTyped end.

Definition ref_ok (t : ty) (r : fieldRef) : Prop :=
  forall v, typed t v -> exists x, vget (rpath r) v = Some x /\
    forall cfg, match rassign r cfg x with Ok x' => typed t (vset (rpath r) x' v) | Err e => e <> ErrIllTyped end.

Definition info_ok (t : ty) (info : structInfo) : Prop :=
  (forall n r, byPos info !! n = Some r -> ref_ok t r) /\ (forall n r, byName info !! n = Some r -> ref_ok t r) /\
  (forall n d, defaultInfo info !! n = Some d -> is_Some (byName info !! n)).

Lemma bind_keeps t (r : res decodeError val) k :
  keeps t r -> (forall v, typed t v -> keeps t (k v)) -> keeps t (let? v := r in k v).
Proof. destruct r as [v|e]; simpl; auto. Qed.

Lemma assign_ref_keeps t r item v : ref_ok t r -> typed t v -> keeps t (assign_ref r item v).
Proof.
  intros Hr Hv. destruct (Hr v Hv) as (x & Hx & Ha). unfold assign_ref. rewrite Hx.
  specialize (Ha item). by destruct (rassign r item x).
Qed.

Lemma assign_positional_keeps t info values : forall id v,
  info_ok t info -> typed t v -> keeps t (assign_positional info id values v).
Proof.
  induction values as [|x values IH]; intros id v Hi Hv; simpl; [done|].
  destruct (byPos info !! id) as [r|] eqn:Hr; [|done].
  apply bind_keeps; [by apply assign_ref_keeps; [exact (proj1 Hi _ _ Hr)|]|]. intros v' Hv'. by apply IH.
Qed.

Lemma assign_items_keeps t info items : forall defaults v,
  info_ok t info -> typed t v -> keeps t (assign_items info items defaults v).
Proof.
  induction items as [|item items IH]; intros defaults v Hi Hv; simpl; [done|].
  destruct (byName info !! Name item) as [r|] eqn:Hr; [|by apply IH].
  apply bind_keeps; [by apply assign_ref_keeps; [exact (proj1 (proj2 Hi) _ _ Hr)|]|]. intros v' Hv'. by apply IH.
Qed.

Lemma assign_defaults_keeps t info v : info_ok t info -> typed t v -> keeps t (assign_defaults info v).
Proof.
  intros Hi Hv. unfold assign_defaults.
  assert (forall name d v, defaultInfo info !! name = Some d -> typed t v ->
    keeps t (match byName info !! name with Some r => assign_ref r (MkItem name (Fields d) [] "" "") v | None => Err ErrIllTyped end)) as Hbody.
  { intros name d v' Hd Hv'. destruct (proj2 (proj2 Hi) _ _ Hd) as [r Hr]. rewrite Hr.
    by apply assign_ref_keeps; [exact (proj1 (proj2 Hi) _ _ Hr)|]. }
  destruct (for_range_err _ _ v) as [v'|e] eqn:Hf; simpl.
  - revert Hf. apply (for_range_err_ind (fun _ v => typed t v)); [done|].
    intros name d pr s s' _ Hd _ Hs Hb. specialize (Hbody name d s Hd Hs). by rewrite Hb in Hbody.
  - intros ->. revert v Hv Hf. unfold for_range_err.
    assert (forall kv, kv ∈ range (defaultInfo info) -> defaultInfo info !! kv.1 = Some kv.2) as Hin
      by (intros [k d]; apply elem_of_range).
    induction (range (defaultInfo info)) as [|[k d] l IH]; intros v Hv; simpl; [done|].
    specialize (Hbody k d v (Hin (k, d) ltac:(left)) Hv).
    destruct (match byName info !! k with Some r => _ | None => _ end) as [v1|e1]; simpl in *; [|congruence].
    apply IH; [intros kv Hkv; apply Hin; by right|done].
Qed.

(** The info of a struct's fields is about the struct. *)
Lemma field_ok d fields i tg t vs :
  fields !! i = Some (tg, t) -> typed (TStruct d fields) (VStruct vs) ->
  exists x, vs !! i = Some x /\ typed t x /\ forall x', typed t x' -> typed (TStruct d fields) (VStruct (<[i := x']> vs)).
Proof.
  intros Hi Hv. apply typed_struct in Hv. destruct (Forall2_lookup_l _ _ _ _ _ Hv Hi) as (x & Hx & Ht).
  exists x. split_and!; [done|done|]. intros x' Hx'. apply typed_struct.
  rewrite <- (list_insert_id fields i (tg, t)) by done. by apply Forall2_insert.
Qed.

Lemma under_field_ok d fields i tg t r :
  fields !! i = Some (tg, t) -> ref_ok t r -> ref_ok (TStruct d fields) (under_field i r).
Proof.
  intros Hi Hr v Hv. destruct (typed_struct_inv _ _ _ Hv) as [vs ->].
  destruct (field_ok d fields i tg t vs Hi Hv) as (x & Hx & Ht & Hset). destruct (Hr x Ht) as (y & Hy & Ha).
  exists y. cbn [rpath under_field vget vset rassign]. rewrite Hx. simpl. split; [done|]. intros cfg. specialize (Ha cfg).
  destruct (rassign r cfg y) as [y'|e]; [|done]. by apply Hset.
Qed.

Lemma direct_ref_ok d fields i tg t assign :
  fields !! i = Some (tg, t) -> (forall cfg v, typed t v -> keeps t (assign cfg v)) ->
  ref_ok (TStruct d fields) (MkRef [i] assign).
Proof.
  intros Hi Ha. apply (under_field_ok d fields i tg t (MkRef [] assign) Hi).
  intros v Hv. exists v. split; [done|]. intros cfg. exact (Ha cfg v Hv).
Qed.

Lemma no_info_ok t : info_ok t no_info.
Proof. split_and!; intros n x; cbn; by rewrite lookup_empty. Qed.

Lemma field_info_ok d fields i tg t assign nested :
  fields !! i = Some (tg, t) -> (forall cfg v, typed t v -> keeps t (assign cfg v)) -> info_ok t nested ->
  info_ok (TStruct d fields) (field_info i tg assign nested).
Proof.
  intros Hi Ha (N1 & N2 & N3). pose proof (direct_ref_ok d fields i tg t assign Hi Ha) as Hd.
  destruct tg as [|names dv|p|]; simpl.
  - apply no_info_ok.
  - split_and!; simpl; intros n x.
    + by rewrite lookup_empty.
    + intros Hx%elem_of_list_to_map_2. apply list_elem_of_fmap in Hx as (n' & [= -> ->] & _). exact Hd.
    + case_decide; [by rewrite lookup_empty|]. intros Hx%elem_of_list_to_map_2.
      apply list_elem_of_fmap in Hx as (n' & [= -> ->] & Hn'). apply elem_of_dom. rewrite dom_list_to_map.
      apply elem_of_list_to_set, list_elem_of_fmap. exists (n', MkRef [i] assign). split; [done|].
      apply list_elem_of_fmap. by exists n'.
  - split_and!; simpl; intros n x; [|by rewrite lookup_empty..]. intros [_ <-]%lookup_singleton_Some. exact Hd.
  - split_and!; simpl; intros n x.
    + rewrite lookup_fmap. destruct (byPos nested !! n) as [r|] eqn:Hr; [|done]. intros [= <-].
      eapply under_field_ok; [done|by eapply N1].
    + rewrite lookup_fmap. destruct (byName nested !! n) as [r|] eqn:Hr; [|done]. intros [= <-].
      eapply under_field_ok; [done|by eapply N2].
    + intros Hx. rewrite lookup_fmap. destruct (N3 _ _ Hx) as [r ->]. simpl. eauto.
Qed.

Lemma merge_info_ok t m later : info_ok t m -> info_ok t later -> info_ok t (merge_info m later).
Proof.
  intros (A1 & A2 & A3) (B1 & B2 & B3). split_and!; simpl; intros n x.
  - intros [H|[_ H]]%lookup_union_Some_raw; eauto.
  - intros [H|[_ H]]%lookup_union_Some_raw; eauto.
  - rewrite lookup_union_is_Some. intros [H|[_ H]]%lookup_union_Some_raw; eauto.
Qed.

(** The fields from the [i]-th on. *)
Fixpoint fields_info (i : nat) (fs : list (tag * ty)) : structInfo :=
  match fs with
  | [] => no_info
  | (tg, t) :: fs => merge_info (field_info i tg (decoder t).1 (decoder t).2) (fields_info (S i) fs)
  end.

Lemma decoder_struct d fields :
  decoder (TStruct d fields) = (assign_struct d (fields_info 0 fields), fields_info 0 fields).
Proof.
  cbn [decoder].
  assert (forall i, (fix go (i : nat) (fs : list (tag * ty)) : structInfo :=
           match fs with
           | [] => no_info
           | (tg, t) :: fs => merge_info (field_info i tg (decoder t).1 (decoder t).2) (go (S i) fs)
           end) i fields = fields_info i fields) as H; [|by rewrite H].
  induction fields as [|[tg t] fields IH]; intros i; [done|]. cbn [fields_info]. by rewrite IH.
Qed.

Lemma zero_typed t : wf_ty t -> typed t (zero t).
Proof.
  assert (is_int64 0) as Hz by (unfold is_int64; pose proof two63_pos; lia).
  induction t as [| | | | | | | |x u _|t IH|t IH|d fields IH] using ty_ind'; simpl; intros Hwf; try done; try tauto.
  destruct Hwf as [_ Hwf%wf_fields]. induction fields as [|[tg t] fields IHf]; [done|].
  apply Forall_cons in Hwf as [[H1 _] H2]. apply Forall_cons in IH as [I1 I2]. split; [by apply I1|by apply IHf].
Qed.

Lemma digits_val_nonneg s : forall acc v, 0 <= acc -> digits_val acc s = Some v -> 0 <= v.
Proof.
  induction s as [|c s IH]; intros acc v Ha; simpl; [by intros [= <-]|].
  unfold digit_val. cbv zeta. destruct (_ && _) eqn:Hc; [|done]. apply andb_prop in Hc as [Hc%Z.leb_le _].
  apply IH. lia.
Qed.

Lemma ParseUint_range s bits : match ParseUint s bits with Ok z => 0 <= z < 2 ^ bits | Err _ => True end.
Proof.
  unfold ParseUint. destruct s as [|c s]; [done|]. destruct (digits_val 0 (String c s)) as [v|] eqn:Hv; [|done].
  destruct (Z.ltb_spec v (2 ^ bits)); [|done]. split; [|done]. by apply (digits_val_nonneg (String c s) 0).
Qed.

Lemma ParseUint_keeps s bits t : (forall z, 0 <= z < 2 ^ bits -> typed t (VInt z)) -> keeps t (number (ParseUint s bits)).
Proof.
  intros Ht. unfold number. pose proof (ParseUint_range s bits) as H. destruct (ParseUint s bits) as [z|e]; simpl; [|done].
  by apply Ht, H.
Qed.

Lemma ParseInt_cases s :
  (exists rest, ParseInt s = (let? v := ParseUint rest 64 in if v <=? two63 then Ok (- v) else Err ErrRange)) \/
  (exists rest, ParseInt s = (let? v := ParseUint rest 64 in if v <? two63 then Ok v else Err ErrRange)).
Proof.
  unfold ParseInt. destruct s as [|[[] [] [] [] [] [] [] []] s];
    first [by right; eexists | by left; eexists].
Qed.

Lemma ParseInt_keeps s : keeps TInt (number (ParseInt s)).
Proof.
  pose proof two63_pos. unfold number, keeps, is_int64 in *.
  destruct (ParseInt_cases s) as [[rest ->]|[rest ->]]; pose proof (ParseUint_range rest 64) as Hu;
    (destruct (ParseUint rest 64) as [v|e]; simpl; [|done]).
  - destruct (Z.leb_spec v two63); simpl; unfold is_int64; [lia|done].
  - destruct (Z.ltb_spec v two63); simpl; unfold is_int64; [lia|done].
Qed.

Lemma scalar_keeps t read cfg : (forall s, keeps t (read s)) -> keeps t (scalar_case read cfg).
Proof.
  intros Hr. unfold scalar_case, configGetSingle. destruct (configIsSingle cfg); simpl; [|done].
  destruct (Values cfg); simpl; [done|]. apply Hr.
Qed.

Lemma assign_struct_keeps d fields info cfg v :
  info_ok (TStruct d fields) info ->
  (forall vs f, d = Some f -> typed (TStruct d fields) (VStruct vs) -> typed (TStruct d fields) (VStruct (f vs))) ->
  typed (TStruct d fields) v -> keeps (TStruct d fields) (assign_struct d info cfg v).
Proof.
  intros Hi Hd Hv. destruct (typed_struct_inv _ _ _ Hv) as [vs ->]. unfold assign_struct.
  apply bind_keeps.
  - apply assign_positional_keeps; [done|]. destruct d as [f|]; [by apply Hd|done].
  - intros v1 H1. apply bind_keeps; [by apply assign_defaults_keeps|]. intros v2 H2. by apply assign_items_keeps.
Qed.

Lemma decoder_present t cfg v x : (decoder t).1 cfg v = Ok x -> present t x.
Proof. destruct t; try done. cbn. destruct ((decoder t).1 cfg (zero t)); simpl; [by intros [= <-]|done]. Qed.

Lemma decoder_keeps t : wf_ty t -> info_ok t (decoder t).2 /\ forall cfg v, typed t v -> keeps t ((decoder t).1 cfg v).
Proof.
  induction t as [| | | | | | | |x u _|t IH|t IH|d fields IH] using ty_ind'; intros Hwf;
    try (split; [apply no_info_ok|]; intros cfg v Hv; cbn [decoder fst];
         first [done | apply scalar_keeps; intros s;
                first [done | apply ParseInt_keeps | by apply ParseUint_keeps | by destruct (ParseFloat s)]]).
  - split; [apply no_info_ok|]. intros cfg v Hv. cbn. by destruct (Values cfg).
  - destruct Hwf as (H1 & H2 & H3). split.
    + cbn [decoder snd]. destruct u; try done; apply no_info_ok.
    + intros cfg v Hv. cbn [decoder fst]. destruct (configIsSingle cfg) eqn:Hs; [by apply scalar_keeps|].
      destruct u; try done; cbn; unfold scalar_case, configGetSingle; rewrite ?Hs; try done. by destruct (Values cfg).
  - split; [apply no_info_ok|]. intros cfg v Hv. cbn [decoder fst]. destruct (IH Hwf) as [_ IHa].
    pose proof (IHa cfg (zero t) (zero_typed t Hwf)) as Hm. pose proof (decoder_present t cfg (zero t)) as Hp.
    destruct ((decoder t).1 cfg (zero t)) as [m|e]; cbn [res_bind]; [|done].
    destruct v as [| | | | |l| |]; try done. apply (proj2 (typed_slice _ _)). apply typed_slice in Hv.
    apply Forall_app. split; [done|]. by constructor; [split; [|apply Hp]|].
  - split; [apply no_info_ok|]. intros cfg v Hv. cbn [decoder fst]. destruct (IH Hwf) as [_ IHa].
    pose proof (IHa cfg (zero t) (zero_typed t Hwf)) as Hm. by destruct ((decoder t).1 cfg (zero t)) as [m|e].
  - destruct Hwf as [Hd Hf%wf_fields]. rewrite decoder_struct.
    assert (info_ok (TStruct d fields) (fields_info 0 fields)) as Hi.
    { assert (forall fs pre, fields = pre ++ fs -> info_ok (TStruct d fields) (fields_info (length pre) fs)) as H;
        [|by apply (H fields [])].
      induction fs as [|[tg t] fs IHf]; intros pre Hpre; [apply no_info_ok|]. cbn [fields_info].
      assert (fields !! length pre = Some (tg, t)) as Hl by (rewrite Hpre; by apply list_lookup_middle).
      pose proof (list_elem_of_lookup_2 _ _ _ Hl) as Hin. rewrite Forall_forall in IH, Hf.
      destruct (Hf _ Hin) as [Hwt Hn]. destruct (IH _ Hin Hwt) as [I1 I2]. apply merge_info_ok.
      - by apply (field_info_ok d fields _ tg t).
      - replace (S (length pre)) with (length (pre ++ [(tg, t)])) by (rewrite length_app; simpl; lia).
        apply IHf. by rewrite <- app_assoc. }
    split; [done|]. intros cfg v Hv. by apply assign_struct_keeps.
Qed.

Lemma decode_keeps d fields cfg v :
  wf_ty (TStruct d fields) -> typed (TStruct d fields) v ->
  keeps (TStruct d fields) (configDecode (TStruct d fields) cfg v).
Proof. intros Hwf Hv. exact (proj2 (decoder_keeps _ Hwf) cfg v Hv). Qed.

(** C20: decoding never assigns a value of a wrong type: whatever the items of
    the configuration and the order of the ranges over the maps, the decoder of
    a struct with well-formed tags ends, and returns either a value of that
    struct or one of its errors; the assignments that would make reflection
    panic do not happen. *)
Theorem configDecode_safe (d : option (list val -> list val)) (fields : list (tag * ty)) (cfg : confItem) (v : val) :
  wf_ty (TStruct d fields) -> typed (TStruct d fields) v ->
  match configDecode (TStruct d fields) cfg v with
  | Ok v' => typed (TStruct d fields) v'
  | Err e => e <> ErrIllTyped
  end.
Proof. apply decode_keeps. Qed.
End typing.

(** ** Fields do not disturb each other *)

Section fields.
Context `{MR : MapRange}.

(** Neither of two paths leads through the other. *)
Definition apart (p q : list nat) : Prop := ~ p `prefix_of` q /\ ~ q `prefix_of` p.

Lemma vget_vset p x : forall v y, vget p v = Some y -> vget p (vset p x v) = Some x.
Proof.
  induction p as [|i p IH]; intros v y; [done|]. destruct v as [| | | | | | |fs]; try done. simpl.
  destruct (fs !! i) as [f|] eqn:Hf; [|done]. simpl. intros Hy.
  rewrite list_lookup_insert_eq by by eapply lookup_lt_Some. simpl. by eapply IH.
Qed.

Lemma vget_vset_apart p : forall q x v, apart p q -> vget p (vset q x v) = vget p v.
Proof.
  induction p as [|i p IH]; intros q x v [Hp Hq]; [by destruct Hp; apply prefix_nil|].
  destruct q as [|j q]; [by destruct Hq; apply prefix_nil|].
  destruct v as [| | | | | | |fs]; try done. simpl. destruct (fs !! j) as [f|] eqn:Hf; [|done]. simpl.
  destruct (decide (i = j)) as [->|Hij].
  - rewrite list_lookup_insert_eq by by eapply lookup_lt_Some. rewrite Hf. simpl. apply IH.
    split; intros H; [apply Hp|apply Hq]; by apply prefix_cons.
  - by rewrite list_lookup_insert_ne.
Qed.

Definition assign_all (assign : confItem -> val -> res decodeError val) (items : list confItem) (x : val) :
    res decodeError val := for_each_err assign items x.

(** The names of a field lead to it, all the others elsewhere. *)
Definition owns (info : structInfo) (p : list nat) (names : gset string) (assign : confItem -> val -> res decodeError val) : Prop :=
  defaultInfo info = ∅ /\
  forall n r, byName info !! n = Some r -> if decide (n ∈ names) then r = MkRef p assign else apart p (rpath r).

Lemma assign_ref_own p assign item v v' x :
  vget p v = Some x -> assign_ref (MkRef p assign) item v = Ok v' ->
  exists x', assign item x = Ok x' /\ vget p v' = Some x'.
Proof.
  intros Hx. unfold assign_ref. cbn [rpath rassign]. rewrite Hx.
  destruct (assign item x) as [x'|e]; simpl; [|done]. intros [= <-]. exists x'. split; [done|by eapply vget_vset].
Qed.

Lemma assign_ref_apart p r item v v' : apart p (rpath r) -> assign_ref r item v = Ok v' -> vget p v' = vget p v.
Proof.
  intros Hp. unfold assign_ref. destruct (vget (rpath r) v) as [y|]; [|done].
  destruct (rassign r item y) as [y'|e]; simpl; [|done]. intros [= <-]. by apply vget_vset_apart.
Qed.

Lemma assign_items_own info p names assign : owns info p names assign ->
  (forall n, n ∈ names -> is_Some (byName info !! n)) ->
  forall items v v' x, vget p v = Some x -> assign_items info items ∅ v = Ok v' ->
  exists x', assign_all assign (filter (fun i => Name i ∈ names) items) x = Ok x' /\ vget p v' = Some x'.
Proof.
  intros [_ Ho] Hn. induction items as [|item items IH]; intros v v' x Hx; cbn [assign_items].
  - intros [= <-]. by exists x.
  - rewrite lookup_empty, delete_empty. destruct (byName info !! Name item) as [r|] eqn:Hr.
    + specialize (Ho _ _ Hr). destruct (assign_ref r item v) as [v1|e] eqn:Ha; simpl; [|done]. intros Hi.
      destruct (decide (Name item ∈ names)) as [Hin|Hin].
      * subst r. destruct (assign_ref_own p assign item v v1 x Hx Ha) as (x1 & H1 & Hx1).
        rewrite filter_cons_True by done. unfold assign_all. simpl. rewrite H1. simpl. by eapply IH.
      * rewrite filter_cons_False by done. apply (IH v1); [|done]. by rewrite (assign_ref_apart p r item v v1).
    + intros Hi. rewrite filter_cons_False; [by eapply IH|]. intros [r Hr']%Hn. congruence.
Qed.

(** An item of a block changes the field it names and no other: what a field
    holds after a struct is decoded is the result of assigning it the items with
    its names alone, in their order, to what it held after the default and the
    positional values.  A scalar keeps the last of them, a list appends each. *)
Theorem decoded_field (d : option (list val -> list val)) (fields : list (tag * ty)) (cfg : confItem) (fs : list val)
    (v0 v' x : val) (p : list nat) (names : gset string) (assign : confItem -> val -> res decodeError val) :
  let info := getStructInfo (TStruct d fields) in
  owns info p names assign -> (forall n, n ∈ names -> is_Some (byName info !! n)) ->
  assign_positional info 0 (Values cfg) (VStruct (match d with Some f => f fs | None => fs end)) = Ok v0 ->
  vget p v0 = Some x ->
  configDecode (TStruct d fields) cfg (VStruct fs) = Ok v' ->
  exists x', assign_all assign (filter (fun i => Name i ∈ names) (SubItems cfg)) x = Ok x' /\ vget p v' = Some x'.
Proof.
  intros info Ho Hn H0 Hx. unfold configDecode, configAssignConf. rewrite decoder_struct. cbn [fst].
  assert (info = fields_info 0 fields) as Hinfo by (unfold info, getStructInfo; by rewrite decoder_struct).
  rewrite <- Hinfo. unfold assign_struct. rewrite H0. cbn [res_bind].
  unfold assign_defaults. rewrite (proj1 Ho). unfold for_range_err. rewrite range_empty. cbn [for_each_err res_bind].
  by apply assign_items_own.
Qed.
End fields.
