(* ===== verification/Schema.v ===== *)
(** * The configuration of the services

    The types [pkg/keepalived] decodes into, with the tags of their fields
    ([internal/scheduler/config.go], [internal/core/checker/check/config.go],
    [internal/core/checker/config.go], [internal/core/real/config.go],
    [internal/core/service/config.go], [internal/core/config.go]), the records of
    the other files as readings of the decoded values, and [keepalived.LoadConfig]
    from the file to the configuration of the core. *)

From Stdlib Require Import SpecFloat Ascii.
From stdpp Require Import strings numbers gmap sets list.
From S2P Require Import Prelude.
From S2P Require Import Types.
From S2P Require Import Prefixes.
From S2P Require Import Scheduler.
From S2P Require Import Check.
From S2P Require Import Text.
From S2P Require Import Checker.
From S2P Require Import Real.
From S2P Require Import Service.
From S2P Require Import Core.
From S2P Require Import Keepalived.
From S2P Require Import Decoder.

Open Scope Z_scope.
Open Scope go_scope.

(** ** Types with [UnmarshalText] *)

Definition unmarshal_addr (s : string) : res decodeError val :=
  if decide (s = "") then Ok (VAddr AddrInvalid)
  else match ParseAddr s with Some a => Ok (VAddr a) | None => Err (ErrText s) end.

Definition is_addr (v : val) : bool := match v with VAddr _ => true | _ => false end.

(** [netip.Addr]: a struct without exported fields. *)
Definition addr_ty : ty := TText (MkTextType unmarshal_addr (VAddr AddrInvalid) is_addr) TOpaque.

Definition unmarshal_port (s : string) : res decodeError val :=
  match port.UnmarshalText s with Ok p => Ok (VInt p) | Err _ => Err (ErrText s) end.

Definition is_port (v : val) : bool := match v with VInt z => in_range (-1) 65535 z | _ => false end.

Definition port_ty : ty := TText (MkTextType unmarshal_port (VInt 0) is_port) TInt32.

Definition is_int (v : val) : bool := match v with VInt z => bool_decide (is_int64 z) | _ => false end.

Definition weight_ty : ty := TText (MkTextType (fun s => Ok (VInt (weight.UnmarshalText s))) (VInt 0) is_int) TInt.

(** ** The tags *)

Definition named (n : string) : tag := NameTag [n] "".

Definition scheduler_ty : ty :=
  TStruct (Some (fun _ => [VPtr (Some (VFloat (f64_of_Z (defaultDelayLoop / Second))));
                           VPtr (Some (VInt defaultRetries));
                           VPtr (Some (VFloat (f64_of_Z (defaultRetryDelay / Second))))]))
    [(named "delay_loop", TPtr TFloat64);
     (NameTag ["retry"; "nb_get_retry"] "", TPtr TInt);
     (named "delay_before_retry", TPtr TFloat64)].

Definition url_ty : ty :=
  TStruct None
    [(named "path", TString); (named "status_code", TInt); (named "digest", TString);
     (named "virtualhost", TPtr TString)].

Definition net_ty : ty :=
  TStruct None
    [(named "connect_ip", addr_ty); (named "connect_port", port_ty); (named "bindto", addr_ty);
     (named "connect_timeout", TFloat64); (named "check_timeout", TFloat64); (named "fwmark", TInt)].

Definition weight_control_ty : ty :=
  TStruct None
    [(named "dynamic_weight_enable", TBool); (named "dynamic_weight_in_header", TBool);
     (named "dynamic_weight_coefficient", TUint)].

Definition check_ty : ty :=
  TStruct None [(named "url", url_ty); (NestedTag, net_ty); (NestedTag, weight_control_ty)].

(** The type of the checker has no tag; its [Default] does nothing. *)
Definition checker_ty : ty :=
  TStruct (Some id) [(NoTag, TInt); (NestedTag, check_ty); (NestedTag, scheduler_ty)].

Definition real_Default (fs : list val) : list val := <[2%nat := VInt 1]> (<[1%nat := VInt port.Omitted]> fs).

Definition real_ty : ty :=
  TStruct (Some real_Default)
    [(PosTag 0, addr_ty); (PosTag 1, port_ty); (named "weight", weight_ty);
     (named "inhibit_on_failure", TBool); (named "virtualhost", TPtr TString); (named "lvs_method", TString);
     (NestedTag, scheduler_ty);
     (named "TCP_CHECK", TSlice (TPtr checker_ty)); (named "HTTP_GET", TSlice (TPtr checker_ty));
     (named "SSL_GET", TSlice (TPtr checker_ty)); (named "GRPC_CHECK", TSlice (TPtr checker_ty))].

Definition scheduler_defaults : val :=
  VStruct [VPtr (Some (VFloat (f64_of_Z (defaultDelayLoop / Second)))); VPtr (Some (VInt defaultRetries));
           VPtr (Some (VFloat (f64_of_Z (defaultRetryDelay / Second))))].

Definition service_Default (fs : list val) : list val :=
  <[16%nat := scheduler_defaults]> (<[5%nat := VInt 1]> (<[4%nat := VString "TUN"]> (<[1%nat := VInt port.Omitted]> fs))).

Definition service_ty : ty :=
  TStruct (Some service_Default)
    [(PosTag 0, addr_ty); (PosTag 1, port_ty); (named "protocol", TString); (named "lvs_sched", TString);
     (named "lvs_method", TString); (named "quorum", TInt); (named "hysteresis", TInt);
     (named "quorum_up", TString); (named "quorum_down", TString); (named "announce_group", TString);
     (named "virtualhost", TPtr TString); (named "fwmark", TInt); (named "ops", TBool);
     (named "ipv4_outer_source_network", TString); (named "ipv6_outer_source_network", TString);
     (named "version", TPtr TString); (NestedTag, scheduler_ty); (named "real_server", TSlice (TPtr real_ty))].

Definition config_fields : list (tag * ty) := [(named "virtual_server", TSlice (TPtr service_ty))].

Definition config_ty : ty := TStruct None config_fields.

(** ** Decoded values as records *)

Definition as_bool (v : val) : option bool := match v with VBool b => Some b | _ => None end.
Definition as_string (v : val) : option string := match v with VString s => Some s | _ => None end.
Definition as_int (v : val) : option Z := match v with VInt z => Some z | _ => None end.
Definition as_float (v : val) : option float64 := match v with VFloat f => Some f | _ => None end.
Definition as_addr (v : val) : option Addr := match v with VAddr a => Some a | _ => None end.

Definition as_ptr {A} (f : val -> option A) (v : val) : option (option A) :=
  match v with VPtr None => Some None | VPtr (Some v) => Some <$> f v | _ => None end.

(** A slice of pointers to values, none of them nil. *)
Definition as_slice {A} (f : val -> option A) (v : val) : option (list A) :=
  match v with VSlice l => mapM (fun v => v' ← as_ptr f v; v') l | _ => None end.

Definition as_scheduler (v : val) : option Scheduler.Config :=
  match v with
  | VStruct [a; b; c] =>
      a ← as_ptr as_float a; b ← as_ptr as_int b; c ← as_ptr as_float c; Some (Scheduler.MkConfig a b c)
  | _ => None
  end.

Definition as_url (v : val) : option URL :=
  match v with
  | VStruct [a; b; c; d] =>
      a ← as_string a; b ← as_int b; c ← as_string c; d ← as_ptr as_string d; Some (MkURL a b c d)
  | _ => None
  end.

Definition as_net (v : val) : option Net :=
  match v with
  | VStruct [a; b; c; d; e; f] =>
      a ← as_addr a; b ← as_int b; c ← as_addr c; d ← as_float d; e ← as_float e; f ← as_int f;
      Some (MkNet a b c d e f)
  | _ => None
  end.

Definition as_weight_control (v : val) : option WeightControl :=
  match v with
  | VStruct [a; b; c] => a ← as_bool a; b ← as_bool b; c ← as_int c; Some (MkWeightControl a b c)
  | _ => None
  end.

Definition as_check (v : val) : option Check.Config :=
  match v with
  | VStruct [a; b; c] => a ← as_url a; b ← as_net b; c ← as_weight_control c; Some (Check.MkConfig a b c)
  | _ => None
  end.

(** The decoder leaves the type of the checker unset. *)
Definition as_checker (v : val) : option Checker.Config :=
  match v with
  | VStruct [_; b; c] => b ← as_check b; c ← as_scheduler c; Some (Checker.MkConfig TypeUnset b c)
  | _ => None
  end.

Definition as_real (v : val) : option Real.Config :=
  match v with
  | VStruct [a; b; c; d; e; f; g; h; i; j; k] =>
      a ← as_addr a; b ← as_int b; c ← as_int c; d ← as_bool d; e ← as_ptr as_string e; f ← as_string f;
      g ← as_scheduler g; h ← as_slice as_checker h; i ← as_slice as_checker i; j ← as_slice as_checker j;
      k ← as_slice as_checker k; Some (Real.MkConfig a b c d e f g h i j k)
  | _ => None
  end.

Definition as_service (v : val) : option Service.Config :=
  match v with
  | VStruct [a; b; c; d; e; f; g; h; i; j; k; l; m; n; o; p; q; r] =>
      a ← as_addr a; b ← as_int b; c ← as_string c; d ← as_string d; e ← as_string e; f ← as_int f; g ← as_int g;
      h ← as_string h; i ← as_string i; j ← as_string j; k ← as_ptr as_string k; l ← as_int l; m ← as_bool m;
      n ← as_string n; o ← as_string o; p ← as_ptr as_string p; q ← as_scheduler q; r ← as_slice as_real r;
      Some (Service.MkConfig a b c d e f g h i j k l m n o p q r)
  | _ => None
  end.

Definition as_config (v : val) : option Core.Config :=
  match v with VStruct [a] => Core.MkConfig <$> as_slice as_service a | _ => None end.

(** ** config.go of pkg/keepalived *)

Section load.
Context `{FS : FileSystem} `{MR : MapRange}.

Inductive loadError := ErrParse (e : parseError) | ErrDecode (e : decodeError).

(** [None]: the includes are nested deeper than [depth]. *)
Definition LoadConfig (depth : nat) (path : string) (t : ty) (v : val) : option (res loadError val) :=
  match parseFile depth path with
  | None => None
  | Some (Err e) => Some (Err (ErrParse e))
  | Some (Ok cfgRoot) => Some match configDecode t cfgRoot v with Ok v => Ok v | Err e => Err (ErrDecode e) end
  end.

(** [KeepalivedConfigLoader] into the empty configuration of [Manager.loadConfig]. *)
Definition KeepalivedConfigLoader (depth : nat) (path : string) : option (res loadError Core.Config) :=
  match LoadConfig depth path config_ty (zero config_ty) with
  | None => None
  | Some (Err e) => Some (Err e)
  | Some (Ok v) =>
      Some match as_config v with Some c => Ok c | None => Err (ErrDecode ErrIllTyped) end
  end.
End load.

(** ** The tags are well formed *)

Section wellformed.
Context `{MR : MapRange}.

Lemma addr_wf : wf_ty addr_ty.
Proof.
  split_and!; [done| |done]. intros s. simpl. unfold unmarshal_addr. case_decide; [done|].
  by destruct (ParseAddr s).
Qed.

Lemma port_wf : wf_ty port_ty.
Proof.
  split_and!; [done| |done]. intros s. simpl. unfold unmarshal_port, port.UnmarshalText.
  destruct s as [|c s]; [done|]. pose proof (ParseUint_range (String c s) 16) as H.
  destruct (ParseUint _ 16) as [z|e]; [|done]. simpl. unfold in_range. lia.
Qed.

Lemma weight_wf : wf_ty weight_ty.
Proof.
  pose proof two63_pos as H63.
  split_and!; [apply bool_decide_eq_true; unfold is_int64; lia| |done]. intros s. apply bool_decide_eq_true.
  unfold weight.UnmarshalText, Atoi, weight.Omitted. pose proof (ParseInt_keeps s) as H. unfold number in H.
  destruct (ParseInt s) as [z|e]; simpl in H; [|unfold is_int64; lia].
  destruct (Z.ltb_spec z 0); [unfold is_int64; lia|done].
Qed.

(** A default that overwrites a field by a value of its type. *)
Lemma typed_overwrite d fields i tg t x vs :
  fields !! i = Some (tg, t) -> typed t x -> typed (TStruct d fields) (VStruct vs) ->
  typed (TStruct d fields) (VStruct (<[i := x]> vs)).
Proof. intros Hi Hx Hv. by destruct (field_ok d fields i tg t vs Hi Hv) as (y & _ & _ & H); apply H. Qed.

Lemma one_int64 : is_int64 1.
Proof. by split. Qed.

Lemma scheduler_defaults_typed : typed scheduler_ty scheduler_defaults.
Proof. pose proof one_int64. simpl. split_and!; [done|apply one_int64|done..]. Qed.

Lemma scheduler_wf : wf_ty scheduler_ty.
Proof.
  split.
  - intros vs f [= <-] _. exact scheduler_defaults_typed.
  - simpl. tauto.
Qed.

Lemma check_wf : wf_ty check_ty.
Proof.
  pose proof addr_wf. pose proof port_wf.
  repeat match goal with |- _ /\ _ => split | |- True => done end; try done.
Qed.

Lemma checker_wf : wf_ty checker_ty.
Proof.
  pose proof check_wf. pose proof scheduler_wf. split; [by intros vs f [= <-]|].
  repeat match goal with |- _ /\ _ => split | |- True => done end; done.
Qed.

Lemma real_wf : wf_ty real_ty.
Proof.
  pose proof addr_wf. pose proof port_wf. pose proof weight_wf. pose proof scheduler_wf. pose proof checker_wf.
  split.
  - intros vs f [= <-] Hv. unfold real_Default.
    apply (typed_overwrite _ _ 2 (named "weight") weight_ty); [done| |].
    + apply bool_decide_eq_true, one_int64.
    + by apply (typed_overwrite _ _ 1 (PosTag 1) port_ty).
  - repeat match goal with |- _ /\ _ => split | |- True => done end; done.
Qed.

Lemma service_wf : wf_ty service_ty.
Proof.
  pose proof addr_wf. pose proof port_wf. pose proof scheduler_wf. pose proof real_wf. split.
  - intros vs f [= <-] Hv. unfold service_Default.
    apply (typed_overwrite _ _ 16 NestedTag scheduler_ty); [done|exact scheduler_defaults_typed|].
    apply (typed_overwrite _ _ 5 (named "quorum") TInt); [done|exact one_int64|].
    apply (typed_overwrite _ _ 4 (named "lvs_method") TString); [done|done|].
    by apply (typed_overwrite _ _ 1 (PosTag 1) port_ty).
  - repeat match goal with |- _ /\ _ => split | |- True => done end; done.
Qed.

Lemma config_wf : wf_ty (TStruct None config_fields).
Proof. split; [done|]. split; [exact service_wf|done]. Qed.
End wellformed.

(** ** Typed values are configurations *)

Section readings.

Lemma as_ptr_Some {A} (f : val -> option A) t v :
  (forall v, typed t v -> is_Some (f v)) -> typed (TPtr t) v -> is_Some (as_ptr f v).
Proof.
  intros Hf. destruct v as [| | | | | |[v|]|]; simpl; try (by eauto).
  intros [a ->]%Hf. eauto.
Qed.

Lemma as_slice_Some {A} (f : val -> option A) t v :
  (forall v, typed t v -> is_Some (f v)) -> typed (TSlice (TPtr t)) v -> is_Some (as_slice f v).
Proof.
  intros Hf. destruct v as [| | | | |l| |]; try done. intros Hl%typed_slice. simpl. apply mapM_is_Some.
  eapply Forall_impl; [exact Hl|]. intros v [Hv Hp]. simpl in *.
  destruct v as [| | | | | |[v|]|]; try done. destruct (Hf v Hv) as [a Ha]. exists a. cbn. by rewrite Ha.
Qed.

Lemma as_addr_Some v : typed addr_ty v -> is_Some (as_addr v).
Proof. by destruct v; simpl; eauto. Qed.
Lemma as_port_Some v : typed port_ty v -> is_Some (as_int v).
Proof. by destruct v; simpl; eauto. Qed.
Lemma as_weight_Some v : typed weight_ty v -> is_Some (as_int v).
Proof. by destruct v; simpl; eauto. Qed.
Lemma as_int_Some v : typed TInt v -> is_Some (as_int v).
Proof. by destruct v; simpl; eauto. Qed.
Lemma as_uint_Some v : typed TUint v -> is_Some (as_int v).
Proof. by destruct v; simpl; eauto. Qed.
Lemma as_bool_Some v : typed TBool v -> is_Some (as_bool v).
Proof. by destruct v; simpl; eauto. Qed.
Lemma as_string_Some v : typed TString v -> is_Some (as_string v).
Proof. by destruct v; simpl; eauto. Qed.
Lemma as_float_Some v : typed TFloat64 v -> is_Some (as_float v).
Proof. by destruct v; simpl; eauto. Qed.
End readings.

Create HintDb readings.
#[export] Hint Resolve as_ptr_Some as_slice_Some as_addr_Some as_port_Some as_weight_Some as_int_Some as_uint_Some
  as_bool_Some as_string_Some as_float_Some : readings.

(** The fields of a typed struct, each with its reading. *)
Ltac read_fields f :=
  let Hv := fresh in
  intros Hv; destruct (typed_struct_inv _ _ _ Hv) as [? ->]; apply typed_struct in Hv;
  repeat match goal with H : Forall2 _ (_ :: _) _ |- _ => apply Forall2_cons_inv_l in H as (? & ? & ? & ? & ->) end;
  match goal with H : Forall2 _ [] _ |- _ => apply Forall2_nil_inv_l in H as -> end;
  cbn [snd fst] in *; unfold f;
  repeat match goal with
    | H : typed ?t ?x |- context [mbind _ (?g ?x)] =>
        let E := fresh in
        assert (is_Some (g x)) as [? E] by eauto with readings; rewrite E; clear E; cbn [mbind option_bind]
    end;
  eauto.

Section configs.
Lemma as_scheduler_Some v : typed scheduler_ty v -> is_Some (as_scheduler v).
Proof. read_fields as_scheduler. Qed.
Lemma as_url_Some v : typed url_ty v -> is_Some (as_url v).
Proof. read_fields as_url. Qed.
Lemma as_net_Some v : typed net_ty v -> is_Some (as_net v).
Proof. read_fields as_net. Qed.
Lemma as_weight_control_Some v : typed weight_control_ty v -> is_Some (as_weight_control v).
Proof. read_fields as_weight_control. Qed.
End configs.

#[export] Hint Resolve as_scheduler_Some as_url_Some as_net_Some as_weight_control_Some : readings.

Section blocks.
Lemma as_check_Some v : typed check_ty v -> is_Some (as_check v).
Proof. read_fields as_check. Qed.
#[local] Hint Resolve as_check_Some : readings.
Lemma as_checker_Some v : typed checker_ty v -> is_Some (as_checker v).
Proof. read_fields as_checker. Qed.
#[local] Hint Resolve as_checker_Some : readings.
Lemma as_real_Some v : typed real_ty v -> is_Some (as_real v).
Proof. read_fields as_real. Qed.
#[local] Hint Resolve as_real_Some : readings.
Lemma as_service_Some v : typed service_ty v -> is_Some (as_service v).
Proof. read_fields as_service. Qed.
#[local] Hint Resolve as_service_Some : readings.
Lemma as_config_Some v : typed config_ty v -> is_Some (as_config v).
Proof.
  intros Hv. destruct (typed_struct_inv _ _ _ Hv) as [vs ->]. apply typed_struct in Hv.
  apply Forall2_cons_inv_l in Hv as (l & ? & Hl & ->%Forall2_nil_inv_l & ->). cbn.
  destruct (as_slice_Some as_service service_ty l as_service_Some Hl) as [cs Hcs]. rewrite Hcs. simpl. eauto.
Qed.
End blocks.

(** ** Loading *)

Section loading.
Context `{FS : FileSystem} `{MR : MapRange}.

(** C22: loading a configuration ends with a configuration of the services or an
    error: when included files rank below the file that includes them, reading,
    parsing and decoding end, and what is decoded without error denotes a
    [core.Config]; the tags of the configuration never lead to an assignment of
    a wrong type. *)
Theorem LoadConfig_total (rank : string -> nat) (depth : nat) (path : string) :
  (forall p file, includes p file -> (rank file < rank p)%nat) -> (rank path < depth)%nat ->
  exists r, KeepalivedConfigLoader depth path = Some r /\ r <> Err (ErrDecode ErrIllTyped).
Proof.
  intros Hrank Hd. unfold KeepalivedConfigLoader, LoadConfig.
  pose proof (parse_ranked rank path Hrank depth Hd) as Hp.
  destruct (parseFile depth path) as [[root|e]|]; [|by eexists|done].
  pose proof (decode_keeps None config_fields root (zero (TStruct None config_fields)) config_wf (zero_typed _ config_wf)) as Hk.
  unfold config_ty.
  destruct (configDecode _ root _) as [v|e]; cbn [keeps] in Hk.
  - destruct (as_config_Some v Hk) as [c ->]. by eexists.
  - eexists. split; [done|]. by intros [= ->].
Qed.

(** The virtual servers of a list of items: each is decoded on its own, in the
    order of the file; the first error is the result. *)
Fixpoint decode_services (items : list confItem) : res decodeError (list val) :=
  match items with
  | [] => Ok []
  | item :: items =>
      if decide (Name item = "virtual_server") then
        let? s := configAssignConf service_ty item (zero service_ty) in
        let? l := decode_services items in
        Ok (VPtr (Some s) :: l)
      else decode_services items
  end.

Definition services_ref : fieldRef :=
  MkRef [0%nat] (configAssignConf (TSlice (TPtr service_ty))).

Lemma config_info : getStructInfo config_ty = MkInfo ∅ {["virtual_server" := services_ref]} ∅.
Proof.
  unfold getStructInfo, config_ty, config_fields. rewrite decoder_struct. cbn [snd fields_info].
  unfold merge_info, field_info, named. case_decide; [|done]. unfold no_info. cbn [byPos byName defaultInfo].
  rewrite !(left_id_L ∅ (∪)). unfold services_ref, configAssignConf.
  cbn [fmap list_fmap list_to_map foldr]. by rewrite insert_empty.
Qed.

Lemma assign_services items acc :
  assign_items (MkInfo ∅ {["virtual_server" := services_ref]} ∅) items ∅ (VStruct [VSlice acc]) =
  let? l := decode_services items in Ok (VStruct [VSlice (acc ++ l)]).
Proof.
  revert acc. induction items as [|item items IH]; intros acc; [cbn; by rewrite app_nil_r|].
  cbn [decode_services assign_items byName].
  destruct (decide (Name item = "virtual_server")) as [Hn|Hn].
  - rewrite Hn, lookup_singleton_eq, lookup_empty. unfold assign_ref. cbn [rpath rassign services_ref vget].
    cbn [lookup list_lookup mbind option_bind vget]. unfold configAssignConf at 1. cbn [decoder fst].
    change ((decoder service_ty).1 item (zero service_ty)) with (configAssignConf service_ty item (zero service_ty)).
    change (zero (TPtr service_ty)) with (VPtr None). cbn iota beta.
    destruct (configAssignConf service_ty item (zero service_ty)) as [s|e]; cbn [res_bind]; [|done].
    cbn [vset lookup list_lookup]. cbn [insert list_insert]. rewrite delete_empty, IH.
    destruct (decode_services items) as [l|e]; cbn [res_bind]; [|done]. by rewrite <- app_assoc.
  - rewrite lookup_singleton_ne by congruence. apply IH.
Qed.

(** C21: the services of a configuration are its [virtual_server] blocks: each is
    decoded on its own, without a trace of the blocks before it, in the order
    of the file and of its includes; other items on the top level are ignored,
    and an error in one block is the error of the whole configuration. *)
Theorem configDecode_services (items : list confItem) (path file : string) :
  configDecode config_ty (MkItem "" [] items path file) (zero config_ty) =
  let? l := decode_services items in Ok (VStruct [VSlice l]).
Proof.
  unfold configDecode, config_ty, configAssignConf. rewrite decoder_struct. cbn [fst].
  replace (fields_info 0 config_fields) with (getStructInfo config_ty) by
    (unfold getStructInfo, config_ty; by rewrite decoder_struct).
  rewrite config_info. unfold assign_struct. cbn [zero config_fields config_ty fst snd Values assign_positional res_bind].
  unfold assign_defaults. cbn [defaultInfo]. unfold for_range_err. rewrite range_empty. cbn [for_each_err res_bind].
  apply (assign_services items []).
Qed.
End loading.

(** ** The example configuration *)

Section example.
(** [etc/monalive/services-example.conf] *)
Definition example_conf : string :=
"virtual_server 2001:dead:beef::1 80 {
        protocol TCP

        lvs_method TUN
        lvs_sched wrr

        quorum 1
        hysteresis 0

        virtualhost fqdn.example.com

        ops

        annonunce_group g-1
        
        delay_loop 10

        version v1.0.1
        
        real_server 2001:dead:beef::2 80 {
                # RS: 2001:dead:beef::2
                weight 4
                inhibit_on_failure

                # Redefine virtualhost for this rs.
                virtualhost not-so-localhost.example.com

                # Redefine lvs_method for this rs.
                lvs_method GRE

                HTTP_GET {
                        url {
                                path /
                                status_code 200
 	                               
                        }
                        connect_ip 2001:dead:beef::1
                        connect_port 80
                        bindto 2001:dead:beef::10
                        connect_timeout 1
                        
                        nb_get_retry 1
                        delay_before_retry 1
                
                }
        }
        real_server 2001:dead:beef::3 80 {
                # RS: 2001:dead:beef::3
                weight 10
                inhibit_on_failure false
                
                HTTP_GET {
                        url {
                                path /
                                status_code 200
                                
                        }
                        connect_ip 2001:dead:beef::1
                        connect_port 80
                        bindto 2001:dead:beef::10
                        connect_timeout 1.1
                        
                        nb_get_retry 1
                        delay_before_retry 1
                }
        }
".

Definition conf_disk : FileSystem := disk [(main, text example_conf)].

Definition conf_rank (p : string) : nat := 0.

Lemma conf_no_includes : forall p file, @includes conf_disk p file -> (conf_rank file < conf_rank p)%nat.
Proof.
  intros p file (data & Hr & line & pattern & files & Hl & Hs & _). exfalso. revert Hr. cbn.
  case_bool_decide as Hp; [|done]. intros [= <-].
  assert (forallb (fun l => match splitLine l with Some [k; _] => negb (bool_decide (k = "include")) | _ => true end)
            (ScanLines (text example_conf)) = true) as Hall by (vm_compute; reflexivity).
  rewrite forallb_forall in Hall. specialize (Hall line ltac:(by apply list_elem_of_In)). by rewrite Hs in Hall.
Qed.

Lemma LoadConfig_total_witness :
  exists r, @KeepalivedConfigLoader conf_disk canonical_range 1 main = Some r /\ r <> Err (ErrDecode ErrIllTyped).
Proof. apply (@LoadConfig_total conf_disk canonical_range conf_rank 1 main conf_no_includes). vm_compute. lia. Defined.

(** The file with the brace that it lacks. *)
Definition closed_disk : FileSystem := disk [(main, text (example_conf +:+ "}"))].

Definition loaded : Core.Config :=
  match @KeepalivedConfigLoader closed_disk canonical_range 1 main with
  | Some (Ok c) => c
  | _ => Core.MkConfig []
  end.

(** The example configuration of the repository is refused, since it lacks
    the last closing brace.  With the brace it loads, and does not say what it
    seems to: the misspelt announce group is ignored like every unknown name, so
    the service never affects an announcement; a flag is set whatever its value,
    so [inhibit_on_failure false] inhibits; what a block leaves out keeps its
    default. *)
Theorem example_configuration :
  @KeepalivedConfigLoader conf_disk canonical_range 1 main = Some (Err (ErrParse ErrUnbalancedBrace)) /\
  @KeepalivedConfigLoader closed_disk canonical_range 1 main = Some (Ok loaded) /\
  (Service.VIP <$> Services loaded, Service.VPort <$> Services loaded) =
    ([AddrV6 (8193 * 2 ^ 112 + 57005 * 2 ^ 96 + 48879 * 2 ^ 80 + 1) ""], [80]) /\
  (SAnnounceGroup <$> Services loaded, OnePacketScheduler <$> Services loaded, Quorum <$> Services loaded) =
    ([""], [true], [1]) /\
  ((fun s => (fun r => (RWeight r, InhibitOnFailure r, RVirtualhost r, ForwardingMethod r)) <$> Reals s) <$> Services loaded) =
    [[(4, true, Some "not-so-localhost.example.com", "GRE"); (10, true, None, "")]] /\
  ((fun s => (fun r => (length (HTTPCheckers r), (fun c => (Check.Path (CURL (CheckConfig c)), StatusCode (CURL (CheckConfig c)),
     ConnectPort (CNet (CheckConfig c)), Scheduler.Retries (CScheduler c))) <$> HTTPCheckers r)) <$> Reals s) <$> Services loaded) =
    [[(1%nat, [("/", 200, 80, Some 1)]); (1%nat, [("/", 200, 80, Some 1)])]].
Proof. vm_compute. repeat split. Qed.

(** A file whose only block has a port that is none. *)
Example bad_port : 
  @KeepalivedConfigLoader (disk [(main, text ("virtual_server 10.0.0.1 http {" +:+ nl +:+ "}"))]) canonical_range 1 main =
  Some (Err (ErrDecode (ErrText "http"))).
Proof. vm_compute. reflexivity. Qed.

Definition safe_item : confItem := MkItem "" [] [MkItem "virtual_server" ["10.0.0.1"; "80"; "x"] [] "" ""] "" "".

Lemma configDecode_safe_witness :
  @configDecode canonical_range (TStruct None config_fields) safe_item (zero (TStruct None config_fields)) =
    Err (ErrUnexpectedPosition "x" 2) /\
  ErrUnexpectedPosition "x" 2 <> ErrIllTyped.
Proof.
  split; [vm_compute; reflexivity|].
  exact (@configDecode_safe canonical_range None config_fields safe_item (zero (TStruct None config_fields))
           config_wf (zero_typed _ config_wf)).
Defined.
End example.

(** ** Fields of a real server *)

Section real_fields.

Lemma real_weight_owns : owns (@getStructInfo canonical_range real_ty) [2%nat] {["weight"]}
    (@configAssignConf canonical_range weight_ty).
Proof.
  split; [vm_compute; reflexivity|]. intros n r. unfold getStructInfo, real_ty, scheduler_ty.
  rewrite decoder_struct. cbn [snd fields_info]. rewrite decoder_struct. cbn [snd fields_info merge_info byName].
  intros H. repeat (apply lookup_union_Some_raw in H as [H|[_ H]]);
    cbn [field_info byName no_info named] in H; try (by rewrite lookup_empty in H);
    try (apply elem_of_list_to_map_2 in H; cbn [fmap list_fmap] in H; apply list_elem_of_singleton in H as [= -> ->];
         first [rewrite decide_True by set_solver; reflexivity
               |rewrite decide_False by set_solver; cbn [rpath]; split; intros [k Hk]; discriminate]).
  rewrite lookup_fmap in H. apply fmap_Some in H as (r' & H & ->).
  cbn [byName merge_info no_info] in H.
  repeat (apply lookup_union_Some_raw in H as [H|[_ H]]); cbn [field_info byName no_info named] in H;
    try (by rewrite lookup_empty in H);
    (apply elem_of_list_to_map_2 in H; cbn [fmap list_fmap] in H;
     repeat (apply elem_of_cons in H as [[= -> ->]|H]; [rewrite decide_False by set_solver; cbn [rpath under_field]; split; intros [k Hk]; discriminate|]);
     by apply not_elem_of_nil in H).
Qed.

Definition weights_item : confItem :=
  MkItem "real_server" ["10.0.0.9"; "80"]
    [MkItem "weight" ["4"] [] "" ""; MkItem "lvs_method" ["GRE"] [] "" ""; MkItem "weight" ["7"] [] "" ""] "" "".

Definition real_fields : list (tag * ty) := match real_ty with TStruct _ fields => fields | _ => [] end.
Definition real_zero : list val := match zero real_ty with VStruct fs => fs | _ => [] end.
Definition real_positioned : val :=
  match @assign_positional (@getStructInfo canonical_range real_ty) 0 (Values weights_item) (VStruct (real_Default real_zero)) with
  | Ok v => v
  | Err _ => zero real_ty
  end.
Definition real_decoded : val :=
  match @configDecode canonical_range real_ty weights_item (VStruct real_zero) with Ok v => v | Err _ => zero real_ty end.

Lemma decoded_field_witness : vget [2%nat] real_decoded = Some (VInt 7) /\
  exists x', assign_all (@configAssignConf canonical_range weight_ty)
      (filter (fun i => Name i ∈ ({["weight"]} : gset string)) (SubItems weights_item)) (VInt 1) = Ok x' /\
    vget [2%nat] real_decoded = Some x'.
Proof.
  split; [vm_compute; reflexivity|].
  apply (@decoded_field canonical_range (Some real_Default) real_fields weights_item real_zero real_positioned real_decoded
           (VInt 1) [2%nat] {["weight"]} (@configAssignConf canonical_range weight_ty)).
  - exact real_weight_owns.
  - intros n ->%elem_of_singleton. apply (bool_decide_unpack _). vm_compute. exact I.
  - vm_compute. reflexivity.
  - vm_compute. reflexivity.
  - vm_compute. reflexivity.
Defined.
End real_fields.
