(* ===== verification/Checktun.v ===== *)
(** * The check tunnel

    [pkg/checktun]: checks are sent with an option that names the real server and
    the tunnel; the netfilter queue hands the packets to a handler that removes
    the option and sends the packet through the tunnel.  The options are made by
    [exp_header.go] and put on the sockets by [internal/utils/xnet]. *)

From Stdlib Require Import SpecFloat.
From stdpp Require Import strings numbers gmap sets list.
From S2P Require Import Prelude.
From S2P Require Import Types.
From S2P Require Import Bytes.
From S2P Require Import Check.
From S2P Require Import Text.
From S2P Require Import Decoder.

Open Scope Z_scope.

(** ** exp_header.go *)

Definition IPOptionForExperiment : Z := 30.
Definition IPVSConnFTunnel : Z := 2.
Definition IPVSConnFGRETunnel : Z := 5.

Definition Zlength {A} (l : list A) : Z := Z.of_nat (length l).

Definition ConstructExperimentalHeaderWithIP (ipForEncode : list Z) (lvsMethod : Z) : list Z :=
  let r := replicate (2 + length ipForEncode + 1) 0 in
  let r := <[0%nat := IPOptionForExperiment]> r in
  let r := <[1%nat := Zlength r mod 256]> r in
  let r := overwrite 2 ipForEncode r in
  <[(length r - 1)%nat := lvsMethod]> r.

(** The buffer is written from its start; its capacity is known beforehand. *)
Definition ConstructDstHeaderWithIP (ipForEncode : list Z) (lvsMethod : Z) : list Z :=
  let payloadLen := (2 + 2 + Zlength ipForEncode + 1) mod 256 in
  let pad := (8 - payloadLen mod 8) mod 256 mod 8 in
  let cap := (payloadLen + pad) mod 256 in
  let w := [0; (cap / 8 - 1) mod 256; IPOptionForExperiment; (Zlength ipForEncode + 1) mod 256] ++ ipForEncode ++ [lvsMethod] in
  if pad =? 0 then w
  else if pad =? 1 then w ++ [0]
  else w ++ <[1%nat := pad - 2]> (<[0%nat := 1]> (replicate (Z.to_nat pad) 0)).

(** ** check_tun.go: packets *)

Definition v4OptionLenForV4 : Z := 7.
Definition v4OptionLenForV6 : Z := 19.
Definition v6OptionLenForV4 : Z := 5.
Definition v6OptionLenForV6 : Z := 17.

Definition ipv4_HeaderLen : nat := 20.
Definition ipv6_HeaderLen : nat := 40.
Definition ipv4_Version : Z := 4.
Definition ipv6_Version : Z := 6.

(** [syscall]'s numbers of protocols and address families on Linux. *)
Definition IPPROTO_HOPOPTS : Z := 0.
Definition IPPROTO_IPIP : Z := 4.
Definition IPPROTO_IPV6 : Z := 41.
Definition IPPROTO_ROUTING : Z := 43.
Definition IPPROTO_FRAGMENT : Z := 44.
Definition IPPROTO_GRE : Z := 47.
Definition IPPROTO_DSTOPTS : Z := 60.
Definition AF_INET : Z := 2.
Definition AF_INET6 : Z := 10.

Record tunMessage := MkTunMessage {
  ip : Addr;
  payload : list Z;
  protocolVersion : Z;
  lvsMethod : Z;
}.

(** The handlers return a message or none, or they panic; [None] is a loop that
    has not ended. *)
Inductive panic := IndexOutOfRange.
Notation handled := (option (res panic (option tunMessage))).

(** [payload[i]] *)
Definition at_ (i : nat) (l : list Z) : Z := nth i l 0.

Definition getProtocolVersion (payload : list Z) : Z := Z.shiftr (at_ 0 payload) 4.

Definition getIpv4HeaderLen (payload : list Z) : nat := Z.to_nat (Z.shiftl (Z.land (at_ 0 payload) 15) 2).

(** [payload[lo:hi]] *)
Definition slice (lo hi : nat) (l : list Z) : list Z := take (hi - lo) (drop lo l).

Definition PutUint16 (off : nat) (v : Z) (l : list Z) : list Z := overwrite off (be_bytes 2 (v mod 2 ^ 16)) l.

(** The loop over the words; a last odd byte is left out. *)
Fixpoint sum_words (l : list Z) : Z :=
  match l with
  | a :: b :: l => Z.lor (Z.shiftl a 8) b + sum_words l
  | _ => 0
  end.

(** The loop over the carries. *)
Fixpoint fold_carries (fuel : nat) (sum : Z) : option Z :=
  match fuel with
  | O => None
  | S fuel => if 65535 <? sum then fold_carries fuel (Z.shiftr sum 16 + Z.land sum 65535) else Some sum
  end.

Definition checksum_fuel (sum : Z) : nat := S (Z.to_nat sum).

Definition calculateIpv4Checksum (payload : list Z) : option Z :=
  let sum := sum_words payload in
  sum ← fold_carries (checksum_fuel sum) sum; Some (Z.lnot sum mod 2 ^ 16).

(** The slice of the caller is replaced. *)
Definition removeIpv4Options (payload : list Z) : option (list Z) :=
  let headerLen := getIpv4HeaderLen payload in
  let payload := overwrite ipv4_HeaderLen (drop headerLen payload) payload in
  let delta := (headerLen - ipv4_HeaderLen)%nat in
  let totalLen := (length payload - delta)%nat in
  let payload := take totalLen payload in
  let payload := <[0%nat := Z.shiftl ipv4_Version 4 + 5]> payload in
  let payload := PutUint16 2 (Z.of_nat totalLen) payload in
  let payload := PutUint16 10 0 payload in
  checksum ← calculateIpv4Checksum (take ipv4_HeaderLen payload);
  Some (PutUint16 10 checksum payload).

(** The loop over the options, at [i]. *)
Fixpoint ipv4_options (fuel : nat) (payload options : list Z) (i : nat) : handled :=
  match fuel with
  | O => None
  | S fuel =>
      if (length options <? i + 2)%nat then Some (Ok None)
      else
        let optionLen := Z.to_nat (at_ (i + 1) options) in
        if (optionLen =? 0)%nat || (length options <? optionLen + i)%nat then Some (Ok None)
        else
          let optionType := at_ i options in
          if negb (optionType =? IPOptionForExperiment) then ipv4_options fuel payload options (i + optionLen)
          else if negb (Z.of_nat optionLen =? v4OptionLenForV4) && negb (Z.of_nat optionLen =? v4OptionLenForV6) then
            ipv4_options fuel payload options (i + optionLen)
          else
            match AddrFromSlice (slice (i + 2) (i + optionLen - 1) options) with
            | None => ipv4_options fuel payload options (i + optionLen)
            | Some ip =>
                let lvsMethod := at_ (i + optionLen - 1) options in
                payload ← removeIpv4Options payload;
                Some (Ok (Some (MkTunMessage ip payload ipv4_Version lvsMethod)))
            end
  end.

Definition ipv4Handler (payload : list Z) : handled :=
  let headerLen := getIpv4HeaderLen payload in
  if (length payload <? headerLen)%nat || (headerLen <? ipv4_HeaderLen)%nat then Some (Ok None)
  else
    let options := slice ipv4_HeaderLen headerLen payload in
    ipv4_options (S (length options)) payload options 0.

(** The slice of the packet: the array behind it, from its start to its
    capacity, and its length.  The options and the header type are parts of the
    same array. *)
Record buffer := MkBuffer { array : list Z; len : nat }.

(** [octetNum+1] wraps, since it is a byte; then it is converted and shifted. *)
Definition extension_len (octetNum : Z) : nat := Z.to_nat (Z.shiftl ((octetNum + 1) mod 256) 3).

(** The tail of the loop body that has found the option: header [h], extension
    at [i] of the options. *)
Definition ipv6_unwrap (buf : buffer) (payloadLen h i : nat) (octetNum : Z) (optionLen : nat) (ip : Addr) : handled :=
  let a := array buf in
  let option_at k := at_ (ipv6_HeaderLen + k) a in
  if (payloadLen <=? i + 4 + optionLen - 1)%nat then Some (Err IndexOutOfRange)
  else
    let lvsMethod := option_at (i + 4 + optionLen - 1)%nat in
    let a := <[h := option_at i]> a in
    let delta := extension_len octetNum in
    let a := PutUint16 4 (Z.of_nat payloadLen - Z.of_nat delta) a in
    if (len buf <? ipv6_HeaderLen + i + delta)%nat then Some (Err IndexOutOfRange)
    else
      let payload := take (len buf) a in
      let payload := overwrite (ipv6_HeaderLen + i) (drop (ipv6_HeaderLen + i + delta) payload) payload in
      Some (Ok (Some (MkTunMessage ip (take (len buf - delta) payload) ipv6_Version lvsMethod))).

(** The loop over the extension headers, at [i] of the options; [h] is where the
    type of the header at [i] is. *)
Fixpoint ipv6_options (fuel : nat) (buf : buffer) (payloadLen h i : nat) : handled :=
  match fuel with
  | O => None
  | S fuel =>
      let a := array buf in
      let option_at k := at_ (ipv6_HeaderLen + k) a in
      if (payloadLen <? i + 8)%nat then Some (Ok None)
      else
        let next h octetNum := ipv6_options fuel buf payloadLen h (i + extension_len octetNum) in
        let headerType := at_ h a in
        if headerType =? IPPROTO_DSTOPTS then
          let octetNum := option_at (i + 1)%nat in
          let optionType := option_at (i + 2)%nat in
          if negb (optionType =? IPOptionForExperiment) then next (ipv6_HeaderLen + i)%nat octetNum
          else
            let optionLen := Z.to_nat (option_at (i + 3)%nat) in
            if (payloadLen <? optionLen + i)%nat then next (ipv6_HeaderLen + i)%nat octetNum
            else if negb (Z.of_nat optionLen =? v6OptionLenForV4) && negb (Z.of_nat optionLen =? v6OptionLenForV6) then
              next h octetNum      (* [continue] skips the assignment of [headerType] *)
            else if (length a <? ipv6_HeaderLen + (i + 4 + optionLen - 1))%nat then Some (Err IndexOutOfRange)
            else
              match AddrFromSlice (slice (ipv6_HeaderLen + (i + 4)) (ipv6_HeaderLen + (i + 4 + optionLen - 1)) a) with
              | None => next h octetNum
              | Some ip => ipv6_unwrap buf payloadLen h i octetNum optionLen ip
              end
        else if headerType =? IPPROTO_FRAGMENT then next (ipv6_HeaderLen + i)%nat 1
        else if (headerType =? IPPROTO_HOPOPTS) || (headerType =? IPPROTO_ROUTING) then
          next (ipv6_HeaderLen + i)%nat (option_at (i + 1)%nat)
        else Some (Ok None)
  end.

Definition ipv6Handler (fuel : nat) (buf : buffer) : handled :=
  if (len buf <? ipv6_HeaderLen)%nat then Some (Ok None)
  else
    let payloadLen := Z.to_nat (be_value (slice 4 6 (array buf))) in
    if (length (array buf) <? ipv6_HeaderLen + payloadLen)%nat then Some (Err IndexOutOfRange)
    else ipv6_options fuel buf payloadLen 6 0.

(** ** check_tun.go: sockets *)

Section tunnel.
(** The kernel: netfilter queue and sockets; [Sendto] on a socket, and the
    serialization of a GRE header by [gopacket]. *)
Context {kernelError : Type}.

Record kernel := MkKernel {
  Open : option kernelError;
  SetOption : option kernelError;
  SetReadBuffer : option kernelError;
  Socket : Z -> Z -> res kernelError Z;
  Bind : Z -> Addr -> option kernelError;
  Sendto : Z -> list Z -> Addr -> option kernelError;
  SerializeGRE : Z -> list Z -> res kernelError (list Z);
}.

Record Config := MkConfig { IPv4Bind : string; IPv6Bind : string }.

Record CheckTun := MkCheckTun {
  ipv4Bind : Addr;
  ipv6Bind : Addr;
  packetInQueue : Z;
  sockets : gmap Z (gmap Z Z);
}.

Inductive tunError :=
| ErrOpen (e : kernelError)
| ErrSetOption (e : kernelError)
| ErrSetReadBuffer (e : kernelError)
| ErrSocket (e : kernelError)
| ErrBind (a : Addr) (e : kernelError)
| ErrInvalidIP
| ErrProtocolVersion (v : Z)
| ErrUnknownMethod
| ErrUndefinedSocket
| ErrSerialize (e : kernelError)
| ErrSendto (e : kernelError)
| ErrSetVerdict (e : kernelError)
| ErrRegister (e : kernelError).

Context (k : kernel).

Definition newSocket (c : CheckTun) (domain proto : Z) : res tunError Z :=
  match Socket k domain proto with
  | Err e => Err (ErrSocket e)
  | Ok fd =>
      let addr :=
        if (domain =? AF_INET) && Addr_Is4 (ipv4Bind c) then Some (ipv4Bind c)
        else if (domain =? AF_INET6) && Addr_Is6 (ipv6Bind c) then Some (ipv6Bind c)
        else None in
      match addr with
      | Some a => match Bind k fd a with Some e => Err (ErrBind a e) | None => Ok fd end
      | None => Ok fd
      end
  end.

Definition domains : list Z := [AF_INET; AF_INET6].
Definition protos : list Z := [IPPROTO_IPIP; IPPROTO_IPV6; IPPROTO_GRE].

(** The loop over domains and protocols; the sockets it has made. *)
Definition openSockets (c : CheckTun) : res tunError (gmap Z (gmap Z Z)) :=
  for_each_err (fun domain sockets =>
    for_each_err (fun proto sockets =>
      let? fd := newSocket c domain proto in
      Ok (<[domain := <[proto := fd]> (default ∅ (sockets !! domain))]> sockets)) protos sockets) domains ∅.

(** The sockets stay in a local variable: those of the result are the empty map
    it was made with. *)
Definition New (config : Config) : res tunError CheckTun :=
  let bind s := match ParseAddr s with Some a => a | None => AddrInvalid end in
  let checkTun := MkCheckTun (bind (IPv4Bind config)) (bind (IPv6Bind config)) 0 ∅ in
  match Open k with Some e => Err (ErrOpen e) | None =>
  match SetOption k with Some e => Err (ErrSetOption e) | None =>
  match SetReadBuffer k with Some e => Err (ErrSetReadBuffer e) | None =>
  let? sockets := openSockets checkTun in
  Ok checkTun
  end end end.

Definition getSocket (c : CheckTun) (message : tunMessage) : res tunError Z :=
  let? domain :=
    if Addr_Is4 (ip message) then Ok AF_INET else if Addr_Is6 (ip message) then Ok AF_INET6 else Err ErrInvalidIP in
  let? proto :=
    if lvsMethod message =? IPVSConnFTunnel then
      if protocolVersion message =? ipv4_Version then Ok IPPROTO_IPIP
      else if protocolVersion message =? ipv6_Version then Ok IPPROTO_IPV6
      else Err (ErrProtocolVersion (protocolVersion message))
    else if lvsMethod message =? IPVSConnFGRETunnel then Ok IPPROTO_GRE
    else Err ErrUnknownMethod in
  match sockets c !! domain ≫= (fun m => m !! proto) with
  | Some socket => Ok socket
  | None => Err ErrUndefinedSocket
  end.

(** A datagram handed to the kernel. *)
Record datagram := MkDatagram { dsocket : Z; dbytes : list Z; dto : Addr }.

Definition EthernetTypeIPv4 : Z := 2048.
Definition EthernetTypeIPv6 : Z := 34525.

(** The datagrams handed over, refused ones included, and the error. *)
Definition sendMessage (socket : Z) (message : tunMessage) : list datagram * option tunError :=
  let sendto bytes :=
    ([MkDatagram socket bytes (ip message)],
     match Sendto k socket bytes (ip message) with Some e => Some (ErrSendto e) | None => None end) in
  if negb (Addr_Is4 (ip message) || Addr_Is6 (ip message)) then ([], Some ErrInvalidIP)
  else if lvsMethod message =? IPVSConnFTunnel then sendto (payload message)
  else if lvsMethod message =? IPVSConnFGRETunnel then
    let ethernetType :=
      if protocolVersion message =? ipv4_Version then EthernetTypeIPv4
      else if protocolVersion message =? ipv6_Version then EthernetTypeIPv6 else 0 in
    match SerializeGRE k ethernetType (payload message) with
    | Err e => ([], Some (ErrSerialize e))
    | Ok bytes => sendto bytes
    end
  else ([], Some ErrUnknownMethod).

(** [None]: the loop over the extension headers has not ended; a panic is an
    error of its own. *)
Definition encapsulatePacket (fuel : nat) (c : CheckTun) (buf : buffer) :
    option (res panic (list datagram * option tunError)) :=
  let version := getProtocolVersion (array buf) in
  let message :=
    if version =? ipv4_Version then ipv4Handler (take (len buf) (array buf))
    else if version =? ipv6_Version then ipv6Handler fuel buf
    else Some (Ok None) in
  match message with
  | None => None
  | Some (Err p) => Some (Err p)
  | Some (Ok None) => Some (Ok ([], None))
  | Some (Ok (Some message)) =>
      Some (Ok match getSocket c message with
               | Err e => ([], Some e)
               | Ok socket => sendMessage socket message
               end)
  end.

(** ** check_tun.go: the queue *)

(** The results of [SetVerdictBatch]; an error may be temporary or a timeout. *)
Inductive verdict := VerdictSet | VerdictTemporary | VerdictFailed (e : kernelError).

(** The loop that retries, on the results of its calls; [None] if they are not
    enough. *)
Fixpoint setVerdict (verdicts : list verdict) : option (option tunError) :=
  match verdicts with
  | [] => None
  | VerdictSet :: _ => Some None
  | VerdictTemporary :: verdicts => setVerdict verdicts
  | VerdictFailed e :: _ => Some (Some (ErrSetVerdict e))
  end.

Definition set_packetInQueue (n : Z) (c : CheckTun) : CheckTun :=
  MkCheckTun (ipv4Bind c) (ipv6Bind c) n (sockets c).

(** The identifier of the batch that is given a verdict, if any. *)
Definition dropPacket (packetID : Z) (c : CheckTun) : CheckTun * option Z :=
  let n := packetInQueue c + 1 in
  if n <? 100 then (set_packetInQueue n c, None)
  else (set_packetInQueue 0 c, Some packetID).

Record Attribute := MkAttribute { PacketID : option Z; Mark : option Z; Payload : option buffer }.

Definition MaxUint32 : Z := 2 ^ 32 - 1.

(** The state, the batch to drop and what encapsulation does; errors are
    logged. *)
Definition nfqueueHandler (fuel : nat) (a : Attribute) (c : CheckTun) :
    CheckTun * option Z * option (res panic (list datagram * option tunError)) :=
  match PacketID a with
  | None => (c, None, Some (Ok ([], None)))
  | Some id =>
      let '(c, drop) := dropPacket id c in
      let nothing := (c, drop, Some (Ok ([], None))) in
      match Mark a, Payload a with
      | Some mark, Some buf =>
          if (mark =? MaxUint32) && negb (len buf <? 1)%nat then (c, drop, encapsulatePacket fuel c buf) else nothing
      | _, _ => nothing
      end
  end.

(** ** check_tun.go: running and stopping *)

(** An error of the queue: one of [netlink], or another one. *)
Inductive receiveError := OpError (timeout temporary : bool) | OtherError.

(** The error callback of [Run]: whether it logs, and its result, with which the
    queue goes on. *)
Definition receiveFailed (err : receiveError) : bool * Z :=
  match err with
  | OpError timeout temporary => if timeout || temporary then (false, 0) else (true, 0)
  | OtherError => (true, 0)
  end.

(** The queue calls its two callbacks until one of them does not return 0 (or its
    context is done); both always do.  [Run] itself only registers them. *)
Definition Run (register : option kernelError) : option tunError := ErrRegister <$> register.

(** An error of closing the queue is logged. *)
Definition Stop (close : option kernelError) : bool := match close with Some _ => true | None => false end.
End tunnel.

(** ** net_dialer.go *)

Section dialer.
Context {E : Type}.

Inductive sockopt :=
| HopLimitOption (v6 : bool) (limit : Z)
| HeaderOption (v6 : bool) (header : list Z)
| MarkOption (mark : Z)
| LingerOption.

Definition HopLimit : Z := 2.
Definition FWMark : Z := MaxUint32.

Record ForwardingData := MkForwardingData { RealIP : Addr; ForwardingMethod : string }.

Definition dialer_method (forwardingData : ForwardingData) : Z :=
  if decide (ForwardingMethod forwardingData = "GRE") then IPVSConnFGRETunnel else IPVSConnFTunnel.

(** The options of a connection to [address]. *)
Definition dialer_options (forwardingData : ForwardingData) (address : string) : list sockopt :=
  let forwardingMethod := dialer_method forwardingData in
  let realIP := AsSlice (RealIP forwardingData) in
  let v6 := negb (existsb (Z.eqb 46) (bytes_of address)) in
  let header := if v6 then ConstructDstHeaderWithIP realIP forwardingMethod
                else ConstructExperimentalHeaderWithIP realIP forwardingMethod in
  [HopLimitOption v6 HopLimit; HeaderOption v6 header; MarkOption FWMark].

(** The loop of calls: the first error ends them; that of the last option is
    dropped.  The options that are set, and the error. *)
Fixpoint setsockopts (set : sockopt -> option E) (opts : list sockopt) : list sockopt * option E :=
  match opts with
  | [] => (match set LingerOption with None => [LingerOption] | Some _ => [] end, None)
  | o :: opts =>
      match set o with
      | Some e => ([], Some e)
      | None => let '(done, err) := setsockopts set opts in (o :: done, err)
      end
  end.

(** [Control] of the dialer of [NewDialer]; [control] is the error of the raw
    connection. *)
Definition dialer_Control (forwardingData : ForwardingData) (address : string) (set : sockopt -> option E)
    (control : option E) : list sockopt * option E :=
  let '(done, opterr) := setsockopts set (dialer_options forwardingData address) in
  (done, match control with Some e => Some e | None => opterr end).
End dialer.

(** ** Concrete packets *)

Section packets.
Definition sample_v4_header (optlen total : Z) : list Z :=
  [64 + (20 + optlen) / 4; 0] ++ be_bytes 2 total ++ [0; 1; 0; 0; 2; 6; 9; 9; 10; 0; 0; 1; 10; 0; 0; 2].
Definition sample_v6_header (plen next : Z) : list Z :=
  [96; 0; 0; 0] ++ be_bytes 2 plen ++ [next; 2] ++ be_bytes 16 1 ++ be_bytes 16 2.

(** The option is padded to four bytes by the system. *)
Definition sample_v4 : list Z :=
  sample_v4_header 8 32 ++ ConstructExperimentalHeaderWithIP (AsSlice (AddrV4 168430090)) 2 ++ [0] ++ [1; 2; 3; 4].

Example ipv4_sample :
  ipv4Handler sample_v4 =
  Some (Ok (Some (MkTunMessage (AddrV4 168430090)
    [69; 0; 0; 24; 0; 1; 0; 0; 2; 6; 164; 221; 10; 0; 0; 1; 10; 0; 0; 2; 1; 2; 3; 4] 4 2))).
Proof. vm_compute. reflexivity. Qed.

(** The next header is filled in by the system. *)
Definition sample_v6 : list Z :=
  sample_v6_header 28 60 ++ <[0%nat := 6]> (ConstructDstHeaderWithIP (AsSlice (AddrV6 7 "")) 5) ++ [1; 2; 3; 4].

Example ipv6_sample :
  ipv6Handler 1 (MkBuffer sample_v6 68) =
  Some (Ok (Some (MkTunMessage (AddrV6 7 "") (sample_v6_header 4 6 ++ [1; 2; 3; 4]) 6 5))).
Proof. vm_compute. reflexivity. Qed.
End packets.

(** ** The checksum *)

Section checksum.

Lemma word_value a b : is_byte a -> is_byte b -> Z.lor (Z.shiftl a 8) b = a * 256 + b.
Proof.
  unfold is_byte. intros Ha Hb. rewrite Z.shiftl_mul_pow2 by lia. change (2 ^ 8) with 256.
  assert (Z.land (a * 256) b = 0) as Hl; [|pose proof (Z.add_lor_land (a * 256) b); lia].
  apply Z.bits_inj'. intros n Hn. rewrite Z.land_spec, Z.bits_0. change 256 with (2 ^ 8).
  destruct (Z.ltb_spec n 8).
  - by rewrite Z.mul_pow2_bits_low.
  - destruct (decide (b = 0)) as [->|]; [by rewrite Z.bits_0, andb_false_r|].
    rewrite (Z.bits_above_log2 b n), andb_false_r; [done|lia|].
    apply Z.log2_lt_pow2; [lia|]. apply Z.lt_le_trans with (2 ^ 8); [lia|]. apply Z.pow_le_mono_r; lia.
Qed.

Lemma sum_words_nonneg : forall l, are_bytes l -> 0 <= sum_words l.
Proof.
  fix IH 1. intros [|a [|b l]] Hl; [done|done|].
  apply Forall_cons in Hl as [Ha [Hb Hl]%Forall_cons]. specialize (IH l Hl). cbn [sum_words].
  rewrite word_value by done. unfold is_byte in *. lia.
Qed.

(** Folding the carries ends with a 16-bit number, the sum modulo 65535. *)
Lemma fold_carries_spec fuel : forall sum, 0 <= sum < Z.of_nat fuel ->
  exists r, fold_carries fuel sum = Some r /\ 0 <= r <= 65535 /\ (0 < sum -> 0 < r) /\ exists k, sum = r + 65535 * k.
Proof.
  induction fuel as [|fuel IH]; intros sum Hs; [lia|]. cbn [fold_carries].
  destruct (Z.ltb_spec 65535 sum) as [Hlt|Hle].
  - change 65535 with (Z.ones 16) at 1. rewrite Z.land_ones, Z.shiftr_div_pow2 by lia. change (2 ^ 16) with 65536.
    pose proof (Z.div_mod sum 65536 ltac:(lia)) as Hd. pose proof (Z.mod_pos_bound sum 65536 ltac:(lia)) as Hm.
    assert (1 <= sum / 65536) as Hq by (apply Z.div_le_lower_bound; lia).
    destruct (IH (sum / 65536 + sum mod 65536)) as (r & Hr & Hb & Hp & k & Hk); [lia|].
    exists r. split_and!; [done|lia|lia|intros _; apply Hp; lia|]. exists (k + sum / 65536). lia.
  - exists sum. split_and!; [done|lia|lia|done|]. exists 0. lia.
Qed.

(** RFC 1071: the words of a header with its checksum add up to all ones. *)
Definition verifies (header : list Z) : Prop :=
  fold_carries (checksum_fuel (sum_words header)) (sum_words header) = Some 65535.

Lemma checksum_fuel_enough sum : 0 <= sum -> 0 <= sum < Z.of_nat (checksum_fuel sum).
Proof. unfold checksum_fuel. lia. Qed.

(** The checksum of words that add up to [sum], put among them. *)
Lemma checksum_completes sum r : 0 < sum ->
  fold_carries (checksum_fuel sum) sum = Some r ->
  let c := Z.lnot r mod 2 ^ 16 in
  0 <= c < 65536 /\ fold_carries (checksum_fuel (sum + c)) (sum + c) = Some 65535.
Proof.
  intros Hs Hr c. destruct (fold_carries_spec _ sum (checksum_fuel_enough sum ltac:(lia))) as (r0 & Hr0 & Hb & Hp & k & Hk).
  rewrite Hr in Hr0. injection Hr0 as <-.
  assert (c = 65535 - r) as Hc.
  { unfold c, Z.lnot. change (2 ^ 16) with 65536. replace (Z.pred (- r)) with (65535 - r + (-1) * 65536) by lia.
    rewrite Z.mod_add, Z.mod_small by lia. lia. }
  split; [lia|]. destruct (fold_carries_spec _ (sum + c) (checksum_fuel_enough (sum + c) ltac:(lia))) as (r' & -> & Hb' & Hp' & k' & Hk').
  f_equal. specialize (Hp' ltac:(lia)). lia.
Qed.

(** The word at a place of the header is the number written there. *)
Lemma PutUint16_word v : 0 <= v < 65536 -> Z.lor (Z.shiftl (v / 256 mod 256) 8) (v mod 256) = v.
Proof.
  intros Hv. pose proof (Z.div_mod v 256 ltac:(lia)). pose proof (Z.mod_pos_bound v 256 ltac:(lia)).
  assert (0 <= v / 256 < 256) by (split; [apply Z.div_pos; lia|apply Z.div_lt_upper_bound; lia]).
  rewrite (Z.mod_small (v / 256)) by lia. rewrite word_value by (unfold is_byte; lia). lia.
Qed.
End checksum.

(** ** Unwrapping an IPv4 packet *)

(** A list of known length as its elements. *)
Ltac elements l H := repeat (destruct l as [|? l]; [discriminate H|]); destruct l; [|discriminate H]; clear H.

Section ipv4.


(** The header of a packet without options, the total length in place. *)
Definition stripped (hdr : list Z) (total c : Z) : list Z :=
  match hdr with
  | _ :: b1 :: _ :: _ :: b4 :: b5 :: b6 :: b7 :: b8 :: b9 :: _ :: _ :: addrs =>
      [69; b1; (total mod 2 ^ 16) / 256 mod 256; (total mod 2 ^ 16) mod 256; b4; b5; b6; b7; b8; b9; c / 256 mod 256; c mod 256] ++ addrs
  | _ => []
  end.

Lemma overwrite_tail n (hdr opts body : list Z) :
  length hdr = n -> take (length hdr + length body) (overwrite n body (hdr ++ opts ++ body)) = hdr ++ body.
Proof.
  intros <-. unfold overwrite. rewrite take_app_length. rewrite !length_app.
  replace (Nat.min _ _) with (length body) by lia. rewrite firstn_all, app_assoc, take_app_le by (rewrite length_app; lia).
  apply take_ge. rewrite length_app. lia.
Qed.

Lemma removeIpv4Options_spec hdr opts body :
  length hdr = ipv4_HeaderLen -> are_bytes hdr -> getIpv4HeaderLen (hdr ++ opts ++ body) = (20 + length opts)%nat ->
  exists c, removeIpv4Options (hdr ++ opts ++ body) = Some (stripped hdr (20 + Zlength body) c ++ body) /\
    verifies (stripped hdr (20 + Zlength body) c).
Proof.
  intros Hlen Hb Hh. unfold removeIpv4Options. rewrite Hh.
  replace (drop (20 + length opts) (hdr ++ opts ++ body)) with body.
  2: { rewrite app_assoc, <- (drop_app_length (hdr ++ opts) body) at 1. f_equal. rewrite length_app. unfold ipv4_HeaderLen in Hlen. lia. }
  assert (length (overwrite ipv4_HeaderLen body (hdr ++ opts ++ body)) = length (hdr ++ opts ++ body)) as Hol.
  { unfold overwrite. rewrite !length_app, length_take, length_take, length_drop, !length_app. lia. }
  rewrite Hol. replace (length (hdr ++ opts ++ body) - (20 + length opts - ipv4_HeaderLen))%nat with (length hdr + length body)%nat
    by (rewrite !length_app; unfold ipv4_HeaderLen in *; lia).
  rewrite (overwrite_tail _ _ _ _ Hlen). clear Hol Hh.
  replace (Z.of_nat (length hdr + length body)) with (20 + Zlength body) by (unfold Zlength, ipv4_HeaderLen in *; lia).
  elements hdr Hlen. repeat (apply Forall_cons in Hb as [? Hb]).
  set (total := 20 + Zlength body). clearbody total.
  unfold PutUint16, overwrite. change (Z.shiftl ipv4_Version 4 + 5) with 69.
  cbn -[Z.div Z.modulo Z.lnot Z.shiftl Z.lor Z.add fold_carries checksum_fuel Z.pow].
  change (take 0 body) with (@nil Z). change ((0 mod 2 ^ 16) / 256 mod 256) with 0. change ((0 mod 2 ^ 16) mod 256) with 0.
  set (t1 := (total mod 2 ^ 16) / 256 mod 256). set (t2 := (total mod 2 ^ 16) mod 256).
  assert (is_byte t1 /\ is_byte t2) as [? ?] by (split; apply Z.mod_pos_bound; lia). clearbody t1 t2.
  set (hd c1 c2 := [69; z0; t1; t2; z3; z4; z5; z6; z7; z8; c1; c2; z11; z12; z13; z14; z15; z16; z17; z18]).
  assert (0 < sum_words (hd 0 0)) as Hpos.
  { assert (0 <= sum_words (drop 2 (hd 0 0))) as Ht
      by (apply sum_words_nonneg; unfold hd; cbn [drop];
          repeat apply Forall_cons_2; first [assumption|apply Forall_nil_2|unfold is_byte; lia]).
    unfold hd in *. cbn [drop sum_words] in *. rewrite (word_value 69 z0) by (first [assumption|unfold is_byte; lia]).
    unfold is_byte in *. lia. }
  destruct (fold_carries_spec _ _ (checksum_fuel_enough (sum_words (hd 0 0)) ltac:(lia))) as (r & Hr & _).
  destruct (checksum_completes (sum_words (hd 0 0)) r Hpos Hr) as [Hc Hv].
  unfold calculateIpv4Checksum. change (sum_words (_ :: z0 :: _)) with (sum_words (hd 0 0)). cbv zeta.
  rewrite Hr. cbn [mbind option_bind].
  exists (Z.lnot r mod 2 ^ 16). change (2 ^ 16) with 65536 in *. rewrite !(Z.mod_small (_ mod 65536)) by lia.
  split; [done|]. unfold verifies. set (c := Z.lnot r mod 65536) in *.
  replace (sum_words _) with (sum_words (hd 0 0) + c); [done|].
  unfold hd. cbn [sum_words]. rewrite PutUint16_word by lia. change (Z.lor (Z.shiftl 0 8) 0) with 0. lia.
Qed.

Lemma slice_middle (l1 l2 l3 : list Z) n m :
  n = length l1 -> m = (length l1 + length l2)%nat -> slice n m (l1 ++ l2 ++ l3) = l2.
Proof.
  intros -> ->. unfold slice. rewrite drop_app_length. replace (_ + _ - _)%nat with (length l2) by lia. apply take_app_length.
Qed.

Lemma at_middle (l1 l2 : list Z) x n : n = length l1 -> at_ n (l1 ++ x :: l2) = x.
Proof. intros ->. unfold at_. by rewrite app_nth2, Nat.sub_diag by lia. Qed.

Lemma experimental_header (l : list Z) m : (length l = 4 \/ length l = 16)%nat ->
  ConstructExperimentalHeaderWithIP l m = [IPOptionForExperiment; Zlength l + 3] ++ l ++ [m].
Proof. intros [H|H]; elements l H; reflexivity. Qed.

Lemma AsSlice_length_cases a : a <> AddrInvalid -> (length (AsSlice a) = 4 \/ length (AsSlice a) = 16)%nat.
Proof. rewrite AsSlice_length. destruct a; [done|auto..]. Qed.

(** A header without its options: what is written in it and what is kept. *)
Lemma stripped_spec hdr total c : length hdr = ipv4_HeaderLen ->
  let h := stripped hdr total c in
  length h = ipv4_HeaderLen /\ getIpv4HeaderLen h = ipv4_HeaderLen /\ getProtocolVersion h = ipv4_Version /\
  slice 2 4 h = be_bytes 2 (total mod 2 ^ 16) /\
  forall i, i ∉ [0; 2; 3; 10; 11]%nat -> at_ i h = at_ i hdr.
Proof.
  intros Hl. elements hdr Hl. split_and!; [done|done|done|done|].
  intros i Hi. do 20 (destruct i as [|i]; [first [done|set_solver]|]). by destruct i.
Qed.

(** C27: the IPv4 option put on a check's socket is what the tunnel takes off: for
    a packet whose options start with the one constructed for a real server, the
    handler finds that address and that method, and the packet it sends on is
    the original one without options - header length five words, total length
    in place, a checksum that verifies, every other byte of the header and the
    whole body kept. *)
Theorem ipv4_unwrap (a : Addr) (method : Z) (hdr pad body : list Z) :
  Addr_ok a -> a <> AddrInvalid -> length hdr = ipv4_HeaderLen -> are_bytes hdr ->
  let opts := ConstructExperimentalHeaderWithIP (AsSlice a) method ++ pad in
  getIpv4HeaderLen hdr = (20 + length opts)%nat ->
  exists hdr', ipv4Handler (hdr ++ opts ++ body) =
      Some (Ok (Some (MkTunMessage (Addr_withoutZone a) (hdr' ++ body) ipv4_Version method))) /\
    length hdr' = ipv4_HeaderLen /\ getIpv4HeaderLen hdr' = ipv4_HeaderLen /\ getProtocolVersion hdr' = ipv4_Version /\
    slice 2 4 hdr' = be_bytes 2 ((20 + Zlength body) mod 2 ^ 16) /\
    (forall i, i ∉ [0; 2; 3; 10; 11]%nat -> at_ i hdr' = at_ i hdr) /\
    verifies hdr'.
Proof.
  intros Ha Hn Hlen Hb opts Hh.
  assert (getIpv4HeaderLen (hdr ++ opts ++ body) = (20 + length opts)%nat) as Hh'.
  { rewrite <- Hh. unfold getIpv4HeaderLen, at_. rewrite app_nth1 by (rewrite Hlen; unfold ipv4_HeaderLen; lia). done. }
  destruct (removeIpv4Options_spec hdr opts body Hlen Hb Hh') as (c & Hr & Hv).
  destruct (stripped_spec hdr (20 + Zlength body) c Hlen) as (S1 & S2 & S3 & S4 & S5).
  exists (stripped hdr (20 + Zlength body) c). split_and!; [|done..].
  unfold ipv4Handler. rewrite Hh'.
  rewrite !length_app, Hlen. replace (_ <? _)%nat with false by (symmetry; apply Nat.ltb_ge; unfold ipv4_HeaderLen; lia).
  replace (_ <? _)%nat with false by (symmetry; apply Nat.ltb_ge; unfold ipv4_HeaderLen; lia). cbn [orb].
  rewrite (slice_middle hdr opts body) by (rewrite ?Hlen; done).
  pose proof (AsSlice_length_cases a Hn) as Hc. unfold opts in *. rewrite experimental_header in * by done.
  set (l := AsSlice a) in *. cbn [ipv4_options]. rewrite <- !app_assoc in *.
  assert (at_ (0 + 1) ([IPOptionForExperiment; Zlength l + 3] ++ l ++ [method] ++ pad) = Zlength l + 3) as -> by done.
  replace (Z.to_nat (Zlength l + 3)) with (length l + 3)%nat by (unfold Zlength; lia).
  rewrite !length_app. cbn [length].
  replace (_ <? _)%nat with false by (symmetry; apply Nat.ltb_ge; lia).
  replace (_ =? _)%nat with false by (symmetry; apply Nat.eqb_neq; lia).
  replace (_ <? _)%nat with false by (symmetry; apply Nat.ltb_ge; lia). cbn [orb].
  change (at_ 0 (_ ++ _)) with IPOptionForExperiment. rewrite Z.eqb_refl. cbn [negb].
  replace (negb _ && negb _) with false by (destruct Hc as [-> | ->]; reflexivity).
  rewrite (slice_middle [IPOptionForExperiment; Zlength l + 3] l ([method] ++ pad)) by (cbn [length]; lia).
  unfold l at 1. rewrite AddrFromSlice_AsSlice by done.
  rewrite Hr. cbn [mbind option_bind]. do 4 f_equal.
  rewrite (app_assoc _ l). apply at_middle. rewrite length_app. cbn [length]. lia.
Qed.
End ipv4.

(** ** The loop over IPv4 options ends *)

Section ipv4_total.

Lemma removeIpv4Options_total payload :
  are_bytes payload -> (getIpv4HeaderLen payload <= length payload)%nat -> (ipv4_HeaderLen <= getIpv4HeaderLen payload)%nat ->
  is_Some (removeIpv4Options payload).
Proof.
  intros Hb Hl Hh. set (hl := getIpv4HeaderLen payload) in *. unfold ipv4_HeaderLen in Hh.
  assert (payload = take 20 payload ++ slice 20 hl payload ++ drop hl payload) as E.
  { unfold slice. rewrite <- (take_drop 20 payload) at 1. f_equal.
    rewrite <- (take_drop (hl - 20) (drop 20 payload)) at 1. f_equal. rewrite drop_drop. f_equal. lia. }
  destruct (removeIpv4Options_spec (take 20 payload) (slice 20 hl payload) (drop hl payload)) as (c & Hr & _).
  - rewrite length_take. unfold ipv4_HeaderLen. lia.
  - by apply Forall_take.
  - rewrite <- E. fold hl. unfold slice. rewrite length_take, length_drop. lia.
  - rewrite <- E in Hr. eauto.
Qed.

Lemma ipv4_options_total payload options fuel : is_Some (removeIpv4Options payload) ->
  forall i, (length options - i < fuel)%nat -> ipv4_options fuel payload options i <> None.
Proof.
  intros [p Hp]. induction fuel as [|fuel IH]; intros i Hf; [lia|]. cbn [ipv4_options].
  destruct (Nat.ltb_spec (length options) (i + 2)); [done|].
  destruct (Nat.eqb_spec (Z.to_nat (at_ (i + 1) options)) 0); [done|]. cbn [orb].
  destruct (Nat.ltb_spec (length options) (Z.to_nat (at_ (i + 1) options) + i)); [done|].
  assert (ipv4_options fuel payload options (i + Z.to_nat (at_ (i + 1) options)) <> None) by (apply IH; lia).
  destruct (negb _); [done|]. destruct (negb _ && negb _); [done|].
  destruct (AddrFromSlice _); [|done]. by rewrite Hp.
Qed.

(** The IPv4 handler ends on every packet: each option it skips has a length
    of at least one, so the number of option bytes bounds the rounds of the
    loop; the carries of the checksum are folded in finitely many steps. *)
Theorem ipv4Handler_terminates (payload : list Z) : are_bytes payload -> ipv4Handler payload <> None.
Proof.
  intros Hb. unfold ipv4Handler.
  destruct (Nat.ltb_spec (length payload) (getIpv4HeaderLen payload)); [done|]. cbn [orb].
  destruct (Nat.ltb_spec (getIpv4HeaderLen payload) ipv4_HeaderLen); [done|].
  apply ipv4_options_total; [by apply removeIpv4Options_total|lia].
Qed.
End ipv4_total.

(** ** Unwrapping an IPv6 packet *)

Section ipv6.

Lemma at_app_r (l r : list Z) n k : length l = n -> at_ (n + k) (l ++ r) = at_ k r.
Proof. intros <-. unfold at_. rewrite app_nth2 by lia. f_equal. lia. Qed.

Lemma slice_app_r (l r : list Z) n i j : length l = n -> slice (n + i) (n + j) (l ++ r) = slice i j r.
Proof. intros <-. unfold slice. rewrite drop_app_add. f_equal. lia. Qed.

Lemma slice_app_l (l r : list Z) i j : (j <= length l)%nat -> slice i j (l ++ r) = slice i j l.
Proof.
  intros Hj. unfold slice. destruct (decide (i <= j)%nat).
  - rewrite drop_app_le by lia. rewrite take_app_le; [done|]. rewrite length_drop. lia.
  - replace (j - i)%nat with 0%nat by lia. done.
Qed.

Lemma overwrite_app_l off src (l r : list Z) :
  (off + length src <= length l)%nat -> overwrite off src (l ++ r) = overwrite off src l ++ r.
Proof.
  intros Hl. unfold overwrite. rewrite length_app.
  replace (Nat.min (length l + length r - off) (length src)) with (length src) by lia.
  replace (Nat.min (length l - off) (length src)) with (length src) by lia.
  rewrite take_app_le, drop_app_le by lia. by rewrite <- !app_assoc.
Qed.

Lemma PutUint16_app_l off v (l r : list Z) :
  (off + 2 <= length l)%nat -> PutUint16 off v (l ++ r) = PutUint16 off v l ++ r.
Proof. intros H. unfold PutUint16. by rewrite overwrite_app_l by (rewrite be_bytes_length; lia). Qed.

(** The extension header for an address, with the type of the next header that
    the system fills in. *)
Lemma dst_header (l : list Z) m nh : (length l = 4 \/ length l = 16)%nat ->
  exists pad ext, <[0%nat := nh]> (ConstructDstHeaderWithIP l m) =
      [nh; ext; IPOptionForExperiment; Zlength l + 1] ++ l ++ [m] ++ pad /\
    (extension_len ext = 4 + length l + 1 + length pad)%nat.
Proof.
  intros [H|H].
  - exists [1; 5; 0; 0; 0; 0; 0], 1. elements l H. done.
  - exists [1; 1; 0], 2. elements l H. done.
Qed.

(** The header after the option is gone. *)
Definition unwrapped (hdr : list Z) (nh plen : Z) : list Z := PutUint16 4 plen (<[6%nat := nh]> hdr).

Lemma unwrapped_spec hdr nh plen : length hdr = ipv6_HeaderLen ->
  let h := unwrapped hdr nh plen in
  length h = ipv6_HeaderLen /\ at_ 6 h = nh /\ slice 4 6 h = be_bytes 2 (plen mod 2 ^ 16) /\
  forall i, i ∉ [4; 5; 6]%nat -> at_ i h = at_ i hdr.
Proof.
  intros Hl. elements hdr Hl. split_and!; [done|done|done|].
  intros i Hi. do 40 (destruct i as [|i]; [first [done|set_solver]|]). by destruct i.
Qed.

Lemma ipv6_unwrap_spec (hdr ext body spare : list Z) (a : Addr) (octetNum m : Z) (optionLen : nat) :
  length hdr = ipv6_HeaderLen -> extension_len octetNum = length ext ->
  (4 + optionLen <= length ext)%nat -> (1 <= optionLen)%nat -> at_ (4 + optionLen - 1) ext = m ->
  ipv6_unwrap (MkBuffer (hdr ++ ext ++ body ++ spare) (length (hdr ++ ext ++ body))) (length ext + length body) 6 0
    octetNum optionLen a =
  Some (Ok (Some (MkTunMessage a (unwrapped hdr (at_ 0 ext) (Zlength body) ++ body) ipv6_Version m))).
Proof.
  intros Hl He Ho H1 Hm. unfold ipv6_unwrap. cbn [array len]. cbv zeta. rewrite He.
  replace (_ <=? _)%nat with false by (symmetry; apply Nat.leb_gt; lia).
  rewrite !(at_app_r hdr (ext ++ body ++ spare) ipv6_HeaderLen) by done.
  assert (forall k, (k < length ext)%nat -> at_ k (ext ++ body ++ spare) = at_ k ext) as Hat
    by (intros k Hk; unfold at_; by apply app_nth1).
  rewrite !Hat by lia. cbn [Nat.add]. cbn [Nat.add] in Hm. rewrite Hm.
  replace (_ <? _)%nat with false by (symmetry; apply Nat.ltb_ge; rewrite !length_app, Hl; unfold ipv6_HeaderLen; lia).
  rewrite insert_app_l by (rewrite Hl; unfold ipv6_HeaderLen; lia).
  rewrite !PutUint16_app_l by (rewrite length_insert, Hl; unfold ipv6_HeaderLen; lia).
  replace (Z.of_nat (length ext + length body) - Z.of_nat (length ext)) with (Zlength body) by (unfold Zlength; lia).
  fold (unwrapped hdr (at_ 0 ext) (Zlength body)).
  destruct (unwrapped_spec hdr (at_ 0 ext) (Zlength body) Hl) as (Hul & _).
  set (u := unwrapped _ _ _) in *. clearbody u.
  replace (length (hdr ++ ext ++ body)) with (length (u ++ ext ++ body)) by (rewrite !length_app; lia).
  replace (u ++ ext ++ body ++ spare) with ((u ++ ext ++ body) ++ spare) by (by rewrite <- !app_assoc).
  rewrite take_app_length. replace (drop _ (u ++ ext ++ body)) with body.
  2: { rewrite app_assoc, <- (drop_app_length (u ++ ext) body) at 1. f_equal. rewrite length_app. lia. }
  replace (length (u ++ ext ++ body) - length ext)%nat with (length u + length body)%nat by (rewrite !length_app; lia).
  rewrite Nat.add_0_r, (overwrite_tail ipv6_HeaderLen) by done. done.
Qed.

(** C28: the IPv6 destination option put on a check's socket is what the tunnel
    takes off: for a packet that starts with the extension constructed for a
    real server, the handler finds that address and that method in one round,
    and the packet it sends on is the original one without the extension - the
    type of the next header moved into the fixed header, the payload length
    that of the rest, every other byte kept; what lies behind the packet in its
    buffer is not looked at. *)
Theorem ipv6_unwrap_roundtrip (a : Addr) (method nh : Z) (hdr body spare : list Z) (fuel : nat) :
  Addr_ok a -> a <> AddrInvalid -> length hdr = ipv6_HeaderLen ->
  let ext := <[0%nat := nh]> (ConstructDstHeaderWithIP (AsSlice a) method) in
  at_ 6 hdr = IPPROTO_DSTOPTS -> be_value (slice 4 6 hdr) = Zlength (ext ++ body) ->
  exists hdr', ipv6Handler (S fuel) (MkBuffer (hdr ++ ext ++ body ++ spare) (length (hdr ++ ext ++ body))) =
      Some (Ok (Some (MkTunMessage (Addr_withoutZone a) (hdr' ++ body) ipv6_Version method))) /\
    length hdr' = ipv6_HeaderLen /\ at_ 6 hdr' = nh /\ slice 4 6 hdr' = be_bytes 2 (Zlength body mod 2 ^ 16) /\
    forall i, i ∉ [4; 5; 6]%nat -> at_ i hdr' = at_ i hdr.
Proof.
  intros Ha Hn Hl ext H6 Hp.
  pose proof (AsSlice_length_cases a Hn) as Hc. destruct (dst_header (AsSlice a) method nh Hc) as (pad & e & Hx & He).
  fold ext in Hx. set (l := AsSlice a) in *.
  assert (extension_len e = length ext) as Hel by (rewrite Hx, !length_app; cbn [length]; lia).
  exists (unwrapped hdr nh (Zlength body)). destruct (unwrapped_spec hdr nh (Zlength body) Hl) as (U1 & U2 & U3 & U4).
  split_and!; [|done..].
  assert (forall i r, (i <= 6)%nat -> slice 4 i (hdr ++ r) = slice 4 i hdr) as Hsl
    by (intros i r Hi; apply slice_app_l; rewrite Hl; unfold ipv6_HeaderLen; lia).
  unfold ipv6Handler. cbn [array len]. rewrite Hsl, Hp by lia.
  replace (Z.to_nat (Zlength (ext ++ body))) with (length ext + length body)%nat by (unfold Zlength; rewrite length_app; lia).
  replace (_ <? _)%nat with false by (symmetry; apply Nat.ltb_ge; rewrite length_app, Hl; lia).
  replace (_ <? _)%nat with false by (symmetry; apply Nat.ltb_ge; rewrite !length_app, Hl; lia).
  cbn [ipv6_options]. cbv zeta. cbn [array].
  replace (_ <? _)%nat with false by (symmetry; apply Nat.ltb_ge; rewrite <- Hel, He; lia).
  replace (at_ 6 (hdr ++ ext ++ body ++ spare)) with IPPROTO_DSTOPTS
    by (rewrite <- H6; unfold at_; rewrite app_nth1; [done|rewrite Hl; unfold ipv6_HeaderLen; lia]).
  rewrite Z.eqb_refl, !(at_app_r hdr (ext ++ body ++ spare) ipv6_HeaderLen) by done.
  rewrite (slice_app_r hdr _ ipv6_HeaderLen) by done.
  assert (forall r, ext ++ r = [nh; e; IPOptionForExperiment; Zlength l + 1] ++ l ++ [method] ++ pad ++ r) as Hxr
    by (intros r; by rewrite Hx, <- !app_assoc).
  assert (at_ (0 + 1) (ext ++ body ++ spare) = e) as -> by (by rewrite Hxr).
  assert (at_ (0 + 2) (ext ++ body ++ spare) = IPOptionForExperiment) as -> by (by rewrite Hxr).
  assert (at_ (0 + 3) (ext ++ body ++ spare) = Zlength l + 1) as -> by (by rewrite Hxr).
  rewrite Z.eqb_refl. cbn [negb].
  replace (Z.to_nat (Zlength l + 1)) with (length l + 1)%nat by (unfold Zlength; lia).
  replace (_ <? _)%nat with false by (symmetry; apply Nat.ltb_ge; rewrite <- Hel, He; lia).
  replace (negb _ && negb _) with false by (destruct Hc as [-> | ->]; reflexivity).
  replace (_ <? _)%nat with false by (symmetry; apply Nat.ltb_ge; rewrite !length_app, Hl; rewrite <- Hel, He; unfold ipv6_HeaderLen; lia).
  rewrite Hxr, (slice_middle [nh; e; IPOptionForExperiment; Zlength l + 1] l) by (cbn [length]; lia). rewrite <- Hxr.
  unfold l at 1. rewrite AddrFromSlice_AsSlice by done.
  replace (unwrapped hdr nh (Zlength body)) with (unwrapped hdr (at_ 0 ext) (Zlength body)) by (by rewrite Hx).
  apply ipv6_unwrap_spec; [done|done|lia|lia|]. rewrite Hx.
  rewrite (app_assoc _ l). apply at_middle. rewrite length_app. cbn [length]. lia.
Qed.
End ipv6.

(** ** Packets the handler does not expect *)

Section hostile.
(** A destination header that says to be 256 octets long, followed by one. *)
Definition endless_packet : list Z := sample_v6_header 8 60 ++ [60; 255; 0; 0; 0; 0; 0; 0].

(** There is a packet on which the IPv6 handler never returns: the number of
    octets of an extension header is a byte, its successor wraps to zero, and
    the loop stays where it is. *)
Theorem ipv6Handler_diverges (fuel : nat) : ipv6Handler fuel (MkBuffer endless_packet 48) = None.
Proof.
  assert (forall fuel, ipv6_options fuel (MkBuffer endless_packet 48) 8 40 0 = None) as H
    by (clear fuel; intros fuel; induction fuel as [|fuel IH]; [done|exact IH]).
  destruct fuel as [|fuel]; [done|]. exact (H fuel).
Qed.

(** A fragment header, which has eight bytes, is skipped as if it had
    sixteen: an option behind it is not found, although the same option without
    the fragment header is. *)
Theorem fragment_header_misread :
  let option := <[0%nat := 6]> (ConstructDstHeaderWithIP (AsSlice (AddrV6 7 "")) 5) in
  let fragment := [60; 0; 0; 0; 0; 0; 0; 1] in
  let body := [1; 2; 3; 4; 5; 6; 7; 8] in
  ipv6Handler 10 (MkBuffer (sample_v6_header 40 44 ++ fragment ++ option ++ body) 80) = Some (Ok None) /\
  ipv6Handler 10 (MkBuffer (sample_v6_header 32 60 ++ option ++ body) 72) =
    Some (Ok (Some (MkTunMessage (AddrV6 7 "") (sample_v6_header 8 6 ++ body) 6 5))).
Proof. vm_compute. repeat split. Qed.

(** The payload length of an IPv6 packet is trusted: a packet that is shorter
    than it says makes the handler panic, and so does an option that ends
    behind the payload. *)
Theorem ipv6Handler_panics :
  ipv6Handler 10 (MkBuffer (sample_v6_header 8 60) 40) = Some (Err IndexOutOfRange) /\
  ipv6Handler 10 (MkBuffer (sample_v6_header 8 60 ++ [6; 0; 30; 5; 1; 2; 3; 4]) 48) = Some (Err IndexOutOfRange).
Proof. vm_compute. repeat split. Qed.
End hostile.

(** ** Sockets *)

Section sockets.
Context {kernelError : Type} (k : @kernel kernelError).

(** The tunnel that [New] returns never sends a packet: the sockets it has
    opened are lost with the local variable that held them, so every packet
    with an option ends with the error of an undefined socket. *)
Theorem New_never_sends (config : Config) (c : CheckTun) (fuel : nat) (buf : buffer) sent err :
  New k config = Ok c -> encapsulatePacket k fuel c buf = Some (Ok (sent, err)) -> sent = [].
Proof.
  intros Hc.
  assert (sockets c = ∅) as Hs.
  { unfold New in Hc. destruct (Open k); [done|]. destruct (SetOption k); [done|]. destruct (SetReadBuffer k); [done|].
    destruct (openSockets _ _); simpl in Hc; [|done]. by injection Hc as <-. }
  assert (forall m, exists e, getSocket (kernelError := kernelError) c m = Err e) as Hg.
  { intros m. unfold getSocket. rewrite Hs. destruct (if Addr_Is4 _ then _ else _) as [d|e]; simpl; [|eauto].
    rewrite lookup_empty. destruct (if lvsMethod m =? _ then _ else _); simpl; eauto. }
  unfold encapsulatePacket. destruct (if _ =? ipv4_Version then _ else _) as [[[m|]|p]|]; [|by intros [= <- _]|done|done].
  destruct (Hg m) as [e ->]. by intros [= <- _].
Qed.

Definition set_sockets (s : gmap Z (gmap Z Z)) (c : CheckTun) : CheckTun :=
  MkCheckTun (ipv4Bind c) (ipv6Bind c) (packetInQueue c) s.

(** The sockets that are opened are those that are needed: had they been
    kept, there would be one for every message the handlers produce with a known
    method. *)
Theorem openSockets_complete (c : CheckTun) (s : gmap Z (gmap Z Z)) (m : tunMessage) :
  openSockets k c = Ok s -> ip m <> AddrInvalid ->
  (lvsMethod m = IPVSConnFTunnel \/ lvsMethod m = IPVSConnFGRETunnel) ->
  (protocolVersion m = ipv4_Version \/ protocolVersion m = ipv6_Version) ->
  exists fd, getSocket (kernelError := kernelError) (set_sockets s c) m = Ok fd.
Proof.
  intros Ho Hi Hm Hv. unfold openSockets, domains, protos in Ho. cbn [for_each_err] in Ho.
  destruct (newSocket k c AF_INET IPPROTO_IPIP) as [f1|]; [|done]. cbn [res_bind] in Ho.
  destruct (newSocket k c AF_INET IPPROTO_IPV6) as [f2|]; [|done]. cbn [res_bind] in Ho.
  destruct (newSocket k c AF_INET IPPROTO_GRE) as [f3|]; [|done]. cbn [res_bind] in Ho.
  destruct (newSocket k c AF_INET6 IPPROTO_IPIP) as [f4|]; [|done]. cbn [res_bind] in Ho.
  destruct (newSocket k c AF_INET6 IPPROTO_IPV6) as [f5|]; [|done]. cbn [res_bind] in Ho.
  destruct (newSocket k c AF_INET6 IPPROTO_GRE) as [f6|]; [|done]. cbn [res_bind] in Ho.
  injection Ho as <-. unfold getSocket, set_sockets. cbn [sockets].
  destruct (ip m) as [| |]; [done| |]; cbn [Addr_Is4 Addr_Is6 res_bind];
    destruct Hm as [-> | ->]; destruct Hv as [-> | ->]; cbn [Z.eqb Pos.eqb IPVSConnFTunnel IPVSConnFGRETunnel ipv4_Version ipv6_Version res_bind];
    simplify_map_eq; eauto.
Qed.
End sockets.

(** ** The queue *)

Section queue.
Context {kernelError : Type}.

(** A run of packets: the batches that get a verdict. *)
Fixpoint drop_all (ids : list Z) (c : CheckTun) : CheckTun * list Z :=
  match ids with
  | [] => (c, [])
  | id :: ids =>
      let '(c, drop) := dropPacket id c in
      let '(c, drops) := drop_all ids c in
      (c, match drop with Some id => id :: drops | None => drops end)
  end.

(** Packets get their verdict in batches of one hundred: after a run of
    packets the counter is the number of packets modulo one hundred, and as many
    batches have been dropped as hundreds have come; up to ninety-nine packets
    wait in the queue. *)
Theorem drop_all_batches (ids : list Z) (c : CheckTun) :
  0 <= packetInQueue c < 100 ->
  let '(c', drops) := drop_all ids c in
  packetInQueue c' = (packetInQueue c + Zlength ids) mod 100 /\
  Zlength drops = (packetInQueue c + Zlength ids) / 100.
Proof.
  revert c. induction ids as [|id ids IH]; intros c Hc; cbn [drop_all].
  - unfold Zlength. cbn [length]. rewrite Z.add_0_r, Z.mod_small, Z.div_small by lia. done.
  - unfold dropPacket. destruct (Z.ltb_spec (packetInQueue c + 1) 100).
    + specialize (IH (set_packetInQueue (packetInQueue c + 1) c)). cbn [packetInQueue set_packetInQueue] in IH.
      destruct (drop_all ids _) as [c' drops]. destruct IH as [H1 H2]; [lia|].
      unfold Zlength in *. cbn [length]. rewrite Nat2Z.inj_succ, H1, H2. split; f_equal; lia.
    + specialize (IH (set_packetInQueue 0 c)). cbn [packetInQueue set_packetInQueue] in IH.
      destruct (drop_all ids _) as [c' drops]. destruct IH as [H1 H2]; [lia|].
      unfold Zlength in *. cbn [length]. rewrite !Nat2Z.inj_succ, H1, H2.
      replace (packetInQueue c + Z.succ (Z.of_nat (length ids))) with (0 + Z.of_nat (length ids) + 1 * 100) by lia.
      rewrite Z.mod_add, Z.div_add by lia. lia.
Qed.
End queue.

(** ** The dialer *)

Section dialing.
Context {E : Type}.

Lemma setsockopts_spec (set : sockopt -> option E) opts done err :
  setsockopts set opts = (done, err) ->
  match err with
  | None => opts `prefix_of` done /\ Forall (fun o => set o = None) opts
  | Some e => exists o rest, opts = done ++ o :: rest /\ set o = Some e /\ Forall (fun o => set o = None) done
  end.
Proof.
  revert done err. induction opts as [|o opts IH]; intros done err; cbn [setsockopts].
  - intros [= <- <-]. split; [apply prefix_nil|constructor].
  - destruct (set o) as [e|] eqn:Ho.
    + intros [= <- <-]. exists o, opts. split_and!; [done|done|constructor].
    + destruct (setsockopts set opts) as [d e] eqn:Hs. intros [= <- <-]. specialize (IH d e eq_refl). destruct e as [e|].
      * destruct IH as (o' & rest & -> & H1 & H2). exists o', rest. split_and!; [done|done|by constructor].
      * destruct IH as [H1 H2]. split; [by apply prefix_cons|by constructor].
Qed.

(** A connection is only dialed with all of its options: without an error the
    hop limit, the header that names the real server and the method, and the
    mark of the tunnel's queue have all been set, in this order; an error ends
    the calls at the option that was refused, with the ones before it set.  Only
    a refused linger option is forgiven. *)
Theorem dialer_sets_all (f : ForwardingData) (address : string) (set : sockopt -> option E) (control : option E) done err :
  dialer_Control f address set control = (done, err) ->
  match err with
  | None => dialer_options f address `prefix_of` done
  | Some e => control = Some e \/
      exists o rest, dialer_options f address = done ++ o :: rest /\ set o = Some e
  end.
Proof.
  unfold dialer_Control. destruct (setsockopts set _) as [d e] eqn:Hs. apply setsockopts_spec in Hs. intros [= <- <-].
  destruct control as [ce|]; [by left|]. destruct e as [e|].
  - destruct Hs as (o & rest & H1 & H2 & _). right. eauto.
  - apply Hs.
Qed.
End dialing.

(** ** Witnesses *)

Section witnesses.
Definition plain_kernel : @kernel unit :=
  MkKernel None None None (fun d p => Ok (d * 100 + p)) (fun _ _ => None) (fun _ _ _ => None) (fun _ b => Ok b).

Lemma ipv4_unwrap_witness :
  exists hdr', ipv4Handler sample_v4 =
      Some (Ok (Some (MkTunMessage (AddrV4 168430090) (hdr' ++ [1; 2; 3; 4]) ipv4_Version 2))) /\
    length hdr' = ipv4_HeaderLen /\ getIpv4HeaderLen hdr' = ipv4_HeaderLen /\ getProtocolVersion hdr' = ipv4_Version /\
    slice 2 4 hdr' = be_bytes 2 ((20 + Zlength [1; 2; 3; 4]) mod 2 ^ 16) /\
    (forall i, i ∉ [0; 2; 3; 10; 11]%nat -> at_ i hdr' = at_ i (sample_v4_header 8 32)) /\
    verifies hdr'.
Proof.
  apply (ipv4_unwrap (AddrV4 168430090) 2 (sample_v4_header 8 32) [0] [1; 2; 3; 4]).
  - simpl. lia.
  - done.
  - done.
  - apply (bool_decide_unpack _). vm_compute. exact I.
  - vm_compute. reflexivity.
Defined.

Lemma ipv6_unwrap_roundtrip_witness :
  exists hdr', ipv6Handler 1 (MkBuffer (sample_v6 ++ [9; 9]) 68) =
      Some (Ok (Some (MkTunMessage (AddrV6 7 "") (hdr' ++ [1; 2; 3; 4]) ipv6_Version 5))) /\
    length hdr' = ipv6_HeaderLen /\ at_ 6 hdr' = 6 /\ slice 4 6 hdr' = be_bytes 2 (Zlength [1; 2; 3; 4] mod 2 ^ 16) /\
    forall i, i ∉ [4; 5; 6]%nat -> at_ i hdr' = at_ i (sample_v6_header 28 60).
Proof.
  apply (ipv6_unwrap_roundtrip (AddrV6 7 "") 5 6 (sample_v6_header 28 60) [1; 2; 3; 4] [9; 9] 0).
  - simpl. lia.
  - done.
  - done.
  - done.
  - vm_compute. reflexivity.
Defined.

Lemma ipv4Handler_terminates_witness : ipv4Handler sample_v4 <> None.
Proof. apply (ipv4Handler_terminates sample_v4). apply (bool_decide_unpack _). vm_compute. exact I. Defined.

Definition opened : CheckTun := MkCheckTun (AddrV4 1) AddrInvalid 0 ∅.

Lemma New_never_sends_witness :
  New plain_kernel (MkConfig "0.0.0.1" "") = Ok opened /\ ([] : list datagram) = [].
Proof.
  split; [vm_compute; reflexivity|].
  apply (New_never_sends plain_kernel (MkConfig "0.0.0.1" "") opened 1 (MkBuffer sample_v4 36) [] (Some ErrUndefinedSocket)).
  - vm_compute. reflexivity.
  - vm_compute. reflexivity.
Defined.

Definition opened_sockets : gmap Z (gmap Z Z) :=
  match openSockets plain_kernel opened with Ok s => s | Err _ => ∅ end.

Lemma openSockets_complete_witness :
  exists fd, getSocket (kernelError := unit) (set_sockets opened_sockets opened) (MkTunMessage (AddrV4 1) [] 4 2) = Ok fd.
Proof.
  apply (openSockets_complete plain_kernel opened opened_sockets (MkTunMessage (AddrV4 1) [] 4 2));
    [vm_compute; reflexivity|done|by left|by left].
Defined.

Lemma drop_all_batches_witness :
  let '(c', drops) := drop_all (replicate 250 7) opened in
  packetInQueue c' = (packetInQueue opened + Zlength (replicate 250 7)) mod 100 /\
  Zlength drops = (packetInQueue opened + Zlength (replicate 250 7)) / 100.
Proof. apply (drop_all_batches (replicate 250 7) opened). vm_compute. split; [discriminate|reflexivity]. Defined.

Definition gre_options : list sockopt := dialer_options (MkForwardingData (AddrV4 1) "GRE") "10.0.0.1:80".

Lemma dialer_sets_all_witness : gre_options `prefix_of` (gre_options ++ [LingerOption]).
Proof.
  apply (dialer_sets_all (E := unit) (MkForwardingData (AddrV4 1) "GRE") "10.0.0.1:80" (fun _ => None) None
           (gre_options ++ [LingerOption]) None).
  vm_compute. reflexivity.
Defined.
End witnesses.
