(* ===== verification/Bird.v ===== *)
(** * The client of the routing daemon

    [pkg/bird]: messages about prefixes and their batches on a Unix socket;
    [internal/announcer/bird]: the announcer's client for the groups. *)

From stdpp Require Import strings numbers gmap sets list.
From S2P Require Import Prelude.
From S2P Require Import Types.
From S2P Require Import Bytes.
From S2P Require Import Prefixes.
From S2P Require Import Announcer.
From S2P Require Import Check.
From S2P Require Import Text.

Open Scope Z_scope.

(** ** message.go *)

Definition Enable : Z := 1.
Definition Disable : Z := 0.
Definition ipv4 : Z := 4.
Definition ipv6 : Z := 6.

Record Message := MkMessage { ipVer : Z; ipAddr : list Z; prefLen : Z; state : Z }.

Definition NewMessage (prefix : Prefix) (status : Z) : Message :=
  let addr := Prefix_Addr prefix in
  let ver := if Addr_Is6 addr then ipv6 else ipv4 in
  let bits := Prefix_Bits prefix in
  let bits := if bits =? -1 then Addr_BitLen addr else bits in
  MkMessage ver (As16 addr) (bits mod 256) (status mod 256).

(** ** client.go *)

Definition defaultBatchSize : Z := 4096.
Definition messageSize : Z := 19.

(** [binary.Write] of a message: its fields in order. *)
Definition message_bytes (m : Message) : list Z := ipVer m :: ipAddr m ++ [prefLen m; state m].

(** The size of a [uint]. *)
Definition wrap_uint (z : Z) : Z := z mod 2 ^ 64.

Record Client := MkClient { sock : bool; listenAddr : string; writeAddr : string; batchSize : Z }.

Definition WithBatchSize (size : Z) (c : Client) : Client := MkClient (sock c) (listenAddr c) (writeAddr c) size.

Definition path_join (dir name : string) : string := of_bytes (Join (bytes_of dir) (bytes_of name)).

Section client.
(** The operating system: [write] sends a datagram to an address. *)
Context {W E : Type}.

Record os := MkOS {
  Remove : string -> option (E * bool);          (* whether the error is that there is no file *)
  ListenUnixgram : string -> option E;
  Stat : string -> res E Z;
  Chmod : string -> Z -> option E;
}.

Inductive clientError :=
| ErrRemove (path : string) (e : E)
| ErrBind (path : string) (e : E)
| ErrStat (path : string) (e : E)
| ErrChmod (path : string) (e : E)
| ErrEmptySock
| ErrWrite (e : E)
| ErrRead (path : string) (e : E).

Definition S_IWOTH : Z := 2.
Definition S_IWGRP : Z := 16.

Definition NewClient (o : os) (sockDir sockNamePrefix : string) (opts : list (Client -> Client)) : res clientError Client :=
  let client := for_each (fun opt c => opt c) opts (MkClient false "" "" defaultBatchSize) in
  let listenAddr := path_join sockDir (sockNamePrefix +:+ "_b2m") in
  match Remove o listenAddr with
  | Some (e, false) => Err (ErrRemove listenAddr e)
  | _ =>
      match ListenUnixgram o listenAddr with
      | Some e => Err (ErrBind listenAddr e)
      | None =>
          match Stat o listenAddr with
          | Err e => Err (ErrStat listenAddr e)
          | Ok mode =>
              match Chmod o listenAddr (Z.lor (Z.lor mode S_IWOTH) S_IWGRP) with
              | Some e => Err (ErrChmod listenAddr e)
              | None =>
                  Ok (MkClient true listenAddr (path_join sockDir (sockNamePrefix +:+ "_m2b")) (batchSize client))
              end
          end
      end
  end.

Context (write : string -> list Z -> W -> option E * W).

Definition send (m : Client) (buf : list Z) (w : W) : option clientError * W :=
  if decide (buf = []) then (None, w)
  else if negb (sock m) then (Some ErrEmptySock, w)
  else match write (writeAddr m) buf w with
       | (Some e, w) => (Some (ErrWrite e), w)
       | (None, w) => (None, w)
       end.

Definition Send (m : Client) (msg : Message) (w : W) : option clientError * W := send m (message_bytes msg) w.

(** The loop over the messages; [msgBuf] is what has not been sent. *)
Fixpoint batch_loop (m : Client) (bufSize : Z) (msgs : list Message) (msgBuf : list Z) (w : W) : option clientError * W :=
  match msgs with
  | [] => send m msgBuf w
  | msg :: msgs =>
      let msgBuf := msgBuf ++ message_bytes msg in
      if bufSize <? wrap_uint (Z.of_nat (length msgBuf) + messageSize) then
        match send m msgBuf w with
        | (Some e, w) => (Some e, w)
        | (None, w) => batch_loop m bufSize msgs [] w
        end
      else batch_loop m bufSize msgs msgBuf w
  end.

Definition SendBatch (m : Client) (msgs : list Message) (w : W) : option clientError * W :=
  let batchSize := Z.min (batchSize m) (Z.of_nat (length msgs)) in
  let bufSize := wrap_uint (messageSize * batchSize) in
  batch_loop m bufSize msgs [] w.

(** The result of the blocking read. *)
Definition ListenRequest (m : Client) (read : option E) : option clientError :=
  match read with Some e => Some (ErrRead (listenAddr m) e) | None => None end.
End client.

(** ** internal/announcer/bird *)

Record Config := MkConfig { BatchSize : Z; SockDir : string }.

Record Bird := MkBird { clients : gmap string Client }.

Section bird.
Context `{MR : MapRange} {W E : Type}.

Inductive birdError :=
| ErrNewClient (group : string) (e : @clientError E)
| ErrNotConfigured (group : string)
| ErrSend (e : @clientError E)
| ErrListen (e : @clientError E)
| ErrShutdown.

Definition New (o : @os E) (config : Config) (groups : list string) : res birdError Bird :=
  let? clients :=
    for_each_err (fun group clients =>
      match NewClient o (SockDir config) group [] with
      | Err e => Err (ErrNewClient group e)
      | Ok client => Ok (<[group := client]> clients)
      end) groups ∅ in
  Ok (MkBird clients).

Definition clientByGroup (m : Bird) (group : string) : res birdError Client :=
  match clients m !! group with Some client => Ok client | None => Err (ErrNotConfigured group) end.

Context (write : string -> list Z -> W -> option E * W).

Definition processAnnounce (m : Bird) (group : string) (prefix : Prefix) (enable : bool) (w : W) : option birdError * W :=
  match clientByGroup m group with
  | Err e => (Some e, w)
  | Ok client =>
      let status := if enable then Enable else Disable in
      match Send write client (NewMessage prefix status) w with
      | (Some e, w) => (Some (ErrSend e), w)
      | (None, w) => (None, w)
      end
  end.

Definition RaiseAnnounce (m : Bird) group prefix w := processAnnounce m group prefix true w.
Definition RemoveAnnounce (m : Bird) group prefix w := processAnnounce m group prefix false w.

Definition birdStatus (status : PrefixStatus) : Z := if decide (status = Ready) then Enable else Disable.

(** The messages, in the order of the range over the map. *)
Definition batch_messages (announces : gmap Prefix PrefixStatus) : list Message :=
  for_range announces (fun prefix status msgs => msgs ++ [NewMessage prefix (birdStatus status)]) [].

Definition ProcessBatch (m : Bird) (group : string) (announces : gmap Prefix PrefixStatus) (w : W) : option birdError * W :=
  match clientByGroup m group with
  | Err e => (Some e, w)
  | Ok client =>
      match SendBatch write client (batch_messages announces) w with
      | (Some e, w) => (Some (ErrSend e), w)
      | (None, w) => (None, w)
      end
  end.

(** [closed]: whether the error of the read is that of a closed connection. *)
Definition ListenStateRequest (m : Bird) (group : string) (read : option E) (closed : E -> bool) : option birdError :=
  match clientByGroup m group with
  | Err e => Some e
  | Ok client =>
      match ListenRequest client read with
      | Some (ErrRead p e) => if closed e then Some ErrShutdown else Some (ErrListen (ErrRead p e))
      | Some e => Some (ErrListen e)
      | None => None
      end
  end.

(** The client the announcer is given; its sockets are closed at the end. *)
Definition Bird_Client (m : Bird) (close : W -> W) : Announcer.Client W birdError := {|
  Announcer.RaiseAnnounce := RaiseAnnounce m;
  Announcer.RemoveAnnounce := RemoveAnnounce m;
  Announcer.ProcessBatch := ProcessBatch m;
  Announcer.ClientShutdown := close;
|}.
End bird.

(** ** Batches *)

Section chunks.
Context {A : Type}.
Implicit Types (l : list A).

(** The pieces of [n] elements; the last one may be shorter. *)
Fixpoint chunks_loop (fuel n : nat) l : list (list A) :=
  match fuel, l with
  | S fuel, _ :: _ => take n l :: chunks_loop fuel n (drop n l)
  | _, _ => []
  end.

Definition chunks (n : nat) l : list (list A) := chunks_loop (length l) n l.

Lemma chunks_loop_fuel n : (1 <= n)%nat -> forall f1 f2 l, (length l <= f1)%nat -> (length l <= f2)%nat ->
  chunks_loop f1 n l = chunks_loop f2 n l.
Proof.
  intros Hn. induction f1 as [|f1 IH]; intros f2 l H1 H2; [destruct l; [by destruct f2|simpl in H1; lia]|].
  destruct l as [|a l]; [by destruct f2|]. destruct f2 as [|f2]; [simpl in H2; lia|].
  cbn [chunks_loop]. f_equal. simpl in H1, H2. destruct n as [|n]; [lia|]. cbn [drop].
  apply IH; rewrite length_drop; lia.
Qed.

Lemma chunks_app n l1 l2 : (1 <= n)%nat -> length l1 = n -> chunks n (l1 ++ l2) = l1 :: chunks n l2.
Proof.
  intros Hn Hl. unfold chunks. destruct l1 as [|a l1]; [simpl in Hl; lia|].
  cbn [app length chunks_loop]. rewrite (app_comm_cons l1 l2 a). rewrite <- Hl, take_app_length, drop_app_length. f_equal.
  apply chunks_loop_fuel; [simpl; lia|rewrite length_app; lia|done].
Qed.

Lemma chunks_short n l : (length l < n)%nat -> chunks n l = match l with [] => [] | _ => [l] end.
Proof.
  intros Hl. unfold chunks. destruct l as [|a l]; [done|]. cbn [length chunks_loop].
  rewrite take_ge by lia. rewrite drop_ge by lia. by destruct (length l).
Qed.

Lemma concat_chunks n l : (1 <= n)%nat -> concat (chunks n l) = l.
Proof.
  intros Hn. unfold chunks. assert (forall f l, (length l <= f)%nat -> concat (chunks_loop f n l) = l) as H; [|by apply H].
  induction f as [|f IH]; intros l' Hl; [by destruct l'; [|simpl in Hl; lia]|].
  destruct l' as [|a l']; [done|]. cbn [chunks_loop concat]. rewrite IH.
  - apply take_drop.
  - rewrite length_drop. simpl in *. lia.
Qed.

Lemma chunks_length n l : (1 <= n)%nat -> Forall (fun c => 1 <= length c <= n)%nat (chunks n l).
Proof.
  intros Hn. unfold chunks. generalize (length l) as f. intros f. revert l.
  induction f as [|f IH]; intros l; [constructor|]. destruct l as [|a l]; [constructor|].
  cbn [chunks_loop]. constructor; [|apply IH]. rewrite length_take. simpl. lia.
Qed.
End chunks.

Section batches.
Context {W E : Type} (write : string -> list Z -> W -> option E * W).

Definition messages_bytes (msgs : list Message) : list Z := msgs ≫= message_bytes.

(** Each datagram of a list in turn, up to the first that is refused. *)
Fixpoint send_all (m : Client) (batches : list (list Message)) (w : W) : option clientError * W :=
  match batches with
  | [] => (None, w)
  | b :: batches =>
      match send write m (messages_bytes b) w with
      | (Some e, w) => (Some e, w)
      | (None, w) => send_all m batches w
      end
  end.

Definition message_ok (m : Message) : Prop := length (ipAddr m) = 16%nat.

Lemma message_bytes_length m : message_ok m -> length (message_bytes m) = 19%nat.
Proof. unfold message_ok, message_bytes. intros H. simpl. rewrite length_app, H. done. Qed.

Lemma messages_bytes_length msgs : Forall message_ok msgs -> length (messages_bytes msgs) = (19 * length msgs)%nat.
Proof.
  induction 1 as [|m msgs Hm _ IH]; [done|]. unfold messages_bytes in *. cbn [mbind list_bind].
  rewrite length_app, IH, message_bytes_length by done. simpl. lia.
Qed.

Lemma messages_bytes_app l1 l2 : messages_bytes (l1 ++ l2) = messages_bytes l1 ++ messages_bytes l2.
Proof. apply bind_app. Qed.

Lemma batch_loop_chunks m b bufSize : (1 <= b)%nat -> Z.of_nat b < 2 ^ 58 ->
  (forall n, (1 <= n <= b)%nat -> (bufSize <? 19 * Z.of_nat n + 19) = (b <=? n)%nat) ->
  forall msgs p w, Forall message_ok (p ++ msgs) -> (length p < b)%nat ->
  batch_loop write m bufSize msgs (messages_bytes p) w = send_all m (chunks b (p ++ msgs)) w.
Proof.
  intros Hb Hmax Hsize. induction msgs as [|msg msgs IH]; intros p w Hok Hp; cbn [batch_loop].
  - rewrite app_nil_r in *. rewrite chunks_short by done. destruct p as [|a p]; [done|].
    cbn [send_all]. by destruct (send write m (messages_bytes (a :: p)) w) as [[e|] w'].
  - replace (messages_bytes p ++ message_bytes msg) with (messages_bytes (p ++ [msg]))
      by (rewrite messages_bytes_app; unfold messages_bytes; cbn [mbind list_bind]; by rewrite app_nil_r).
    replace (p ++ msg :: msgs) with ((p ++ [msg]) ++ msgs) in * by (by rewrite <- app_assoc).
    rewrite messages_bytes_length by (by apply Forall_app in Hok as [? _]).
    assert (length (p ++ [msg]) = S (length p)) as Hl by (rewrite length_app; simpl; lia).
    rewrite Hl. unfold wrap_uint, messageSize. rewrite Z.mod_small by lia.
    replace (Z.of_nat (19 * S (length p)) + 19) with (19 * Z.of_nat (S (length p)) + 19) by lia.
    rewrite Hsize by lia. destruct (Nat.leb_spec b (S (length p))) as [Hge|Hlt].
    + rewrite chunks_app by lia. cbn [send_all].
      destruct (send write m (messages_bytes (p ++ [msg])) w) as [[e|] w']; [done|].
      apply (IH []); [|simpl; lia]. by apply Forall_app in Hok as [_ ?].
    + apply IH; [done|lia].
Qed.

Lemma SendBatch_reference (m : Client) (msgs : list Message) (w : W) :
  Forall message_ok msgs -> 0 <= batchSize m -> Z.of_nat (length msgs) < 2 ^ 58 ->
  SendBatch write m msgs w = send_all m (chunks (Z.to_nat (Z.max 1 (Z.min (batchSize m) (Z.of_nat (length msgs))))) msgs) w.
Proof.
  intros Hok Hs Hmax. set (b := Z.to_nat _). assert (1 <= b)%nat as Hb by lia.
  unfold SendBatch. apply (batch_loop_chunks m b _ Hb) with (p := []); [lia| |done|simpl; lia].
  intros n Hn. unfold wrap_uint, messageSize. rewrite Z.mod_small by lia.
  destruct (Nat.leb_spec b n); [apply Z.ltb_lt|apply Z.ltb_ge]; lia.
Qed.

(** A batch of messages is sent as the datagrams of a reference: the messages
    in their order, cut into pieces of at most the batch size (of one, if the
    size is zero), each piece the concatenation of its messages, up to the first
    datagram that is refused; nothing is sent for no messages. *)
Theorem SendBatch_chunks (m : Client) (msgs : list Message) (w : W) :
  Forall message_ok msgs -> 0 <= batchSize m -> Z.of_nat (length msgs) < 2 ^ 58 ->
  let b := Z.to_nat (Z.max 1 (Z.min (batchSize m) (Z.of_nat (length msgs)))) in
  SendBatch write m msgs w = send_all m (chunks b msgs) w /\
  concat (chunks b msgs) = msgs /\ Forall (fun c => 1 <= length c <= b)%nat (chunks b msgs).
Proof.
  intros Hok Hs Hmax b. assert (1 <= b)%nat as Hb by lia.
  split; [by apply SendBatch_reference|split; [by apply concat_chunks|by apply chunks_length]].
Qed.
End batches.

(** ** Messages denote prefixes *)

Section messages.

(** The prefixes whose messages are told apart; those of services are. *)
Definition valid_prefix (p : Prefix) : Prop :=
  Addr_ok (Prefix_Addr p) /\
  match Prefix_Addr p, Prefix_bits p with
  | AddrV4 _, Some b => 0 <= b <= 32
  | AddrV6 _ "", Some b => 0 <= b <= 128
  | _, _ => False
  end.

#[export] Instance valid_prefix_dec p : Decision (valid_prefix p).
Proof.
  destruct p as [[|ip|ip z] [b|]]; unfold valid_prefix; simpl; try apply _; destruct z; apply _.
Defined.

(** What the daemon reads from nineteen bytes. *)
Definition parse_message (l : list Z) : option (Prefix * Z) :=
  match l with
  | ver :: rest =>
      let addr := take 16 rest in
      match drop 16 rest with
      | [bits; st] =>
          if ver =? ipv4 then Some (MkPrefix (AddrV4 (be_value (drop 12 addr))) (Some bits), st)
          else if ver =? ipv6 then Some (MkPrefix (AddrV6 (be_value addr) "") (Some bits), st)
          else None
      | _ => None
      end
  | [] => None
  end.

Lemma As16_length a : length (As16 a) = 16%nat.
Proof. destruct a; apply be_bytes_length. Qed.

Lemma be_bytes_split n m z : 0 <= z -> be_bytes (n + m) z = be_bytes n (z / 256 ^ Z.of_nat m) ++ be_bytes m z.
Proof.
  intros Hz. revert z Hz. induction m as [|m IH]; intros z Hz.
  - rewrite Nat.add_0_r. simpl. by rewrite Z.div_1_r, app_nil_r.
  - rewrite Nat.add_succ_r. cbn [be_bytes]. rewrite IH by (apply Z.div_pos; lia). rewrite <- app_assoc. f_equal. f_equal.
    rewrite Z.div_div by lia. f_equal. replace (Z.of_nat (S m)) with (1 + Z.of_nat m) by lia. by rewrite Z.pow_add_r by lia.
Qed.

Lemma be_bytes_low m k z : 0 <= k -> 0 <= z -> be_bytes m (k * 256 ^ Z.of_nat m + z) = be_bytes m z.
Proof.
  revert k z. induction m as [|m IH]; intros k z Hk Hz; [done|]. cbn [be_bytes].
  replace (Z.of_nat (S m)) with (1 + Z.of_nat m) by lia. rewrite Z.pow_add_r by lia. change (256 ^ 1) with 256.
  replace (k * (256 * 256 ^ Z.of_nat m) + z) with (z + (k * 256 ^ Z.of_nat m) * 256) by ring.
  rewrite Z.mod_add, Z.div_add by lia. rewrite (Z.add_comm (z / 256)), IH; [done|done|apply Z.div_pos; lia].
Qed.

Lemma drop_As16_v4 ip : 0 <= ip < 2 ^ 32 -> drop 12 (As16 (AddrV4 ip)) = be_bytes 4 ip.
Proof.
  intros Hip. unfold As16. change 16%nat with (12 + 4)%nat. rewrite be_bytes_split by lia.
  rewrite drop_app_le, drop_ge, app_nil_l by (rewrite be_bytes_length; lia).
  replace (65535 * 2 ^ 32 + ip) with (65535 * 256 ^ Z.of_nat 4 + ip) by (change (256 ^ Z.of_nat 4) with (2 ^ 32); lia).
  apply be_bytes_low; lia.
Qed.

Lemma parse_message_NewMessage p st : valid_prefix p -> 0 <= st < 256 ->
  parse_message (message_bytes (NewMessage p st)) = Some (p, st).
Proof.
  intros [Ha Hv] Hst. unfold parse_message, message_bytes, NewMessage. cbn [ipVer ipAddr prefLen state].
  rewrite <- (As16_length (Prefix_Addr p)), take_app_length, drop_app_length.
  destruct p as [a [b|]]; cbn [Prefix_Addr Prefix_bits Prefix_Bits] in *; [|destruct a as [| |? []]; contradiction].
  unfold Prefix_Bits. cbn [Prefix_bits default]. unfold id.
  destruct a as [|ip|ip z]; [contradiction| |]; cbn [Addr_Is6 Addr_BitLen].
  - replace (b =? -1) with false by (symmetry; apply Z.eqb_neq; lia). rewrite (Z.mod_small b), (Z.mod_small st) by lia.
    cbn [Z.eqb Pos.eqb ipv4]. rewrite drop_As16_v4 by done. rewrite be_value_bytes; [done|].
    change (256 ^ Z.of_nat 4) with (2 ^ 32). done.
  - destruct z; [|contradiction].
    replace (b =? -1) with false by (symmetry; apply Z.eqb_neq; lia). rewrite (Z.mod_small b), (Z.mod_small st) by lia.
    cbn [Z.eqb Pos.eqb ipv4 ipv6]. unfold As16. rewrite be_value_bytes; [done|].
    change (256 ^ Z.of_nat 16) with (2 ^ 128). done.
Qed.

(** A message says which prefix it is about and its status: from its nineteen
    bytes the prefix and the status can be read back, so messages of different
    prefixes differ, IPv4 prefixes and their IPv4-mapped forms included. *)
Theorem message_roundtrip (p : Prefix) (st : Z) :
  valid_prefix p -> 0 <= st < 256 ->
  length (message_bytes (NewMessage p st)) = Z.to_nat messageSize /\
  parse_message (message_bytes (NewMessage p st)) = Some (p, st).
Proof.
  intros Hp Hst. split; [|by apply parse_message_NewMessage].
  apply message_bytes_length. unfold message_ok. apply As16_length.
Qed.
End messages.

(** ** A daemon *)

(** A daemon that applies the messages of the datagrams it receives; an oracle
    says which datagrams the kernel refuses. *)
Record BirdDaemon := MkBirdDaemon { heard : gmap (string * Prefix) Z; refuses : list bool }.

Fixpoint hear (fuel : nat) (addr : string) (buf : list Z) (t : gmap (string * Prefix) Z) : gmap (string * Prefix) Z :=
  match fuel, buf with
  | S fuel, _ :: _ =>
      let t := match parse_message (take 19 buf) with Some (p, st) => <[(addr, p) := st]> t | None => t end in
      hear fuel addr (drop 19 buf) t
  | _, _ => t
  end.

Definition daemon_write (addr : string) (buf : list Z) (d : BirdDaemon) : option unit * BirdDaemon :=
  match refuses d with
  | true :: r => (Some tt, MkBirdDaemon (heard d) r)
  | r => (None, MkBirdDaemon (hear (length buf) addr buf (heard d)) (tail r))
  end.

Section daemon.
Context `{MR : MapRange}.

Definition bird_view (m : Bird) (d : BirdDaemon) (k : PrefixKey) : PrefixStatus :=
  match clients m !! pkGroup k with
  | Some c => match heard d !! (writeAddr c, pkPrefix k) with Some st => if st =? Enable then Ready else Unready | None => Unready end
  | None => Unready
  end.

Definition tell (addr : string) (l : list (Prefix * Z)) (t : gmap (string * Prefix) Z) : gmap (string * Prefix) Z :=
  foldl (fun t x => <[(addr, x.1) := x.2]> t) t l.

Definition new_messages (l : list (Prefix * Z)) : list Message := (fun x => NewMessage x.1 x.2) <$> l.

Definition sayable (x : Prefix * Z) : Prop := valid_prefix x.1 /\ 0 <= x.2 < 256.

Lemma new_messages_ok l : Forall message_ok (new_messages l).
Proof. apply Forall_fmap, Forall_true. intros x. apply As16_length. Qed.

Lemma hear_messages addr l : forall fuel t, Forall sayable l -> (length (messages_bytes (new_messages l)) <= fuel)%nat ->
  hear fuel addr (messages_bytes (new_messages l)) t = tell addr l t.
Proof.
  induction l as [|[p st] l IH]; intros fuel t Hs Hf; [by destruct fuel|].
  apply Forall_cons in Hs as [[Hp Hst] Hs]. simpl in Hp, Hst.
  unfold messages_bytes in *. cbn [new_messages fmap list_fmap mbind list_bind fst snd] in *. fold (new_messages l) in *.
  assert (length (message_bytes (NewMessage p st)) = 19%nat) as Hl by apply message_bytes_length, As16_length.
  rewrite length_app in Hf. destruct fuel as [|fuel]; [lia|].
  destruct (message_bytes (NewMessage p st) ++ (new_messages l ≫= message_bytes)) as [|z r] eqn:Hz.
  { apply app_nil in Hz as [Hz _]. by rewrite Hz in Hl. }
  cbn [hear]. rewrite <- Hz, <- Hl, take_app_length, drop_app_length, parse_message_NewMessage by done.
  apply IH; [done|lia].
Qed.

Lemma tell_app addr l1 l2 t : tell addr (l1 ++ l2) t = tell addr l2 (tell addr l1 t).
Proof. apply foldl_app. Qed.

Lemma lookup_tell_ne addr l t a p : a <> addr \/ p ∉ l.*1 -> tell addr l t !! (a, p) = t !! (a, p).
Proof.
  revert t. induction l as [|[q st] l IH]; intros t H; [done|]. cbn [tell foldl fst snd].
  fold (tell addr l (<[(addr, q):=st]> t)). rewrite IH by (set_solver). apply lookup_insert_ne. intros [= -> ->]. set_solver.
Qed.

Lemma lookup_tell addr l t p st : NoDup l.*1 -> (p, st) ∈ l -> tell addr l t !! (addr, p) = Some st.
Proof.
  revert t. induction l as [|[q s] l IH]; intros t Hn Hin; [set_solver|]. cbn [tell foldl fst snd].
  fold (tell addr l (<[(addr, q):=s]> t)). cbn [fmap list_fmap fst] in Hn. apply NoDup_cons in Hn as [Hq Hn].
  apply elem_of_cons in Hin as [[= <- <-]|Hin]; [|by apply IH].
  rewrite lookup_tell_ne by (by right). apply lookup_insert_eq.
Qed.

Lemma send_all_heard m l : sock m = true -> Forall (Forall sayable) l ->
  forall d d', send_all daemon_write m (new_messages <$> l) d = (None, d') -> heard d' = tell (writeAddr m) (concat l) (heard d).
Proof.
  intros Hsock. induction l as [|b l IH]; intros Hs d d'; cbn [fmap list_fmap send_all concat].
  - by intros [= <-].
  - apply Forall_cons in Hs as [Hb Hs]. rewrite tell_app. unfold send. rewrite Hsock. cbn [negb].
    case_decide as Hnil.
    + assert (b = []) as ->.
      { apply (f_equal length) in Hnil. rewrite messages_bytes_length in Hnil by apply new_messages_ok.
        unfold new_messages in Hnil. rewrite length_fmap in Hnil. destruct b; [done|simpl in Hnil; lia]. }
      by apply IH.
    + unfold daemon_write at 1. destruct (refuses d) as [|[] r]; [|done|];
        (intros H; rewrite (IH Hs _ _ H); cbn [heard]; by rewrite hear_messages).
Qed.

Lemma chunks_fmap {A B} (f : A -> B) n (l : list A) :
  chunks n (list_fmap A B f l) = list_fmap _ _ (list_fmap A B f) (chunks n l).
Proof.
  unfold chunks. rewrite length_fmap. generalize (length l) as fuel. intros fuel. revert l.
  induction fuel as [|fuel IH]; intros l; [done|]. destruct l as [|a l]; [done|].
  change (list_fmap A B f (a :: l)) with (f a :: list_fmap A B f l). cbn [chunks_loop].
  change (list_fmap (list A) (list B) (list_fmap A B f) (take n (a :: l) :: chunks_loop fuel n (drop n (a :: l))))
    with (list_fmap A B f (take n (a :: l)) :: list_fmap _ _ (list_fmap A B f) (chunks_loop fuel n (drop n (a :: l)))).
  rewrite <- (IH (drop n (a :: l))). change (f a :: list_fmap A B f l) with (f <$> (a :: l)).
  change (list_fmap A B f (drop n (a :: l))) with (f <$> drop n (a :: l)).
  change (list_fmap A B f (take n (a :: l))) with (f <$> take n (a :: l)). by rewrite fmap_take, fmap_drop.
Qed.

Definition said (announces : gmap Prefix PrefixStatus) : list (Prefix * Z) :=
  (fun kv => (kv.1, birdStatus kv.2)) <$> range announces.

Lemma batch_messages_said announces : batch_messages announces = new_messages (said announces).
Proof.
  unfold batch_messages, said, new_messages, for_range, for_each. generalize (range announces) as l. intros l.
  assert (forall acc, foldl (fun s kv => s ++ [NewMessage kv.1 (birdStatus kv.2)]) acc l =
    acc ++ ((fun x => NewMessage x.1 x.2) <$> ((fun kv => (kv.1, birdStatus kv.2)) <$> l))) as H; [|apply (H [])].
  induction l as [|[p st] l IH]; intros acc; [by rewrite app_nil_r|]. cbn [foldl]. rewrite IH.
  cbn [fmap list_fmap fst snd]. by rewrite <- app_assoc.
Qed.

Lemma birdStatus_range st : 0 <= birdStatus st < 256.
Proof. destruct st; by vm_compute. Qed.

Lemma heard_batch (m : Bird) (group : string) c announces d d' :
  clients m !! group = Some c -> sock c = true -> 0 <= batchSize c -> Z.of_nat (size announces) < 2 ^ 58 ->
  (forall p st, announces !! p = Some st -> valid_prefix p) ->
  ProcessBatch daemon_write m group announces d = (None, d') ->
  heard d' = tell (writeAddr c) (said announces) (heard d).
Proof.
  intros Hc Hsock Hb Hsize Hv. unfold ProcessBatch, clientByGroup. rewrite Hc, batch_messages_said.
  rewrite SendBatch_reference; [|apply new_messages_ok|done|].
  2: { unfold new_messages, said. rewrite !length_fmap. rewrite range_perm, length_map_to_list. lia. }
  set (b := Z.to_nat _). assert (1 <= b)%nat as Hb1 by lia.
  unfold new_messages at 1. change (chunks b (list_fmap _ _ ?f ?l)) with (chunks b (list_fmap _ _ f l)).
  rewrite (chunks_fmap (fun x : Prefix * Z => NewMessage x.1 x.2)).
  change (list_fmap _ _ (list_fmap _ _ (fun x : Prefix * Z => NewMessage x.1 x.2)) (chunks b (said announces)))
    with (new_messages <$> chunks b (said announces)).
  destruct (send_all daemon_write c _ d) as [[e|] w] eqn:Hs; [done|]. intros [= <-].
  rewrite (send_all_heard c (chunks b (said announces)) Hsock) with (2 := Hs); [by rewrite concat_chunks|].
  apply Forall_forall. intros l Hl. apply Forall_forall. intros [p st] Hin.
  assert ((p, st) ∈ said announces) as Hsaid.
  { rewrite <- (concat_chunks b (said announces)) by done. apply list_elem_of_In, in_concat. exists l.
    split; by apply list_elem_of_In. }
  apply list_elem_of_fmap in Hsaid as ([q s] & [= -> ->] & Hq%elem_of_range). split; [by eapply Hv|apply birdStatus_range].
Qed.
End daemon.

(** ** What the announcer relies on *)

Section contract.
Context `{MR : MapRange}.

Lemma said_keys announces : (said announces).*1 = (range announces).*1.
Proof. unfold said. rewrite <- list_fmap_compose. done. Qed.

(** C23: the client keeps the promise the announcer is verified against: when a
    batch is accepted, the daemon's view of the group is the old one overwritten
    by the batch, whatever the order of the messages and their datagrams, and
    the other groups' views are untouched.  (Groups have sockets of their own,
    and the batch holds the prefixes of services.) *)
Theorem ProcessBatch_view (m : Bird) (group : string) (c : Client) (announces : gmap Prefix PrefixStatus)
    (d d' : BirdDaemon) (k : PrefixKey) :
  clients m !! group = Some c -> sock c = true -> 0 <= batchSize c -> Z.of_nat (size announces) < 2 ^ 58 ->
  (forall p st, announces !! p = Some st -> valid_prefix p) ->
  (forall g c', clients m !! g = Some c' -> writeAddr c' = writeAddr c -> g = group) ->
  ProcessBatch daemon_write m group announces d = (None, d') ->
  bird_view m d' k = batch_view group announces (bird_view m d) k.
Proof.
  intros Hc Hsock Hb Hsize Hv Hinj Hp. pose proof (heard_batch m group c announces d d' Hc Hsock Hb Hsize Hv Hp) as Hh.
  unfold batch_view, bird_view. rewrite Hh. destruct k as [p g]. cbn [pkGroup pkPrefix].
  destruct (decide (g = group)) as [->|Hg].
  - rewrite Hc. destruct (announces !! p) as [st|] eqn:Hst.
    + rewrite (lookup_tell _ _ _ p (birdStatus st)); [by destruct st| |].
      * rewrite said_keys. apply range_NoDup.
      * apply list_elem_of_fmap. exists (p, st). split; [done|by apply elem_of_range].
    + rewrite lookup_tell_ne; [done|right]. rewrite said_keys. intros ((q & st) & -> & Hin)%list_elem_of_fmap.
      apply elem_of_range in Hin. simpl in Hst. congruence.
  - destruct (clients m !! g) as [c'|] eqn:Hc'; [|done]. rewrite lookup_tell_ne; [done|left]. intros Ha.
    by apply Hg, (Hinj g c').
Qed.

(** A refused batch that fits one datagram leaves the daemon as it was. *)
Theorem refused_datagram (m : Bird) (group : string) (c : Client) (announces : gmap Prefix PrefixStatus) (d d' : BirdDaemon) e :
  clients m !! group = Some c -> Z.of_nat (size announces) <= batchSize c -> Z.of_nat (size announces) < 2 ^ 58 ->
  ProcessBatch daemon_write m group announces d = (Some e, d') -> heard d' = heard d.
Proof.
  intros Hc Hb Hsize. unfold ProcessBatch, clientByGroup. rewrite Hc, batch_messages_said.
  assert (length (new_messages (said announces)) = size announces) as Hl
    by (unfold new_messages, said; by rewrite !length_fmap, range_perm, length_map_to_list).
  rewrite SendBatch_reference by (first [apply new_messages_ok|lia]). rewrite Hl.
  replace (Z.to_nat _) with (Nat.max 1 (size announces)) by lia. generalize (new_messages_ok (said announces)).
  revert Hl. generalize (new_messages (said announces)) as l. intros l Hl _.
  assert (chunks (Nat.max 1 (size announces)) l = match l with [] => [] | _ => [l] end) as ->.
  { destruct l as [|a l]; [done|]. cbn [length] in Hl. rewrite <- (app_nil_r (a :: l)) at 1.
    rewrite chunks_app; [by destruct l|lia|cbn [length]; lia]. }
  destruct l as [|a l]; cbn [send_all]; [done|].
  unfold send. case_decide; [done|]. destruct (negb (sock c)); [by intros [= _ <-]|].
  unfold daemon_write. destruct (refuses d) as [|[] r]; [done| |done]. by intros [= _ <-].
Qed.

(** The clients of the groups: one for each, on the two sockets named after
    it, always with the default batch size; the batch size of the configuration
    is not used. *)
Theorem New_clients {E} (o : os (E := E)) (config : Config) (groups : list string) (m : Bird) :
  New o config groups = Ok m ->
  dom (clients m) = list_to_set groups /\
  forall g c, clients m !! g = Some c ->
    c = MkClient true (path_join (SockDir config) (g +:+ "_b2m")) (path_join (SockDir config) (g +:+ "_m2b")) defaultBatchSize.
Proof.
  unfold New. destruct (for_each_err _ _ _) as [cs|e] eqn:Hf; simpl; [|done]. intros [= <-]. cbn [clients].
  assert (forall l (cs0 cs : gmap string Client),
    for_each_err (fun group clients => match NewClient o (SockDir config) group [] with
      | Err e => Err (ErrNewClient (E := E) group e) | Ok client => Ok (<[group := client]> clients) end) l cs0 = Ok cs ->
    dom cs = list_to_set l ∪ dom cs0 /\
    forall g c, cs !! g = Some c -> cs0 !! g = Some c \/
      c = MkClient true (path_join (SockDir config) (g +:+ "_b2m")) (path_join (SockDir config) (g +:+ "_m2b")) defaultBatchSize) as H.
  { induction l as [|g l IH]; intros cs0 cs'; cbn [for_each_err].
    - intros [= <-]. split; [set_solver|by left].
    - destruct (NewClient o (SockDir config) g []) as [c|e] eqn:Hn; simpl; [|done].
      assert (c = MkClient true (path_join (SockDir config) (g +:+ "_b2m")) (path_join (SockDir config) (g +:+ "_m2b")) defaultBatchSize) as ->.
      { revert Hn. unfold NewClient. cbn [for_each]. destruct (Remove _ _) as [[e []]|]; [|done|];
          (destruct (ListenUnixgram _ _); [done|]; destruct (Stat _ _); [|done]; destruct (Chmod _ _ _); [done|]; by intros [= <-]). }
      intros [Hd Hl]%IH. split; [rewrite Hd, dom_insert_L; set_solver|].
      intros g' c' [Hg'|Hg']%Hl; [|by right]. apply lookup_insert_Some in Hg' as [[<- <-]|[_ Hg']]; [by right|by left]. }
  destruct (H groups ∅ cs Hf) as [Hd Hl]. split; [rewrite Hd; set_solver|].
  intros g c Hg. destruct (Hl g c Hg) as [Hg'|Hg']; [by rewrite lookup_empty in Hg'|done].
Qed.
End contract.

(** ** Concrete runs *)

Section concrete.
Definition prefix1 : Prefix := MkPrefix (AddrV4 167772161) (Some 32).
Definition prefix2 : Prefix := MkPrefix (AddrV6 7 "") (Some 128).
Definition batch12 : gmap Prefix PrefixStatus := {[prefix1 := Ready; prefix2 := Ready]}.

Definition client1 (size : Z) : Client := MkClient true "/run/a_b2m" "/run/a_m2b" size.
Definition bird1 (size : Z) : Bird := MkBird {["a" := client1 size]}.
Definition silent (r : list bool) : BirdDaemon := MkBirdDaemon ∅ r.

(** A batch of several datagrams may be refused in the middle: the announcer
    is told that the batch failed, and the daemon has applied the first half. *)
Theorem partial_batch :
  exists d', ProcessBatch daemon_write (bird1 1) "a" batch12 (silent [false; true]) = (Some (ErrSend (ErrWrite tt)), d') /\
    exists k, bird_view (bird1 1) d' k <> bird_view (bird1 1) (silent [false; true]) k.
Proof.
  eexists. split; [vm_compute; reflexivity|]. exists (MkPrefixKey prefix2 "a"). vm_compute. discriminate.
Qed.

Lemma message_roundtrip_witness :
  length (message_bytes (NewMessage prefix1 Enable)) = Z.to_nat messageSize /\
  parse_message (message_bytes (NewMessage prefix1 Enable)) = Some (prefix1, Enable).
Proof. apply (message_roundtrip prefix1 Enable); vm_compute; repeat split; discriminate. Defined.

Definition daemon12 : BirdDaemon := (ProcessBatch daemon_write (bird1 4096) "a" batch12 (silent [])).2.

Lemma batch12_valid : forall p st, batch12 !! p = Some st -> valid_prefix p.
Proof.
  intros p st. unfold batch12. intros [[<- _]|[_ H]]%lookup_insert_Some; [apply (bool_decide_unpack _); by vm_compute|].
  apply lookup_singleton_Some in H as [<- _]. apply (bool_decide_unpack _). by vm_compute.
Qed.

Lemma ProcessBatch_view_witness :
  bird_view (bird1 4096) daemon12 (MkPrefixKey prefix2 "a") = Ready /\
  bird_view (bird1 4096) daemon12 (MkPrefixKey prefix2 "a") =
    batch_view "a" batch12 (bird_view (bird1 4096) (silent [])) (MkPrefixKey prefix2 "a").
Proof.
  split; [vm_compute; reflexivity|].
  apply (ProcessBatch_view (bird1 4096) "a" (client1 4096) batch12 (silent []) daemon12).
  - reflexivity.
  - reflexivity.
  - vm_compute. discriminate.
  - vm_compute. reflexivity.
  - exact batch12_valid.
  - intros g c' Hg _. unfold bird1 in Hg. cbn [clients] in Hg. by apply lookup_singleton_Some in Hg as [<- _].
  - vm_compute. reflexivity.
Defined.

Lemma refused_datagram_witness :
  heard (ProcessBatch daemon_write (bird1 2) "a" batch12 (silent [true])).2 = heard (silent [true]).
Proof.
  apply (refused_datagram (bird1 2) "a" (client1 2) batch12 (silent [true])
           (ProcessBatch daemon_write (bird1 2) "a" batch12 (silent [true])).2 (ErrSend (ErrWrite tt))).
  - reflexivity.
  - vm_compute. discriminate.
  - vm_compute. reflexivity.
  - vm_compute. reflexivity.
Defined.

Definition quiet_os : os (E := unit) := MkOS (fun _ => Some (tt, true)) (fun _ => None) (fun _ => Ok 0) (fun _ _ => None).

Lemma New_clients_witness :
  dom (clients (MkBird {["a" := MkClient true "/run/a_b2m" "/run/a_m2b" 4096]})) = list_to_set (C := gset string) ["a"].
Proof.
  apply (New_clients quiet_os (MkConfig 17 "/run/") ["a"]). vm_compute. reflexivity.
Defined.

Lemma SendBatch_chunks_witness :
  SendBatch daemon_write (client1 1) [NewMessage prefix1 1; NewMessage prefix2 0] (silent []) =
    send_all daemon_write (client1 1) [[NewMessage prefix1 1]; [NewMessage prefix2 0]] (silent []).
Proof.
  apply (SendBatch_chunks daemon_write (client1 1) [NewMessage prefix1 1; NewMessage prefix2 0] (silent [])).
  - repeat constructor.
  - vm_compute. discriminate.
  - vm_compute. reflexivity.
Defined.
End concrete.
