(* ===== verification/Yanet.v ===== *)
(** * The client of the load balancer

    [pkg/yanet/proto.go]: calls of the control plane's methods, each over a
    connection of its own, framed by a length; [internal/balancer/yanet]: the
    requests and the state of the load balancer.  The messages are generated
    code that is not in the repository: what the program sets and reads of them
    is modelled, their serialization is a parameter. *)

From stdpp Require Import strings numbers gmap sets list.
From S2P Require Import Prelude.
From S2P Require Import Types.
From S2P Require Import Bytes.
From S2P Require Import Balancer.
From S2P Require Import Check.
From S2P Require Import Text.

Open Scope Z_scope.

(** ** convert.go *)

(** The oneof of an address; the bytes may be nil. *)
Inductive IPAddr := Ipv4 (ip : Z) | Ipv6 (bytes : option (list Z)).

(** The enumeration of protocols and its printing. *)
Class NetProtos := {
  NetProto : Type;
  NetProto_tcp : NetProto;
  NetProto_udp : NetProto;
  NetProto_undefined : NetProto;
  NetProto_String : NetProto -> string;
}.

(** What is relied on: a value prints as its name. *)
Class NetProtoLaws {NP : NetProtos} := {
  tcp_name : NetProto_String NetProto_tcp = "tcp";
  udp_name : NetProto_String NetProto_udp = "udp";
  undefined_name : NetProto_String NetProto_undefined = "undefined";
}.

(** A nil slice for the invalid address. *)
Definition addr_bytes (addr : Addr) : option (list Z) := match addr with AddrInvalid => None | _ => Some (AsSlice addr) end.

Definition fmtToProtoAddr (addr : Addr) : IPAddr :=
  if Addr_Is4 addr then Ipv4 (be_value (AsSlice addr)) else Ipv6 (addr_bytes addr).

(** The getters of the generated code, on a pointer that may be nil. *)
Definition GetIpv6 (addr : option IPAddr) : option (list Z) := match addr with Some (Ipv6 b) => b | _ => None end.
Definition GetIpv4 (addr : option IPAddr) : Z := match addr with Some (Ipv4 ip) => ip | _ => 0 end.

Definition fmtFromProtoAddr (addr : option IPAddr) : option Addr :=
  match GetIpv6 addr with
  | Some bytes => AddrFromSlice bytes
  | None => AddrFromSlice (be_bytes 4 (GetIpv4 addr))
  end.

(** [int32] of an [uint32]. *)
Definition to_int32 (z : Z) : Z := (z + 2 ^ 31) mod 2 ^ 32 - 2 ^ 31.

Section convert.
Context `{NP : NetProtos} `{UC : UnicodeCase}.

Record ServiceKey := MkServiceKey { SIp : option IPAddr; SProto : NetProto; SPortOpt : option Z }.
Record RealMsg := MkRealMsg { RIp : option IPAddr; RPortOpt : option Z }.

Inductive convertError :=
| ErrServiceAddr (a : option IPAddr)
| ErrRealAddr (a : option IPAddr)
| NilKey.                              (* the key of a service is dereferenced *)

Definition port_of (p : option Z) : Z := match p with Some p => to_int32 p | None => port.Omitted end.

Definition fmtFromProtoService (s : option ServiceKey) : res convertError key.Service :=
  match s with
  | None => Err NilKey
  | Some s =>
      match fmtFromProtoAddr (SIp s) with
      | None => Err (ErrServiceAddr (SIp s))
      | Some ip => Ok (key.MkService ip (port_of (SPortOpt s)) (ToUpper (NetProto_String (SProto s))))
      end
  end.

Definition fmtFromProtoReal (r : RealMsg) : res convertError key.Real :=
  match fmtFromProtoAddr (RIp r) with
  | None => Err (ErrRealAddr (RIp r))
  | Some ip => Ok (key.MkReal ip (port_of (RPortOpt r)))
  end.

Definition fmtToProtoProtocol (protocol : string) : NetProto :=
  if decide (protocol = "TCP") then NetProto_tcp
  else if decide (protocol = "UDP") then NetProto_udp
  else NetProto_undefined.

(** ** yanet.go *)

Record RealRequest := MkRealRequest {
  Module : string;
  VirtualIp : IPAddr;
  RProto : NetProto;
  RealIp : IPAddr;
  REnable : bool;
  VirtualPortOpt : option Z;
  RealPortOpt : option Z;
  WeightOpt : option Z;
}.

Definition port_opt (p : Z) : option Z := if decide (p <> port.Omitted) then Some (port.Value p) else None.

(** The request of [updateReal]. *)
Definition real_request (balancerKey : key.Balancer) (enable : bool) (w : Z) : RealRequest :=
  let service := key.BService balancerKey in
  let real := key.BReal balancerKey in
  MkRealRequest "balancer0" (fmtToProtoAddr (key.Addr service)) (fmtToProtoProtocol (key.Proto service))
    (fmtToProtoAddr (key.RAddr real)) enable (port_opt (key.Port service)) (port_opt (key.RPort real))
    (if enable then Some (weight.Uint32 w) else None).

Record ServiceMsg := MkServiceMsg { SKey : option ServiceKey; SReals : list RealMsg }.
Record BalancerMsg := MkBalancerMsg { BModule : string; BServices : list ServiceMsg }.

(** The loops of [GetState] over the response. *)
Definition get_reals (reals : list RealMsg) : res convertError (gset key.Real) :=
  for_each_err (fun real state => let? k := fmtFromProtoReal real in Ok ({[k]} ∪ state)) reals ∅.

Definition get_services (services : list ServiceMsg) : res convertError services_ :=
  for_each_err (fun service state =>
    let? k := fmtFromProtoService (SKey service) in
    let? reals := get_reals (SReals service) in
    Ok (<[k := reals]> state)) services ∅.

Definition get_state (balancers : list BalancerMsg) : res convertError (gmap string services_) :=
  for_each_err (fun balancer state =>
    let? services := get_services (BServices balancer) in
    Ok (<[BModule balancer := services]> state)) balancers ∅.

(** The calls of the generated client: a list of reals, a flush, a search. *)
Section client.
Context {W E : Type}.

Record calls := MkCalls {
  Real : list RealRequest -> W -> option E * W;
  RealFlush : W -> option E * W;
  RealFind : W -> res E (list BalancerMsg) * W;
}.

Inductive yanetError := ErrRequest (e : E) | ErrConvert (e : convertError).

Context (c : calls).

Definition updateReal (balancerKey : key.Balancer) (enable : bool) (w : Z) (s : W) : option yanetError * W :=
  let '(err, s) := Real c [real_request balancerKey enable w] s in (ErrRequest <$> err, s).

Definition EnableReal (balancerKey : key.Balancer) (w : Z) : W -> option yanetError * W := updateReal balancerKey true w.

Definition DisableReal (balancerKey : key.Balancer) : W -> option yanetError * W := updateReal balancerKey false weight.Omitted.

Definition Flush (s : W) : option yanetError * W := let '(err, s) := RealFlush c s in (ErrRequest <$> err, s).

Definition GetState (s : W) : res yanetError (gmap string services_) * W :=
  let '(resp, s) := RealFind c s in
  (match resp with
   | Err e => Err (ErrRequest e)
   | Ok balancers => match get_state balancers with Ok st => Ok st | Err e => Err (ErrConvert e) end
   end, s).

(** The client the balancer is given. *)
Definition Yanet_Client : LoadBalancerClient W yanetError := {|
  Balancer.EnableReal := EnableReal;
  Balancer.DisableReal := DisableReal;
  Balancer.FlushClient := Flush;
|}.
End client.
End convert.

(** ** proto.go *)

(** [strings.FieldsFunc] with slash and dot as separators, which are single
    bytes. *)
Definition is_separator (b : Z) : bool := (b =? 47) || (b =? 46).

Fixpoint fields_func (l cur : list Z) : list (list Z) :=
  let flush := if decide (cur = []) then [] else [cur] in
  match l with
  | [] => flush
  | b :: l => if is_separator b then flush ++ fields_func l [] else fields_func l (cur ++ [b])
  end.

Section rpc.
(** The network: dialing the socket, and the connection's operations; a read
    gets at most as many bytes as it asks for. *)
Context {W E : Type}.

Record network := MkNetwork {
  Dial : string -> W -> option E * W;
  Write : list Z -> W -> option E * W;
  Read : nat -> W -> res E (list Z) * W;
  Close : W -> W;
}.

(** A message, its serialization and the state of an out parameter. *)
Context {Msg : Type}.

Record codec := MkCodec { Marshal : Msg -> res E (list Z); Unmarshal : list Z -> res E Msg }.

Inductive rpcError :=
| ErrDial (e : E)
| ErrSerialize (e : E)
| ErrWrite (e : E)
| ErrReadSize (e : E)
| ErrRead (e : E)
| ErrUnmarshal (e : E)
| ErrMakeSlice                   (* a length that is no [int]: [make] panics *)
| ErrInvalidMethod (method : string)
| ErrMethodNotFound (name : string)
| ErrUnimplemented
| Wrapped (method : string) (e : rpcError).

Definition wrapError (method : string) (err : option rpcError) : option rpcError := Wrapped method <$> err.

(** Streams are not supported. *)
Definition NewStream (method : string) : option rpcError := wrapError method (Some ErrUnimplemented).

Record rpcConn := MkRpcConn { method : string; closed : bool; remote : string }.

Context (n : network) (c : codec).

Definition newRPCConn (sockPath method : string) (w : W) : res rpcError rpcConn * W :=
  match Dial n sockPath w with
  | (Some e, w) => (Err (ErrDial e), w)
  | (None, w) => (Ok (MkRpcConn method false sockPath), w)
  end.

Definition set_closed (b : bool) (m : rpcConn) : rpcConn := MkRpcConn (method m) b (remote m).

Definition open (m : rpcConn) (w : W) : option rpcError * rpcConn * W :=
  if negb (closed m) then (None, m, w)
  else match Dial n (remote m) w with
       | (Some e, w) => (Some (ErrDial e), m, w)
       | (None, w) => (None, set_closed false m, w)
       end.

Definition close (m : rpcConn) (w : W) : rpcConn * W := if closed m then (m, w) else (set_closed true m, Close n w).

(** The error of a write or a read closes the connection. *)
Definition fail (e : rpcError) (m : rpcConn) (w : W) : option rpcError * rpcConn * W :=
  let '(m, w) := close m w in (Some e, m, w).

Definition send (m : rpcConn) (message : Msg) (w : W) : option rpcError * rpcConn * W :=
  match Marshal c message with
  | Err e => (Some (ErrSerialize e), m, w)
  | Ok messageBuf =>
      match Write n (le_bytes 8 (Z.of_nat (length messageBuf) mod 2 ^ 64)) w with
      | (Some e, w) => fail (ErrWrite e) m w
      | (None, w) =>
          match Write n messageBuf w with
          | (Some e, w) => fail (ErrWrite e) m w
          | (None, w) => (None, m, w)
          end
      end
  end.

(** The loop that fills a buffer of [size] bytes; [None]: it has not ended. *)
Fixpoint read_full (fuel : nat) (size : nat) (buf : list Z) (w : W) : option (res E (list Z) * W) :=
  if (size <=? length buf)%nat then Some (Ok buf, w)
  else match fuel with
       | O => None
       | S fuel =>
           match Read n (size - length buf) w with
           | (Err e, w) => Some (Err e, w)
           | (Ok d, w) => read_full fuel size (buf ++ d) w
           end
       end.

(** The out parameter keeps its value when the size is zero. *)
Definition recv (fuel : nat) (m : rpcConn) (out : Msg) (w : W) : option (res rpcError Msg * rpcConn * W) :=
  match read_full fuel 8 [] w with
  | None => None
  | Some (Err e, w) => let '(m, w) := close m w in Some (Err (ErrReadSize e), m, w)
  | Some (Ok sizeBuf, w) =>
      let size := le_value sizeBuf in
      if size =? 0 then Some (Ok out, m, w)
      else if two63 <=? size then Some (Err ErrMakeSlice, m, w)
      else
        match read_full fuel (Z.to_nat size) [] w with
        | None => None
        | Some (Err e, w) => let '(m, w) := close m w in Some (Err (ErrRead e), m, w)
        | Some (Ok readBuf, w) =>
            match Unmarshal c readBuf with
            | Err e => Some (Err (ErrUnmarshal e), m, w)
            | Ok message => Some (Ok message, m, w)
            end
        end
  end.

Definition wrap_result {A} (method : string) (r : res rpcError A) : res rpcError A :=
  match r with Ok a => Ok a | Err e => Err (Wrapped method e) end.

(** [rpcConn.Invoke], under the connection's mutex. *)
Definition conn_Invoke (fuel : nat) (m : rpcConn) (meta req out : Msg) (w : W) : option (res rpcError Msg * rpcConn * W) :=
  let failed e m w := Some (Err (Wrapped (method m) e), m, w) in
  match open m w with
  | (Some e, m, w) => failed e m w
  | (None, m, w) =>
      match send m meta w with
      | (Some e, m, w) => failed e m w
      | (None, m, w) =>
          match send m req w with
          | (Some e, m, w) => failed e m w
          | (None, m, w) =>
              match recv fuel m out w with
              | None => None
              | Some (r, m, w) => Some (wrap_result (method m) r, m, w)
              end
          end
      end
  end.

(** The connections of the methods, made one after the other. *)
Definition newRPCChannel (sockPath : string) (methods : list string) (w : W) : res rpcError (gmap string rpcConn) * W :=
  (fix go (methods : list string) (conn : gmap string rpcConn) (w : W) : res rpcError (gmap string rpcConn) * W :=
     match methods with
     | [] => (Ok conn, w)
     | method :: methods =>
         match newRPCConn sockPath method w with
         | (Err e, w) => (Err e, w)
         | (Ok c, w) => go methods (<[method := c]> conn) w
         end
     end) methods ∅ w.

Definition defaultYANETControlPlaneSockPath : string := "/run/yanet/protocontrolplane.sock".

(** An option of [NewClient] changes the path of the socket. *)
Definition WithControlPlaneSockPath (path : string) : string -> string := fun _ => path.

Definition NewClient (opts : list (string -> string)) (methods : list string) (w : W) : res rpcError (gmap string rpcConn) * W :=
  newRPCChannel (for_each (fun opt path => opt path) opts defaultYANETControlPlaneSockPath) methods w.

(** [NewClient] of [internal/balancer/yanet]. *)
Definition NewYanetClient (SockPath : string) (methods : list string) (w : W) : res rpcError (gmap string rpcConn) * W :=
  NewClient [WithControlPlaneSockPath SockPath] methods w.

(** The names of the service and of the method in a full method name. *)
Definition split_method (method : string) : res rpcError (string * string) :=
  match reverse (fields_func (bytes_of method) []) with
  | methodName :: serviceName :: _ => Ok (of_bytes serviceName, of_bytes methodName)
  | _ => Err (ErrInvalidMethod method)
  end.

(** [rpcChannel.Invoke]; [meta] makes the metadata of a call. *)
Definition channel_Invoke (fuel : nat) (meta : string -> string -> Msg) (conns : gmap string rpcConn) (method : string)
    (req out : Msg) (w : W) : option (res rpcError Msg * gmap string rpcConn * W) :=
  match split_method method with
  | Err e => Some (Err e, conns, w)
  | Ok (serviceName, methodName) =>
      match conns !! methodName with
      | None => Some (Err (ErrMethodNotFound methodName), conns, w)
      | Some conn =>
          match conn_Invoke fuel conn (meta serviceName methodName) req out w with
          | None => None
          | Some (r, conn, w) => Some (r, <[methodName := conn]> conns, w)
          end
      end
  end.
End rpc.

(** ** Keys survive the way to the load balancer and back *)

Section keys.
Context `{NPL : NetProtoLaws} `{UC : UnicodeCase}.

(** The keys of services and reals with checks: addresses without zones, ports
    in range or omitted, and one of the two protocols. *)
Definition addr_sayable (a : Addr) : Prop := Addr_ok a /\ match a with AddrInvalid => False | AddrV4 _ => True | AddrV6 _ z => z = ""%string end.
Definition port_sayable (p : Z) : Prop := p = port.Omitted \/ 0 <= p < 65536.
Definition service_sayable (s : key.Service) : Prop :=
  addr_sayable (key.Addr s) /\ port_sayable (key.Port s) /\ (key.Proto s = "TCP" \/ key.Proto s = "UDP")%string.
Definition real_sayable (r : key.Real) : Prop := addr_sayable (key.RAddr r) /\ port_sayable (key.RPort r).

Lemma addr_back a : addr_sayable a -> fmtFromProtoAddr (Some (fmtToProtoAddr a)) = Some a.
Proof.
  intros [Ha Hs]. unfold fmtFromProtoAddr, fmtToProtoAddr, addr_bytes. destruct a as [|ip|ip z]; [done| |]; cbn [Addr_Is4 GetIpv6 GetIpv4].
  - simpl in Ha. cbn [AsSlice]. rewrite be_value_bytes by (change (256 ^ Z.of_nat 4) with (2 ^ 32); lia).
    apply (AddrFromSlice_AsSlice (AddrV4 ip)); [done|done].
  - subst z. by apply (AddrFromSlice_AsSlice (AddrV6 ip "")).
Qed.

Lemma port_back p : port_sayable p -> port_of (port_opt p) = p.
Proof.
  intros Hp. unfold port_opt, port_of. case_decide as Hd.
  - destruct Hp as [->|Hp]; [done|]. unfold port.Value. replace (p <? 0) with false by (symmetry; apply Z.ltb_ge; lia).
    rewrite (Z.mod_small p) by lia. unfold to_int32. rewrite Z.mod_small; lia.
  - destruct (decide (p = port.Omitted)); [done|]. by destruct Hd.
Qed.

Lemma proto_back s : (s = "TCP" \/ s = "UDP")%string -> ToUpper (NetProto_String (fmtToProtoProtocol s)) = s.
Proof.
  intros [-> | ->]; unfold fmtToProtoProtocol.
  - rewrite decide_True, tcp_name by done. reflexivity.
  - rewrite decide_False, decide_True, udp_name by done. reflexivity.
Qed.

Definition service_key (s : key.Service) : ServiceKey :=
  MkServiceKey (Some (fmtToProtoAddr (key.Addr s))) (fmtToProtoProtocol (key.Proto s)) (port_opt (key.Port s)).
Definition real_msg (r : key.Real) : RealMsg := MkRealMsg (Some (fmtToProtoAddr (key.RAddr r))) (port_opt (key.RPort r)).

Lemma service_back s : service_sayable s -> fmtFromProtoService (Some (service_key s)) = Ok s.
Proof.
  intros (Ha & Hp & Hs). unfold fmtFromProtoService, service_key. cbn [SIp SProto SPortOpt].
  rewrite addr_back, port_back, proto_back by done. by destruct s.
Qed.

Lemma real_back r : real_sayable r -> fmtFromProtoReal (real_msg r) = Ok r.
Proof.
  intros (Ha & Hp). unfold fmtFromProtoReal, real_msg. cbn [RIp RPortOpt]. rewrite addr_back, port_back by done. by destruct r.
Qed.

(** The load balancer is asked about the real that is meant: the addresses,
    ports and protocol of the request for a real denote, read as those of the
    load balancer's state are, its service and its real. *)
Theorem request_key_roundtrip (k : key.Balancer) (enable : bool) (w : Z) :
  service_sayable (key.BService k) -> real_sayable (key.BReal k) ->
  let r := real_request k enable w in
  fmtFromProtoService (Some (MkServiceKey (Some (VirtualIp r)) (RProto r) (VirtualPortOpt r))) = Ok (key.BService k) /\
  fmtFromProtoReal (MkRealMsg (Some (RealIp r)) (RealPortOpt r)) = Ok (key.BReal k) /\
  REnable r = enable /\ WeightOpt r = (if enable then Some (weight.Uint32 w) else None).
Proof. intros Hs Hr. split_and!; [by apply service_back|by apply real_back|done|done]. Qed.

(** What the load balancer answers for its modules, services and reals. *)
Definition service_msg (s : key.Service * list key.Real) : ServiceMsg := MkServiceMsg (Some (service_key s.1)) (real_msg <$> s.2).
Definition balancer_msg (b : string * list (key.Service * list key.Real)) : BalancerMsg := MkBalancerMsg b.1 (service_msg <$> b.2).

Definition reals_set (l : list key.Real) : reals := foldl (fun s r => {[r]} ∪ s) ∅ l.
Definition services_map (l : list (key.Service * list key.Real)) : services_ :=
  foldl (fun m s => <[s.1 := reals_set s.2]> m) ∅ l.
Definition balancers_map (l : list (string * list (key.Service * list key.Real))) : gmap string services_ :=
  foldl (fun m b => <[b.1 := services_map b.2]> m) ∅ l.

Definition entry_sayable (s : key.Service * list key.Real) : Prop := service_sayable s.1 /\ Forall real_sayable s.2.

(** A loop over messages, each of which decodes, is the fold over what they
    denote. *)
Lemma decode_loop {A M S} (msg : A -> M) (body : M -> S -> res convertError S) (step : S -> A -> S) (P : A -> Prop) :
  (forall a s, P a -> body (msg a) s = Ok (step s a)) ->
  forall l s, Forall P l -> for_each_err body (msg <$> l) s = Ok (foldl step s l).
Proof.
  intros Hb. induction l as [|a l IH]; intros s Hl; [done|]. apply Forall_cons in Hl as [Ha Hl].
  cbn [fmap list_fmap for_each_err]. rewrite Hb by done. by apply IH.
Qed.


(** A service whose protocol is neither TCP nor UDP is never found in the
    state: what comes back for it is the key of another protocol, so its reals
    are never seen to appear in the load balancer. *)
Theorem other_protocol_lost (s s' : key.Service) :
  key.Proto s ∉ ["TCP"; "UDP"; "UNDEFINED"]%string ->
  fmtFromProtoService (Some (service_key s)) = Ok s' -> s' <> s.
Proof.
  intros Hp. unfold fmtFromProtoService, service_key. cbn [SIp SProto SPortOpt].
  destruct (fmtFromProtoAddr _) as [ip|]; [|done]. intros [= <-] Heq. apply Hp. rewrite <- Heq. cbn [key.Proto].
  unfold fmtToProtoProtocol. rewrite !decide_False by set_solver. rewrite undefined_name.
  change (ToUpper "undefined") with "UNDEFINED"%string. set_solver.
Qed.
End keys.

(** ** Names of methods *)

Section names.

Lemma fields_func_word w : forall l cur, Forall (fun b => is_separator b = false) w ->
  fields_func (w ++ l) cur = fields_func l (cur ++ w).
Proof.
  induction w as [|b w IH]; intros l cur Hw; cbn [app]; [by rewrite app_nil_r|].
  apply Forall_cons in Hw as [Hb Hw]. cbn [fields_func]. rewrite Hb, IH by done. by rewrite <- app_assoc.
Qed.

Lemma fields_func_end w : w <> [] -> Forall (fun b => is_separator b = false) w -> fields_func w [] = [w].
Proof.
  intros Hn Hw. rewrite <- (app_nil_r w) at 1. rewrite fields_func_word by done. cbn [fields_func app].
  by rewrite decide_False.
Qed.

Lemma fields_func_sep b w l : is_separator b = true -> w <> [] -> Forall (fun b => is_separator b = false) w ->
  fields_func (w ++ b :: l) [] = w :: fields_func l [].
Proof.
  intros Hb Hn Hw. rewrite fields_func_word by done. cbn [fields_func app]. rewrite Hb, decide_False by done. done.
Qed.

(** The connection of a call is found by its name: from a full method name -
    package, service and method - the service and the method are read back,
    however many parts the package has. *)
Theorem split_method_spec (method package : list Z) (service name : string) :
  method = 47 :: package ++ 46 :: bytes_of service ++ 47 :: bytes_of name ->
  service <> "" -> name <> "" -> bytes_of (of_bytes method) = method ->
  Forall (fun b => is_separator b = false) (bytes_of service) -> Forall (fun b => is_separator b = false) (bytes_of name) ->
  split_method (E := unit) (of_bytes method) = Ok (service, name).
Proof.
  intros Hm Hs Hn Hb Fs Fn. unfold split_method. rewrite Hb, Hm.
  assert (forall s, s <> "" -> bytes_of s <> []) as Hne by (intros [|c s]; done).
  assert (forall l cur, exists pre, fields_func (l ++ 46 :: bytes_of service ++ 47 :: bytes_of name) cur =
    pre ++ [bytes_of service; bytes_of name]) as H.
  { induction l as [|b l IH]; intros cur.
    - cbn [app fields_func]. change (is_separator 46) with true. cbv iota.
      rewrite fields_func_sep by auto. rewrite fields_func_end by auto. eauto.
    - cbn [app fields_func]. destruct (is_separator b); [|apply IH].
      destruct (IH []) as [pre ->]. rewrite app_assoc. eauto. }
  cbn [fields_func]. change (is_separator 47) with true. cbv iota. rewrite decide_True by done. cbn [app].
  destruct (H package []) as [pre ->]. rewrite reverse_app. cbn. by rewrite !of_bytes_bytes.
Qed.
End names.

(** ** Calls over a stream *)

(** A connection as two streams: what has been written, and what is to be read,
    in pieces as the kernel delivers them; dialing is counted. *)
Record Stream := MkStream { outgoing : list Z; incoming : list (list Z); dials : nat }.

Definition stream_network : network (W := Stream) (E := unit) := {|
  Dial := fun _ s => (None, MkStream (outgoing s) (incoming s) (S (dials s)));
  Write := fun b s => (None, MkStream (outgoing s ++ b) (incoming s) (dials s));
  Read := fun k s =>
    match incoming s with
    | [] => (Err tt, s)
    | c :: cs =>
        if (length c <=? k)%nat then (Ok c, MkStream (outgoing s) cs (dials s))
        else (Ok (take k c), MkStream (outgoing s) (drop k c :: cs) (dials s))
    end;
  Close := fun s => s;
|}.

Section stream.
Context {Msg : Type} (c : codec (E := unit) (Msg := Msg)).

(** A message on the wire: its length in eight bytes, then its bytes. *)
Definition frame (b : list Z) : list Z := le_bytes 8 (Z.of_nat (length b)) ++ b.

Definition pieces_ok (s : Stream) : Prop := Forall (fun p => p <> []) (incoming s).

Lemma read_full_stream fuel : forall size buf data rest s,
  pieces_ok s -> concat (incoming s) = data ++ rest -> size = (length buf + length data)%nat -> (length data <= fuel)%nat ->
  exists s', read_full stream_network fuel size buf s = Some (Ok (buf ++ data), s') /\
    concat (incoming s') = rest /\ outgoing s' = outgoing s /\ dials s' = dials s /\ pieces_ok s'.
Proof.
  induction fuel as [|fuel IH]; intros size buf data rest s Hp Hc -> Hf.
  - destruct data; [|simpl in Hf; lia]. cbn [read_full].
    replace (_ <=? _)%nat with true by (symmetry; apply Nat.leb_le; simpl; lia). rewrite app_nil_r. eauto 10.
  - cbn [read_full]. destruct (Nat.leb_spec (length buf + length data) (length buf)).
    { destruct data; [|simpl in *; lia]. rewrite app_nil_r. eauto 10. }
    replace (length buf + length data - length buf)%nat with (length data) by lia. cbn [stream_network Read].
    destruct s as [out inc ds]. unfold pieces_ok in *. cbn [incoming outgoing dials] in *.
    destruct inc as [|p ps]; [destruct data; [simpl in *; lia|done]|].
    apply Forall_cons in Hp as [Hne Hps]. cbn [concat] in Hc.
    assert (1 <= length p)%nat by (destruct p; [done|simpl; lia]).
    destruct (Nat.leb_spec (length p) (length data)) as [Hle|Hgt].
    + assert (data = p ++ drop (length p) data) as Hd.
      { apply (f_equal (take (length p))) in Hc. rewrite take_app_length, take_app_le in Hc by done.
        rewrite Hc at 1. by rewrite take_drop. }
      edestruct (IH (length buf + length data)%nat (buf ++ p) (drop (length p) data) rest (MkStream out ps ds))
        as (s' & Hr & H1 & H2 & H3 & H4); cbn [incoming outgoing dials]; [done| | | |].
      * rewrite Hd in Hc. rewrite <- app_assoc in Hc. by apply app_inv_head in Hc.
      * rewrite length_app, length_drop. lia.
      * rewrite length_drop. lia.
      * exists s'. split_and!; [|done..]. rewrite Hr, <- app_assoc. by rewrite <- Hd.
    + assert (take (length data) p = data /\ drop (length data) p ++ concat ps = rest) as [Ht Hdr].
      { rewrite <- (take_drop (length data) p), <- app_assoc in Hc. apply app_inj_1 in Hc; [done|]. rewrite length_take. lia. }
      destruct fuel as [|fuel].
      * cbn [read_full]. replace (_ <=? _)%nat with true
          by (symmetry; apply Nat.leb_le; rewrite Ht, length_app; lia).
        rewrite Ht. eexists. split_and!; [done|done|done|done|]. constructor; [|done].
        intros Hnil. apply (f_equal length) in Hnil. rewrite length_drop in Hnil. simpl in Hnil. lia.
      * cbn [read_full]. replace (_ <=? _)%nat with true
          by (symmetry; apply Nat.leb_le; rewrite Ht, length_app; lia).
        rewrite Ht. eexists. split_and!; [done|done|done|done|]. constructor; [|done].
        intros Hnil. apply (f_equal length) in Hnil. rewrite length_drop in Hnil. simpl in Hnil. lia.
Qed.

Lemma send_stream m msg b s : Marshal c msg = Ok b -> Z.of_nat (length b) < 2 ^ 64 ->
  send stream_network c m msg s = (None, m, MkStream (outgoing s ++ frame b) (incoming s) (dials s)).
Proof.
  intros Hb Hl. unfold send. rewrite Hb. cbn [stream_network Write outgoing incoming dials].
  rewrite Z.mod_small by lia. unfold frame. by rewrite app_assoc.
Qed.

Lemma recv_stream fuel m out b msg rest s :
  pieces_ok s -> concat (incoming s) = frame b ++ rest -> Z.of_nat (length b) < two63 -> (8 + length b <= fuel)%nat ->
  Unmarshal c b = Ok msg ->
  exists s', recv stream_network c fuel m out s = Some (Ok (if decide (b = []) then out else msg), m, s') /\
    concat (incoming s') = rest /\ outgoing s' = outgoing s /\ dials s' = dials s.
Proof.
  intros Hp Hc Hl Hf Hu. unfold frame in Hc. rewrite <- app_assoc in Hc. unfold recv.
  destruct (read_full_stream fuel 8 [] (le_bytes 8 (Z.of_nat (length b))) (b ++ rest) s Hp Hc) as (s1 & -> & H1 & H2 & H3 & H4);
    [by rewrite le_bytes_length|rewrite le_bytes_length; lia|].
  cbn [app]. rewrite le_value_bytes by (change (256 ^ Z.of_nat 8) with (2 * two63); lia).
  destruct (decide (b = [])) as [->|Hb].
  - cbn. exists s1. done.
  - assert (1 <= length b)%nat by (destruct b; [done|simpl; lia]).
    replace (_ =? 0) with false by (symmetry; apply Z.eqb_neq; lia).
    replace (two63 <=? _) with false by (symmetry; apply Z.leb_gt; lia). rewrite Nat2Z.id.
    destruct (read_full_stream fuel (length b) [] b rest s1 H4 H1) as (s2 & -> & G1 & G2 & G3 & G4); [done|lia|].
    cbn [app]. rewrite Hu. exists s2. split_and!; congruence.
Qed.

(** C24: a call sends the frames of its metadata and its request and returns the
    message of the answer's frame, in whatever pieces the kernel delivers it;
    what follows the frame stays in the stream for the next call.  A closed
    connection is dialed first, and only then.  (An empty answer leaves the out
    parameter as it was.) *)
Theorem Invoke_roundtrip (fuel : nat) (m : rpcConn) (meta req out msg : Msg) (bm br b rest : list Z) (s : Stream) :
  Marshal c meta = Ok bm -> Marshal c req = Ok br -> Unmarshal c b = Ok msg ->
  Z.of_nat (length bm) < 2 ^ 64 -> Z.of_nat (length br) < 2 ^ 64 -> Z.of_nat (length b) < two63 ->
  (8 + length b <= fuel)%nat -> pieces_ok s -> concat (incoming s) = frame b ++ rest ->
  exists s', conn_Invoke stream_network c fuel m meta req out s =
      Some (Ok (if decide (b = []) then out else msg), set_closed false m, s') /\
    outgoing s' = outgoing s ++ frame bm ++ frame br /\ concat (incoming s') = rest /\
    dials s' = (if closed m then S (dials s) else dials s).
Proof.
  intros Hm Hr Hu Lm Lr Lb Hf Hp Hc. unfold conn_Invoke.
  assert (open stream_network m s = (None, set_closed false m, MkStream (outgoing s) (incoming s) (if closed m then S (dials s) else dials s))) as ->.
  { unfold open, set_closed. destruct m as [me [] re]; [done|]. by destruct s. }
  set (s0 := MkStream _ _ _). rewrite (send_stream _ meta bm s0) by done. rewrite (send_stream _ req br) by done.
  cbn [incoming outgoing dials].
  edestruct (recv_stream fuel (set_closed false m) out b msg rest (MkStream ((outgoing s0 ++ frame bm) ++ frame br) (incoming s0) (dials s0)))
    as (s' & -> & H1 & H2 & H3); [exact Hp|exact Hc|done|done|done|].
  exists s'. split_and!; [done| |done|done]. rewrite H2. cbn [outgoing s0]. by rewrite <- app_assoc.
Qed.
End stream.

(** ** Errors of a call *)

Section failures.
Context {W E Msg : Type} (n : network (W := W) (E := E)) (c : codec (E := E) (Msg := Msg)).

(** Errors of the network. *)
Definition is_io (e : rpcError (E := E)) : bool :=
  match e with ErrDial _ | ErrWrite _ | ErrReadSize _ | ErrRead _ => true | _ => false end.

Lemma send_closed m msg w err m' w' : closed m = false -> send n c m msg w = (err, m', w') ->
  method m' = method m /\ closed m' = match err with Some e => is_io e | None => false end.
Proof.
  intros Hm. unfold send, fail, close. rewrite Hm.
  destruct (Marshal c msg) as [b|e]; [|by intros [= <- <- <-]].
  destruct (Write n _ w) as [[e|] w1]; [by intros [= <- <- <-]|].
  destruct (Write n b w1) as [[e|] w2]; by intros [= <- <- <-].
Qed.

Lemma recv_closed fuel m out w r m' w' : closed m = false -> recv n c fuel m out w = Some (r, m', w') ->
  method m' = method m /\ closed m' = match r with Err e => is_io e | Ok _ => false end.
Proof.
  intros Hm. unfold recv, close. rewrite Hm.
  destruct (read_full n fuel 8 [] w) as [[[b|e] w1]|]; [| |done]; [|by intros [= <- <- <-]].
  destruct (_ =? 0); [by intros [= <- <- <-]|]. destruct (two63 <=? _); [by intros [= <- <- <-]|].
  destruct (read_full n fuel _ [] w1) as [[[b'|e] w2]|]; [| |done]; [|by intros [= <- <- <-]].
  destruct (Unmarshal c b'); by intros [= <- <- <-].
Qed.

End failures.

(** A request that cannot be serialized leaves the connection out of step:
    the metadata has been sent, the connection stays open, and the next call
    sends its own metadata where the server expects the request. *)
Theorem unserializable_request_desynchronises {Msg} (c : codec (E := unit) (Msg := Msg)) (fuel : nat) (m : rpcConn)
    (meta req out : Msg) (bm : list Z) (s : Stream) :
  closed m = false -> Marshal c meta = Ok bm -> Z.of_nat (length bm) < 2 ^ 64 -> Marshal c req = Err tt ->
  conn_Invoke stream_network c fuel m meta req out s =
    Some (Err (Wrapped (method m) (ErrSerialize tt)), m, MkStream (outgoing s ++ frame bm) (incoming s) (dials s)).
Proof.
  intros Hc Hm Hl Hr. unfold conn_Invoke, open. rewrite Hc. cbn [negb]. rewrite (send_stream c m meta bm s) by done.
  unfold send. by rewrite Hr.
Qed.

(** ** Concrete calls *)

Section concrete.
#[local] Instance names : NetProtos := {|
  NetProto := nat;
  NetProto_tcp := 0%nat;
  NetProto_udp := 1%nat;
  NetProto_undefined := 2%nat;
  NetProto_String p := match p with 0%nat => "tcp" | 1%nat => "udp" | _ => "undefined" end%string;
|}.
#[local] Instance names_laws : NetProtoLaws.
Proof. split; reflexivity. Qed.

Definition web : key.Service := key.MkService (AddrV4 167772161) 80 "TCP".
Definition host : key.Real := key.MkReal (AddrV6 7 "") port.Omitted.

Lemma web_sayable : service_sayable web.
Proof. split_and!; [split; [simpl; lia|done]|right; simpl; lia|by left]. Qed.
Lemma host_sayable : real_sayable host.
Proof. split; [split; [simpl; lia|done]|by left]. Qed.

Lemma request_key_roundtrip_witness :
  let r := real_request (key.MkBalancer web host) true 5 in
  fmtFromProtoService (Some (MkServiceKey (Some (VirtualIp r)) (RProto r) (VirtualPortOpt r))) = Ok web /\
  fmtFromProtoReal (MkRealMsg (Some (RealIp r)) (RealPortOpt r)) = Ok host /\
  REnable r = true /\ WeightOpt r = Some 5.
Proof. exact (request_key_roundtrip (key.MkBalancer web host) true 5 web_sayable host_sayable). Defined.

Definition answer : list (string * list (key.Service * list key.Real)) := [("balancer0", [(web, [host; host])]); ("balancer1", [])]%string.


Definition stun : key.Service := key.MkService (AddrV4 1) 3478 "SCTP".

Lemma other_protocol_lost_witness : key.MkService (AddrV4 1) 3478 "UNDEFINED" <> stun.
Proof. apply (other_protocol_lost stun (key.MkService (AddrV4 1) 3478 "UNDEFINED")); [set_solver|reflexivity]. Defined.

Lemma split_method_spec_witness :
  split_method (E := unit) "/common.icp_proto.BalancerService/Real" = Ok ("BalancerService", "Real")%string.
Proof.
  apply (split_method_spec (bytes_of "/common.icp_proto.BalancerService/Real") (bytes_of "common.icp_proto") "BalancerService" "Real");
    first [reflexivity|discriminate|apply (bool_decide_unpack _); vm_compute; exact I].
Defined.

(** Messages that are their own serialization; a negative byte has none. *)
Definition raw : codec (E := unit) (Msg := list Z) :=
  MkCodec (fun m => if existsb (fun b => b <? 0) m then Err tt else Ok m) Ok.

Definition conn (closed : bool) : rpcConn := MkRpcConn "Real" closed "/run/yanet.sock".
Definition answered : Stream := MkStream [] [[3; 0; 0]; [0; 0; 0; 0; 0; 7]; [8; 9; 1; 0]] 0.

Lemma Invoke_roundtrip_witness :
  exists s', conn_Invoke stream_network raw 20 (conn true) [1] [2; 2] [] answered = Some (Ok [7; 8; 9], conn false, s') /\
    outgoing s' = [1; 0; 0; 0; 0; 0; 0; 0; 1; 2; 0; 0; 0; 0; 0; 0; 0; 2; 2] /\ concat (incoming s') = [1; 0] /\ dials s' = 1%nat.
Proof.
  apply (Invoke_roundtrip raw 20 (conn true) [1] [2; 2] [] [7; 8; 9] [1] [2; 2] [7; 8; 9] [1; 0] answered);
    first [reflexivity|cbn; lia|apply (bool_decide_unpack _); vm_compute; exact I].
Defined.

Definition broken : Stream := MkStream [] [[3; 0; 0]] 0.


Lemma unserializable_witness :
  conn_Invoke stream_network raw 20 (conn false) [1] [-1] [] answered =
    Some (Err (Wrapped "Real" (ErrSerialize tt)), conn false, MkStream [1; 0; 0; 0; 0; 0; 0; 0; 1] (incoming answered) 0).
Proof.
  apply (unserializable_request_desynchronises raw 20 (conn false) [1] [-1] [] [1] answered); reflexivity.
Defined.
End concrete.
