(* ===== verification/Metrics.v ===== *)
(** * Metrics

    [internal/monitoring/metrics]: scopes, unions of metrics, the provider on
    top of prometheus; and the metrics of the core, services, reals and checkers.
    The prometheus library is a parameter; what is done to its metrics is a list
    of operations. *)

From Stdlib Require Import SpecFloat.
From stdpp Require Import strings numbers gmap sets list.
From S2P Require Import Prelude.
From S2P Require Import Types.
From S2P Require Import Scheduler.
From S2P Require Import Check.
From S2P Require Import Bytes.
From S2P Require Import Text.
From S2P Require Import Decoder.

Open Scope Z_scope.

(** ** metrics.go, options.go *)

Notation Labels := (gmap string string).

Inductive MetricType :=
| CounterMetric | GaugeMetric | HistogramMetric | CounterVecMetric | GaugeVecMetric | HistogramVecMetric
| OtherMetric (n : Z).

Definition MetricType_String (m : MetricType) : string :=
  match m with
  | CounterMetric => "counter"
  | GaugeMetric => "gauge"
  | HistogramMetric => "histogram"
  | CounterVecMetric => "counter_vec"
  | GaugeVecMetric => "gauge_vec"
  | HistogramVecMetric => "histogram_vec"
  | OtherMetric n => "unknown(" +:+ Itoa n +:+ ")"
  end.

Record MetricOpts := MkMetricOpts { ConstLabels : Labels; Description : string }.

Inductive MetricOption := WithDescription (description : string) | WithConstLabels (labels : Labels).

Definition apply_option (o : MetricOption) (opts : MetricOpts) : MetricOpts :=
  match o with
  | WithDescription d => MkMetricOpts (ConstLabels opts) d
  | WithConstLabels l => MkMetricOpts l (Description opts)
  end.

Definition applyOpts (opts : list MetricOption) : MetricOpts := for_each apply_option opts (MkMetricOpts ∅ "").

(** The options of prometheus' constructors. *)
Record desc := MkDesc { dname : string; dhelp : string; dconst : Labels; dbuckets : list float64; dlabels : list string }.

Inductive kind := KCounter | KGauge | KHistogram.

(** Prometheus: metrics and vectors of metrics, made from their options, and what
    its vectors return for labels; a registry is part of the world. *)
Class Prometheus := {
  promError : Type;
  Prim : Type;
  Vec : Type;
  NewPrim : kind -> desc -> Prim;
  NewVec : kind -> desc -> Vec;
  vec_GetMetricWith : Vec -> Labels -> res promError Prim;
  vec_CurryWith : Vec -> Labels -> res promError Vec;
}.

Section metrics.
Context `{PR : Prometheus}.

(** An operation on a metric of prometheus. *)
Inductive op :=
| OpInc (p : Prim)
| OpAdd (p : Prim) (v : float64)
| OpSub (p : Prim) (v : float64)
| OpSet (p : Prim) (v : float64)
| OpObserve (p : Prim) (v : float64)
| OpDelete (v : Vec) (l : Labels)
| OpDeletePartialMatch (v : Vec) (l : Labels).

(** ** The interfaces and what implements them: nop.go, union.go, prometheus *)

Inductive Counter := NopCounter | PromCounter (p : Prim) | CounterUnion (l : list Counter).
Inductive Gauge := NopGauge | PromGauge (p : Prim) | GaugeUnion (l : list Gauge).
Inductive Histogram := NopHistogram | PromHistogram (p : Prim) | HistogramUnion (l : list Histogram).
Inductive CounterVec := NopCounterVec | PromCounterVec (v : Vec) | CounterVecUnion (l : list CounterVec).
Inductive GaugeVec := NopGaugeVec | PromGaugeVec (v : Vec) | GaugeVecUnion (l : list GaugeVec).
Inductive HistogramVec := NopHistogramVec | PromHistogramVec (v : Vec) | HistogramVecUnion (l : list HistogramVec).

(** The methods of [NopProvider]. *)
Definition Nop_GetCounter (_ : string) (_ : list MetricOption) : Counter := NopCounter.
Definition Nop_GetGauge (_ : string) (_ : list MetricOption) : Gauge := NopGauge.
Definition Nop_GetHistogram (_ : string) (_ : list float64) (_ : list MetricOption) : Histogram := NopHistogram.
Definition Nop_GetCounterVec (_ : string) (_ : list string) (_ : list MetricOption) : CounterVec := NopCounterVec.
Definition Nop_GetGaugeVec (_ : string) (_ : list string) (_ : list MetricOption) : GaugeVec := NopGaugeVec.
Definition Nop_GetHistogramVec (_ : string) (_ : list float64) (_ : list string) (_ : list MetricOption) : HistogramVec := NopHistogramVec.

(** The constructors of the unions. *)
Definition NewGaugeUnion (gauges : list Gauge) : Gauge := GaugeUnion gauges.
Definition NewHistogramUnion (histograms : list Histogram) : Histogram := HistogramUnion histograms.
Definition NewCounterVecUnion (counterVecs : list CounterVec) : CounterVec := CounterVecUnion counterVecs.

Fixpoint Counter_Inc (c : Counter) : list op :=
  match c with NopCounter => [] | PromCounter p => [OpInc p] | CounterUnion l => flat_map Counter_Inc l end.
Fixpoint Counter_Add (v : float64) (c : Counter) : list op :=
  match c with NopCounter => [] | PromCounter p => [OpAdd p v] | CounterUnion l => flat_map (Counter_Add v) l end.

Fixpoint Gauge_Add (v : float64) (g : Gauge) : list op :=
  match g with NopGauge => [] | PromGauge p => [OpAdd p v] | GaugeUnion l => flat_map (Gauge_Add v) l end.
Fixpoint Gauge_Sub (v : float64) (g : Gauge) : list op :=
  match g with NopGauge => [] | PromGauge p => [OpSub p v] | GaugeUnion l => flat_map (Gauge_Sub v) l end.
Fixpoint Gauge_Set (v : float64) (g : Gauge) : list op :=
  match g with NopGauge => [] | PromGauge p => [OpSet p v] | GaugeUnion l => flat_map (Gauge_Set v) l end.

Fixpoint Histogram_Observe (v : float64) (h : Histogram) : list op :=
  match h with NopHistogram => [] | PromHistogram p => [OpObserve p v] | HistogramUnion l => flat_map (Histogram_Observe v) l end.

(** prometheus/countervec.go, gaugevec.go, histogramvec.go: what cannot be made is
    logged and replaced by what does nothing. *)
Definition newCounterVec (opts : desc) : Vec := NewVec KCounter opts.

Definition PromCounterVec_GetMetricWith (v : Vec) (labels : Labels) : Counter :=
  match vec_GetMetricWith v labels with Ok p => PromCounter p | Err _ => NopCounter end.

Definition PromCounterVec_CurryWith (v : Vec) (labels : Labels) : CounterVec :=
  match vec_CurryWith v labels with Ok v => PromCounterVec v | Err _ => NopCounterVec end.

Definition PromCounterVec_DeletePartialMatch (v : Vec) (labels : Labels) : list op := [OpDeletePartialMatch v labels].
Definition PromCounterVec_Delete (v : Vec) (labels : Labels) : list op := [OpDelete v labels].

Definition newGaugeVec (opts : desc) : Vec := NewVec KGauge opts.

Definition PromGaugeVec_GetMetricWith (v : Vec) (labels : Labels) : Gauge :=
  match vec_GetMetricWith v labels with Ok p => PromGauge p | Err _ => NopGauge end.

Definition PromGaugeVec_CurryWith (v : Vec) (labels : Labels) : GaugeVec :=
  match vec_CurryWith v labels with Ok v => PromGaugeVec v | Err _ => NopGaugeVec end.

Definition PromGaugeVec_DeletePartialMatch (v : Vec) (labels : Labels) : list op := [OpDeletePartialMatch v labels].
Definition PromGaugeVec_Delete (v : Vec) (labels : Labels) : list op := [OpDelete v labels].

Definition newHistogramVec (opts : desc) : Vec := NewVec KHistogram opts.

Definition PromHistogramVec_GetMetricWith (v : Vec) (labels : Labels) : Histogram :=
  match vec_GetMetricWith v labels with Ok p => PromHistogram p | Err _ => NopHistogram end.

Definition PromHistogramVec_CurryWith (v : Vec) (labels : Labels) : HistogramVec :=
  match vec_CurryWith v labels with Ok v => PromHistogramVec v | Err _ => NopHistogramVec end.

Definition PromHistogramVec_DeletePartialMatch (v : Vec) (labels : Labels) : list op := [OpDeletePartialMatch v labels].
Definition PromHistogramVec_Delete (v : Vec) (labels : Labels) : list op := [OpDelete v labels].

Fixpoint CounterVec_GetMetricWith (labels : Labels) (c : CounterVec) : Counter :=
  match c with
  | NopCounterVec => NopCounter
  | PromCounterVec v => PromCounterVec_GetMetricWith v labels
  | CounterVecUnion l => CounterUnion (map (CounterVec_GetMetricWith labels) l)
  end.
Fixpoint CounterVec_CurryWith (labels : Labels) (c : CounterVec) : CounterVec :=
  match c with
  | NopCounterVec => NopCounterVec
  | PromCounterVec v => PromCounterVec_CurryWith v labels
  | CounterVecUnion l => CounterVecUnion (map (CounterVec_CurryWith labels) l)
  end.
Fixpoint CounterVec_Delete (labels : Labels) (c : CounterVec) : list op :=
  match c with
  | NopCounterVec => []
  | PromCounterVec v => PromCounterVec_Delete v labels
  | CounterVecUnion l => flat_map (CounterVec_Delete labels) l
  end.
Fixpoint CounterVec_DeletePartialMatch (labels : Labels) (c : CounterVec) : list op :=
  match c with
  | NopCounterVec => []
  | PromCounterVec v => PromCounterVec_DeletePartialMatch v labels
  | CounterVecUnion l => flat_map (CounterVec_DeletePartialMatch labels) l
  end.

Fixpoint GaugeVec_GetMetricWith (labels : Labels) (g : GaugeVec) : Gauge :=
  match g with
  | NopGaugeVec => NopGauge
  | PromGaugeVec v => PromGaugeVec_GetMetricWith v labels
  | GaugeVecUnion l => GaugeUnion (map (GaugeVec_GetMetricWith labels) l)
  end.
Fixpoint GaugeVec_CurryWith (labels : Labels) (g : GaugeVec) : GaugeVec :=
  match g with
  | NopGaugeVec => NopGaugeVec
  | PromGaugeVec v => PromGaugeVec_CurryWith v labels
  | GaugeVecUnion l => GaugeVecUnion (map (GaugeVec_CurryWith labels) l)
  end.
Fixpoint GaugeVec_Delete (labels : Labels) (g : GaugeVec) : list op :=
  match g with
  | NopGaugeVec => []
  | PromGaugeVec v => PromGaugeVec_Delete v labels
  | GaugeVecUnion l => flat_map (GaugeVec_Delete labels) l
  end.
Fixpoint GaugeVec_DeletePartialMatch (labels : Labels) (g : GaugeVec) : list op :=
  match g with
  | NopGaugeVec => []
  | PromGaugeVec v => PromGaugeVec_DeletePartialMatch v labels
  | GaugeVecUnion l => flat_map (GaugeVec_DeletePartialMatch labels) l
  end.

Fixpoint HistogramVec_GetMetricWith (labels : Labels) (h : HistogramVec) : Histogram :=
  match h with
  | NopHistogramVec => NopHistogram
  | PromHistogramVec v => PromHistogramVec_GetMetricWith v labels
  | HistogramVecUnion l => HistogramUnion (map (HistogramVec_GetMetricWith labels) l)
  end.
Fixpoint HistogramVec_CurryWith (labels : Labels) (h : HistogramVec) : HistogramVec :=
  match h with
  | NopHistogramVec => NopHistogramVec
  | PromHistogramVec v => PromHistogramVec_CurryWith v labels
  | HistogramVecUnion l => HistogramVecUnion (map (HistogramVec_CurryWith labels) l)
  end.
Fixpoint HistogramVec_Delete (labels : Labels) (h : HistogramVec) : list op :=
  match h with
  | NopHistogramVec => []
  | PromHistogramVec v => PromHistogramVec_Delete v labels
  | HistogramVecUnion l => flat_map (HistogramVec_Delete labels) l
  end.
Fixpoint HistogramVec_DeletePartialMatch (labels : Labels) (h : HistogramVec) : list op :=
  match h with
  | NopHistogramVec => []
  | PromHistogramVec v => PromHistogramVec_DeletePartialMatch v labels
  | HistogramVecUnion l => flat_map (HistogramVec_DeletePartialMatch labels) l
  end.

(** ** prometheus/registry.go *)

Inductive Collector := CPrim (p : Prim) | CVec (v : Vec).

(** The operations of a registry of prometheus, [W]; [Register] may refuse. *)
Context {W : Type}.

Record registry_ops := MkRegistryOps {
  NewRegistry : W;
  Register : Collector -> W -> option promError * W;
  Unregister : Collector -> W -> W;
}.

Context `{MR : MapRange} (ops : registry_ops).

Definition GetOrCreateMetric {T} (coll : T -> Collector) (name : string) (constructor : T) (metrics : gmap string T) (w : W) :
    res promError T * gmap string T * W :=
  match metrics !! name with
  | Some metric => (Ok metric, metrics, w)
  | None =>
      match Register ops (coll constructor) w with
      | (Some e, w) => (Err e, metrics, w)
      | (None, w) => (Ok constructor, <[name := constructor]> metrics, w)
      end
  end.

Definition DeleteMetric {T} (coll : T -> Collector) (name : string) (metrics : gmap string T) (w : W) : gmap string T * W :=
  match metrics !! name with
  | Some metric => (delete name metrics, Unregister ops (coll metric) w)
  | None => (metrics, w)
  end.

Definition Registry_Shutdown {T} (coll : T -> Collector) (metrics : gmap string T) (w : W) : gmap string T * W :=
  (∅, for_range metrics (fun _ metric w => Unregister ops (coll metric) w) w).

(** ** prometheus/metrics.go *)

(** A provider, with a registry of prometheus of its own. *)
Record Provider := MkProvider {
  registry : W;
  counters : gmap string Prim;
  gauges : gmap string Prim;
  histograms : gmap string Prim;
  countersVec : gmap string Vec;
  gaugesVec : gmap string Vec;
  histogramsVec : gmap string Vec;
}.

Definition NewProvider : Provider := MkProvider (NewRegistry ops) ∅ ∅ ∅ ∅ ∅ ∅.

Definition opts_desc (name : string) (buckets : list float64) (labelNames : list string) (opts : list MetricOption) : desc :=
  let options := applyOpts opts in MkDesc name (Description options) (ConstLabels options) buckets labelNames.

(** A metric that cannot be registered is logged and replaced by one that does
    nothing. *)
Definition GetCounter (name : string) (opts : list MetricOption) (m : Provider) :
    Counter * Provider :=
  let '(r, c, w) := GetOrCreateMetric CPrim name (NewPrim KCounter (opts_desc name [] [] opts)) (counters m) (registry m) in
  (match r with Ok p => PromCounter p | Err _ => NopCounter end,
   MkProvider w c (gauges m) (histograms m) (countersVec m) (gaugesVec m) (histogramsVec m)).

Definition GetGauge (name : string) (opts : list MetricOption) (m : Provider) :
    Gauge * Provider :=
  let '(r, c, w) := GetOrCreateMetric CPrim name (NewPrim KGauge (opts_desc name [] [] opts)) (gauges m) (registry m) in
  (match r with Ok p => PromGauge p | Err _ => NopGauge end,
   MkProvider w (counters m) c (histograms m) (countersVec m) (gaugesVec m) (histogramsVec m)).

Definition GetHistogram (name : string) (buckets : list float64) (opts : list MetricOption) (m : Provider) :
    Histogram * Provider :=
  let '(r, c, w) := GetOrCreateMetric CPrim name (NewPrim KHistogram (opts_desc name buckets [] opts)) (histograms m) (registry m) in
  (match r with Ok p => PromHistogram p | Err _ => NopHistogram end,
   MkProvider w (counters m) (gauges m) c (countersVec m) (gaugesVec m) (histogramsVec m)).

Definition GetCounterVec (name : string) (labelNames : list string) (opts : list MetricOption) (m : Provider) :
    CounterVec * Provider :=
  let '(r, c, w) := GetOrCreateMetric CVec name (newCounterVec (opts_desc name [] labelNames opts)) (countersVec m) (registry m) in
  (match r with Ok p => PromCounterVec p | Err _ => NopCounterVec end,
   MkProvider w (counters m) (gauges m) (histograms m) c (gaugesVec m) (histogramsVec m)).

Definition GetGaugeVec (name : string) (labelNames : list string) (opts : list MetricOption) (m : Provider) :
    GaugeVec * Provider :=
  let '(r, c, w) := GetOrCreateMetric CVec name (newGaugeVec (opts_desc name [] labelNames opts)) (gaugesVec m) (registry m) in
  (match r with Ok p => PromGaugeVec p | Err _ => NopGaugeVec end,
   MkProvider w (counters m) (gauges m) (histograms m) (countersVec m) c (histogramsVec m)).

Definition GetHistogramVec (name : string) (buckets : list float64) (labelNames : list string) (opts : list MetricOption) (m : Provider) :
    HistogramVec * Provider :=
  let '(r, c, w) := GetOrCreateMetric CVec name (newHistogramVec (opts_desc name buckets labelNames opts)) (histogramsVec m) (registry m) in
  (match r with Ok p => PromHistogramVec p | Err _ => NopHistogramVec end,
   MkProvider w (counters m) (gauges m) (histograms m) (countersVec m) (gaugesVec m) c).

Definition UnregisterMetric (metricType : MetricType) (name : string) (m : Provider) : Provider :=
  let '(MkProvider w c g h cv gv hv) := m in
  match metricType with
  | CounterMetric => let '(c, w) := DeleteMetric CPrim name c w in MkProvider w c g h cv gv hv
  | GaugeMetric => let '(g, w) := DeleteMetric CPrim name g w in MkProvider w c g h cv gv hv
  | HistogramMetric => let '(h, w) := DeleteMetric CPrim name h w in MkProvider w c g h cv gv hv
  | CounterVecMetric => let '(cv, w) := DeleteMetric CVec name cv w in MkProvider w c g h cv gv hv
  | GaugeVecMetric => let '(gv, w) := DeleteMetric CVec name gv w in MkProvider w c g h cv gv hv
  | HistogramVecMetric => let '(hv, w) := DeleteMetric CVec name hv w in MkProvider w c g h cv gv hv
  | OtherMetric _ => m
  end.

Definition Provider_Shutdown (m : Provider) : Provider :=
  let '(c, w) := Registry_Shutdown CPrim (counters m) (registry m) in
  let '(g, w) := Registry_Shutdown CPrim (gauges m) w in
  let '(h, w) := Registry_Shutdown CPrim (histograms m) w in
  let '(cv, w) := Registry_Shutdown CVec (countersVec m) w in
  let '(gv, w) := Registry_Shutdown CVec (gaugesVec m) w in
  let '(hv, w) := Registry_Shutdown CVec (histogramsVec m) w in
  MkProvider w c g h cv gv hv.

(** ** scope.go *)

Definition Global : string := "global".
Definition PerService : string := "per_service".

(** The providers of the scopes; the others have the one that does nothing. *)
Record ScopedMetrics := MkScopedMetrics { scopes : gmap string Provider }.

Definition NewScopedMetrics : ScopedMetrics := MkScopedMetrics ∅.

Definition Scope (scope : string) (m : ScopedMetrics) : option Provider := scopes m !! scope.

Definition Set_ (scope : string) (metrics : Provider) (m : ScopedMetrics) : ScopedMetrics :=
  MkScopedMetrics (<[scope := metrics]> (scopes m)).

(** The providers' shutdowns do not fail. The gatherers given out keep the
    providers, which are returned as the shutdown leaves them. *)
Definition ScopedMetrics_Shutdown (m : ScopedMetrics) : ScopedMetrics * gmap string Provider :=
  (MkScopedMetrics ∅, for_range (scopes m) (fun scope metrics done_ => <[scope := Provider_Shutdown metrics]> done_) ∅).

Definition Gatherers (m : ScopedMetrics) : gmap string Provider :=
  for_range (scopes m) (fun scope metrics gatherers => <[scope := metrics]> gatherers) ∅.

(** A call of a scope's provider. *)
Definition scoped {A} (scope : string) (nop : A) (get : Provider -> A * Provider) (m : ScopedMetrics) : A * ScopedMetrics :=
  match Scope scope m with
  | None => (nop, m)
  | Some p => let '(a, p) := get p in (a, Set_ scope p m)
  end.
End metrics.

(** ** core/metrics.go, service/metrics.go, real/metrics.go, checker/metrics.go *)

Section core.
Context `{PR : Prometheus} {W : Type} (ops : registry_ops (W := W)).

(** [Labels] and [LabelNames] of a service's key. *)
Definition Service_Labels (m : key.Service) : Labels :=
  {["vip" := Addr_String (key.Addr m); "vport" := port.String_ (key.Port m); "proto" := key.Proto m]}.

Definition Service_LabelNames : list string := ["vip"; "vport"; "proto"].

Record Core_Metrics := MkCoreMetrics {
  realsEnabled : Gauge;
  realsEnabledPerService : GaugeVec;
  reals : Gauge;
  realsPerService : GaugeVec;
  realsTrasitionPeriod : Histogram;
  realsTrasitionPeriodPerService : HistogramVec;
  realsResponseTime : Histogram;
  realsResponseTimePerService : HistogramVec;
  realsErrors : CounterVec;
  realsErrorsPerService : CounterVec;
}.

Definition transition_buckets : list float64 := (fun z => of_decimal false z 0) <$> [10; 30; 60; 180].
Definition response_buckets : list float64 := (fun z => of_decimal false z (-2)) <$> [1; 5; 10; 15; 30; 50; 100].

Definition NewMetrics (p : ScopedMetrics (W := W)) : Core_Metrics * ScopedMetrics (W := W) :=
  let d s := [WithDescription s] in
  let gauge name s p := scoped Global (Nop_GetGauge name (d s)) (GetGauge ops name (d s)) p in
  let gauge_vec name s p := scoped PerService (Nop_GetGaugeVec name Service_LabelNames (d s)) (GetGaugeVec ops name Service_LabelNames (d s)) p in
  let histogram name b s p := scoped Global (Nop_GetHistogram name b (d s)) (GetHistogram ops name b (d s)) p in
  let histogram_vec name b s p :=
    scoped PerService (Nop_GetHistogramVec name b Service_LabelNames (d s)) (GetHistogramVec ops name b Service_LabelNames (d s)) p in
  let '(re, p) := gauge "reals_enabled" "number of enabled reals" p in
  let '(reps, p) := gauge_vec "reals_enabled" "number of enabled reals for service" p in
  let '(r, p) := gauge "reals" "number of reals" p in
  let '(rps, p) := gauge_vec "reals" "number of reals for service" p in
  let '(rt, p) := histogram "reals_transitions" transition_buckets "observe reals transition period" p in
  let '(rtps, p) := histogram_vec "reals_transitions" transition_buckets "observe reals transition period for service" p in
  let '(rr, p) := histogram "reals_response_duration" response_buckets "observe reals response time" p in
  let '(rrps, p) := histogram_vec "reals_response_duration" response_buckets "observe reals response time for service" p in
  let counter_vec scope names s p :=
    scoped scope (Nop_GetCounterVec "reals_error" names (d s)) (GetCounterVec ops "reals_error" names (d s)) p in
  let '(e, p) := counter_vec Global ["error"] "observe reals errors" p in
  let '(eps, p) := counter_vec PerService (Service_LabelNames ++ ["error"]) "observe reals errors for service" p in
  (MkCoreMetrics re reps r rps rt rtps rr rrps e eps, p).

(** The metrics of a service: its own and the global ones. *)
Definition RealsEnabledForService (serviceLabels : Labels) (m : Core_Metrics) : Gauge :=
  NewGaugeUnion [GaugeVec_GetMetricWith serviceLabels (realsEnabledPerService m); realsEnabled m].

Definition RealsForService (serviceLabels : Labels) (m : Core_Metrics) : Gauge :=
  NewGaugeUnion [GaugeVec_GetMetricWith serviceLabels (realsPerService m); reals m].

Definition RealsTrasitionPeriodForService (serviceLabels : Labels) (m : Core_Metrics) : Histogram :=
  NewHistogramUnion [HistogramVec_GetMetricWith serviceLabels (realsTrasitionPeriodPerService m); realsTrasitionPeriod m].

Definition RealsResponseTimeForService (serviceLabels : Labels) (m : Core_Metrics) : Histogram :=
  NewHistogramUnion [HistogramVec_GetMetricWith serviceLabels (realsResponseTimePerService m); realsResponseTime m].

Definition RealsErrorsForService (serviceLabels : Labels) (m : Core_Metrics) : CounterVec :=
  NewCounterVecUnion [CounterVec_CurryWith serviceLabels (realsErrorsPerService m); realsErrors m].

Definition DeleteService (serviceLabels : Labels) (m : Core_Metrics) : list op :=
  GaugeVec_Delete serviceLabels (realsEnabledPerService m) ++
  GaugeVec_Delete serviceLabels (realsPerService m) ++
  HistogramVec_Delete serviceLabels (realsTrasitionPeriodPerService m) ++
  HistogramVec_Delete serviceLabels (realsResponseTimePerService m) ++
  CounterVec_DeletePartialMatch serviceLabels (realsErrorsPerService m).

(** The metrics of a service, until its start blocks them. *)
Record Service_Metrics := MkServiceMetrics {
  s_reals : Gauge;
  s_realsEnabled : Gauge;
  s_realsTransitionPeriod : Histogram;
  s_realsResponseTime : Histogram;
  s_realsErrors : CounterVec;
  s_isBlocked : bool;
}.

Definition NewServiceMetrics : Service_Metrics := MkServiceMetrics NopGauge NopGauge NopHistogram NopHistogram NopCounterVec false.

Definition Service_Block (m : Service_Metrics) : Service_Metrics :=
  MkServiceMetrics (s_reals m) (s_realsEnabled m) (s_realsTransitionPeriod m) (s_realsResponseTime m) (s_realsErrors m) true.

Definition SetRealsEnabledMetric (gauge : Gauge) (m : Service_Metrics) : Service_Metrics :=
  if s_isBlocked m then m
  else MkServiceMetrics (s_reals m) gauge (s_realsTransitionPeriod m) (s_realsResponseTime m) (s_realsErrors m) (s_isBlocked m).
Definition SetRealsMetric (gauge : Gauge) (m : Service_Metrics) : Service_Metrics :=
  if s_isBlocked m then m
  else MkServiceMetrics gauge (s_realsEnabled m) (s_realsTransitionPeriod m) (s_realsResponseTime m) (s_realsErrors m) (s_isBlocked m).
Definition SetRealsTransitionPeriodMetric (histogram : Histogram) (m : Service_Metrics) : Service_Metrics :=
  if s_isBlocked m then m
  else MkServiceMetrics (s_reals m) (s_realsEnabled m) histogram (s_realsResponseTime m) (s_realsErrors m) (s_isBlocked m).
Definition SetRealsResponseTimeMetric (histogram : Histogram) (m : Service_Metrics) : Service_Metrics :=
  if s_isBlocked m then m
  else MkServiceMetrics (s_reals m) (s_realsEnabled m) (s_realsTransitionPeriod m) histogram (s_realsErrors m) (s_isBlocked m).
Definition SetRealsErrorsMetric (counterVec : CounterVec) (m : Service_Metrics) : Service_Metrics :=
  if s_isBlocked m then m
  else MkServiceMetrics (s_reals m) (s_realsEnabled m) (s_realsTransitionPeriod m) (s_realsResponseTime m) counterVec (s_isBlocked m).

(** What [core.Reload] sets on a new service. *)
Definition service_setters (serviceLabels : Labels) (c : Core_Metrics) : list (Service_Metrics -> Service_Metrics) :=
  [SetRealsEnabledMetric (RealsEnabledForService serviceLabels c);
   SetRealsMetric (RealsForService serviceLabels c);
   SetRealsTransitionPeriodMetric (RealsTrasitionPeriodForService serviceLabels c);
   SetRealsResponseTimeMetric (RealsResponseTimeForService serviceLabels c);
   SetRealsErrorsMetric (RealsErrorsForService serviceLabels c)].

Definition SetMetrics {M} (setMetricFunc : list (M -> M)) (m : M) : M := for_each (fun f m => f m) setMetricFunc m.

Record Real_Metrics := MkRealMetrics {
  realTransitionPeriod : Histogram;
  realResponseTime : Histogram;
  realErrors : CounterVec;
  r_isBlocked : bool;
}.

Definition NewRealMetrics : Real_Metrics := MkRealMetrics NopHistogram NopHistogram NopCounterVec false.

Definition Real_Block (m : Real_Metrics) : Real_Metrics :=
  MkRealMetrics (realTransitionPeriod m) (realResponseTime m) (realErrors m) true.

Definition SetRealErrorsMetric (counterVec : CounterVec) (m : Real_Metrics) : Real_Metrics :=
  if r_isBlocked m then m else MkRealMetrics (realTransitionPeriod m) (realResponseTime m) counterVec (r_isBlocked m).
Definition SetRealResponseTimeMetric (hist : Histogram) (m : Real_Metrics) : Real_Metrics :=
  if r_isBlocked m then m else MkRealMetrics (realTransitionPeriod m) hist (realErrors m) (r_isBlocked m).
Definition SetRealTransitionPeriodMetric (hist : Histogram) (m : Real_Metrics) : Real_Metrics :=
  if r_isBlocked m then m else MkRealMetrics hist (realResponseTime m) (realErrors m) (r_isBlocked m).

(** What a service sets on a new real. *)
Definition real_setters (s : Service_Metrics) : list (Real_Metrics -> Real_Metrics) :=
  [SetRealErrorsMetric (s_realsErrors s); SetRealTransitionPeriodMetric (s_realsTransitionPeriod s);
   SetRealResponseTimeMetric (s_realsResponseTime s)].

Record Checker_Metrics := MkCheckerMetrics { responseTime : Histogram; errors : CounterVec; c_isBlocked : bool }.

Definition NewCheckerMetrics : Checker_Metrics := MkCheckerMetrics NopHistogram NopCounterVec false.

Definition Checker_Block (m : Checker_Metrics) : Checker_Metrics := MkCheckerMetrics (responseTime m) (errors m) true.

Definition SetResponceTimeMetric (hist : Histogram) (m : Checker_Metrics) : Checker_Metrics :=
  if c_isBlocked m then m else MkCheckerMetrics hist (errors m) (c_isBlocked m).
Definition SetErrorsMetric (counterVec : CounterVec) (m : Checker_Metrics) : Checker_Metrics :=
  if c_isBlocked m then m else MkCheckerMetrics (responseTime m) counterVec (c_isBlocked m).

(** What a real sets on a new checker. *)
Definition checker_setters (r : Real_Metrics) : list (Checker_Metrics -> Checker_Metrics) :=
  [SetErrorsMetric (realErrors r); SetResponceTimeMetric (realResponseTime r)].
End core.

(** ** The provider and the registry of prometheus *)

Section registry.
Context `{PR : Prometheus} {W : Type} (ops : registry_ops (W := W)) `{MR : MapRange}.

(** What is registered; a registration that is accepted adds the collector, one
    that is refused changes nothing, and unregistering takes it out. *)
Class RegistryLaws (registered : W -> Collector -> Prop) := {
  Register_ok c w w' : Register ops c w = (None, w') -> forall c', registered w' c' <-> registered w c' \/ c' = c;
  Register_refused c w w' e : Register ops c w = (Some e, w') -> forall c', registered w' c' <-> registered w c';
  Unregister_spec c w c' : registered (Unregister ops c w) c' <-> registered w c' /\ c' <> c;
}.

Context (registered : W -> Collector -> Prop) `{RL : !RegistryLaws registered}.

(** A collector of one of the six registries of a provider. *)
Definition holds {T} (coll : T -> Collector) (m : gmap string T) (c : Collector) : Prop := exists n t, m !! n = Some t /\ c = coll t.

Definition provides (m : Provider (W := W)) (c : Collector) : Prop :=
  holds CPrim (counters m) c \/ holds CPrim (gauges m) c \/ holds CPrim (histograms m) c \/
  holds CVec (countersVec m) c \/ holds CVec (gaugesVec m) c \/ holds CVec (histogramsVec m) c.

Lemma Registry_Shutdown_spec {T} (coll : T -> Collector) (m : gmap string T) w :
  forall c, registered (Registry_Shutdown ops coll m w).2 c <-> registered w c /\ ~ holds coll m c.
Proof.
  intros c. unfold Registry_Shutdown, for_range. cbn [snd].
  assert (forall (l : list (string * T)) (w : W),
    registered (for_each (fun (kv : string * T) w => Unregister ops (coll kv.2) w) l w) c <->
    registered w c /\ forall kv, kv ∈ l -> c <> coll kv.2) as H.
  { unfold for_each. induction l as [|kv l IH]; intros w0; cbn [foldl].
    - split; [intros H; split; [done|intros kv Hkv; by apply not_elem_of_nil in Hkv]|by intros [H _]].
    - rewrite IH, (Unregister_spec (RegistryLaws := RL)). split.
      + intros [[H1 H2] H3]. split; [done|]. intros kv' [->|Hin]%elem_of_cons; [done|by apply H3].
      + intros [H1 H2]. split; [split; [done|apply H2; by left]|]. intros kv' Hin. apply H2. by right. }
  rewrite H. split; intros [H1 H2]; (split; [done|]).
  - intros (n & t & Hn & ->). apply (H2 (n, t)); [by apply elem_of_range|done].
  - intros [n t] Hin ->. apply H2. exists n, t. split; [by apply elem_of_range|done].
Qed.

(** Shutting a provider down takes every metric it has handed out off its
    registry of prometheus, and nothing else; it then holds no metric. *)
Theorem Provider_Shutdown_spec (m : Provider (W := W)) :
  let m' := Provider_Shutdown ops m in
  m' = MkProvider (registry m') ∅ ∅ ∅ ∅ ∅ ∅ /\ forall c, registered (registry m') c <-> registered (registry m) c /\ ~ provides m c.
Proof.
  unfold Provider_Shutdown, provides. destruct m as [w0 c0 g0 h0 cv0 gv0 hv0].
  cbn [registry counters gauges histograms countersVec gaugesVec histogramsVec].
  split; [done|]. intros c.
  pose proof (@Registry_Shutdown_spec) as H. unfold Registry_Shutdown in *. cbn [snd registry] in *. rewrite !H. tauto.
Qed.

(** Asking for a metric: the first call with a name registers it and returns
    it, every later call returns the same metric and registers nothing; a metric
    that prometheus refuses is not kept, and the caller gets one that does
    nothing. *)
Theorem GetGauge_functional (name : string) (opts : list MetricOption) (m : Provider (W := W)) :
  let new := NewPrim KGauge (opts_desc name [] [] opts) in
  let '(g, m') := GetGauge ops name opts m in
  match gauges m !! name with
  | Some p => g = PromGauge p /\ m' = m
  | None =>
      (g = PromGauge new /\ gauges m' = <[name := new]> (gauges m) /\
        (forall c, registered (registry m') c <-> registered (registry m) c \/ c = CPrim new) /\
        forall opts', (GetGauge ops name opts' m').1 = g) \/
      (g = NopGauge /\ gauges m' = gauges m /\ forall c, registered (registry m') c <-> registered (registry m) c)
  end.
Proof.
  intros new. unfold GetGauge, GetOrCreateMetric. fold new. destruct (gauges m !! name) as [p|] eqn:Hp.
  - split; [done|]. by destruct m.
  - destruct (Register ops (CPrim new) (registry m)) as [[e|] w'] eqn:Hr.
    + right. split_and!; [done|by destruct m|]. by eapply Register_refused.
    + left. split_and!; [done|done|by eapply Register_ok|]. intros opts'. cbn [gauges]. by rewrite lookup_insert_eq.
Qed.
End registry.

(** ** The gauges of the reals *)

Section gauges.
Context `{PR : Prometheus} `{!EqDecision Prim}.

Definition one : float64 := of_decimal false 1 0.

(** What a trace of operations adds to a gauge, in ones. *)
Definition net (p : Prim) (l : list op) : Z :=
  foldr (fun o acc =>
    match o with
    | OpAdd q v => (if decide (q = p /\ v = one) then 1 else 0) + acc
    | OpSub q v => (if decide (q = p /\ v = one) then -1 else 0) + acc
    | _ => acc
    end) 0 l.

Lemma net_app p l1 l2 : net p (l1 ++ l2) = net p l1 + net p l2.
Proof. induction l1 as [|[] l1 IH]; cbn [app net foldr]; try fold (net p) in *; unfold net in *; cbn [foldr]; lia. Qed.

(** The updates of a gauge by the services: a real more or a real less. *)
Definition updates (gauge : Labels -> Gauge) (us : list (Labels * bool)) : list op :=
  flat_map (fun (u : Labels * bool) => if u.2 then Gauge_Add one (gauge u.1) else Gauge_Sub one (gauge u.1)) us.

Definition sign (up : bool) : Z := if up then 1 else -1.

(** Vectors whose elements for the labels [ls] exist, differ, and are not [g]. *)
Definition separate (v : Vec) (elem : Labels -> Prim) (g : Prim) (ls : list Labels) : Prop :=
  (forall l, l ∈ ls -> vec_GetMetricWith v l = Ok (elem l) /\ elem l <> g) /\
  forall l l', l ∈ ls -> l' ∈ ls -> elem l = elem l' -> l = l'.

Definition total (l : option Labels) (us : list (Labels * bool)) : Z :=
  foldr (fun u acc => (if decide (l = None \/ l = Some u.1) then sign u.2 else 0) + acc) 0 us.

Lemma net_updates (v : Vec) (g : Prim) (elem : Labels -> Prim) (us : list (Labels * bool)) (ls : list Labels) :
  let gauge (l : Labels) := GaugeUnion [GaugeVec_GetMetricWith l (PromGaugeVec v); PromGauge g] in
  separate v elem g ls -> (forall u, u ∈ us -> u.1 ∈ ls) ->
  net g (updates gauge us) = total None us /\
  forall l, l ∈ ls -> net (elem l) (updates gauge us) = total (Some l) us.
Proof.
  intros gauge [Hv Hinj] Hin. induction us as [|[l0 up] us IH]; [done|].
  change (updates gauge ((l0, up) :: us)) with
    ((if up then Gauge_Add one (gauge l0) else Gauge_Sub one (gauge l0)) ++ updates gauge us).
  destruct IH as [IH1 IH2]; [intros u Hu; apply Hin; by right|].
  assert (l0 ∈ ls) as Hl0 by (apply (Hin (l0, up)); left). destruct (Hv l0 Hl0) as [He Hg].
  assert ((if up then Gauge_Add one (gauge l0) else Gauge_Sub one (gauge l0)) =
    if up then [OpAdd (elem l0) one; OpAdd g one] else [OpSub (elem l0) one; OpSub g one]) as ->
    by (unfold gauge; cbn [GaugeVec_GetMetricWith]; unfold PromGaugeVec_GetMetricWith; rewrite He; by destruct up).
  split; [|intros l Hl]; rewrite net_app, ?IH1, ?IH2 by done; unfold total at 2; cbn [foldr fst snd]; fold (total None us);
    f_equal; (destruct up; cbn [net foldr sign]).
  1, 2: rewrite decide_False by (intros [? _]; by apply Hg); rewrite !decide_True by auto; done.
  all: fold (total (Some l) us); rewrite (decide_False (P := g = elem l /\ one = one)) by (intros [? _]; by apply (Hv l Hl));
    destruct (decide (l0 = l)) as [->|Hne]; [by rewrite !decide_True by auto|];
    rewrite !decide_False; [done|by intros [|[=]]|intros [? _]; auto].
Qed.

Definition sum (f : Labels -> Z) (ls : list Labels) : Z := foldr (fun l acc => f l + acc) 0 ls.

Lemma sum_delta (l0 : Labels) z ls : NoDup ls -> l0 ∈ ls -> sum (fun l => if decide (l0 = l) then z else 0) ls = z.
Proof.
  intros Hn Hin. induction ls as [|l ls IH]; [by apply not_elem_of_nil in Hin|].
  apply NoDup_cons in Hn as [Hl Hn]. cbn [sum foldr]. fold (sum (fun l => if decide (l0 = l) then z else 0) ls).
  destruct (decide (l0 = l)) as [->|Hne].
  - assert (sum (fun l' => if decide (l = l') then z else 0) ls = 0) as ->; [|lia].
    clear -Hl. induction ls as [|l' ls IH]; [done|]. cbn [sum foldr]. rewrite decide_False by set_solver. apply IH. set_solver.
  - rewrite IH; [lia|done|]. by apply elem_of_cons in Hin as [->|].
Qed.

Lemma sum_add f g ls : sum (fun l => f l + g l) ls = sum f ls + sum g ls.
Proof. induction ls as [|l ls IH]; [done|]. cbn [sum foldr]. unfold sum in *. lia. Qed.

Lemma total_sum us ls : NoDup ls -> (forall u, u ∈ us -> u.1 ∈ ls) -> total None us = sum (fun l => total (Some l) us) ls.
Proof.
  intros Hn Hin. induction us as [|u us IH].
  - clear. unfold sum. induction ls as [|l ls IH]; [done|]. cbn [foldr total]. cbn [total foldr] in IH. lia.
  - unfold total in *. cbn [foldr]. rewrite IH by (intros u' Hu'; apply Hin; by right). rewrite sum_add. f_equal.
    rewrite decide_True by auto. rewrite <- (sum_delta u.1 (sign u.2) ls Hn) at 1 by (apply Hin; left).
    unfold sum. apply foldr_ext; [|done..]. intros l acc. f_equal. apply decide_ext. naive_solver.
Qed.

(** The global gauge of reals is the sum of the services' gauges: after any
    updates made through the services' metrics, each by one real, what has been
    added to the global gauge is what has been added to those of the services
    together, and each service's gauge counts its own updates only. *)
Theorem reals_gauge_is_sum (m : Core_Metrics) (v : Vec) (g : Prim) (elem : Labels -> Prim) (us : list (Labels * bool)) (ls : list Labels) :
  realsPerService m = PromGaugeVec v -> reals m = PromGauge g -> separate v elem g ls ->
  NoDup ls -> (forall u, u ∈ us -> u.1 ∈ ls) ->
  let trace := updates (fun l => RealsForService l m) us in
  net g trace = sum (fun l => net (elem l) trace) ls /\
  forall l, l ∈ ls -> net (elem l) trace = total (Some l) us.
Proof.
  intros Hp Hr Hs Hn Hin trace. unfold trace, RealsForService, NewGaugeUnion. rewrite Hp, Hr.
  destruct (net_updates v g elem us ls Hs Hin) as [H1 H2]. split; [|exact H2]. rewrite H1. clear H1.
  transitivity (sum (fun l => total (Some l) us) ls); [by apply total_sum|].
  clear -H2. unfold sum. induction ls as [|l ls IH]; [done|]. cbn [foldr]. rewrite H2 by left. f_equal.
  apply IH. intros l' Hl'. apply H2. by right.
Qed.
End gauges.

(** ** The metrics of a checker *)

Section reach.
Context `{PR : Prometheus}.

(** The metrics of a checker of a service, each level blocked by its start. *)
Definition checker_of (c : Core_Metrics) (serviceLabels : Labels) : Checker_Metrics :=
  let s := Service_Block (SetMetrics (service_setters serviceLabels c) NewServiceMetrics) in
  let r := Real_Block (SetMetrics (real_setters s) NewRealMetrics) in
  Checker_Block (SetMetrics (checker_setters r) NewCheckerMetrics).

(** A failed check is counted once for its service, under the service's labels,
    and once globally; without metrics per service, only globally. *)
Theorem checker_error_counted (c : Core_Metrics) (serviceLabels errorLabel : Labels) (g : Vec) (gp : Prim) :
  realsErrors c = PromCounterVec g -> vec_GetMetricWith g errorLabel = Ok gp ->
  let incs := Counter_Inc (CounterVec_GetMetricWith errorLabel (errors (checker_of c serviceLabels))) in
  match realsErrorsPerService c with
  | NopCounterVec => incs = [OpInc gp]
  | PromCounterVec v =>
      forall cv cp, vec_CurryWith v serviceLabels = Ok cv -> vec_GetMetricWith cv errorLabel = Ok cp ->
        incs = [OpInc cp; OpInc gp]
  | CounterVecUnion _ => True
  end.
Proof.
  intros Hg Hgp incs.
  assert (incs = Counter_Inc (CounterVec_GetMetricWith errorLabel (RealsErrorsForService serviceLabels c))) as -> by done.
  unfold RealsErrorsForService. rewrite Hg.
  destruct (realsErrorsPerService c) as [|v|l]; cbn; unfold PromCounterVec_GetMetricWith, PromCounterVec_CurryWith; rewrite ?Hgp; [done| |done].
  intros cv cp -> Hcp. cbn. unfold PromCounterVec_GetMetricWith. by rewrite Hcp.
Qed.

(** A started service, real or checker keeps the metrics it was started with,
    whatever is set later. *)
Theorem blocked_metrics_kept (s : Service_Metrics) (r : Real_Metrics) (k : Checker_Metrics) (c : Core_Metrics)
    (ss : list Labels) (rs : list Service_Metrics) (ks : list Real_Metrics) :
  SetMetrics (ss ≫= fun l => service_setters l c) (Service_Block s) = Service_Block s /\
  SetMetrics (rs ≫= real_setters) (Real_Block r) = Real_Block r /\
  SetMetrics (ks ≫= checker_setters) (Checker_Block k) = Checker_Block k.
Proof.
  unfold SetMetrics, for_each. split_and!.
  - induction ss as [|l ss IH]; [done|]. cbn [mbind list_bind]. rewrite foldl_app. exact IH.
  - induction rs as [|l rs IH]; [done|]. cbn [mbind list_bind]. rewrite foldl_app. exact IH.
  - induction ks as [|l ks IH]; [done|]. cbn [mbind list_bind]. rewrite foldl_app. exact IH.
Qed.
End reach.

(** ** A Prometheus that keeps what it is given *)

Module Example.
#[export] Instance kind_eq_dec : EqDecision kind.
Proof. solve_decision. Defined.
#[export] Instance desc_eq_dec : EqDecision desc.
Proof. solve_decision. Defined.

(** A vector with the labels it is curried with; labels must be those of the
    vector's names that are left. *)
Definition vec : Type := kind * desc * Labels.

Definition with_labels (all : bool) (v : vec) (l : Labels) : res unit vec :=
  let '(k, d, cur) := v in
  let names : gset string := list_to_set (dlabels d) in
  if bool_decide (dom l ⊆ names) && bool_decide (dom l ∩ dom cur ⊆ (∅ : gset string)) &&
     (negb all || bool_decide (names ⊆ dom l ∪ dom cur)) then Ok (k, d, cur ∪ l) else Err ().

#[export] Instance prometheus : Prometheus := {|
  promError := unit;
  Prim := vec;
  Vec := vec;
  NewPrim k d := (k, d, ∅);
  NewVec k d := (k, d, ∅);
  vec_GetMetricWith := with_labels true;
  vec_CurryWith := with_labels false;
|}.

#[export] Instance Collector_eq_dec : EqDecision Collector.
Proof. solve_decision. Defined.

Definition collector_name (c : Collector) : string :=
  match c with CPrim (_, d, _) => dname d | CVec (_, d, _) => dname d end.

Definition registry_example : registry_ops (W := list Collector) := {|
  NewRegistry := [];
  Register c w := if bool_decide (collector_name c ∈ collector_name <$> w) then (Some (), w) else (None, c :: w);
  Unregister c w := base.filter (fun c' => c' <> c) w;
|}.

#[export] Instance registry_laws : RegistryLaws registry_example (fun w c => c ∈ w).
Proof.
  split; cbn.
  - intros c w w'. case_bool_decide; intros [=]; subst. set_solver.
  - intros c w w' e. case_bool_decide; intros [=]; subst. done.
  - intros c w c'. rewrite list_elem_of_filter. naive_solver.
Qed.

(** The metrics of the core with both scopes. *)
Definition core_example : Core_Metrics :=
  (NewMetrics registry_example
    (Set_ PerService (NewProvider registry_example) (Set_ Global (NewProvider registry_example) NewScopedMetrics))).1.

Definition global_only : Core_Metrics := (NewMetrics registry_example (Set_ Global (NewProvider registry_example) NewScopedMetrics)).1.

Definition labels_of (p : string) : Labels := {["vip" := "10.0.0.1"; "vport" := p; "proto" := "TCP"]}.

Definition gauge_desc (help : string) (names : list string) : desc := MkDesc "reals" help ∅ [] names.
End Example.
Import Example.

Lemma Provider_Shutdown_spec_witness :
  let m := (GetGauge registry_example "reals" [] (NewProvider registry_example)).2 in
  CPrim (KGauge, MkDesc "reals" "" ∅ [] [], ∅) ∈ registry m /\
  CPrim (KGauge, MkDesc "reals" "" ∅ [] [], ∅) ∉ registry (Provider_Shutdown registry_example m).
Proof.
  intros m. split; [left|].
  destruct (Provider_Shutdown_spec registry_example (fun w c => c ∈ w) m) as [_ H]. intros Hin.
  apply H in Hin as [_ Hn]. apply Hn. right. left. exists "reals", (KGauge, MkDesc "reals" "" ∅ [] [], ∅). split; reflexivity.
Defined.

Lemma GetGauge_functional_witness :
  (GetGauge registry_example "reals" [] (NewProvider registry_example)).1 = PromGauge (KGauge, MkDesc "reals" "" ∅ [] [], ∅) \/
  (GetGauge registry_example "reals" [] (NewProvider registry_example)).1 = NopGauge.
Proof.
  pose proof (GetGauge_functional registry_example (fun w c => c ∈ w) "reals" [] (NewProvider registry_example)) as H.
  cbv zeta in H. destruct (GetGauge registry_example "reals" [] (NewProvider registry_example)) as [g m'].
  change (gauges (NewProvider registry_example) !! "reals") with (@None vec) in H. cbv iota in H.
  destruct H as [[H _]|[H _]]; [left|right]; exact H.
Defined.

(** Two services with metrics of their own: three reals more and one less. *)
Lemma reals_gauge_is_sum_witness :
  let us := [(labels_of "80", true); (labels_of "443", true); (labels_of "80", true); (labels_of "443", false)] in
  let trace := updates (fun l => RealsForService l core_example) us in
  let g := (KGauge, gauge_desc "number of reals" [], ∅) in
  let elem l := (KGauge, gauge_desc "number of reals for service" Service_LabelNames, l) in
  net g trace = sum (fun l => net (elem l) trace) [labels_of "80"; labels_of "443"] /\
  net (elem (labels_of "80")) trace = 2.
Proof.
  intros us trace g elem.
  destruct (reals_gauge_is_sum core_example (KGauge, gauge_desc "number of reals for service" Service_LabelNames, ∅) g elem
    us [labels_of "80"; labels_of "443"]) as [H1 H2].
  - reflexivity.
  - reflexivity.
  - split.
    + intros l [->|[->|[]%not_elem_of_nil]%elem_of_cons]%elem_of_cons; (split; [reflexivity|intros [=]]).
    + intros l l' _ _ [=]. done.
  - apply (bool_decide_unpack _). vm_compute; exact I.
  - intros u [->|[->|[->|[->|[]%not_elem_of_nil]%elem_of_cons]%elem_of_cons]%elem_of_cons]%elem_of_cons;
      apply (bool_decide_unpack _); vm_compute; exact I.
  - split; [exact H1|]. etransitivity; [apply H2; left|reflexivity].
Defined.

(** With metrics per service the failure is counted twice, without them once. *)
Lemma checker_error_counted_witness :
  length (Counter_Inc (CounterVec_GetMetricWith {["error" := "timeout"]} (errors (checker_of core_example (labels_of "80"))))) = 2%nat /\
  length (Counter_Inc (CounterVec_GetMetricWith {["error" := "timeout"]} (errors (checker_of global_only (labels_of "80"))))) = 1%nat.
Proof.
  split.
  - pose proof (checker_error_counted core_example (labels_of "80") {["error" := "timeout"]}
      (KCounter, MkDesc "reals_error" "observe reals errors" ∅ [] ["error"], ∅) _ ltac:(reflexivity) ltac:(reflexivity)) as H.
    cbv zeta in H.
    assert (realsErrorsPerService core_example = PromCounterVec
      (KCounter, MkDesc "reals_error" "observe reals errors for service" ∅ [] ["vip"; "vport"; "proto"; "error"], ∅)) as E by (reflexivity).
    rewrite E in H. rewrite (H _ _ ltac:(reflexivity) ltac:(reflexivity)). done.
  - pose proof (checker_error_counted global_only (labels_of "80") {["error" := "timeout"]}
      (KCounter, MkDesc "reals_error" "observe reals errors" ∅ [] ["error"], ∅) _ ltac:(reflexivity) ltac:(reflexivity)) as H.
    cbv zeta in H. assert (realsErrorsPerService global_only = NopCounterVec) as E by (reflexivity).
    rewrite E in H. rewrite H. done.
Defined.
