(* ===== verification/Dialing.v ===== *)
(** * How the checks dial

    [internal/utils/xtls]: the TLS settings, as variables of the package;
    [NewDialer] of [internal/utils/xnet]; and the construction of the checks in
    [internal/core/checker]. *)

From Stdlib Require Import SpecFloat.
From stdpp Require Import strings numbers list sets gmap.
From S2P Require Import Prelude.
From S2P Require Import Types.
From S2P Require Import Bytes.
From S2P Require Import Utils.
From S2P Require Import Scheduler.
From S2P Require Import Check.
From S2P Require Import Text.
From S2P Require Import Checker.
From S2P Require Import Real.
From S2P Require Import Checktun.

Open Scope Z_scope.

(** ** tls.go *)

Module xtls.

(** Versions and curves of [crypto/tls]. *)
Definition VersionTLS10 : Z := 0x0301.
Definition VersionTLS11 : Z := 0x0302.
Definition VersionTLS12 : Z := 0x0303.
Definition VersionTLS13 : Z := 0x0304.
Definition X25519 : Z := 29.
Definition CurveP256 : Z := 23.
Definition CurveP384 : Z := 24.
Definition CurveP521 : Z := 25.

(** The fields of [tls.Config] that the package sets. *)
Record Config := MkConfig {
  InsecureSkipVerify : bool;
  MinVersion : Z;
  CurvePreferences : list Z;
  ServerName : string;
}.

(** The variables of the package. *)
Record vars := MkVars { tlsMinVersion : Z; tlsConfig : Config }.

(** The initialisers of the variables, which run before [init]: [tlsConfig] is
    made with the zero value of [tlsMinVersion]. *)
Definition initial : vars :=
  let tlsMinVersion := 0 in
  MkVars tlsMinVersion (MkConfig true tlsMinVersion [X25519; CurveP256; CurveP384; CurveP521] "").

Definition init (v : vars) : vars := MkVars VersionTLS12 (tlsConfig v).

Inductive versionError := ErrEmptyVersion | ErrUnknownVersion (version : string).

Definition SetTLSMinVersion (version : string) (v : vars) : option versionError * vars :=
  if bool_decide (version = "1.0") then (None, MkVars VersionTLS10 (tlsConfig v))
  else if bool_decide (version = "1.1") then (None, MkVars VersionTLS11 (tlsConfig v))
  else if bool_decide (version = "1.2") then (None, MkVars VersionTLS12 (tlsConfig v))
  else if bool_decide (version = "1.3") then (None, MkVars VersionTLS13 (tlsConfig v))
  else if bool_decide (version = "") then (Some ErrEmptyVersion, v)
  else (Some (ErrUnknownVersion version), v).

(** [Clone] copies the configuration. *)
Definition TLSConfig (v : vars) : Config := tlsConfig v.

Definition TLSConfigWithServerName (serverName : string) (v : vars) : Config :=
  let config := TLSConfig v in
  MkConfig (InsecureSkipVerify config) (MinVersion config) (CurvePreferences config) serverName.

End xtls.

(** ** NewDialer and the construction of the checks *)

(** The fields of [net.Dialer]; [Forward] is what [Control] is made from. *)
Record Dialer := MkDialer { Forward : ForwardingData; DialTimeout : Z; LocalAddr : list Z }.

Definition NewDialer (bindIP : Addr) (connTimeout : Z) (forwardingData : ForwardingData) : Dialer :=
  MkDialer forwardingData connTimeout (AsSlice bindIP).

(** [http.Client] and its transport; redirects are not followed. *)
Record HTTPClient := MkHTTPClient {
  TLSClientConfig : option xtls.Config;
  MaxIdleConnsPerHost : Z;
  DisableKeepAlives : bool;
  DialContext : Dialer;
  ClientTimeout : Z;
}.

Record TCPCheck := MkTCPCheck { tcp_config : Check.Config; tcp_uri : string; tcp_dialer : Dialer }.
Record HTTPCheck := MkHTTPCheck {
  http_config : Check.Config; http_uri : string; http_tls : option xtls.Config; http_client : option HTTPClient;
}.
Record GRPCCheck := MkGRPCCheck { grpc_config : Check.Config; grpc_uri : string; grpc_dialer : Dialer }.

Section construction.
Context `{F : FloatToInt}.

Definition NewTCPCheck (config : Check.Config) (f : ForwardingData) : TCPCheck :=
  MkTCPCheck config (TCP_URI config) (NewDialer (BindIP (CNet config)) (GetConnectTimeout (CNet config)) f).

Definition NewGRPCCheck (config : Check.Config) (f : ForwardingData) : GRPCCheck :=
  MkGRPCCheck config (GRPC_URI config) (NewDialer (BindIP (CNet config)) (GetConnectTimeout (CNet config)) f).

(** The option [HTTPWithTLS]. *)
Definition WithTLS (g : exp.Globals) (v : xtls.vars) (check : HTTPCheck) : HTTPCheck :=
  let config := match Virtualhost (CURL (http_config check)) with
                | Some name => if exp.TLSSNIEnabled g then xtls.TLSConfigWithServerName name v else xtls.TLSConfig v
                | None => xtls.TLSConfig v
                end in
  MkHTTPCheck (http_config check) (http_uri check) (Some config) (http_client check).

(** The URI depends on the TLS configuration in that it is set. *)
Definition CheckURI (check : HTTPCheck) : string :=
  if decide (http_uri check <> "") then http_uri check
  else HTTP_URI ((fun _ => None) <$> http_tls check) (http_config check).

Definition NewHTTPCheck (config : Check.Config) (f : ForwardingData) (opts : list (HTTPCheck -> HTTPCheck)) : HTTPCheck :=
  let check := for_each (fun opt check => opt check) opts (MkHTTPCheck config "" None None) in
  let check := MkHTTPCheck (http_config check) (CheckURI check) (http_tls check) (http_client check) in
  let dialer := NewDialer (BindIP (CNet config)) (GetConnectTimeout (CNet config)) f in
  MkHTTPCheck (http_config check) (http_uri check) (http_tls check)
    (Some (MkHTTPClient (http_tls check) (-1) true dialer (GetCheckTimeout (CNet config)))).

Inductive AnyCheck := TheTCPCheck (c : TCPCheck) | TheHTTPCheck (c : HTTPCheck) | TheGRPCCheck (c : GRPCCheck).

(** The check that [checker.New] makes, if the type is one it knows. *)
Definition new_check (g : exp.Globals) (v : xtls.vars) (config : Checker.Config) (f : ForwardingData) : option AnyCheck :=
  match CType config with
  | TCPChecker => Some (TheTCPCheck (NewTCPCheck (CheckConfig config) f))
  | HTTPChecker => Some (TheHTTPCheck (NewHTTPCheck (CheckConfig config) f []))
  | HTTPSChecker => Some (TheHTTPCheck (NewHTTPCheck (CheckConfig config) f [WithTLS g v]))
  | GRPCChecker => Some (TheGRPCCheck (NewGRPCCheck (CheckConfig config) f))
  | TypeUnset => None
  end.

(** What [real.reload] passes to its checkers. *)
Definition forwarding_data (config : Real.Config) : ForwardingData :=
  MkForwardingData (IP config) (Real.ForwardingMethod config).
End construction.

(** ** Properties *)

Section properties.
Context `{F : FloatToInt}.

Lemma SetTLSMinVersion_config version v : xtls.tlsConfig (xtls.SetTLSMinVersion version v).2 = xtls.tlsConfig v.
Proof. unfold xtls.SetTLSMinVersion. by repeat case_bool_decide. Qed.

(** Setting the minimum version has no effect on the connections: whatever is
    set, the configuration handed out has the minimum version zero, the default of
    [crypto/tls], because it was made before any version was set. *)
Theorem min_version_has_no_effect (versions : list string) (serverName : string) :
  let v := for_each (fun version v => (xtls.SetTLSMinVersion version v).2) versions (xtls.init xtls.initial) in
  xtls.MinVersion (xtls.TLSConfig v) = 0 /\ xtls.MinVersion (xtls.TLSConfigWithServerName serverName v) = 0.
Proof.
  cbv zeta. assert (forall v, xtls.tlsConfig v = xtls.tlsConfig xtls.initial ->
    xtls.tlsConfig (for_each (fun version v => (xtls.SetTLSMinVersion version v).2) versions v) = xtls.tlsConfig xtls.initial) as H.
  { unfold for_each. induction versions as [|x l IH]; intros v Hv; cbn [foldl]; [done|]. apply IH. by rewrite SetTLSMinVersion_config. }
  unfold xtls.TLSConfigWithServerName, xtls.TLSConfig. cbn [xtls.MinVersion]. by rewrite H.
Qed.

(** What the setting does: the version is stored when it is known, and the empty
    and the unknown ones are errors that change nothing. *)
Theorem SetTLSMinVersion_functional (version : string) (v : xtls.vars) :
  let '(err, v') := xtls.SetTLSMinVersion version v in
  match err with
  | None => version ∈ ["1.0"; "1.1"; "1.2"; "1.3"] /\ xtls.VersionTLS10 <= xtls.tlsMinVersion v' <= xtls.VersionTLS13
  | Some xtls.ErrEmptyVersion => version = "" /\ v' = v
  | Some (xtls.ErrUnknownVersion s) => s = version /\ version <> "" /\ version ∉ ["1.0"; "1.1"; "1.2"; "1.3"] /\ v' = v
  end.
Proof.
  unfold xtls.SetTLSMinVersion, xtls.VersionTLS10, xtls.VersionTLS11, xtls.VersionTLS12, xtls.VersionTLS13.
  repeat case_bool_decide; cbn; split_and!; try done; first [lia | set_solver].
Qed.

Definition dialer_of (c : AnyCheck) : option Dialer :=
  match c with
  | TheTCPCheck c => Some (tcp_dialer c)
  | TheHTTPCheck c => DialContext <$> http_client c
  | TheGRPCCheck c => Some (grpc_dialer c)
  end.
Definition uri_of (c : AnyCheck) : string :=
  match c with TheTCPCheck c => tcp_uri c | TheHTTPCheck c => http_uri c | TheGRPCCheck c => grpc_uri c end.
Definition tls_of (c : AnyCheck) : option xtls.Config :=
  match c with TheHTTPCheck c => http_client c ≫= TLSClientConfig | _ => None end.

(** The check a checker is made with is the one its job runs. It connects to
    the URI of the job's requests, through the tunnel of the real and within the
    configured time; TLS is used exactly by an HTTPS check, with the name of the
    virtual host exactly when the experiment is on and a virtual host is set. *)
Theorem new_check_spec (g : exp.Globals) (v : xtls.vars) (config : Checker.Config) (f : ForwardingData) (c : AnyCheck) :
  new_check g v config f = Some c ->
  let cc := CheckConfig config in
  dialer_of c = Some (MkDialer f (GetConnectTimeout (CNet cc)) (AsSlice (BindIP (CNet cc)))) /\
  uri_of c = match CType config with
             | HTTPChecker => HTTP_URI None cc
             | HTTPSChecker => HTTP_URI (HTTPWithTLS g cc) cc
             | _ => TCP_URI cc
             end /\
  match tls_of c with
  | None => CType config <> HTTPSChecker
  | Some t => CType config = HTTPSChecker /\
      xtls.ServerName t = match HTTPWithTLS g cc with Some (Some name) => name | _ => xtls.ServerName (xtls.tlsConfig v) end
  end.
Proof.
  unfold new_check. destruct (CType config); intros [= <-]; cbn; (split; [done|]); try done.
  unfold CheckURI, HTTPWithTLS. cbn. rewrite decide_False by naive_solver.
  by destruct (Virtualhost (CURL (CheckConfig config))), (exp.TLSSNIEnabled g).
Qed.
End properties.

(** A TLS check with a name. *)
Lemma new_check_spec_witness `{F : FloatToInt} :
  let g := exp.MkGlobals true "" true in
  let v := xtls.init xtls.initial in
  let c := Checker.MkConfig HTTPSChecker (Check.MkConfig (MkURL "/" 200 "" (Some "example.org")) (MkNet (AddrV4 1) 443 AddrInvalid (S754_zero false) (S754_zero false) 0) (MkWeightControl false false 0)) sched0 in
  exists k, new_check g v c (MkForwardingData (AddrV4 1) "GRE") = Some k /\ exists t, tls_of k = Some t /\ xtls.ServerName t = "example.org".
Proof.
  intros g v c. eexists. split; [reflexivity|].
  destruct (new_check_spec g v c (MkForwardingData (AddrV4 1) "GRE") _ eq_refl) as (_ & _ & H). eexists. split; [reflexivity|].
  exact (proj2 H).
Defined.
