(* ===== verification/App.v ===== *)
(** * The application

    [internal/app]: the components put together. The steps of the whole program
    are those of the core, the balancer and the announcer on the state they
    share; the theorems say what the load balancer and the routing daemon are
    then told, and what the shutdown leaves. *)

From Stdlib Require Import SpecFloat.
From stdpp Require Import strings numbers gmap sets list relations.
From S2P Require Import Prelude.
From S2P Require Import Types.
From S2P Require Import Registry.
From S2P Require Import Utils.
From S2P Require Import Prefixes.
From S2P Require Import Announcer.
From S2P Require Import Balancer.
From S2P Require Import Scheduler.
From S2P Require Import Check.
From S2P Require Import Text.
From S2P Require Import Checker.
From S2P Require Import Real.
From S2P Require Import Service.
From S2P Require Import Core.

Open Scope Z_scope.
Open Scope go_scope.

(** ** What a service tells the announcer *)

Section service.
Context `{F : FloatToInt} `{MR : MapRange}.
Implicit Types (m : Service) (w : World) (s : Service * World).

Definition has_group m : bool := negb (bool_decide (SAnnounceGroup (Service.config m) = "")).

Definition service_events w : Registry key.Service ServiceStatus := serviceEventRegistry (wannouncer w).

(** Announcers that differ in the pending service events only. *)
Definition same_ann (a a' : Announcer) : Prop :=
  Announcer.config a' = Announcer.config a /\ aprefixes a' = aprefixes a /\ announceGroups a' = announceGroups a.

(** [s'] follows [s]: it is the same service, and the announcer has been told of
    the change of its state, if there was one and it has an announce group. *)
Definition follows s s' : Prop :=
  skey s'.1 = skey s.1 /\ has_group s'.1 = has_group s.1 /\ same_ann (wannouncer s.2) (wannouncer s'.2) /\
  (has_group s.1 = false -> service_events s'.2 = service_events s.2) /\
  (has_group s.1 = true -> forall applied current,
     delta_inv (service_events s.2) applied current ->
     current (skey s.1) = service_status_of (Alive (state s.1)) ->
     delta_inv (service_events s'.2) applied (fupd current (skey s.1) (service_status_of (Alive (state s'.1))))).

Lemma fupd_id {K S} `{EqDecision K} (f : K -> S) k k' : fupd f k (f k) k' = f k'.
Proof. unfold fupd. by case_decide; subst. Qed.

Lemma follows_quiet m m' w w' :
  skey m' = skey m -> has_group m' = has_group m -> Alive (state m') = Alive (state m) -> wannouncer w' = wannouncer w ->
  follows (m, w) (m', w').
Proof.
  intros Hk Hg Ha Hw. unfold follows, service_events, same_ann. cbn. rewrite Hw. split_and!; try done.
  intros _ applied current Hd Hc. eapply delta_inv_ext; [|exact Hd]. intros k. rewrite Ha, <- Hc. by rewrite fupd_id.
Qed.

Lemma follows_refl s : follows s s.
Proof. destruct s. by apply follows_quiet. Qed.

Lemma follows_trans s1 s2 s3 : follows s1 s2 -> follows s2 s3 -> follows s1 s3.
Proof.
  intros (K1 & G1 & (A1 & A2 & A3) & N1 & D1) (K2 & G2 & (B1 & B2 & B3) & N2 & D2). unfold follows, same_ann.
  split_and!; try congruence.
  - intros Hg. rewrite N2, N1 by congruence. done.
  - intros Hg applied current Hd Hc. specialize (D1 Hg applied current Hd Hc).
    specialize (D2 ltac:(congruence) applied _ D1). rewrite K1 in D2.
    eapply delta_inv_ext; [|apply D2]; intros; unfold fupd; by case_decide.
Qed.

Lemma processAnnounce_follows m w : follows (m, w) (processAnnounce m w).
Proof.
  pose proof (processAnnounce_spec m w) as HA. destruct (processAnnounce m w) as [m' w'].
  destruct HA as ((Hc & Hk & _) & Ha & _ & Hw). unfold follows, service_events, has_group. cbn [fst snd]. rewrite Hc, Hk, Hw.
  split_and!; [done|done|by destruct (_ && _)| |].
  - intros Hg. by rewrite Hg, andb_false_r.
  - intros Hg applied current Hd Hcur. rewrite Hg, andb_true_r, Ha.
    destruct (next_alive m) eqn:Hn, (Alive (state m)) eqn:Hal; cbn [xorb].
    1, 4: eapply delta_inv_ext; [|exact Hd]; intros k; unfold fupd; destruct (decide (skey m = k)) as [<-|]; done.
    + exact (delta_inv_Store (serviceEventRegistry (wannouncer w)) applied current (skey m) ServiceEnabled Hd
               ltac:(simpl; by rewrite Hcur)).
    + exact (delta_inv_Store (serviceEventRegistry (wannouncer w)) applied current (skey m) ServiceDisabled Hd
               ltac:(simpl; by rewrite Hcur)).
Qed.

Lemma HandleEvent_follows e m w : follows (m, w) (HandleEvent e m w).
Proof.
  unfold HandleEvent. assert (follows (m, w) ((processEvent e m).2, w)) as He.
  { unfold processEvent, processSucceed, processFailure.
    destruct e as [[] b nw [[] iw]]; by apply follows_quiet. }
  destruct (processEvent e m) as [e' m1]. eapply follows_trans; [exact He|].
  eapply follows_trans; [|apply processAnnounce_follows]. by apply follows_quiet.
Qed.

Lemma handleEvents_follows evs m w : follows (m, w) (handleEvents evs m w).
Proof.
  unfold handleEvents, for_each. revert m w. induction evs as [|e evs IH]; intros m w; cbn [foldl]; [apply follows_refl|].
  eapply follows_trans; [apply (HandleEvent_follows e)|]. destruct (HandleEvent e m w). apply IH.
Qed.

Lemma set_real_map_follows rs pool total m w w' :
  wannouncer w' = wannouncer w -> follows (m, w) (set_real_map rs pool total m, w').
Proof. intros Hw. by apply follows_quiet. Qed.

Lemma stopReals_follows now sub rs m w : follows (m, w) (stopReals now sub rs m w).
Proof.
  unfold stopReals.
  apply (for_range_ind (fun (_ : gmap key.Real Real) (s : Service * World) => follows (m, w) s)); [apply follows_refl|].
  intros k r _ [m1 w1] _ _ _ H. destruct (Real.Stop now r) as [evs r'].
  pose proof (handleEvents_follows evs m1 w1) as He. destruct (handleEvents evs m1 w1) as [m2 w2].
  eapply follows_trans; [exact H|]. eapply follows_trans; [exact He|]. by apply set_real_map_follows.
Qed.

Lemma reloadReal_follows now cfg new m w :
  let '(_, m', w') := reloadReal now cfg (new, m, w) in follows (m, w) (m', w').
Proof.
  unfold reloadReal. destruct (reals m !! Real.Key cfg) as [r|]; [|by apply set_real_map_follows].
  destruct (Real.Reload now cfg r) as [evs r']. pose proof (handleEvents_follows evs m w) as He.
  destruct (handleEvents evs m w) as [m1 w1]. eapply follows_trans; [exact He|]. by apply set_real_map_follows.
Qed.

(** A reload that keeps the service with or without an announce group. *)
Lemma Reload_follows now cfg m w :
  (SAnnounceGroup cfg = "" <-> SAnnounceGroup (Service.config m) = "") -> follows (m, w) (Service.Reload now cfg m w).
Proof.
  intros Hg. unfold Service.Reload. destruct (_ && _); [apply follows_refl|].
  assert ((fun (_ : list Real.Config) (s : gmap key.Real Real * Service * World) => follows (m, w) (s.1.2, s.2))
    (Reals cfg) (for_each (reloadReal now) (Reals cfg) (∅, m, w))) as HL.
  { apply for_each_ind; [apply follows_refl|]. intros visited c rest [[new m1] w1] _ H.
    pose proof (reloadReal_follows now c new m1 w1) as Hr. destruct (reloadReal now c (new, m1, w1)) as [[new' m2] w2].
    eapply follows_trans; [exact H|exact Hr]. }
  destruct (for_each (reloadReal now) (Reals cfg) (∅, m, w)) as [[new m1] w1]. cbn [fst snd] in HL.
  pose proof (stopReals_follows now 1 (reals m1) m1 w1) as Hs. destruct (stopReals now 1 (reals m1) m1 w1) as [m2 w2].
  assert (follows (m, w) (m2, w2)) as H2 by (by eapply follows_trans). eapply follows_trans; [exact H2|].
  eapply follows_trans; [|apply processAnnounce_follows]. apply follows_quiet; try done.
  destruct H2 as (_ & H2 & _). cbn in H2. rewrite H2. unfold has_group. cbn. by rewrite (bool_decide_ext _ _ Hg).
Qed.

Lemma Stop_follows now m w : follows (m, w) (Service.Stop now m w).
Proof. unfold Service.Stop. eapply follows_trans; [|apply stopReals_follows]. by apply follows_quiet. Qed.

Lemma realEvent_follows now k e m w : follows (m, w) (realEvent now k e m w).
Proof.
  unfold realEvent. destruct (reals m !! k) as [r|]; [|apply follows_refl].
  destruct (Real.HandleEvent now e r) as [[e'|] r']; [|by apply set_real_map_follows].
  eapply follows_trans; [|apply HandleEvent_follows]. by apply set_real_map_follows.
Qed.

Lemma realRun_follows now k m w : follows (m, w) (realRun now k m w).
Proof.
  unfold realRun. destruct (reals m !! k) as [r|]; [|apply follows_refl].
  destruct (Real.Run now true r) as [evs r']. eapply follows_trans; [|apply handleEvents_follows]. by apply set_real_map_follows.
Qed.
End service.

(** ** What the core tells the announcer *)

Section core.
Context `{F : FloatToInt} `{MR : MapRange}.
Implicit Types (m : Service) (w : World) (svcs new old : gmap key.Service Service) (c : Core).
Implicit Types (applied current : key.Service -> ServiceStatus).

Lemma same_ann_refl a : same_ann a a.
Proof. done. Qed.

Lemma same_ann_trans a1 a2 a3 : same_ann a1 a2 -> same_ann a2 a3 -> same_ann a1 a3.
Proof. unfold same_ann. intros. destruct_and!. split_and!; congruence. Qed.

(** What a service with an announce group has last said about itself. *)
Definition entry_ok current (k : key.Service) m : Prop :=
  skey m = k /\ (has_group m = true -> current k = service_status_of (Alive (state m))).

Definition linked current svcs : Prop := map_Forall (entry_ok current) svcs.

Lemma linked_insert current current' svcs k m :
  linked current svcs -> (forall k', k' <> k -> current' k' = current k') -> entry_ok current' k m ->
  linked current' (<[k := m]> svcs).
Proof.
  intros Hl Hc Hm k' m'. rewrite lookup_insert. case_decide as Hk; [intros [= <-]; by subst|].
  intros Hm'. destruct (Hl k' m' Hm') as [Hs Ha]. split; [done|]. intros Hg. rewrite Hc by congruence. auto.
Qed.

Lemma linked_other current current' svcs k :
  linked current svcs -> (forall k', k' <> k -> current' k' = current k') -> svcs !! k = None -> linked current' svcs.
Proof.
  intros Hl Hc Hn k' m' Hm'. destruct (Hl k' m' Hm') as [Hs Ha]. split; [done|]. intros Hg. rewrite Hc by congruence. auto.
Qed.

Lemma follow_entry applied current k m w m' w' :
  delta_inv (service_events w) applied current -> entry_ok current k m -> follows (m, w) (m', w') ->
  exists current', delta_inv (service_events w') applied current' /\ (forall k', k' <> k -> current' k' = current k') /\
    entry_ok current' k m'.
Proof.
  intros Hd [Hs Hc] (Hk & Hg & _ & Hn & Hy). cbn in *. destruct (has_group m) eqn:Hgm.
  - specialize (Hy eq_refl applied current Hd). rewrite Hs in Hy. specialize (Hy (Hc eq_refl)).
    eexists. split; [exact Hy|]. split; [intros k' Hk'; unfold fupd; by rewrite decide_False by congruence|].
    split; [congruence|]. intros _. unfold fupd. by rewrite decide_True.
  - exists current. rewrite Hn by done. split_and!; [done|done|split; congruence].
Qed.

(** The loop of a reload, over the services [known]. *)
Definition reload_link (a0 : Announcer) applied (known : gmap key.Service Service) (visited : list Service.Config)
    (s : gmap key.Service Service * Core * World) : Prop :=
  let '(new, c, w) := s in
  same_ann a0 (wannouncer w) /\
  (forall k, k ∈ Service.Key <$> visited -> services c !! k = None) /\
  (forall k, is_Some (new !! k) -> k ∈ Service.Key <$> visited) /\
  (forall k, k ∉ Service.Key <$> visited -> services c !! k = known !! k) /\
  exists current, delta_inv (service_events w) applied current /\ linked current new /\ linked current (services c) /\
    forall k, k ∉ Service.Key <$> visited -> current k = applied k.

(** A configuration for the services [known]: those that stay keep or stay
    without an announce group, the others are disabled at first. *)
Definition config_link applied (known : gmap key.Service Service) (cfg : Service.Config) : Prop :=
  match known !! Service.Key cfg with
  | Some m => SAnnounceGroup cfg = "" <-> SAnnounceGroup (Service.config m) = ""
  | None => SAnnounceGroup cfg <> "" -> applied (Service.Key cfg) = ServiceDisabled
  end.

Lemma reloadService_link a0 applied known now visited cfg s :
  reload_link a0 applied known visited s -> Service.Key cfg ∉ Service.Key <$> visited -> config_link applied known cfg ->
  reload_link a0 applied known (visited ++ [cfg]) (reloadService now cfg s).
Proof.
  destruct s as [[new c] w]. intros (Ha & Ho & Hn & Hk & current & Hd & Hln & Hlo & Hcur) Hkey Hcfg.
  assert (new !! Service.Key cfg = None) as Hnew by (apply eq_None_not_Some; auto).
  assert (forall k, k ∈ Service.Key <$> visited ++ [cfg] <-> k ∈ Service.Key <$> visited \/ k = Service.Key cfg) as Hin
    by (intros k; rewrite fmap_app, elem_of_app; cbn; by rewrite list_elem_of_singleton).
  assert (forall m k, is_Some (<[Service.Key cfg := m]> new !! k) -> k ∈ Service.Key <$> visited ++ [cfg]) as Hdom.
  { intros m k. rewrite lookup_insert, Hin. case_decide; [by right|]. intros Hsome. left. auto. }
  unfold reloadService, config_link in *. rewrite <- Hk in Hcfg by done.
  destruct (services c !! Service.Key cfg) as [m|] eqn:Hm.
  - pose proof (Reload_follows now cfg m w Hcfg) as Hf. destruct (Service.Reload now cfg m w) as [m' w'].
    destruct (follow_entry applied current _ m w m' w' Hd (Hlo _ _ Hm) Hf) as (current' & Hd' & Hc' & He').
    destruct Hf as (_ & _ & Hsa & _). cbn in Hsa. cbn. split_and!; [by eapply same_ann_trans| |apply Hdom| |].
    + intros k [Hv|Hv]%Hin; rewrite lookup_delete; case_decide; try done; auto.
    + intros k Hv. rewrite Hin in Hv. rewrite lookup_delete_ne by (intros <-; tauto). apply Hk. tauto.
    + exists current'. split_and!; [done|by eapply linked_insert| |].
      * apply map_Forall_delete with (i := Service.Key cfg) in Hlo.
        eapply linked_other; [exact Hlo|exact Hc'|apply lookup_delete_eq].
      * intros k Hv. rewrite Hin in Hv. rewrite Hc' by tauto. apply Hcur. tauto.
  - cbn. split_and!; [done| |apply Hdom| |].
    + intros k [Hv|Hv]%Hin; [auto|congruence].
    + intros k Hv. rewrite Hin in Hv. apply Hk. tauto.
    + exists current. split_and!; [done| |done|].
      * apply (linked_insert current); [done|done|]. split; [done|]. intros Hg. rewrite Hcur by done. apply Hcfg.
        unfold has_group in Hg. cbn in Hg. by apply negb_true_iff, bool_decide_eq_false in Hg.
      * intros k Hv. rewrite Hin in Hv. apply Hcur. tauto.
Qed.

Lemma reloadServices_link a0 applied known now cfgs : forall visited i s,
  reload_link a0 applied known visited s -> NoDup (Service.Key <$> visited ++ cfgs) ->
  Forall (config_link applied known) cfgs -> shutdown s.1.2 = false ->
  let '(aborted, s') := reloadServices now never i cfgs s in
  aborted = false /\ reload_link a0 applied known (visited ++ cfgs) s'.
Proof.
  induction cfgs as [|cfg cfgs IH]; intros visited i s Hl Hnd Hc Hs; cbn [reloadServices].
  - by rewrite app_nil_r.
  - destruct s as [[new c] w]. cbn in Hs. rewrite Hs. cbn [orb never]. apply Forall_cons in Hc as [Hc1 Hc2].
    assert (Service.Key cfg ∉ Service.Key <$> visited) as Hkey.
    { rewrite fmap_app, fmap_cons in Hnd. apply NoDup_app in Hnd as (_ & Hnd & _). intros Hin. apply (Hnd _ Hin). by left. }
    pose proof (reloadService_link _ _ _ now _ _ _ Hl Hkey Hc1) as Hl'.
    assert (shutdown (reloadService now cfg (new, c, w)).1.2 = false) as Hs'.
    { unfold reloadService. destruct (services c !! _) as [m|]; [|done]. by destruct (Service.Reload now cfg m w). }
    rewrite cons_middle, app_assoc. apply IH; [done| |done|done]. by rewrite <- app_assoc.
Qed.

Lemma stopServices_link a0 applied now new old c w current :
  same_ann a0 (wannouncer w) -> delta_inv (service_events w) applied current ->
  linked current new -> linked current old -> (forall k, is_Some (old !! k) -> new !! k = None) ->
  let '(_, w') := stopServices now old c w in
  same_ann a0 (wannouncer w') /\ exists current', delta_inv (service_events w') applied current' /\ linked current' new.
Proof.
  intros Ha Hd Hn Ho Hdisj. unfold stopServices.
  pose proof (for_range_ind (fun (done_ : gmap key.Service Service) (s : Core * World) =>
    same_ann a0 (wannouncer s.2) /\ exists current', delta_inv (service_events s.2) applied current' /\ linked current' new /\
      forall k m, old !! k = Some m -> done_ !! k = None -> entry_ok current' k m) old
    (fun k service '(m, w) =>
       let '(service, w) := Service.Stop now service w in
       (MkCore (<[k := service]> (services m)) (servicesPool m) (shutdown m), w)) (c, w)) as HI.
  destruct (for_range old _ (c, w)) as [c' w']. cbn [snd] in HI.
  destruct HI as (H1 & current' & H2 & H3 & _); [split; [done|]; exists current; split_and!; [done|done|intros k m Hk _; by apply Ho]| |split; [done|]; by exists current'].
  intros k m done_ [c1 w1] Hnew Hk _ (Ha1 & cur1 & Hd1 & Hn1 & Ho1). cbn [snd] in *.
  pose proof (Stop_follows now m w1) as Hf. destruct (Service.Stop now m w1) as [m' w1'].
  destruct (follow_entry applied cur1 k m w1 m' w1' Hd1 (Ho1 k m Hk Hnew) Hf) as (cur2 & Hd2 & Hc2 & He2).
  destruct Hf as (_ & _ & Hsa & _). cbn in *. split; [by eapply same_ann_trans|]. exists cur2.
  split_and!; [done|eapply linked_other; [exact Hn1|exact Hc2|apply Hdisj; eauto]|].
  intros k' m1 Hk' Hd'. rewrite lookup_insert in Hd'. case_decide; [done|].
  destruct (Ho1 k' m1 Hk' Hd') as [Hs Hg]. split; [done|]. intros H'. rewrite Hc2 by congruence. auto.
Qed.
End core.

(** ** What the announcer holds *)

Section shape.
Context `{F : FloatToInt} `{MR : MapRange}.
Implicit Types (a : Announcer) (svcs : gmap key.Service Service) (w : World) (c : Core).

(** The status of a service under a prefix, and the group of a prefix. *)
Definition held a (p : Prefix) (k : key.Service) : option ServiceStatus :=
  prefixes (aprefixes a) !! p ≫= fun s => Prefixes.services s !! k.
Definition group_at a (p : Prefix) : option string := group <$> prefixes (aprefixes a) !! p.

(** The announcer holds the services with an announce group, each under its
    host prefix and with its group. *)
Definition known svcs a : Prop :=
  (forall p k, is_Some (held a p k) <-> key.Service_Prefix k = p /\ exists m, svcs !! k = Some m /\ has_group m = true) /\
  forall k m, svcs !! k = Some m -> has_group m = true ->
    group_at a (key.Service_Prefix k) = Some (SAnnounceGroup (Service.config m)).

Definition same_shape a a' : Prop :=
  forall p, group_at a' p = group_at a p /\ forall k, is_Some (held a' p k) <-> is_Some (held a p k).

Lemma known_shape svcs a a' : known svcs a -> same_shape a a' -> known svcs a'.
Proof. intros [H1 H2] Hs. split; [intros p k; rewrite (proj2 (Hs p)); apply H1|]. intros k m Hk Hg. rewrite (proj1 (Hs _)). auto. Qed.

Lemma same_ann_shape a a' : same_ann a a' -> same_shape a a'.
Proof. intros (_ & Hp & _) p. unfold group_at, held. by rewrite Hp. Qed.

Lemma same_shape_trans a1 a2 a3 : same_shape a1 a2 -> same_shape a2 a3 -> same_shape a1 a3.
Proof. intros H1 H2 p. destruct (H1 p) as [E1 F1], (H2 p) as [E2 F2]. split; [congruence|]. intros k. by rewrite F2, F1. Qed.

Lemma same_shape_refl a : same_shape a a.
Proof. done. Qed.

Lemma UpdateService_shape svc st a : same_shape a (UpdateService svc st a).2.
Proof.
  unfold UpdateService. destruct (GetGroup _ _); [|apply same_shape_refl].
  pose proof (UpdateService_functional svc st (aprefixes a)) as H. cbv zeta in H.
  destruct (prefixes (aprefixes a) !! key.Service_Prefix svc) as [ps0|] eqn:Hs; [|by rewrite H].
  destruct H as [_ H]. destruct (Prefixes_UpdateService svc st (aprefixes a)) as [e ps]. cbn in *.
  intros p. unfold group_at, held. cbn. rewrite H. destruct (decide (key.Service_Prefix svc = p)) as [<-|]; [|done]. rewrite Hs. cbn. split; [done|].
  intros k. case_decide; [|done]. rewrite lookup_insert. case_decide; [|done]. subst. naive_solver.
Qed.

(** The services change, but not which have an announce group. *)
Lemma known_insert svcs a k m m' :
  known svcs a -> svcs !! k = Some m -> SAnnounceGroup (Service.config m') = SAnnounceGroup (Service.config m) ->
  known (<[k := m']> svcs) a.
Proof.
  intros [H1 H2] Hk Hg. assert (has_group m' = has_group m) as Hh by (unfold has_group; by rewrite Hg). split.
  - intros p k'. rewrite H1. apply and_iff_compat_l. split; intros (m1 & Hm & Hm'); rewrite lookup_insert in *; case_decide; subst.
    + exists m'. split; [done|]. congruence.
    + by exists m1.
    + exists m. split; [done|]. congruence.
    + by exists m1.
  - intros k' m1. rewrite lookup_insert. case_decide; [intros [= <-]; subst|by apply H2]. rewrite Hh, Hg. by apply H2.
Qed.

Lemma servicesForAnnouncer_lookup (config : Config) k g :
  NoDup (Service.Key <$> Services config) ->
  servicesForAnnouncer config !! k = Some g <->
  exists cfg, cfg ∈ Services config /\ Service.Key cfg = k /\ SAnnounceGroup cfg = g /\ g <> "".
Proof.
  intros Hnd. split; [apply servicesForAnnouncer_spec|]. intros (cfg & Hin & <- & <- & Hg).
  destruct (servicesForAnnouncer_complete config cfg Hin Hg) as [g Hs]. rewrite Hs. f_equal.
  destruct (servicesForAnnouncer_spec _ _ _ Hs) as (cfg' & Hin' & Hk & <- & _).
  assert (cfg' = cfg) as ->; [|done].
  clear Hs Hg. induction (Services config) as [|x l IH]; [by apply not_elem_of_nil in Hin|].
  rewrite fmap_cons in Hnd. apply NoDup_cons in Hnd as [Hx Hnd].
  apply elem_of_cons in Hin as [->|Hin], Hin' as [->|Hin']; [done| | |auto].
  - destruct Hx. rewrite <- Hk. by apply list_elem_of_fmap_2.
  - destruct Hx. rewrite Hk. by apply list_elem_of_fmap_2.
Qed.

(** What the announcer holds after a reload that it accepts. *)
Lemma ReloadServices_held (services : gmap key.Service string) a a' p k :
  msize services < two63 -> ReloadServices services a = (None, a') ->
  held a' p k =
    if decide (is_Some (services !! k) /\ key.Service_Prefix k = p)
    then Some (default ServiceDisabled (held a p k)) else None.
Proof.
  intros Hsz. unfold ReloadServices. destruct (group_by_prefix services (announceGroups a)) as [gbp|e]; [|done].
  intros [= <-]. unfold held. cbn [aprefixes]. pose proof (ReloadServices_spec services (aprefixes a) p Hsz) as H.
  destruct (prefixes (Prefixes_ReloadServices services (aprefixes a)) !! p) as [st|]; cbn.
  - destruct H as (_ & _ & ->). case_decide; [|done]. f_equal. by destruct (prefixes (aprefixes a) !! p).
  - rewrite decide_False; [done|]. intros [Hs Hp]. by apply (H k).
Qed.

Lemma ReloadServices_group (services : gmap key.Service string) a a' k g :
  msize services < two63 -> ReloadServices services a = (None, a') -> services !! k = Some g ->
  group_at a' (key.Service_Prefix k) = Some g.
Proof.
  intros Hsz. unfold ReloadServices. destruct (group_by_prefix services (announceGroups a)) as [gbp|e] eqn:Hg; [|done].
  apply group_by_prefix_Ok in Hg as (_ & Hcons & _). intros [= <-] Hk. unfold group_at. cbn [aprefixes].
  pose proof (ReloadServices_spec services (aprefixes a) (key.Service_Prefix k) Hsz) as H.
  destruct (prefixes (Prefixes_ReloadServices services (aprefixes a)) !! _) as [st|]; cbn.
  - destruct H as (_ & (k' & Hk' & Hp) & _). f_equal. by eapply Hcons.
  - exfalso. by apply (H k).
Qed.
End shape.

(** ** The core and the announcer *)

Section core_announcer.
Context `{F : FloatToInt} `{MR : MapRange}.
Implicit Types (a : Announcer) (m : Service) (w : World) (c : Core).

(** The pending service events lead from what the announcer holds to what the
    services have last said. *)
Definition link (svcs : gmap key.Service Service) w : Prop :=
  exists applied current, delta_inv (service_events w) applied current /\
    (forall k st, held (wannouncer w) (key.Service_Prefix k) k = Some st -> applied k = st) /\ linked current svcs.

Lemma link_of svcs a0 w applied current :
  (forall k st, held a0 (key.Service_Prefix k) k = Some st -> applied k = st) -> same_ann a0 (wannouncer w) ->
  delta_inv (service_events w) applied current -> linked current svcs -> link svcs w.
Proof.
  intros Ha (_ & Hp & _) Hd Hl. exists applied, current. split_and!; [done| |done]. intros k st. unfold held. rewrite Hp. apply Ha.
Qed.

Lemma onService_link f k c w :
  (forall m, services c !! k = Some m ->
     follows (m, w) (f m w) /\ SAnnounceGroup (Service.config (f m w).1) = SAnnounceGroup (Service.config m)) ->
  link (services c) w -> known (services c) (wannouncer w) ->
  let '(c', w') := onService f k c w in
  same_ann (wannouncer w) (wannouncer w') /\ link (services c') w' /\ known (services c') (wannouncer w').
Proof.
  intros Hf (applied & current & Hd & Ha & Hl) Hk. unfold onService.
  destruct (services c !! k) as [m|] eqn:Hm; [|split_and!; [done|by exists applied, current|done]].
  destruct (Hf m eq_refl) as [Hfol Hg]. destruct (f m w) as [m' w']. cbn in Hg.
  destruct (follow_entry applied current k m w m' w' Hd (Hl k m Hm) Hfol) as (current' & Hd' & Hc' & He').
  destruct Hfol as (_ & _ & Hsa & _). cbn in Hsa. split_and!; [done| |].
  - apply (link_of _ (wannouncer w) w' applied current'); try done. by eapply linked_insert.
  - eapply known_shape; [by eapply known_insert|]. by apply same_ann_shape.
Qed.

Lemma Reload_own_config now m w : Service.config (Service.Reload now (Service.config m) m w).1 = Service.config m.
Proof.
  unfold Service.Reload. destruct (_ && _); [done|]. destruct (for_each _ _ _) as [[new m1] w1].
  destruct (stopReals now 1 (reals m1) m1 w1) as [m2 w2].
  match goal with |- context [processAnnounce ?m ?w] =>
    pose proof (processAnnounce_spec m w) as H; destruct (processAnnounce m w) as [m3 w3] end.
  destruct H as ((Hc & _) & _). exact Hc.
Qed.

(** When the configuration is reloaded, no service event is pending
    ([readded_service_not_announced]), a prefix changes its group only while it
    is ready ([group_change_loses_update]), and no service gets or loses its
    announce group ([late_announce_group_not_registered]). *)
Definition reload_ok (config : Config) c w : Prop :=
  events (service_events w) = ∅ /\ msize (servicesForAnnouncer config) < two63 /\
  group_changes_ready [Prefixes.OpReload (servicesForAnnouncer config)] (aprefixes (wannouncer w)) = true /\
  forall cfg m, cfg ∈ Services config -> services c !! Service.Key cfg = Some m ->
    (SAnnounceGroup cfg = "" <-> SAnnounceGroup (Service.config m) = "").

(** The statuses after the announcer has reloaded. *)
Lemma ReloadServices_link (config : Config) c w a' :
  reload_ok config c w -> NoDup (Service.Key <$> Services config) ->
  ReloadServices (servicesForAnnouncer config) (wannouncer w) = (None, a') ->
  link (services c) w -> known (services c) (wannouncer w) ->
  exists applied, delta_inv (serviceEventRegistry a') applied applied /\
    (forall k st, held a' (key.Service_Prefix k) k = Some st -> applied k = st) /\ linked applied (services c) /\
    Forall (config_link applied (services c)) (Services config).
Proof.
  intros (Hreg & Hsz & _ & Hgr) Hnd Ha' (ap & cur & Hd & Hap & Hl) [Hk1 Hk2].
  assert (forall k, ap k = cur k) as Hcur by (intros k; specialize (Hd k); by rewrite Hreg, lookup_empty in Hd).
  set (applied := fun k => match held a' (key.Service_Prefix k) k with Some st => st | None => ap k end).
  assert (forall k st, held (wannouncer w) (key.Service_Prefix k) k = Some st -> applied k = st) as Hkeep.
  { intros k st Hst. unfold applied. rewrite (ReloadServices_held _ _ _ _ _ Hsz Ha'), Hst. case_decide; [done|]. by apply Hap. }
  exists applied. split_and!.
  - assert (serviceEventRegistry a' = serviceEventRegistry (wannouncer w)) as ->.
    { unfold ReloadServices in Ha'. destruct (group_by_prefix _ _); [|done]. by injection Ha' as <-. }
    intros k. unfold service_events in Hreg. by rewrite Hreg, lookup_empty.
  - intros k st Hst. unfold applied. by rewrite Hst.
  - intros k m Hm. destruct (Hl k m Hm) as [Hs Hc]. split; [done|]. intros Hg.
    destruct (proj2 (Hk1 (key.Service_Prefix k) k)) as [st Hst]; [by split; [|exists m]|].
    rewrite (Hkeep k st Hst), <- (Hap k st Hst), Hcur. auto.
  - apply Forall_forall. intros cfg Hin. unfold config_link. destruct (services c !! Service.Key cfg) as [m|] eqn:Hm; [by apply Hgr|].
    intros Hg. unfold applied. rewrite (ReloadServices_held _ _ _ _ _ Hsz Ha').
    rewrite decide_True by (split; [by apply servicesForAnnouncer_complete|done]).
    destruct (held (wannouncer w) _ (Service.Key cfg)) as [st|] eqn:Hst; [|done].
    destruct (proj1 (Hk1 (key.Service_Prefix (Service.Key cfg)) (Service.Key cfg)) ltac:(eauto)) as (_ & m & Hm' & _). congruence.
Qed.

Lemma Reload_link now (config : Config) c w applied_lb :
  core_inv applied_lb (services c) w -> shutdown c = false ->
  NoDup (Service.Key <$> Services config) -> Forall cfg_ok (Services config) -> reload_ok config c w ->
  link (services c) w -> known (services c) (wannouncer w) ->
  let '(_, c', w') := Reload now never config c w in
  same_ann (ReloadServices (servicesForAnnouncer config) (wannouncer w)).2 (wannouncer w') /\
  link (services c') w' /\ known (services c') (wannouncer w').
Proof.
  intros Hinv Hsh Hnd Hcfg Hok Hlink Hk. pose proof (core_Reload_ok applied_lb now config c w Hinv Hsh Hnd Hcfg) as HR.
  pose proof Hok as (_ & Hsz & _ & _). pose proof (ReloadServices_link config c w) as HL. unfold Reload in *.
  destruct (ReloadServices (servicesForAnnouncer config) (wannouncer w)) as [[e|] a'] eqn:Ha'.
  { assert (a' = wannouncer w) as -> by (unfold ReloadServices in Ha'; destruct (group_by_prefix _ _); by injection Ha').
    by destruct w. }
  destruct (HL a' Hok Hnd eq_refl Hlink Hk) as (applied & Hd & Ha & Hl & Hc). clear HL.
  pose proof (reloadServices_link a' applied (services c) now (Services config) [] 0 (∅, c, MkWorld a' (wbalancer w))) as HS.
  destruct (reloadServices now never 0 (Services config) (∅, c, MkWorld a' (wbalancer w))) as [aborted [[new c1] w1]].
  destruct HS as (-> & Hsa & Ho & Hn & _ & current & Hd1 & Hl1 & Ho1 & _); [|done|done|done|].
  { split_and!; [done|by intros k ?%not_elem_of_nil|intros k; rewrite lookup_empty; by intros []|done|].
    exists applied. split_and!; [done|by intros k m; rewrite lookup_empty|done|done]. }
  cbn [app] in *. pose proof (stopServices_link a' applied now new (services c1) c1 w1 current Hsa Hd1 Hl1 Ho1) as HT.
  destruct (stopServices now (services c1) c1 w1) as [c2 w2]. destruct HR as (_ & _ & HR).
  destruct HT as (Hsa2 & current' & Hd2 & Hl2).
  { intros k [m Hm]. apply eq_None_not_Some. intros Hin%Hn. by rewrite (Ho k Hin) in Hm. }
  destruct (HR eq_refl) as [Hdom Hconf]. cbn [snd services] in *. split; [done|]. split; [by eapply link_of|].
  eapply known_shape; [|by apply same_ann_shape].
  assert (forall k m, new !! k = Some m -> exists cfg, cfg ∈ Services config /\ Service.Key cfg = k /\ Service.config m = cfg) as Hcf.
  { intros k m Hm. destruct (proj1 (list_elem_of_fmap _ _ _) (proj1 (Hdom k) ltac:(eauto))) as (cfg & -> & Hin).
    exists cfg. split_and!; [done|done|]. by eapply Hconf. }
  split.
  - intros p k. rewrite (ReloadServices_held _ _ _ _ _ Hsz Ha'). split.
    + case_decide as Hd'; [|by intros []]. intros _. destruct Hd' as [[g Hg] Hp]. split; [done|].
      destruct (servicesForAnnouncer_spec _ _ _ Hg) as (cfg & Hin & Hkey & Hgr & Hne).
      destruct (proj2 (Hdom k)) as [m Hm]; [rewrite <- Hkey; by apply list_elem_of_fmap_2|]. exists m. split; [done|].
      rewrite <- Hkey in Hm. unfold has_group. rewrite (Hconf cfg m Hin Hm), Hgr. by apply negb_true_iff, bool_decide_eq_false.
    + intros (Hp & m & Hm & Hg). destruct (Hcf k m Hm) as (cfg & Hin & Hkey & Hmc). rewrite decide_True; [eauto|].
      split; [|done]. rewrite <- Hkey. apply servicesForAnnouncer_complete; [done|].
      unfold has_group in Hg. rewrite Hmc in Hg. by apply negb_true_iff, bool_decide_eq_false in Hg.
  - intros k m Hm Hg. destruct (Hcf k m Hm) as (cfg & Hin & Hkey & Hmc). rewrite Hmc.
    eapply ReloadServices_group; [done|done|]. apply servicesForAnnouncer_lookup; [done|]. exists cfg. split_and!; [done..|].
    unfold has_group in Hg. rewrite Hmc in Hg. by apply negb_true_iff, bool_decide_eq_false in Hg.
Qed.
End core_announcer.

(** ** The whole program *)

Section whole.
Context `{F : FloatToInt} `{MR : MapRange}.
Context {W E : Type} `{LL : LoadBalancerLaws W E} {D ED : Type} `{CL : ClientLaws D ED}.

(** The program with the load balancer and the routing daemon. *)
Record Monalive := MkMonalive { mcore : Core; mworld : World; mlb : W; mdaemon : D }.

Definition start (announcer : Announcer.Config) (implements : bool) (b : W) (d : D) : Monalive :=
  MkMonalive Core.New (MkWorld (Announcer.New announcer) (NewBalancer implements)) b d.

(** The steps of the goroutines that [Run] starts: the core's operations, the
    balancer's two loops and the announcer's workers. *)
Inductive app_step : Monalive -> Monalive -> Prop :=
| step_core o c w b d :
    core_op_ok o c -> match o with OpReload _ config => reload_ok config c w | _ => True end ->
    app_step (MkMonalive c w b d) (MkMonalive (do_core o (c, w)).1 (do_core o (c, w)).2 b d)
| step_updater c w b d bal a b' log :
    msize (events (bevents (wbalancer w))) < two63 ->
    updateBalancer (wbalancer w) (wannouncer w) b = (bal, a, b', log) -> existsb is_LogFlush log = false ->
    app_step (MkMonalive c w b d) (MkMonalive c (MkWorld a bal) b' d)
| step_stater c w b d (response : res E (gmap string services_)) :
    app_step (MkMonalive c w b d) (MkMonalive c (MkWorld (wannouncer w) (stater_tick response (wbalancer w))) b d)
| step_announcer c w b d a d' :
    updater_tick (wannouncer w) d = (a, d', []) ->
    app_step (MkMonalive c w b d) (MkMonalive c (MkWorld a (wbalancer w)) b d')
| step_request g c w b d :
    (forall k, is_Some (events (events_ (aprefixes (wannouncer w))) !! k) -> pkGroup k <> g) ->
    app_step (MkMonalive c w b d)
      (MkMonalive c w b (state_request_send g (state_request_read g (wannouncer w)) d).1).

Definition app_inv (s : Monalive) : Prop :=
  core_inv (configured (mlb s)) (services (mcore s)) (mworld s) /\ shutdown (mcore s) = false /\
  (forall k, active_status (mlb s) k = configured (mlb s) k) /\
  tracked (wannouncer (mworld s), mdaemon s) /\
  link (services (mcore s)) (mworld s) /\ known (services (mcore s)) (wannouncer (mworld s)).

Lemma tracked_same (a a' : Announcer) (d : D) : same_ann a a' -> tracked (a, d) -> tracked (a', d).
Proof. intros (H1 & H2 & H3). unfold tracked, ann_inv. cbn. by rewrite H1, H2, H3. Qed.

Lemma onService_same f k c w :
  (forall m, follows (m, w) (f m w)) -> same_ann (wannouncer w) (wannouncer (onService f k c w).2).
Proof.
  intros Hf. unfold onService. destruct (services c !! k) as [m|]; [|apply same_ann_refl].
  specialize (Hf m). destruct (f m w). apply Hf.
Qed.

(** The operations on one service. *)
Lemma service_op_link o c w :
  match o with OpReload _ _ => False | _ => True end -> core_op_ok o c ->
  link (services c) w -> known (services c) (wannouncer w) ->
  same_ann (wannouncer w) (wannouncer (do_core o (c, w)).2) /\ link (services (do_core o (c, w)).1) (do_core o (c, w)).2 /\
  known (services (do_core o (c, w)).1) (wannouncer (do_core o (c, w)).2).
Proof.
  intros Ho Hok Hl Hk. destruct o as [|now k|k [now rk e|now rk|now cfg]]; try done; cbn [do_core fst snd] in *.
  - pose proof (onService_link (Service.Run now) k c w) as H. destruct (onService (Service.Run now) k c w). apply H; [|done|done].
    intros m _. unfold Service.Run. split; [by apply Reload_follows|by rewrite Reload_own_config].
  - pose proof (onService_link (fun m w => do_svc (OpReal now rk e) (m, w)) k c w) as H.
    destruct (onService (fun m w => do_svc (OpReal now rk e) (m, w)) k c w). apply H; [|done|done].
    intros m _. cbn [do_svc fst snd]. split; [apply realEvent_follows|]. f_equal. apply realEvent_same.
  - pose proof (onService_link (fun m w => do_svc (OpActivate now rk) (m, w)) k c w) as H.
    destruct (onService (fun m w => do_svc (OpActivate now rk) (m, w)) k c w). apply H; [|done|done].
    intros m _. cbn [do_svc fst snd]. split; [apply realRun_follows|]. f_equal. apply realRun_same.
Qed.

(** The update of the balancer, as the announcer sees it. *)
Lemma announceServices_steps (evs : gmap key.Service ServiceStatus) a (log : list (balancerLog E)) (d : D) :
  tracked (a, d) ->
  tracked ((announceServices evs a log).1, d) /\ same_shape a (announceServices evs a log).1 /\
  Announcer.config (announceServices evs a log).1 = Announcer.config a.
Proof.
  intros Ht. unfold announceServices.
  apply (for_range_ind (fun (_ : gmap key.Service ServiceStatus) (s : Announcer * list (balancerLog E)) =>
    tracked (s.1, d) /\ same_shape a s.1 /\ Announcer.config s.1 = Announcer.config a)); [by split|].
  intros k st _ [a1 l1] _ _ _ (Ht1 & Hs1 & Hc1). cbn [fst] in *.
  assert (Announcer.config (UpdateService k st a1).2 = Announcer.config a1) as Hc2
    by (unfold UpdateService; destruct (GetGroup _ _); [|done]; by destruct (Prefixes_UpdateService _ _ _)).
  pose proof (ann_step_tracked _ _ (step_op (OpUpdateService k st) a1 d I ltac:(done) I) Ht1) as Ht2.
  pose proof (UpdateService_shape k st a1) as Hs2. cbn [do_ann] in Ht2.
  destruct (UpdateService k st a1) as [[e|] a2]; cbn in *; (split_and!; [done|by eapply same_shape_trans|congruence]).
Qed.

Lemma updateBalancer_steps bal a b bal' a' b' (log : list (balancerLog E)) (d : D) :
  tracked (a, d) -> updateBalancer bal a b = (bal', a', b', log) ->
  tracked (a', d) /\ same_shape a a' /\ Announcer.config a' = Announcer.config a.
Proof.
  intros Ht. unfold updateBalancer. destruct (FlushServiceEvents a) as [anns a0] eqn:Ha0.
  destruct (Process updateReal (bevents bal) (b, [])) as [[evs [w1 l1]] n].
  destruct (if 0 <? n then _ else _) as [w2 l2].
  assert (same_ann a a0) as Hsa by (unfold FlushServiceEvents in Ha0; cbn in Ha0; by injection Ha0 as <- <-).
  pose proof (announceServices_steps anns a0 l2 d (tracked_same _ _ _ Hsa Ht)) as (H1 & H2 & H3).
  destruct (announceServices anns a0 l2) as [a2 l3]. intros [= <- <- <- <-]. split_and!; [done| |].
  - eapply same_shape_trans; [|exact H2]. by apply same_ann_shape.
  - cbn in H3. destruct Hsa. congruence.
Qed.

(** An update delivers the pending service events. *)
Lemma updateBalancer_link svcs w b bal' a' b' (log : list (balancerLog E)) :
  ann_inv (wannouncer w) -> updateBalancer (wbalancer w) (wannouncer w) b = (bal', a', b', log) ->
  link svcs w -> known svcs (wannouncer w) -> same_shape (wannouncer w) a' ->
  link svcs (MkWorld a' bal') /\
  forall k m, svcs !! k = Some m -> has_group m = true ->
    held a' (key.Service_Prefix k) k = Some (service_status_of (Alive (state m))).
Proof.
  intros Hi Hup (applied & current & Hd & Ha & Hl) [Hk1 _] Hsh.
  assert (events (serviceEventRegistry a') = ∅) as Hev by (by destruct (updateBalancer_delivers _ _ _ _ _ _ _ (key.MkService AddrInvalid 0 "") Hi Hup) as (_ & H & _)).
  assert (forall k m, svcs !! k = Some m -> has_group m = true ->
    held a' (key.Service_Prefix k) k = Some (service_status_of (Alive (state m)))) as Hheld.
  { intros k m Hm Hg. destruct (updateBalancer_delivers _ _ _ _ _ _ _ k Hi Hup) as (_ & _ & Hst).
    change (held a' (key.Service_Prefix k) k = (fun old => default old (events (serviceEventRegistry (wannouncer w)) !! k)) <$>
      held (wannouncer w) (key.Service_Prefix k) k) in Hst.
    destruct (proj2 (Hk1 (key.Service_Prefix k) k)) as [st Hs]; [by split; [|exists m]|].
    rewrite Hst, Hs. cbn. f_equal. destruct (Hl k m Hm) as [_ Hc]. rewrite <- (Hc Hg). specialize (Hd k).
    unfold service_events in Hd. destruct (events (serviceEventRegistry (wannouncer w)) !! k) as [e|]; cbn.
    - by destruct Hd as [H _].
    - by rewrite <- (Ha k st Hs). }
  split; [|done].
  set (now := fun k => default ServiceDisabled (held a' (key.Service_Prefix k) k)).
  exists now, now. split_and!.
  - intros k. unfold service_events. cbn. by rewrite Hev, lookup_empty.
  - intros k st Hst. unfold now. cbn in Hst. by rewrite Hst.
  - intros k m Hm. destruct (Hl k m Hm) as [Hs _]. split; [done|]. intros Hg. unfold now. by rewrite (Hheld k m Hm Hg).
Qed.

Lemma ann_ann_inv a (d : D) : tracked (a, d) -> ann_inv a.
Proof. by intros [H _]. Qed.

Lemma do_core_link applied o c w (d : D) :
  core_op_ok o c -> match o with OpReload _ config => reload_ok config c w | _ => True end ->
  core_inv applied (services c) w -> shutdown c = false ->
  tracked (wannouncer w, d) -> link (services c) w -> known (services c) (wannouncer w) ->
  let '(c', w') := do_core o (c, w) in
  tracked (wannouncer w', d) /\ link (services c') w' /\ known (services c') (wannouncer w').
Proof.
  intros Hok Hr Hc Hs Htr Hl Hk. destruct o as [now config|now k|k o].
  - destruct Hok as [Hnd Hcf]. pose proof Hr as (_ & Hsz & Hready & _).
    pose proof (Reload_link now config c w applied Hc Hs Hnd Hcf Hr Hl Hk) as H. cbn [do_core fst snd].
    destruct (Reload now never config c w) as [[e c'] w']. destruct H as (Hsa & Hl' & Hk'). split_and!; [|done|done].
    eapply tracked_same; [exact Hsa|].
    exact (ann_step_tracked _ _ (step_op (OpReloadServices _) (wannouncer w) d Hsz ltac:(done) Hready) Htr).
  - destruct (service_op_link (OpRun now k) c w I Hok Hl Hk) as (Hsa & Hl' & Hk').
    destruct (do_core _ _). split_and!; [by eapply tracked_same|done|done].
  - destruct (service_op_link (OpService k o) c w I Hok Hl Hk) as (Hsa & Hl' & Hk').
    destruct (do_core _ _). split_and!; [by eapply tracked_same|done|done].
Qed.

Lemma app_step_inv s s' : app_step s s' -> app_inv s -> app_inv s'.
Proof.
  destruct 1 as [o c w b d Hok Hr|c w b d bal a b' log Hsz Hup Hfl|c w b d resp|c w b d a d' Ht|g c w b d Hp];
    intros (Hc & Hs & Hact & Htr & Hl & Hk); unfold app_inv in *; cbn [mcore mworld mlb mdaemon] in *.
  - destruct (do_core_inv (configured b) o (c, w) Hok Hc Hs) as [Hc' Hs'].
    pose proof (do_core_link (configured b) o c w d Hok Hr Hc Hs Htr Hl Hk) as H.
    destruct (do_core o (c, w)). destruct H as (Htr' & Hl' & Hk'). by split_and!.
  - destruct (updateBalancer_steps _ _ _ _ _ _ _ d Htr Hup) as (Htr' & Hsh & _).
    destruct (updateBalancer_link _ w b _ _ _ _ (ann_ann_inv _ _ Htr) Hup Hl Hk Hsh) as [Hl' _].
    destruct Hc as [Hloc Hd].
    destruct (updateBalancer_inv (wbalancer w) (wannouncer w) b (core_view (services c)) bal a b' log Hsz Hup) as [[Hd' Hact'] _];
      [by split|done|].
    split_and!; [by split|done|done|done|done|by eapply known_shape].
  - destruct Hc as [Hloc Hd]. split_and!; [split; [done|]; by destruct resp|done..].
  - pose proof (updater_tick_spec (wannouncer w) d (proj2 Htr)) as Hts. rewrite Ht in Hts. destruct Hts as [Ha _].
    pose proof (ann_step_tracked _ _ (step_tick _ _ _ _ Ht) Htr) as Htr'. cbn [do_ann] in Ha. subst a.
    split_and!; [done|done|done|done|done|done].
  - split_and!; [done|done|done| |done|done].
    exact (ann_step_tracked _ _ (step_state_request g _ _ Hp) Htr).
Qed.

Lemma app_inv_start ac implements b d :
  (forall k, configured b k ≈ down) -> (forall k, active_status b k = configured b k) -> (forall k, view d k = Unready) ->
  app_inv (start ac implements b d).
Proof.
  intros Hb Hact Hd. split_and!; cbn [mcore mworld mlb mdaemon start].
  - apply core_inv_New. intros k. cbn. by rewrite lookup_empty.
  - done.
  - done.
  - by apply tracked_New.
  - exists (fun _ => ServiceDisabled), (fun _ => ServiceDisabled). split_and!; [intros k; cbn; by rewrite lookup_empty| |].
    + intros k st. unfold held. cbn. by rewrite lookup_empty.
    + intros k m. cbn. by rewrite lookup_empty.
  - split; [intros p k|intros k m]; cbn; [|by rewrite lookup_empty]. unfold held. cbn. rewrite lookup_empty. cbn. split; [by intros []|].
    intros (_ & m & Hm & _). by rewrite lookup_empty in Hm.
Qed.

Lemma app_steps_inv s s' : rtc app_step s s' -> app_inv s -> app_inv s'.
Proof. induction 1; eauto using app_step_inv. Qed.

(** The announcement of a prefix after the announcer's tick. *)
Lemma announced_alive svcs a (pk : PrefixKey) :
  ann_inv a -> known svcs a ->
  (forall k m, svcs !! k = Some m -> has_group m = true ->
     held a (key.Service_Prefix k) k = Some (service_status_of (Alive (state m)))) ->
  announced (aprefixes a) pk = Ready <->
  (exists k m, svcs !! k = Some m /\ key.Service_Prefix k = pkPrefix pk /\ SAnnounceGroup (Service.config m) = pkGroup pk /\
     pkGroup pk <> "") /\
  forall k m, svcs !! k = Some m -> key.Service_Prefix k = pkPrefix pk -> SAnnounceGroup (Service.config m) <> "" ->
    Alive (state m) = true.
Proof.
  intros (Hwf & _) [Hk1 Hk2] Hheld.
  assert (forall m, has_group m = true <-> SAnnounceGroup (Service.config m) <> "") as Hgr
    by (intros m; unfold has_group; by rewrite negb_true_iff, bool_decide_eq_false).
  unfold announced. destruct (prefixes (aprefixes a) !! pkPrefix pk) as [s|] eqn:Hs.
  - destruct (Hwf _ _ Hs) as [Hwfs Hne].
    assert (forall k, held a (pkPrefix pk) k = Prefixes.services s !! k) as Hhs by (intros k; unfold held; by rewrite Hs).
    assert (group_at a (pkPrefix pk) = Some (group s)) as Hgs by (unfold group_at; by rewrite Hs).
    assert (forall k m, svcs !! k = Some m -> key.Service_Prefix k = pkPrefix pk -> SAnnounceGroup (Service.config m) <> "" ->
      SAnnounceGroup (Service.config m) = group s) as Hsame.
    { intros k m Hm Hp Hg. specialize (Hk2 k m Hm (proj2 (Hgr m) Hg)). rewrite Hp, Hgs in Hk2. congruence. }
    case_decide as Hg.
    + rewrite status_Ready by done. split.
      * intros [_ Hall]. split.
        -- apply map_choose in Hne as (k & st & Hst). destruct (proj1 (Hk1 (pkPrefix pk) k)) as (Hp & m & Hm & Hg'); [rewrite Hhs; eauto|].
           apply Hgr in Hg'. exists k, m. rewrite <- Hg. split_and!; [done|done|by eapply Hsame|]. rewrite <- (Hsame k m Hm Hp Hg'). done.
        -- intros k m Hm Hp Hg'. specialize (Hheld k m Hm (proj2 (Hgr m) Hg')). rewrite Hp, Hhs in Hheld.
           specialize (Hall _ _ Hheld). by destruct (Alive (state m)).
      * intros [_ Hall]. split; [done|]. intros k st Hst.
        destruct (proj1 (Hk1 (pkPrefix pk) k)) as (Hp & m & Hm & Hg'); [rewrite Hhs; eauto|].
        specialize (Hheld k m Hm Hg'). rewrite Hp, Hhs, Hst in Hheld. injection Hheld as ->.
        rewrite (Hall k m Hm Hp (proj1 (Hgr m) Hg')). done.
    + split; [done|]. intros [(k & m & Hm & Hp & Hg' & Hne') _]. destruct Hg. rewrite <- (Hsame k m Hm Hp); congruence.
  - split; [done|]. intros [(k & m & Hm & Hp & Hg & Hne') _]. exfalso.
    specialize (Hk2 k m Hm). rewrite Hp in Hk2. unfold group_at in Hk2. rewrite Hs in Hk2. cbn in Hk2.
    discriminate Hk2. apply Hgr. congruence.
Qed.


(** The shutdown in [Run], as far as the core, the balancer and the announcer go.
    The balancer's updater runs its last update when it sees the signal: before
    the announcer has stopped or, if [late], after. *)
Definition Run_shutdown (now : Z) (late : bool) (s : Monalive) : Monalive * list (balancerLog E) * list (string * ED) :=
  let '(c, w) := Core.Stop now (mcore s) (mworld s) in
  let bal := StopBalancer (wbalancer w) in
  if late then
    let '(a, d, failed) := Announcer.Stop (wannouncer w) (mdaemon s) in
    let '(bal, a, b, log) := updateBalancer bal a (mlb s) in
    (MkMonalive c (MkWorld a bal) b d, log, failed)
  else
    let '(bal, a, b, log) := updateBalancer bal (wannouncer w) (mlb s) in
    let '(a, d, failed) := Announcer.Stop a (mdaemon s) in
    (MkMonalive c (MkWorld a bal) b d, log, failed).

(** What stopping the core leaves pending. *)
Lemma Core_Stop_ok applied now c w (d : D) :
  core_inv applied (services c) w -> tracked (wannouncer w, d) -> link (services c) w -> known (services c) (wannouncer w) ->
  let '(_, w') := Core.Stop now c w in
  delta_inv (bevents (wbalancer w')) applied (fun _ => down) /\ same_ann (wannouncer w) (wannouncer w').
Proof.
  intros Hc Htr (ap & cur & Hd & _ & Hl) Hk. unfold Core.Stop. cbn [services].
  pose proof (stopServices_ok applied ∅ now (services c) (MkCore (services c) (servicesPool c) true) w) as HS.
  pose proof (stopServices_link (wannouncer w) ap now ∅ (services c) (MkCore (services c) (servicesPool c) true) w cur) as HL.
  destruct (stopServices now (services c) _ w) as [c' w'].
  destruct HS as ([_ Hc'] & _); [by rewrite map_empty_union|intros; apply lookup_empty|].
  destruct HL as [Hsa _]; [done|done|by intros k m; rewrite lookup_empty|done|intros; apply lookup_empty|].
  split; [|done]. eapply delta_inv_proper; [|exact Hc']. intros k. unfold core_view. by rewrite lookup_empty.
Qed.

Lemma in_group_same a a' pk : same_shape a a' -> in_group a pk = true -> in_group a' pk = true.
Proof.
  intros Hs. destruct (Hs (pkPrefix pk)) as [Hg _]. unfold group_at in Hg. unfold in_group.
  destruct (prefixes (aprefixes a) !! pkPrefix pk) as [s|], (prefixes (aprefixes a') !! pkPrefix pk) as [s'|]; cbn in Hg; try done.
  injection Hg as ->. done.
Qed.

End whole.

(** ** Concrete runs *)

Section concrete.
Definition reload_okb (config : Config) (c : Core) (w : World) : bool :=
  bool_decide (events (service_events w) = ∅) && (msize (servicesForAnnouncer config) <? two63) &&
  group_changes_ready [Prefixes.OpReload (servicesForAnnouncer config)] (aprefixes (wannouncer w)) &&
  forallb (fun cfg => match services c !! Service.Key cfg with
                      | Some m => Bool.eqb (bool_decide (SAnnounceGroup cfg = "")) (negb (has_group m))
                      | None => true
                      end) (Services config).

Lemma reload_okb_ok config c w : reload_okb config c w = true -> reload_ok config c w.
Proof.
  unfold reload_okb. intros [[[H1 H2]%andb_prop H3]%andb_prop H4]%andb_prop.
  apply bool_decide_eq_true in H1. apply Z.ltb_lt in H2. split_and!; [done..|].
  intros cfg m Hin%list_elem_of_In Hm. rewrite forallb_forall in H4. specialize (H4 cfg Hin). rewrite Hm in H4.
  apply eqb_prop in H4. unfold has_group in H4. rewrite negb_involutive in H4. split; intros Hx; eapply bool_decide_eq_true; [rewrite <- H4|rewrite H4]; by apply bool_decide_eq_true_2.
Qed.

Fixpoint run_okb (l : list core_op) (s : Core * World) : bool :=
  match l with
  | [] => true
  | o :: l => op_okb o s.1 && match o with OpReload _ config => reload_okb config s.1 s.2 | _ => true end && run_okb l (do_core o s)
  end.

(** The core moves, in a program whose state is computed. *)
Definition core_run (l : list core_op) (s : Monalive (W := LB) (D := Daemon)) : Monalive (W := LB) (D := Daemon) :=
  let '(c, w) := for_each do_core l (mcore s, mworld s) in MkMonalive c w (mlb s) (mdaemon s).

Lemma core_run_steps l s : run_okb l (mcore s, mworld s) = true -> rtc app_step s (core_run l s).
Proof.
  destruct s as [c w b d]. cbn [mcore mworld]. revert c w. unfold core_run, for_each. cbn [mcore mworld mlb mdaemon].
  induction l as [|o l IH]; intros c w; cbn [foldl run_okb fst snd]; [constructor|].
  intros [[H1 H2]%andb_prop H3]%andb_prop. eapply rtc_l.
  - apply (step_core o); [by apply op_okb_ok|]. destruct o; [by apply reload_okb_ok|done..].
  - destruct (do_core o (c, w)) as [c' w']. cbn [fst snd]. by apply IH.
Qed.

Definition update (s : Monalive (W := LB) (D := Daemon)) : Monalive (W := LB) (D := Daemon) :=
  let '(bal, a, b, _) := updateBalancer (wbalancer (mworld s)) (wannouncer (mworld s)) (mlb s) in
  MkMonalive (mcore s) (MkWorld a bal) b (mdaemon s).

Definition tick (s : Monalive (W := LB) (D := Daemon)) : Monalive (W := LB) (D := Daemon) :=
  let '(a, d, _) := updater_tick (wannouncer (mworld s)) (mdaemon s) in
  MkMonalive (mcore s) (MkWorld a (wbalancer (mworld s))) (mlb s) d.

Definition off : Monalive (W := LB) (D := Daemon) := start config1 true (empty_lb []) quiet.
Definition booted : Monalive (W := LB) (D := Daemon) := core_run (boot both) off.

Lemma booted_ok : rtc app_step off booted.
Proof. apply core_run_steps. vm_compute. reflexivity. Qed.

Definition prefix_of (k : key.Service) (g : string) : PrefixKey := MkPrefixKey (key.Service_Prefix k) g.



(** A service that is removed and configured again before the balancer's next
    update, and is up again by then, is not announced: its two events cancel out,
    but the announcer, which has reloaded in between, holds it as disabled. *)
Theorem readded_service_not_announced :
  let s1 := tick (update booted) in
  let back := [OpReload 2 (MkConfig [svc2]); OpReload 3 both; OpRun 3 sk1; OpService sk1 (OpActivate 3 rk2);
               OpService sk1 (OpReal 4 rk2 succeed)] in
  let s2 := tick (update (core_run back s1)) in
  view (mdaemon s1) (prefix_of sk1 "a") = Ready /\
  (fun m => Alive (state m)) <$> services (mcore s2) !! sk1 = Some true /\
  view (mdaemon s2) (prefix_of sk1 "a") = Unready.
Proof. vm_compute. repeat split. Qed.
End concrete.
