(* ===== verification/Server.v ===== *)
(** * The server

    [internal/server] and [internal/types/requestid]: the middleware that gives a
    request its identifier, the paths of the metrics server, and what [New] keeps
    of the configuration.  How the three servers start and end is in [Lifecycle];
    what they serve is the manager of [Core].  Of Go's standard library the
    headers of a response, the values of a context and the patterns of a
    multiplexer are written out. *)

From stdpp Require Import strings numbers gmap sets list.
From S2P Require Import Prelude.
From S2P Require Import Types.
From S2P Require Import Check.
From S2P Require Import Text.

Open Scope Z_scope.
Open Scope go_scope.

(** ** internal/types/requestid *)

Module requestid.
Definition HeaderKey : string := "X-Request-ID".

(** The keys of a context are compared with their types, and the key of this
    package has a type that no other package can name. *)
Inductive Key := requestIDContextKey | OtherKey (n : nat).
Inductive Val := VRequestID (id : string) | VOther (n : nat).

Inductive Context := Background | WithValue (parent : Context) (k : Key) (v : Val).

#[global] Instance Key_eq_dec : EqDecision Key.
Proof. solve_decision. Defined.

Fixpoint Value (k : Key) (ctx : Context) : option Val :=
  match ctx with
  | Background => None
  | WithValue parent k' v => if decide (k = k') then Some v else Value k parent
  end.

(** The value and whether it is there and a [RequestID]. *)
Definition FromContext (ctx : Context) : string * bool :=
  match Value requestIDContextKey ctx with
  | Some (VRequestID id) => (id, true)
  | _ => ("", false)
  end.

Definition NewContext (ctx : Context) (requestID : string) : Context :=
  WithValue ctx requestIDContextKey (VRequestID requestID).
End requestid.

(** ** Headers of [net/http] *)

(** The bytes of a token. *)
Definition validHeaderFieldByte (b : Z) : bool :=
  ((48 <=? b) && (b <=? 57)) || ((65 <=? b) && (b <=? 90)) || ((97 <=? b) && (b <=? 122)) ||
  existsb (Z.eqb b) (bytes_of "!#$%&'*+-.^_`|~").

Fixpoint canonical (upper : bool) (l : list Z) : list Z :=
  match l with
  | [] => []
  | b :: l =>
      let b := if upper && (97 <=? b) && (b <=? 122) then b - 32
               else if negb upper && (65 <=? b) && (b <=? 90) then b + 32 else b in
      b :: canonical (b =? 45) l
  end.

Definition CanonicalHeaderKey (s : string) : string :=
  if forallb validHeaderFieldByte (bytes_of s) then of_bytes (canonical true (bytes_of s)) else s.

Notation Header := (gmap string (list string)).

Definition Header_Set (key value : string) (h : Header) : Header := <[CanonicalHeaderKey key := [value]]> h.

Definition Header_Get (key : string) (h : Header) : string :=
  match h !! CanonicalHeaderKey key with Some (v :: _) => v | _ => "" end.

(** ** middleware.go *)

Section middleware.
(** [Body] is what a request has besides the fields that are looked at, [Sent]
    what has been written of a response, [W] the rest of the world: the source
    of the identifiers ([uuid.New]), the log, the clock. *)
Context {Body Sent W : Type} (uuid_New : W -> string * W) (Info : string -> list (string * string) -> W -> W)
  (Now : W -> Z * W) (Duration_String : Z -> string).

Record Request := MkRequest {
  Method : string;
  Path : string;
  RemoteAddr : string;
  ctx : requestid.Context;
  body : Body;
}.

Definition WithContext (r : Request) (c : requestid.Context) : Request :=
  MkRequest (Method r) (Path r) (RemoteAddr r) c (body r).

Record ResponseWriter := MkResponseWriter { header : Header; sent : Sent }.

(** [ServeHTTP] of a handler. *)
Definition Handler : Type := ResponseWriter -> Request -> W -> ResponseWriter * W.

Definition Generate (w : W) : string * W := uuid_New w.

Definition request_fields (r : Request) (reqID : string) : list (string * string) :=
  [("method", Method r); ("path", Path r); ("remote_addr", RemoteAddr r); ("request_id", reqID)].

Definition requestIDMiddleware (next : Handler) : Handler := fun rw r w =>
  let '(reqID, w) := Generate w in
  let ctx := requestid.NewContext (ctx r) reqID in
  let r := WithContext r ctx in
  let rw := MkResponseWriter (Header_Set requestid.HeaderKey reqID (header rw)) (sent rw) in
  let w := Info "HTTP request received" (request_fields r reqID) w in
  let '(start, w) := Now w in
  let '(rw, w) := next rw r w in
  let '(stop, w) := Now w in
  let w := Info "HTTP request completed" (request_fields r reqID ++ [("duration", Duration_String (stop - start))]) w in
  (rw, w).

(** Every request is served with an identifier of its own: the handler behind
    the middleware finds it in the context, the client in the header of the
    response, the operator in both messages; the request is the same otherwise,
    and so are the other headers and the other values of the context. *)
Theorem middleware_identifies (next : Handler) (rw : ResponseWriter) (r : Request) (w : W) :
  let id := (uuid_New w).1 in
  exists rw' r' w',
    requestIDMiddleware next rw r w =
      (let '(rw2, w2) := next rw' r' w' in
       let '(stop, w3) := Now w2 in
       (rw2, Info "HTTP request completed"
               (request_fields r id ++ [("duration", Duration_String (stop - (Now (Info "HTTP request received" (request_fields r id) (uuid_New w).2)).1))]) w3)) /\
    w' = (Now (Info "HTTP request received" (request_fields r id) (uuid_New w).2)).2 /\
    requestid.FromContext (ctx r') = (id, true) /\ Header_Get "x-request-id" (header rw') = id /\
    (Method r', Path r', RemoteAddr r', body r', sent rw') = (Method r, Path r, RemoteAddr r, body r, sent rw) /\
    (forall k, k <> requestid.requestIDContextKey -> requestid.Value k (ctx r') = requestid.Value k (ctx r)) /\
    (forall h, h <> "X-Request-Id" -> header rw' !! h = header rw !! h).
Proof.
  cbv zeta. unfold requestIDMiddleware, Generate. destruct (uuid_New w) as [id w1]. cbn [fst snd].
  set (r' := WithContext r _). set (rw' := MkResponseWriter _ _). set (w2 := Info _ _ w1).
  destruct (Now w2) as [start w3] eqn:E. exists rw', r', w3. split_and!.
  - change (request_fields r' id) with (request_fields r id). cbn [fst].
    destruct (next rw' r' w3) as [rw2 w4]. by destruct (Now w4).
  - done.
  - unfold requestid.FromContext. cbn. done.
  - unfold Header_Get. subst rw'. cbn [header]. unfold Header_Set.
    replace (CanonicalHeaderKey requestid.HeaderKey) with (CanonicalHeaderKey "x-request-id") by (vm_compute; reflexivity).
    by rewrite lookup_insert_eq.
  - done.
  - intros k Hk. subst r'. cbn. by destruct (decide (k = requestid.requestIDContextKey)).
  - intros h Hh. subst rw'. cbn [header]. unfold Header_Set.
    replace (CanonicalHeaderKey requestid.HeaderKey) with "X-Request-Id" by (vm_compute; reflexivity).
    by rewrite lookup_insert_ne.
Qed.
End middleware.

(** ** config.go, server.go *)

Record Config := MkConfig { HTTPAddr : string; GRPCAddr : string; MetricsAddr : string }.

Definition Config_Default : Config := MkConfig "[::1]:14080" "[::1]:14081" "[::1]:14082".

Section server.
(** [G]: what gathers the metrics of a scope; [Mg]: the manager. *)
Context `{MR : MapRange} {G Mg : Type}.

(** The three servers by what makes them up. *)
Record Server := MkServer {
  config : Config;
  metrics : gmap string G;
  manager : Mg;
  http_addr : string;      (* of [httpServer] *)
  metrics_addr : string;   (* of [metricsServer] *)
}.

Definition New (config : Config) (metrics : gmap string G) (manager : Mg) : Server :=
  MkServer config metrics manager (HTTPAddr config) (MetricsAddr config).

(** [http.Handle]: a pattern that is registered twice panics.  The patterns
    here have no method, host or wildcard and no slash at the end, so they match
    the path that is equal to them. *)
Definition Handle {H} (pattern : string) (handler : H) (mux : option (gmap string H)) : option (gmap string H) :=
  match mux with
  | None => None
  | Some mux => if decide (pattern = "" \/ is_Some (mux !! pattern)) then None else Some (<[pattern := handler]> mux)
  end.

Context {H : Type} (GetHTTPHandler : G -> H) (HTTPHandler : H).

Definition metrics_path (scope : string) : string := "/v1/metrics/" +:+ scope.

(** The multiplexer of [runMetricsServer]; [HTTPHandler] is that of
    [runtimemetrics]. *)
Definition metrics_mux (m : Server) : option (gmap string H) :=
  let mux := for_range (metrics m) (fun scope gatherer mux => Handle (metrics_path scope) (GetHTTPHandler gatherer) mux) (Some ∅) in
  Handle "/v1/metrics/debug" HTTPHandler mux.

#[local] Instance metrics_path_inj : Inj (=) (=) metrics_path.
Proof. intros a b Hab. injection Hab. done. Qed.

Lemma scopes_mux (gs : gmap string G) :
  for_range gs (fun scope gatherer mux => Handle (metrics_path scope) (GetHTTPHandler gatherer) mux) (Some ∅) =
  Some (kmap metrics_path (GetHTTPHandler <$> gs)).
Proof.
  apply (for_range_ind (fun done_ mux => mux = Some (kmap metrics_path (GetHTTPHandler <$> done_)))).
  - by rewrite fmap_empty, kmap_empty.
  - intros scope g done_ mux Hn _ _ ->. unfold Handle. rewrite decide_False.
    + rewrite fmap_insert, (kmap_insert metrics_path) by apply _. done.
    + intros [Hp|Hp]; [done|]. rewrite lookup_kmap, lookup_fmap, Hn in Hp by apply _. by destruct Hp.
Qed.

(** The metrics server answers on the path of every scope that is on, with the
    gatherer of the scope, and on the one of the process, and nowhere else; a
    scope named debug would make it panic. *)
Theorem metrics_mux_paths (m : Server) :
  match metrics_mux m with
  | None => is_Some (metrics m !! "debug")
  | Some mux =>
      (forall scope, scope <> "debug" -> mux !! metrics_path scope = GetHTTPHandler <$> metrics m !! scope) /\
      mux !! metrics_path "debug" = Some HTTPHandler /\
      (forall path, is_Some (mux !! path) -> exists scope, path = metrics_path scope)
  end.
Proof.
  unfold metrics_mux. rewrite scopes_mux. unfold Handle. change "/v1/metrics/debug" with (metrics_path "debug").
  rewrite lookup_kmap, lookup_fmap by apply _.
  destruct (decide _) as [[Hd|Hd]|Hd]; [done|by apply fmap_is_Some in Hd|]. split_and!.
  - intros scope Hs. rewrite lookup_insert_ne by (intros Heq%(inj metrics_path); by subst).
    by rewrite lookup_kmap, lookup_fmap by apply _.
  - by rewrite lookup_insert_eq.
  - intros path [h Hp]. apply lookup_insert_Some in Hp as [[<- _]|[_ Hp]]; [by eexists|].
    apply lookup_kmap_Some in Hp as (scope & -> & _); [by eexists|apply _].
Qed.
End server.
