(* ===== verification/Logging.v ===== *)
(** * The logger

    [internal/monitoring/logger]: how the logger of the program is configured.
    [zap] and the exporter of OpenTelemetry are parameters. *)

From stdpp Require Import strings numbers list.
From S2P Require Import Prelude.

Open Scope Z_scope.
Open Scope go_scope.

(** ** config.go, otel.go *)

Record OTELConfig := MkOTELConfig { Endpoint : string }.

Record Config := MkConfig {
  Encoding : string;
  Level : Z;                       (* [zapcore.Level] *)
  OTEL : option OTELConfig;
}.

(** What [zap.Config] is given, its encoders aside. *)
Record zapConfig := MkZapConfig {
  ZLevel : Z;
  ZEncoding : string;
  DisableStacktrace : bool;
  Keys : list (string * string);   (* of the encoder's configuration *)
  OutputPaths : list string;
  ErrorOutputPaths : list string;
}.

Section logger.
(** The loggers of zap, with what is done to them, and the exporter. *)
Context {E L Core Exporter : Type} (Build : zapConfig -> res E L) (With : string -> string -> L -> L) (Tee : Core -> L -> L)
  (otlploggrpc_New : string -> res E Exporter) (NewCore : Exporter -> Core).
(** [os.Hostname]. *)
Context (Hostname : res E string).

Inductive logError :=
| LogPanic                         (* the section is nil *)
| ErrBuild (e : E)
| ErrSetupOTEL (e : E).            (* "failed to setup OTEL exporter: failed to create otel grpc exporter" *)

Definition setupOTELExporter (config : OTELConfig) : res E Core :=
  let? exporter := otlploggrpc_New (Endpoint config) in
  Ok (NewCore exporter).

(** The logger, and the error it has logged: that the name of the host is not
    known. *)
Definition New (config : option Config) : res logError (L * option E) :=
  match config with
  | None => Err LogPanic
  | Some config =>
      let zap :=
        MkZapConfig (Level config) (Encoding config) true
          [("ts", "time"); ("level", "level"); ("name", "name"); ("caller", "caller"); ("msg", "message")]
          ["stdout"] ["stderr"] in
      match Build zap with
      | Err e => Err (ErrBuild e)
      | Ok logger =>
          let '(logger, logged) :=
            match Hostname with
            | Ok hostname => (With "host" hostname logger, None)
            | Err e => (logger, Some e)
            end in
          match OTEL config with
          | None => Ok (logger, logged)
          | Some otel =>
              match setupOTELExporter otel with
              | Err e => Err (ErrSetupOTEL e)
              | Ok core => Ok (Tee core logger, logged)
              end
          end
      end
  end.
End logger.
