(* ===== verification/Launch.v ===== *)
(** * The construction of the program

    [internal/app]: the configuration, and [New], which makes every component
    from its section, with the errors that keep the program from starting.  The
    sections are pointers, nil when the file does not have them. *)

From Stdlib Require Import SpecFloat.
From stdpp Require Import strings numbers gmap sets list.
From S2P Require Import Prelude.
From S2P Require Import Types.
From S2P Require Import Metrics.
From S2P Require Import Yanet.
From S2P Require Import Bird.
From S2P Require Import Checktun.
From S2P Require Import Dialing.
From S2P Require Import Announcer.
From S2P Require Import Balancer.
From S2P Require Import Service.
From S2P Require Import Core.
From S2P Require Import Utils.
From S2P Require Import Server.
From S2P Require Import Logging.

Open Scope Z_scope.

(** ** config.go *)

(** The configuration of the balancer, and its [Default]. *)
Record BalancerConfig := MkBalancerConfig { FlushPeriod : Z; SyncPeriod : Z }.

Definition BalancerConfig_Default : BalancerConfig := MkBalancerConfig (50 * 10 ^ 6) (5 * 10 ^ 9).

Record Config := MkConfig {
  CLogger : option Logging.Config;
  CMetrics : option bool;                   (* [EnablePerServiceMetrics] *)
  CBalancer : option BalancerConfig;
  CYANET : option string;                   (* the path of the socket *)
  CAnnouncer : option Announcer.Config;
  CBird : option Bird.Config;
  TLSMinVersion : string;
  CService : option ServicesConfig;
  CServer : option Server.Config;
  CTunnel : Checktun.Config;
  Experiments : exp.Config;
}.

Section new.
Context `{MR : MapRange} `{PR : Prometheus} {R : Type} (registries : registry_ops (W := R)).
Context {E K W Msg : Type} (o : @os E) (k : @kernel K) (n : network (W := W) (E := E)).
(** The methods of the balancer service, and the loader of the services. *)
Context (methods : list string) {EL : Type} (LoadConfig : string -> res EL Core.Config).

Inductive appError :=
| Panic (section : string)                  (* a nil section is looked into *)
| ErrCreateBird (e : @birdError E)
| ErrCreateYanet (e : @rpcError E)
| ErrCreateChecktun (e : @tunError K)
| ErrManager (format : ConfigFormat).

Record App := MkApp {
  app_announcer : Announcer;
  app_bird : Bird;
  app_balancer : Balancer;
  app_yanet : gmap string rpcConn;
  app_tunneler : CheckTun;
  app_manager : @Manager EL;            (* with the core *)
  app_core_metrics : Core_Metrics;
  app_server : Server (G := Provider (W := R)) (Mg := @Manager EL);
  app_metrics : ScopedMetrics (W := R);
}.

(** The metrics of [New]: a provider for each scope that is on. *)
Definition new_metrics (EnablePerServiceMetrics : bool) : ScopedMetrics (W := R) :=
  let scopedMetrics := Set_ Global (NewProvider registries) NewScopedMetrics in
  if EnablePerServiceMetrics then Set_ PerService (NewProvider registries) scopedMetrics else scopedMetrics.

(** [bird.New] looks into its configuration for the first group. *)
Definition new_bird (config : option Bird.Config) (groups : list string) : res appError Bird :=
  match config with
  | Some config => match Bird.New o config groups with Ok bird => Ok bird | Err e => Err (ErrCreateBird e) end
  | None => match groups with [] => Ok (MkBird ∅) | _ => Err (Panic "bird") end
  end.

Definition nil_panics {A} (section : string) (o : option A) : res appError A :=
  match o with Some a => Ok a | None => Err (Panic section) end.

(** The client implements [GetState]; the balancer keeps its configuration
    without looking into it. *)
Definition New (config : Config) (tls : xtls.vars) (w : W) : res appError App * xtls.vars * W :=
  let '(_, tls) := xtls.SetTLSMinVersion (TLSMinVersion config) tls in   (* an error is logged *)
  let made :=
    let? perService := nil_panics "metrics" (CMetrics config) in
    let scopedMetrics := new_metrics perService in
    let? announcerConfig := nil_panics "announcer" (CAnnouncer config) in
    let? bird := new_bird (CBird config) (AnnounceGroup announcerConfig) in
    let announcer := Announcer.New announcerConfig in
    let? sockPath := nil_panics "yanet" (CYANET config) in
    Ok (scopedMetrics, bird, announcer, sockPath) in
  match made with
  | Err e => (Err e, tls, w)
  | Ok (scopedMetrics, bird, announcer, sockPath) =>
      match NewYanetClient n sockPath methods w with
      | (Err e, w) => (Err (ErrCreateYanet e), tls, w)
      | (Ok yanetClient, w) =>
          let balancer := NewBalancer true in
          (match Checktun.New k (CTunnel config) with
           | Err e => Err (ErrCreateChecktun e)
           | Ok tunneler =>
               let '(coreMetrics, scopedMetrics) := NewMetrics registries scopedMetrics in
               let? service := nil_panics "service" (CService config) in
               match NewManager LoadConfig service Core.New with
               | None => Err (ErrManager (Format service))
               | Some coreManager =>
                   let? serverConfig := nil_panics "server" (CServer config) in
                   let server := Server.New serverConfig (Gatherers scopedMetrics) coreManager in
                   Ok (MkApp announcer bird balancer yanetClient tunneler coreManager coreMetrics server scopedMetrics)
               end
           end, tls, w)
      end
  end.

Lemma scoped_missing {A} scope (nop : A) get (m : ScopedMetrics (W := R)) :
  scopes m !! scope = None -> scoped scope nop get m = (nop, m).
Proof. intros H. unfold scoped, Scope. by rewrite H. Qed.

Lemma scoped_other {A} scope scope' (nop : A) get (m : ScopedMetrics (W := R)) :
  scope <> scope' -> scopes m !! scope' = None -> scopes (scoped scope nop get m).2 !! scope' = None.
Proof.
  intros Hne H. unfold scoped, Scope. destruct (scopes m !! scope) as [p|]; [|done]. destruct (get p). cbn.
  by rewrite lookup_insert_ne.
Qed.

(** What a program that has been made was made from. *)
Lemma New_ok (config : Config) (tls : xtls.vars) (w : W) (a : App) (tls' : xtls.vars) (w' : W) :
  New config tls w = (Ok a, tls', w') ->
  exists perService ac sockPath service sc,
    CMetrics config = Some perService /\ CAnnouncer config = Some ac /\ CYANET config = Some sockPath /\
    CService config = Some service /\ CServer config = Some sc /\ (AnnounceGroup ac <> [] -> is_Some (CBird config)) /\
    app_announcer a = Announcer.New ac /\
    (app_core_metrics a, app_metrics a) = NewMetrics registries (new_metrics perService) /\
    app_server a = Server.New sc (Gatherers (app_metrics a)) (app_manager a).
Proof.
  unfold New, nil_panics. destruct (xtls.SetTLSMinVersion _ tls) as [e tls1].
  destruct (CMetrics config) as [perService|]; cbn; [|done]. destruct (CAnnouncer config) as [ac|]; cbn; [|done].
  destruct (new_bird (CBird config) (AnnounceGroup ac)) as [bird|] eqn:Eb; cbn; [|done].
  destruct (CYANET config) as [sockPath|]; cbn; [|done]. destruct (NewYanetClient n sockPath methods w) as [[yc|e1] w1]; [|done].
  destruct (Checktun.New k (CTunnel config)) as [tun|]; [|done].
  destruct (NewMetrics registries (new_metrics perService)) as [cm sm] eqn:Em.
  destruct (CService config) as [service|]; cbn; [|done]. destruct (NewManager LoadConfig service Core.New) as [mg|]; cbn; [|done].
  destruct (CServer config) as [sc|]; cbn; [|done]. intros [= <- _ _].
  exists perService, ac, sockPath, service, sc. split_and!; try done. intros Hg. unfold new_bird in Eb.
  destruct (CBird config); [by eexists|]. by destruct (AnnounceGroup ac).
Qed.

Definition per_service_nop (m : Core_Metrics) : Prop :=
  (realsEnabledPerService m, realsPerService m, realsTrasitionPeriodPerService m, realsResponseTimePerService m, realsErrorsPerService m) =
  (NopGaugeVec, NopGaugeVec, NopHistogramVec, NopHistogramVec, NopCounterVec).

Lemma NewMetrics_off (p : ScopedMetrics (W := R)) :
  scopes p !! PerService = None ->
  let '(m, p') := NewMetrics registries p in per_service_nop m /\ scopes p' !! PerService = None.
Proof.
  intros Hp. unfold NewMetrics. cbv beta zeta.
  repeat match goal with
    | |- context [scoped Global ?nop ?get ?q] =>
        let H := fresh in pose proof (scoped_other Global PerService nop get q ltac:(done) ltac:(assumption)) as H;
        destruct (scoped Global nop get q) as [? ?]; cbn [snd] in H
    | |- context [scoped PerService ?nop ?get ?q] => rewrite (scoped_missing PerService nop get q) by assumption
    end.
  by split.
Qed.

(** Without metrics per service the program has none, and the metrics of a
    service are the global ones alone; its handlers are those of the scopes that
    are on. *)
Theorem per_service_metrics_off (config : Config) (tls : xtls.vars) (w : W) (a : App) (tls' : xtls.vars) (w' : W) :
  CMetrics config = Some false -> New config tls w = (Ok a, tls', w') ->
  per_service_nop (app_core_metrics a) /\ scopes (app_metrics a) !! PerService = None /\
  forall l v, Gauge_Add v (RealsForService l (app_core_metrics a)) = Gauge_Add v (Metrics.reals (app_core_metrics a)).
Proof.
  intros Hoff (perService & ac & sp & service & sc & Hm & _ & _ & _ & _ & _ & _ & HM & _)%New_ok.
  rewrite Hoff in Hm. injection Hm as <-. pose proof (NewMetrics_off (new_metrics false)) as HN.
  rewrite <- HM in HN. destruct HN as [H1 H2]; [done|]. split; [exact H1|]. split; [exact H2|].
  intros l v. injection H1 as _ HR _ _ _. unfold RealsForService. rewrite HR. cbn. by rewrite app_nil_r.
Qed.

(** ** What the metrics server serves *)

Lemma scoped_dom {A} scope (nop : A) get (m : ScopedMetrics (W := R)) :
  dom (scopes (scoped scope nop get m).2) = dom (scopes m).
Proof.
  unfold scoped, Scope. destruct (scopes m !! scope) as [p|] eqn:Hp; [|done]. destruct (get p) as [a q]. cbn.
  apply dom_insert_lookup_L. by eexists.
Qed.

Lemma NewMetrics_dom (p : ScopedMetrics (W := R)) :
  dom (scopes (NewMetrics registries p).2) = dom (scopes p).
Proof.
  unfold NewMetrics. cbv beta zeta.
  repeat match goal with
    | |- context [scoped ?s ?nop ?get ?q] =>
        let H := fresh in pose proof (scoped_dom s nop get q) as H; destruct (scoped s nop get q) as [? ?]; cbn [snd] in H
    end.
  cbn [snd]. congruence.
Qed.

Lemma Gatherers_scopes (m : ScopedMetrics (W := R)) : Gatherers m = scopes m.
Proof. by apply (for_range_ind (fun done_ gs => gs = done_)); [|intros s p done_ gs _ _ _ ->]. Qed.

Lemma new_metrics_dom (b : bool) : dom (scopes (new_metrics b)) = if b then {[Global; PerService]} else {[Global]}.
Proof. unfold new_metrics, Set_, NewScopedMetrics. destruct b; cbn; set_solver. Qed.

(** The metrics server of a program that has been made does not panic; it
    answers for the global scope, for the services when their metrics are on, and
    for the process. *)
Theorem metrics_served {H : Type} (handler : Provider (W := R) -> H) (debug : H) (config : Config) (tls : xtls.vars) (w : W)
    (a : App) (tls' : xtls.vars) (w' : W) :
  New config tls w = (Ok a, tls', w') ->
  exists mux, metrics_mux handler debug (app_server a) = Some mux /\
    forall scope, is_Some (mux !! metrics_path scope) <->
      scope = Global \/ (scope = PerService /\ CMetrics config = Some true) \/ scope = "debug"%string.
Proof.
  intros (perService & ac & sp & service & sc & Hm & _ & _ & _ & _ & _ & _ & HM & HS)%New_ok.
  assert (metrics (app_server a) = scopes (app_metrics a)) as Hg by (rewrite HS; apply Gatherers_scopes).
  assert (dom (scopes (app_metrics a)) = if perService then {[Global; PerService]} else {[Global]}) as Hd.
  { rewrite <- new_metrics_dom, <- (NewMetrics_dom (new_metrics perService)), <- HM. done. }
  pose proof (metrics_mux_paths handler debug (app_server a)) as HP. rewrite Hg in HP.
  destruct (metrics_mux handler debug (app_server a)) as [mux|]; cycle 1.
  { exfalso. apply elem_of_dom in HP. rewrite Hd in HP. by destruct perService; apply (bool_decide_unpack _) in HP || set_solver. }
  exists mux. split; [done|]. destruct HP as (H1 & H2 & _). intros scope. rewrite Hm.
  destruct (decide (scope = "debug"%string)) as [->|Hs]; [rewrite H2; split; eauto|].
  rewrite (H1 scope Hs), fmap_is_Some, <- elem_of_dom, Hd. destruct perService; set_solver.
Qed.
End new.
