(* ===== verification/Lifecycle.v ===== *)
(** * The life of the process

    [cmd/monalive/main.go], [Run] of [internal/app] and the [Run] methods it
    calls, [internal/server]: the goroutines of the program, the error groups that
    wait for them and the contexts they cancel.  What the goroutines do on their
    ticks is in the other files; here is how they start and how they end. *)

From stdpp Require Import strings list relations.
From S2P Require Import Prelude.

(** ** Goroutines and groups *)

(** The goroutines that are waited for, under the function they execute. *)
Inductive goroutine :=
| Signal_wait | Monalive_Run
| Announcer_Run | Balancer_Run | Tunneler_Run | Server_Run | Core_Run | Run_shutdown
| Ann_stateRequestHandler | Ann_updater
| Bal_stater | Bal_updater
| GRPC_server | HTTP_server | Metrics_server.

(** The error groups: of [exec], of [Monalive.Run], and those of the components. *)
Inductive group := GExec | GRun | GAnnouncer | GBalancer | GServer.

Inductive component := CServer | CCore | CBalancer | CAnnouncer | CTunneler | CMetrics.

#[global] Instance component_eq_dec : EqDecision component.
Proof. solve_decision. Defined.

Definition goroutines : list goroutine :=
  [Signal_wait; Monalive_Run; Announcer_Run; Balancer_Run; Tunneler_Run; Server_Run; Core_Run; Run_shutdown;
   Ann_stateRequestHandler; Ann_updater; Bal_stater; Bal_updater; GRPC_server; HTTP_server; Metrics_server].

(** Equality that computes under [cbn]. *)
Definition same (g g' : goroutine) : bool :=
  match g, g' with
  | Signal_wait, Signal_wait | Monalive_Run, Monalive_Run | Announcer_Run, Announcer_Run | Balancer_Run, Balancer_Run
  | Tunneler_Run, Tunneler_Run | Server_Run, Server_Run | Core_Run, Core_Run | Run_shutdown, Run_shutdown
  | Ann_stateRequestHandler, Ann_stateRequestHandler | Ann_updater, Ann_updater | Bal_stater, Bal_stater
  | Bal_updater, Bal_updater | GRPC_server, GRPC_server | HTTP_server, HTTP_server | Metrics_server, Metrics_server => true
  | _, _ => false
  end.

Definition same_group (G G' : group) : bool :=
  match G, G' with
  | GExec, GExec | GRun, GRun | GAnnouncer, GAnnouncer | GBalancer, GBalancer | GServer, GServer => true
  | _, _ => false
  end.

Definition group_of (g : goroutine) : group :=
  match g with
  | Signal_wait | Monalive_Run => GExec
  | Announcer_Run | Balancer_Run | Tunneler_Run | Server_Run | Core_Run | Run_shutdown => GRun
  | Ann_stateRequestHandler | Ann_updater => GAnnouncer
  | Bal_stater | Bal_updater => GBalancer
  | GRPC_server | HTTP_server | Metrics_server => GServer
  end.

Definition members (G : group) : list goroutine :=
  match G with
  | GExec => [Signal_wait; Monalive_Run]
  | GRun => [Announcer_Run; Balancer_Run; Tunneler_Run; Server_Run; Core_Run; Run_shutdown]
  | GAnnouncer => [Ann_stateRequestHandler; Ann_updater]
  | GBalancer => [Bal_stater; Bal_updater]
  | GServer => [GRPC_server; HTTP_server; Metrics_server]
  end.

(** The goroutine that calls [Wait] on a group; the main one for [exec]'s. *)
Definition waiter (G : group) : option goroutine :=
  match G with
  | GExec => None
  | GRun => Some Monalive_Run
  | GAnnouncer => Some Announcer_Run
  | GBalancer => Some Balancer_Run
  | GServer => Some Server_Run
  end.

Section process.
Context {OsError : Type}.

Inductive runError :=
| ErrSignal (name : string)
| ErrCanceled                              (* [ctx.Err()] *)
| ErrRegisterCallback (e : OsError)
| ErrServe (g : goroutine) (e : OsError)   (* of a listener, of registering a handler, of serving *)
| ErrServerClosed                          (* of [net/http] and, stopped before it serves, gRPC *)
| ErrShutdown.                             (* of the announcer's client *)

(** [Started] is before the first action that matters: before [Run] has started
    its group, before a server serves, before the core's pool reads its channel,
    before the shutdown has seen the end of the context.  [Working] is behind it,
    [Waiting] is in [Wait]. *)
Inductive Status := Idle | Started | Working | Waiting | Exited (err : option runError).

Record Process := MkProcess {
  status : goroutine -> Status;
  first : group -> option runError;    (* the error of an [errgroup.Group] *)
  stops : list component;              (* the calls the shutdown has still to make *)
}.

Definition gset (g : goroutine) (st : Status) (p : Process) : Process :=
  MkProcess (fun g' => if same g' g then st else status p g') (first p) (stops p).

(** [wg.Go]. *)
Definition go (gs : list goroutine) (p : Process) : Process := fold_right (fun g p => gset g Started p) p gs.

(** The end of a goroutine: the first error of a group is kept. *)
Definition exit (g : goroutine) (e : option runError) (p : Process) : Process :=
  let p := gset g (Exited e) p in
  MkProcess (status p)
    (fun G => if same_group G (group_of g) then match first p G with None => e | Some e' => Some e' end else first p G)
    (stops p).

(** The contexts of [exec]'s group and of [Run]'s, which is derived from it; the
    other groups have none that anybody looks at. *)
Definition some {A} (o : option A) : bool := match o with Some _ => true | None => false end.

Definition ctx_exec (p : Process) : bool := some (first p GExec).
Definition ctx_run (p : Process) : bool := ctx_exec p || some (first p GRun).

Definition has_stopped (c : component) (p : Process) : Prop := c ∉ stops p.

Definition is_exited (st : Status) : bool := match st with Exited _ => true | _ => false end.

Definition all_exited (G : group) (p : Process) : bool := forallb (fun g => is_exited (status p g)) (members G).

(** [Wait] returns. *)
Definition wait_step (G : group) (w : goroutine) (p p' : Process) : Prop :=
  waiter G = Some w /\ status p w = Waiting /\ all_exited G p = true /\ p' = exit w (first p G) p.

(** ** main.go *)

(** The goroutine of [exec] that waits for a signal. *)
Inductive exec_step : Process -> Process -> Prop :=
| signal_received p name :
    status p Signal_wait = Started -> exec_step p (exit Signal_wait (Some (ErrSignal name)) p)
| signal_cancelled p :
    status p Signal_wait = Started -> ctx_exec p = true -> exec_step p (exit Signal_wait (Some ErrCanceled) p).

(** ** server.go *)

(** [Serve] of a stopped gRPC server that has been serving returns no error; the
    servers of [net/http] always return one. *)
Definition closed_error (g : goroutine) (st : Status) : option runError :=
  match g, st with
  | GRPC_server, Working => None
  | _, _ => Some ErrServerClosed
  end.

Inductive server_step : Process -> Process -> Prop :=
| server_go p :
    status p Server_Run = Started -> server_step p (gset Server_Run Waiting (go (members GServer) p))
| server_serve p g :
    g ∈ members GServer -> status p g = Started -> ~ has_stopped CServer p -> server_step p (gset g Working p)
| server_failed p g e :
    g ∈ members GServer -> status p g = Started \/ status p g = Working -> server_step p (exit g (Some (ErrServe g e)) p)
| server_closed p g :
    g ∈ members GServer -> status p g = Started \/ status p g = Working -> has_stopped CServer p ->
    server_step p (exit g (closed_error g (status p g)) p)
| server_wait p p' : wait_step GServer Server_Run p p' -> server_step p p'.

(** ** The components *)

(** [listens]: the announcer's client answers state requests, and there are
    groups; [implements]: the load balancer's client has a state. *)
Context (listens implements : bool).

Inductive announcer_step : Process -> Process -> Prop :=
| announcer_go p :
    status p Announcer_Run = Started -> announcer_step p (gset Announcer_Run Waiting (go (members GAnnouncer) p))
| handler_none p :
    status p Ann_stateRequestHandler = Started -> listens = false -> announcer_step p (exit Ann_stateRequestHandler None p)
| handler_shutdown p :
    status p Ann_stateRequestHandler = Started -> listens = true -> has_stopped CAnnouncer p ->
    announcer_step p (exit Ann_stateRequestHandler (Some ErrShutdown) p)
| ann_updater_end p :
    status p Ann_updater = Started -> has_stopped CAnnouncer p -> announcer_step p (exit Ann_updater None p)
| announcer_wait p p' : wait_step GAnnouncer Announcer_Run p p' -> announcer_step p p'.

Inductive balancer_step : Process -> Process -> Prop :=
| balancer_go p :
    status p Balancer_Run = Started -> balancer_step p (gset Balancer_Run Waiting (go (members GBalancer) p))
| stater_none p :
    status p Bal_stater = Started -> implements = false -> balancer_step p (exit Bal_stater None p)
| stater_end p :
    status p Bal_stater = Started -> has_stopped CBalancer p -> balancer_step p (exit Bal_stater None p)
| bal_updater_end p :
    status p Bal_updater = Started -> has_stopped CBalancer p -> balancer_step p (exit Bal_updater None p)
| balancer_wait p p' : wait_step GBalancer Balancer_Run p p' -> balancer_step p p'.

(** The registration of the tunnel's callback does not wait for packets. *)
Inductive tunneler_step : Process -> Process -> Prop :=
| tunneler_registered p :
    status p Tunneler_Run = Started -> tunneler_step p (exit Tunneler_Run None p)
| tunneler_refused p e :
    status p Tunneler_Run = Started -> tunneler_step p (exit Tunneler_Run (Some (ErrRegisterCallback e)) p).

(** The pool of the core ([Utils.workerpool]): a [Run] that reads the channel after
    [Close] ranges over nil, and does not return. *)
Inductive core_step : Process -> Process -> Prop :=
| core_begin p :
    status p Core_Run = Started -> ~ has_stopped CCore p -> core_step p (gset Core_Run Working p)
| core_end p :
    status p Core_Run = Working -> has_stopped CCore p -> core_step p (exit Core_Run None p).

(** ** monalive.go *)

(** [adds]: the first reload hands a service to the core's pool, for which it
    needs the pool's [Run]. *)
Context (adds : bool).

Inductive run_step : Process -> Process -> Prop :=
| run_go p :
    status p Monalive_Run = Started ->
    run_step p (gset Monalive_Run Working (go [Announcer_Run; Balancer_Run; Tunneler_Run; Server_Run; Core_Run] p))
| run_reloaded p :
    status p Monalive_Run = Working -> (adds = true -> status p Core_Run = Working) ->
    run_step p (gset Monalive_Run Waiting (go [Run_shutdown] p))
| shutdown_begin p :
    status p Run_shutdown = Started -> ctx_run p = true -> run_step p (gset Run_shutdown Working p)
| shutdown_stop p c rest :
    status p Run_shutdown = Working -> stops p = c :: rest -> run_step p (MkProcess (status p) (first p) rest)
| shutdown_end p :
    status p Run_shutdown = Working -> stops p = [] -> run_step p (exit Run_shutdown (Some ErrCanceled) p)
| run_wait p p' : wait_step GRun Monalive_Run p p' -> run_step p p'.

(** The order of [Run]'s calls. *)
Definition shutdown_calls : list component := [CServer; CCore; CBalancer; CAnnouncer; CTunneler; CMetrics].

(** [exec] when it has started its two goroutines. *)
Definition exec_start : Process :=
  go (members GExec) (MkProcess (fun _ => Idle) (fun _ => None) shutdown_calls).

Inductive step (p p' : Process) : Prop :=
| by_exec : exec_step p p' -> step p p'
| by_run : run_step p p' -> step p p'
| by_announcer : announcer_step p p' -> step p p'
| by_balancer : balancer_step p p' -> step p p'
| by_tunneler : tunneler_step p p' -> step p p'
| by_core : core_step p p' -> step p p'
| by_server : server_step p p' -> step p p'.

(** [exec] has returned from its [Wait]: the error, and the status [main] exits
    with. *)
Definition finished (p : Process) : bool := all_exited GExec p.
Definition exec_error (p : Process) : option runError := first p GExec.
Definition exit_status (e : option runError) : Z := match e with Some _ => 1 | None => 0 end.

(** ** Every run ends *)

Definition rank (st : Status) : nat :=
  match st with Idle => 4 | Started => 3 | Working => 2 | Waiting => 1 | Exited _ => 0 end.

Definition measure (p : Process) : nat := sum_list_with (fun g => rank (status p g)) goroutines + length (stops p).


(** The states a goroutine can be in. *)
Definition shape (g : goroutine) (st : Status) : bool :=
  match g, st with
  | _, Exited _ => true
  | (Signal_wait | Monalive_Run), Idle => false
  | _, (Idle | Started) => true
  | (Monalive_Run | Core_Run | Run_shutdown | GRPC_server | HTTP_server | Metrics_server), Working => true
  | (Monalive_Run | Announcer_Run | Balancer_Run | Server_Run), Waiting => true
  | _, _ => false
  end.

(** Whether a goroutine in state [st] has started [g]. *)
Definition spawned (g : goroutine) (st : Status) : bool :=
  match st with
  | Waiting | Exited _ => true
  | Working => negb (same g Run_shutdown)
  | _ => false
  end.

Definition is_idle (st : Status) : bool := match st with Idle => true | _ => false end.
Definition failed (st : Status) : bool := match st with Exited (Some _) => true | _ => false end.

(** What holds of [g] in a reachable state. *)
Definition local_inv (p : Process) (g : goroutine) : bool :=
  shape g (status p g) &&
  match waiter (group_of g) with
  | Some w => Bool.eqb (is_idle (status p g)) (negb (spawned g (status p w))) &&
              implb (is_exited (status p w)) (is_exited (status p g))
  | None => true
  end &&
  implb (failed (status p g)) (some (first p (group_of g))).

(** What holds of a group: its error is that of a member, and the goroutines that
    end with the context end with an error. *)
Definition group_inv (p : Process) (G : group) : bool :=
  implb (some (first p G)) (existsb (fun g => failed (status p g)) (members G)).

Definition always_fails (g : goroutine) : bool :=
  match g with Signal_wait | Monalive_Run | Run_shutdown => true | _ => false end.

Definition fails_inv (p : Process) (g : goroutine) : bool :=
  implb (always_fails g && is_exited (status p g)) (failed (status p g)).

(** The shutdown: it runs when the context has ended, and has made all its calls
    when it ends. *)
Definition shutdown_inv (p : Process) : bool :=
  match status p Run_shutdown with
  | Idle | Started => bool_decide (stops p = shutdown_calls)
  | Exited _ => bool_decide (stops p = []) && ctx_run p
  | _ => ctx_run p
  end.

(** A reload that adds a service leaves the core's pool running. *)
Definition core_inv (p : Process) : bool :=
  is_idle (status p Run_shutdown) || negb adds ||
  match status p Core_Run with Working | Exited _ => true | _ => false end.

Record inv (p : Process) : Prop := {
  inv_local g : local_inv p g = true;
  inv_group G : group_inv p G = true;
  inv_fails g : fails_inv p g = true;
  inv_shutdown : shutdown_inv p = true;
  inv_core : core_inv p = true;
  inv_ended : is_exited (status p Core_Run) = true -> has_stopped CCore p;
}.

Lemma inv_start : inv exec_start.
Proof.
  constructor; try done; by intros [].
Qed.

(** The cases of a step, with the members of groups enumerated. *)
Ltac step_cases H :=
  destruct H as [H|H|H|H|H|H|H]; inversion H; clear H; subst;
  repeat match goal with
    | H : wait_step _ _ _ _ |- _ => destruct H as (H & ? & ? & ->); simplify_eq H
    | H : _ ∈ members _ |- _ => cbn in H
    | H : _ ∈ _ :: _ |- _ => apply elem_of_cons in H as [->|H]
    | H : _ ∈ [] |- _ => by apply elem_of_nil in H
    | H : _ \/ _ |- _ => destruct H
    end.

(** Case analysis on the statuses and errors a goal looks at. *)
Ltac by_statuses :=
  cbn in *;
  repeat match goal with
    | H : ?st ?g = _ |- context [?st ?g] => rewrite H; cbn
    | H : ?st ?g = _, H' : context [?st ?g] |- _ => rewrite H in H'; cbn in H'
    | |- context [?st (?g : goroutine)] => is_var st; destruct (st g) as [| | | |[?|]] eqn:?; cbn in *; try discriminate
    | |- context [?f (?g : group)] => is_var f; destruct (f g) eqn:?; cbn in *; try discriminate
    | H : context [?st (?g : goroutine)] |- false = true =>
        is_var st; lazymatch type of H with st g = _ => fail | _ => destruct (st g) as [| | | |[?|]] eqn:?; cbn in *; try discriminate end
    end; try (done || congruence).

Lemma step_local p p' g : inv p -> step p p' -> local_inv p' g = true.
Proof.
  intros [H1 _ _ _ _ _] H. destruct p as [st f l]. pose proof (H1 g) as Hg.
  assert (match waiter (group_of g) with Some w => local_inv (MkProcess st f l) w | None => true end = true) as Hw
    by (destruct (waiter _); [apply H1|done]). clear H1.
  unfold wait_step, all_exited in *.
  step_cases H; destruct g; unfold local_inv in *; by_statuses.
Qed.

(** What has ended stays as it is. *)
Lemma step_exited p p' g e : inv p -> step p p' -> status p g = Exited e -> status p' g = Exited e.
Proof.
  intros [H1 _ _ _ _ _] H. destruct p as [st f l]. pose proof (H1 g) as Hg.
  assert (match waiter (group_of g) with Some w => local_inv (MkProcess st f l) w | None => true end = true) as Hw
    by (destruct (waiter _); [apply H1|done]). clear H1.
  unfold wait_step in *. intros He.
  step_cases H; destruct g; unfold local_inv in *; by_statuses.
Qed.

Lemma step_failed p p' g : inv p -> step p p' -> failed (status p g) = true -> failed (status p' g) = true.
Proof.
  intros Hi H. destruct (status p g) as [| | | |[]] eqn:E; try done. by rewrite (step_exited _ _ _ _ Hi H E).
Qed.

Lemma step_is_exited p p' g : inv p -> step p p' -> is_exited (status p g) = true -> is_exited (status p' g) = true.
Proof.
  intros Hi H. destruct (status p g) as [| | | |e] eqn:E; try done. by rewrite (step_exited _ _ _ _ Hi H E).
Qed.

(** A step changes no group, or is the end of a goroutine. *)
Lemma step_form p p' : step p p' -> first p' = first p \/ exists g e, p' = exit g e p.
Proof. intros H. unfold wait_step in *. step_cases H; (by left) || (right; eauto). Qed.

Lemma first_exit g e p G :
  first (exit g e p) G =
  if same_group G (group_of g) then match first p G with None => e | Some e' => Some e' end else first p G.
Proof. done. Qed.

Lemma step_group p p' G : inv p -> step p p' -> group_inv p' G = true.
Proof.
  intros Hi H. pose proof (inv_group p Hi G) as HG. unfold group_inv in *.
  assert (existsb (fun g => failed (status p g)) (members G) = true ->
          existsb (fun g => failed (status p' g)) (members G) = true) as Hm.
  { rewrite !existsb_exists. intros (g & Hg & Hf). exists g. split; [done|]. by eapply step_failed. }
  destruct (step_form p p' H) as [->|(g & e & ->)].
  - destruct (some (first p G)); [by apply Hm, HG|done].
  - rewrite first_exit. destruct (first p G); cbn [some implb] in *.
    { destruct (same_group _ _); by apply Hm. }
    destruct (same_group G (group_of g)) eqn:E; [|done]. destruct e; [cbn [some implb]|done].
    apply existsb_exists. exists g. cbn. assert (same g g = true) as -> by by destruct g.
    split; [|done]. destruct G, g; cbn in *; intuition discriminate.
Qed.

Lemma all_exited_member G p g : all_exited G p = true -> In g (members G) -> is_exited (status p g) = true.
Proof. unfold all_exited. rewrite forallb_forall. intros H Hg. by apply H. Qed.

Lemma step_fails p p' g : inv p -> step p p' -> fails_inv p' g = true.
Proof.
  intros [H1 _ H3 _ _ _] H. destruct (always_fails g) eqn:Hg; [|unfold fails_inv; by rewrite Hg].
  destruct p as [st f l]. pose proof (H3 g) as Hs. pose proof (H3 Run_shutdown) as Hd.
  pose proof (H1 Run_shutdown) as Hl. clear H1 H3. unfold fails_inv in Hs, Hd |- *.
  destruct g; try discriminate; step_cases H; try exact Hs; try reflexivity.
  pose proof (all_exited_member _ _ Run_shutdown H1 ltac:(by right; right; right; right; right; left)) as Hx.
  unfold local_inv in Hl. cbn in *. rewrite Hx in Hd. cbn in Hd.
  rewrite Hd in Hl. apply andb_prop in Hl as [_ Hl]. by destruct (f GRun).
Qed.

(** A context stays cancelled. *)
Lemma step_first p p' G : step p p' -> some (first p G) = true -> some (first p' G) = true.
Proof.
  intros H. destruct (step_form p p' H) as [->|(g & e & ->)]; [done|]. rewrite first_exit.
  destruct (first p G); [by destruct (same_group _ _)|done].
Qed.

Lemma step_ctx p p' : step p p' -> ctx_run p = true -> ctx_run p' = true.
Proof.
  intros H. unfold ctx_run, ctx_exec. rewrite !orb_true_iff. intros [H1|H1]; [left|right]; by eapply step_first.
Qed.

Lemma step_shutdown p p' : inv p -> step p p' -> shutdown_inv p' = true.
Proof.
  intros [H1 _ _ H4 _ _] H. pose proof (step_ctx p p' H) as Hc. destruct p as [st f l]. pose proof (H1 Run_shutdown) as Hl. clear H1.
  unfold shutdown_inv, local_inv in *.
  step_cases H; cbn -[ctx_run] in *; try exact H4;
    try (destruct (st Run_shutdown); try rewrite andb_true_iff in *; intuition congruence).
  - rewrite H0 in Hl. by destruct (st Run_shutdown).
  - subst l. rewrite H0 in H4. rewrite (Hc H4). done.
Qed.

Lemma step_core p p' : inv p -> step p p' -> core_inv p' = true.
Proof.
  intros [H1 _ _ _ H5 _] H. destruct p as [st f l]. pose proof (H1 Run_shutdown) as Hl. pose proof (H1 Core_Run) as Hc. clear H1.
  unfold core_inv, local_inv in *.
  step_cases H; cbn in *; try exact H5;
    repeat match goal with H : st _ = _ |- _ => progress rewrite H in * end; cbn in *;
    destruct adds; cbn in *; rewrite ?orb_true_r, ?orb_false_r in *; try done.
  - by destruct (st Run_shutdown).
  - by rewrite (H1 eq_refl).
Qed.

Lemma step_ended p p' : inv p -> step p p' -> is_exited (status p' Core_Run) = true -> has_stopped CCore p'.
Proof.
  intros [_ _ _ _ _ H6] H. destruct p as [st f l]. unfold has_stopped in *.
  step_cases H; cbn in *; try exact H6; try done.
  subst l. intros Hx Hin. apply (H6 Hx). by right.
Qed.

Lemma step_inv p p' : inv p -> step p p' -> inv p'.
Proof.
  intros Hi H. constructor; intros;
    eauto using step_local, step_group, step_fails, step_shutdown, step_core, step_ended.
Qed.

Lemma steps_inv p p' : inv p -> rtc step p p' -> inv p'.
Proof. intros Hi H. induction H; eauto using step_inv. Qed.

(** A goroutine is only started once, and every step ends or advances one. *)
Lemma step_measure p p' : inv p -> step p p' -> (measure p' < measure p)%nat.
Proof.
  intros [H1 _ _ _ _ _] H. destruct p as [st f l].
  assert (forall g w, waiter (group_of g) = Some w -> st w = Started -> st g = Idle) as Hi.
  { intros g w Hw Hs. specialize (H1 g). unfold local_inv in H1. cbn in H1. rewrite Hw, Hs in H1.
    destruct g, (st _); cbn in *; try done; rewrite ?andb_false_r in H1; done. }
  pose proof (H1 Run_shutdown) as Hd. clear H1. unfold local_inv, measure in *.
  step_cases H; cbn in *;
    repeat match goal with
      | H : st ?w = Started |- context [st ?g] => rewrite (Hi g w eq_refl H)
      | H : st ?g = _ |- context [st ?g] => rewrite H
      | H : ?l = _ |- context [length ?l] => rewrite H
      end; cbn; try lia.
  rewrite H0 in Hd. destruct (st Run_shutdown); cbn in *; try done. lia.
Qed.

Definition core_begun (p : Process) : bool := match status p Core_Run with Working | Exited _ => true | _ => false end.

Lemma step_begun p p' : inv p -> step p p' -> core_begun p = true -> core_begun p' = true.
Proof.
  intros [H1 _ _ _ _ _] H. destruct p as [st f l]. pose proof (H1 Core_Run) as Hc. clear H1.
  unfold core_begun, local_inv in *.
  step_cases H; cbn in *; try done; by_statuses.
Qed.

(** A state without a step whose context has ended is that of a process that has
    ended. *)
Section stuck.
Context (p : Process) (Hi : inv p) (Hc : ctx_run p = true) (Hb : adds = true \/ core_begun p = true).
Context (T : forall q, ~ step p q).

Lemma stuck_shape g : shape g (status p g) = true.
Proof. pose proof (inv_local p Hi g) as H. unfold local_inv in H. by apply andb_prop in H as [[H _]%andb_prop _]. Qed.

Lemma stuck_spawned g w : waiter (group_of g) = Some w -> spawned g (status p w) = true -> is_idle (status p g) = false.
Proof.
  intros Hw Hs. pose proof (inv_local p Hi g) as H. unfold local_inv in H. rewrite Hw, Hs in H.
  destruct (is_idle _); [|done]. by rewrite andb_false_r in H.
Qed.

(** Rules out the statuses of [g] from which there is a step. *)
Ltac not_at g := let E := fresh "E" in
  pose proof (stuck_shape g) as E; destruct (status p g) eqn:?; try discriminate E; clear E; try done.

Lemma stuck_run : spawned Run_shutdown (status p Monalive_Run) = true.
Proof.
  pose proof (inv_shutdown p Hi) as Hd. unfold shutdown_inv in Hd.
  not_at Monalive_Run; exfalso.
  - eapply T, by_run, run_go. done.
  - eapply T, by_run, run_reloaded; [done|]. intros _.
    assert (stops p = shutdown_calls) as Hs.
    { pose proof (inv_local p Hi Run_shutdown) as H. unfold local_inv in H. cbn in H. rewrite Heqs in H.
      destruct (status p Run_shutdown); try done. by apply bool_decide_eq_true in Hd. }
    pose proof (stuck_spawned Core_Run Monalive_Run eq_refl) as Hn. rewrite Heqs in Hn. specialize (Hn eq_refl).
    not_at Core_Run; exfalso; [|apply (inv_ended p Hi); [by rewrite Heqs0|rewrite Hs; set_solver]].
    eapply T, by_core, core_begin; [done|]. unfold has_stopped. rewrite Hs. intros Hx. apply Hx. set_solver.
Qed.

(** The shutdown has ended. *)
Lemma stuck_shutdown : is_exited (status p Run_shutdown) = true /\ stops p = [].
Proof.
  pose proof (stuck_spawned Run_shutdown Monalive_Run eq_refl stuck_run) as Hn.
  pose proof (inv_shutdown p Hi) as Hd. unfold shutdown_inv in Hd.
  not_at Run_shutdown.
  - exfalso. by eapply T, by_run, shutdown_begin.
  - exfalso. destruct (stops p) eqn:E; [by eapply T, by_run, shutdown_end|by eapply T, by_run, shutdown_stop].
  - apply andb_prop in Hd as [Hd _]. by apply bool_decide_eq_true in Hd.
Qed.

Lemma stuck_stopped c : has_stopped c p.
Proof. unfold has_stopped. rewrite (proj2 stuck_shutdown). apply not_elem_of_nil. Qed.

Lemma stuck_in_run g : group_of g = GRun -> is_idle (status p g) = false.
Proof.
  intros Hg. apply (stuck_spawned g Monalive_Run); [by rewrite Hg|].
  pose proof stuck_run. by destruct (status p Monalive_Run).
Qed.

(** Without its members ended, a goroutine that waits could still not be stuck:
    they are started, and end when their component is stopped. *)
Lemma stuck_component w :
  w ∈ [Announcer_Run; Balancer_Run; Server_Run] -> spawned Run_shutdown (status p w) = true.
Proof.
  intros Hw.
  repeat (apply elem_of_cons in Hw as [->|Hw]); [..|by apply elem_of_nil in Hw].
  - pose proof (stuck_in_run Announcer_Run eq_refl). not_at Announcer_Run.
    exfalso. by eapply T, by_announcer, announcer_go.
  - pose proof (stuck_in_run Balancer_Run eq_refl). not_at Balancer_Run.
    exfalso. by eapply T, by_balancer, balancer_go.
  - pose proof (stuck_in_run Server_Run eq_refl). not_at Server_Run.
    exfalso. by eapply T, by_server, server_go.
Qed.

Lemma stuck_not_idle g w : waiter (group_of g) = Some w -> w ∈ [Announcer_Run; Balancer_Run; Server_Run] ->
  is_idle (status p g) = false.
Proof.
  intros Hw Hin. apply (stuck_spawned g w Hw). pose proof (stuck_component w Hin).
  by destruct (status p w).
Qed.

(** The goroutines that wait for no other. *)
Lemma stuck_leaf g : g ∈ [Tunneler_Run; Core_Run; Ann_stateRequestHandler; Ann_updater; Bal_stater; Bal_updater;
                          GRPC_server; HTTP_server; Metrics_server] -> is_exited (status p g) = true.
Proof.
  intros Hg. repeat (apply elem_of_cons in Hg as [->|Hg]); [..|by apply elem_of_nil in Hg].
  - pose proof (stuck_in_run Tunneler_Run eq_refl). not_at Tunneler_Run.
    exfalso. by eapply T, by_tunneler, tunneler_registered.
  - pose proof (stuck_in_run Core_Run eq_refl). pose proof (inv_core p Hi) as Hco. unfold core_inv in Hco.
    pose proof stuck_shutdown as [Hs _]. pose proof Hb as Hb'. unfold core_begun in Hb'.
    pose proof (stuck_stopped CCore) as Hst. not_at Core_Run; exfalso.
    + destruct (status p Run_shutdown); try done. cbn in Hco. destruct adds; [done|]. by destruct Hb'.
    + by eapply T, by_core, core_end.
  - pose proof (stuck_not_idle Ann_stateRequestHandler Announcer_Run eq_refl ltac:(set_solver)). not_at Ann_stateRequestHandler.
    exfalso. destruct listens eqn:E; [by eapply T, by_announcer, handler_shutdown, stuck_stopped|by eapply T, by_announcer, handler_none].
  - pose proof (stuck_not_idle Ann_updater Announcer_Run eq_refl ltac:(set_solver)). not_at Ann_updater.
    exfalso. by eapply T, by_announcer, ann_updater_end, stuck_stopped.
  - pose proof (stuck_not_idle Bal_stater Balancer_Run eq_refl ltac:(set_solver)). not_at Bal_stater.
    exfalso. by eapply T, by_balancer, stater_end, stuck_stopped.
  - pose proof (stuck_not_idle Bal_updater Balancer_Run eq_refl ltac:(set_solver)). not_at Bal_updater.
    exfalso. by eapply T, by_balancer, bal_updater_end, stuck_stopped.
  - pose proof (stuck_not_idle GRPC_server Server_Run eq_refl ltac:(set_solver)). pose proof (stuck_stopped CServer).
    not_at GRPC_server; exfalso; (eapply T, by_server, (server_closed _ GRPC_server); [set_solver|auto|done]).
  - pose proof (stuck_not_idle HTTP_server Server_Run eq_refl ltac:(set_solver)). pose proof (stuck_stopped CServer).
    not_at HTTP_server; exfalso; (eapply T, by_server, (server_closed _ HTTP_server); [set_solver|auto|done]).
  - pose proof (stuck_not_idle Metrics_server Server_Run eq_refl ltac:(set_solver)). pose proof (stuck_stopped CServer).
    not_at Metrics_server; exfalso; (eapply T, by_server, (server_closed _ Metrics_server); [set_solver|auto|done]).
Qed.

(** The goroutines that wait. *)
Lemma stuck_waiter g : g ∈ [Announcer_Run; Balancer_Run; Server_Run; Monalive_Run] -> is_exited (status p g) = true.
Proof.
  intros Hg. assert (forall w, w ∈ [Announcer_Run; Balancer_Run; Server_Run] -> is_exited (status p w) = true) as Hw.
  { intros w Hw. pose proof (stuck_component w Hw) as Hs. destruct (status p w) eqn:E; try done. exfalso.
    repeat (apply elem_of_cons in Hw as [->|Hw]); [..|by apply elem_of_nil in Hw];
      eapply T; [eapply by_announcer, announcer_wait|eapply by_balancer, balancer_wait|eapply by_server, server_wait];
      (split; [reflexivity|split; [exact E|split; [|reflexivity]]]);
      apply forallb_forall; cbn; intros g' Hg'; apply stuck_leaf; set_solver. }
  repeat (apply elem_of_cons in Hg as [->|Hg]); [apply Hw; set_solver..| |by apply elem_of_nil in Hg].
  pose proof stuck_run as Hs. destruct (status p Monalive_Run) eqn:E; try done. exfalso.
  eapply T, by_run, run_wait. split; [reflexivity|split; [exact E|split; [|reflexivity]]].
  apply forallb_forall. cbn. intros g' Hg'.
  repeat destruct Hg' as [<-|Hg']; [apply Hw; set_solver|apply Hw; set_solver|apply stuck_leaf; set_solver|
    apply Hw; set_solver|apply stuck_leaf; set_solver|apply stuck_shutdown|done].
Qed.

Lemma stuck_is_finished : forall g, is_exited (status p g) = true.
Proof.
  intros g. assert (ctx_exec p = true) as Hx.
  { pose proof (stuck_waiter Monalive_Run ltac:(set_solver)) as Hm. pose proof (inv_fails p Hi Monalive_Run) as Hf.
    unfold fails_inv in Hf. rewrite Hm in Hf. cbn in Hf. pose proof (inv_local p Hi Monalive_Run) as Hl.
    unfold local_inv in Hl. rewrite Hf in Hl. by apply andb_prop in Hl as [_ Hl]. }
  destruct g; try (apply stuck_leaf; set_solver); try (apply stuck_waiter; set_solver); [|apply stuck_shutdown].
  not_at Signal_wait. exfalso. by eapply T, by_exec, signal_cancelled.
Qed.

Lemma stuck_error : exists e, exec_error p = Some e.
Proof.
  pose proof (stuck_is_finished Monalive_Run) as Hm. pose proof (inv_fails p Hi Monalive_Run) as Hf.
  unfold fails_inv in Hf. rewrite Hm in Hf. cbn in Hf. pose proof (inv_local p Hi Monalive_Run) as Hl.
  unfold local_inv in Hl. rewrite Hf in Hl. apply andb_prop in Hl as [_ Hl]. cbn in Hl.
  unfold exec_error. destruct (first p GExec); [by eexists|done].
Qed.
End stuck.

Lemma nsteps_measure n p p' : inv p -> nsteps step n p p' -> (n + measure p' <= measure p)%nat.
Proof.
  intros Hi H. induction H as [p|n p q p' H _ IH]; [done|].
  pose proof (step_measure p q Hi H). specialize (IH (step_inv p q Hi H)). lia.
Qed.

Lemma steps_measure p p' : inv p -> rtc step p p' -> (measure p' <= measure p)%nat.
Proof.
  intros Hi H. induction H as [p|p q p' H _ IH]; [done|].
  pose proof (step_measure p q Hi H). specialize (IH (step_inv p q Hi H)). lia.
Qed.

(** The context, the core's pool and the error of [exec] stay as they are. *)
Lemma steps_keep p p' : inv p -> rtc step p p' ->
  (ctx_run p = true -> ctx_run p' = true) /\ (core_begun p = true -> core_begun p' = true) /\
  (ctx_exec p = true -> exec_error p' = exec_error p).
Proof.
  intros Hi H. induction H as [p|p q p' H _ IH]; [done|]. destruct (IH (step_inv p q Hi H)) as (H1 & H2 & H3).
  split_and!; [by intros Hx; apply H1, (step_ctx p q)|by intros Hx; apply H2, (step_begun p q)|].
  intros Hx. assert (exec_error q = exec_error p) as Hq.
  { unfold exec_error, ctx_exec in *. destruct (step_form p q H) as [->|(g & e & ->)]; [done|]. rewrite first_exit.
    destruct (first p GExec); [by destruct (same_group _ _)|done]. }
  rewrite <- Hq. apply H3. unfold ctx_exec, exec_error in *. by rewrite Hq.
Qed.

(** Once the context of the program has ended, by a signal or by an error, the
    process ends.  No run from then on has more than sixty-four actions, and a run
    that cannot go on has ended every goroutine and made every call of the
    shutdown; [exec] returns an error, the first that there was, so the exit
    status is one.  The core's pool must have begun to run, which it has when the
    first reload adds a service. *)
Theorem shutdown_terminates (p : Process) :
  rtc step exec_start p -> ctx_run p = true -> adds = true \/ core_begun p = true ->
  (forall n p', nsteps step n p p' -> (n <= 64)%nat) /\
  forall p', rtc step p p' -> (forall q, ~ step p' q) ->
    (forall g, is_exited (status p' g) = true) /\ stops p' = [] /\
    exit_status (exec_error p') = 1 /\ (ctx_exec p = true -> exec_error p' = exec_error p).
Proof.
  intros Hr Hc Hb. pose proof (steps_inv _ _ inv_start Hr) as Hi. split.
  - intros n p' Hn. pose proof (nsteps_measure _ _ _ Hi Hn) as H1. pose proof (steps_measure _ _ inv_start Hr) as H2.
    change (measure exec_start) with 64%nat in H2. lia.
  - intros p' Hs T. pose proof (steps_inv _ _ Hi Hs) as Hi'. destruct (steps_keep _ _ Hi Hs) as (Hc' & Hb' & He).
    specialize (Hc' Hc). assert (adds = true \/ core_begun p' = true) as Hbb by (destruct Hb; auto).
    split; [exact (stuck_is_finished p' Hi' Hc' Hbb T)|]. split; [exact (proj2 (stuck_shutdown p' Hi' Hc' Hbb T))|].
    split; [by destruct (stuck_error p' Hi' Hc' Hbb T) as [e ->]|exact He].
Qed.

(** ** What ends the program *)

Definition signalled (st : Status) : bool := match st with Exited (Some (ErrSignal _)) => true | _ => false end.

Definition cause (p : Process) : bool :=
  signalled (status p Signal_wait) || failed (status p Tunneler_Run) || all_exited GServer p.

(** Components other than the tunnel and the server do not fail by themselves. *)
Definition blameless (p : Process) (g : goroutine) : bool :=
  match g with
  | Ann_stateRequestHandler => implb (failed (status p g)) (ctx_run p)
  | Ann_updater | Bal_stater | Bal_updater | Core_Run => negb (failed (status p g))
  | _ => true
  end.

Lemma stopped_ctx p c : inv p -> has_stopped c p -> ctx_run p = true.
Proof.
  intros Hi Hs. pose proof (inv_shutdown p Hi) as Hd. unfold shutdown_inv in Hd.
  assert (bool_decide (stops p = shutdown_calls) = true -> ctx_run p = true) as Hx.
  { intros Hst%bool_decide_eq_true. exfalso. apply Hs. rewrite Hst. destruct c; set_solver. }
  destruct (status p Run_shutdown); auto. by apply andb_prop in Hd as [_ Hd].
Qed.

Lemma step_blameless p p' g : inv p -> blameless p g = true -> step p p' -> blameless p' g = true.
Proof.
  intros Hi Hg H. pose proof (step_ctx p p' H) as Hc. pose proof (stopped_ctx p CAnnouncer Hi) as Hs.
  destruct p as [st f l]. unfold blameless in *.
  destruct g; try done; step_cases H; cbn -[ctx_run] in *; try exact Hg; try done.
  all: try (by rewrite (Hc (Hs ltac:(assumption)))).
  all: destruct (failed _); [by rewrite (Hc Hg)|done].
Qed.

Lemma step_cause_keep p p' : inv p -> step p p' -> cause p = true -> cause p' = true.
Proof.
  intros Hi H. unfold cause. rewrite !orb_true_iff. intros [[H1|H1]|H1].
  - left; left. destruct (status p Signal_wait) as [| | | |e] eqn:E; try done. by rewrite (step_exited _ _ _ _ Hi H E).
  - left; right. by eapply step_failed.
  - right. unfold all_exited in *. rewrite forallb_forall in *. intros g Hg. eapply step_is_exited; eauto.
Qed.

Lemma step_cause p p' : inv p -> (forall g, blameless p g = true) -> (ctx_run p = true -> cause p = true) -> step p p' ->
  ctx_run p' = true -> cause p' = true.
Proof.
  intros Hi Hb Hk H. destruct (ctx_run p) eqn:Hc; [intros _; eapply step_cause_keep; eauto|]. clear Hk.
  pose proof (inv_group p Hi GAnnouncer) as Ha. pose proof (inv_group p Hi GBalancer) as Hbal.
  pose proof (inv_shutdown p Hi) as Hd.
  pose proof (Hb Ann_stateRequestHandler) as B1. pose proof (Hb Ann_updater) as B2. pose proof (Hb Bal_stater) as B3.
  pose proof (Hb Bal_updater) as B4. clear Hb Hi. unfold blameless in *. rewrite Hc in B1.
  destruct p as [st f l]. unfold shutdown_inv, group_inv, cause, ctx_run, ctx_exec in *. cbn in *.
  destruct (f GExec) eqn:E1, (f GRun) eqn:E2; try discriminate Hc.
  step_cases H; cbn in *; rewrite ?E1, ?E2; cbn; rewrite ?orb_true_r; try done.
  - unfold ctx_exec in H1. cbn in H1. by rewrite E1 in H1.
  - by rewrite H0 in Hd.
  - destruct (f GAnnouncer); [|done]. by destruct (failed (st Ann_stateRequestHandler)), (failed (st Ann_updater)).
  - destruct (f GBalancer); [|done]. by destruct (failed (st Bal_stater)), (failed (st Bal_updater)).
  - intros _. by rewrite H1, orb_true_r.
Qed.

(** C18: nothing but a signal, a refusal of the tunnel's callback or the failure of
    all three servers ends the program: no other error cancels its context. A
    server that fails alone, its address taken for instance, stops nothing, and
    its error is not seen before the others end. *)
Theorem only_these_end_it (p : Process) :
  rtc step exec_start p -> ctx_run p = true ->
  (exists name, status p Signal_wait = Exited (Some (ErrSignal name))) \/
  failed (status p Tunneler_Run) = true \/ all_exited GServer p = true.
Proof.
  intros Hr. enough (inv p /\ (forall g, blameless p g = true) /\ (ctx_run p = true -> cause p = true)) as (_ & _ & H).
  { intros Hc. specialize (H Hc). unfold cause in H. rewrite !orb_true_iff in H. destruct H as [[H|H]|H]; [left|auto..].
    destruct (status p Signal_wait) as [| | | |[[]|]]; try done. eauto. }
  eapply (rtc_ind_r (fun q => inv q /\ (forall g, blameless q g = true) /\ (ctx_run q = true -> cause q = true)));
    [|clear p Hr|exact Hr].
  - split; [exact inv_start|]. split; [by intros []|done].
  - intros p q _ H (Hi & Hb & Hc). split; [by eapply step_inv|]. split.
    + intros g. by eapply step_blameless.
    + by eapply step_cause.
Qed.

Lemma step_late p p' : inv p -> status p Core_Run = Started -> has_stopped CCore p -> step p p' ->
  status p' Core_Run = Started /\ has_stopped CCore p'.
Proof.
  intros [H1 _ _ _ _ _] Hs Hst H. destruct p as [st f l]. pose proof (H1 Core_Run) as Hl. clear H1.
  unfold local_inv, has_stopped in *. cbn in *. rewrite Hs in Hl. cbn in Hl.
  step_cases H; cbn in *; try done; try (by rewrite H0 in Hl); try congruence.
  subst l. split; [done|]. intros Hx. apply Hst. by right.
Qed.

(** A core whose pool is closed before its [Run] has begun never ends, and with
    it the process: without a service in the first configuration, a signal that
    comes early enough leaves the program hanging. *)
Theorem late_pool_hangs :
  (forall p q, status p Core_Run = Started -> has_stopped CCore p -> rtc step exec_start p -> rtc step p q ->
     status q Core_Run = Started /\ finished q = false) /\
  (adds = false -> exists p, rtc step exec_start p /\ status p Core_Run = Started /\ has_stopped CCore p).
Proof.
  split.
  - intros p q Hs Hst Hr Hq. pose proof (steps_inv _ _ inv_start Hr) as Hi. clear Hr.
    enough (status q Core_Run = Started /\ inv q) as [Hc Hi'].
    { split; [done|]. pose proof (inv_local q Hi' Core_Run) as Hl. unfold local_inv in Hl. rewrite Hc in Hl. cbn in Hl.
      unfold finished, all_exited. cbn. destruct (is_exited (status q Monalive_Run)); [|by rewrite andb_false_r].
      by rewrite andb_false_r in Hl. }
    induction Hq as [p|p q r H _ IH]; [done|].
    destruct (step_late p q Hi Hs Hst H) as [Hs' Hst']. apply IH; [done..|by eapply step_inv].
  - intros Ha. eexists. split; [|split].
    + eapply rtc_l; [by apply by_exec, (signal_received _ "terminated")|].
      eapply rtc_l; [by apply by_run, run_go|].
      eapply rtc_l; [apply by_run, run_reloaded; [done|congruence]|].
      eapply rtc_l; [by apply by_run, shutdown_begin|].
      eapply rtc_l; [apply by_run; by eapply shutdown_stop|].
      eapply rtc_l; [apply by_run; by eapply shutdown_stop|]. apply rtc_refl.
    + done.
    + unfold has_stopped. cbn. set_solver.
Qed.
End process.

(** ** A concrete run *)

Section concrete.
Notation process := (@Process unit).

(** The signal comes before [Run] has done anything. *)
Definition interrupted : process := exit Signal_wait (Some (ErrSignal "terminated")) exec_start.

Lemma interrupted_reachable listens implements adds : rtc (step listens implements adds) exec_start interrupted.
Proof. apply rtc_once. by apply by_exec, signal_received. Qed.

Lemma shutdown_terminates_witness :
  ctx_run interrupted = true /\
  forall n p', nsteps (step false true true) n interrupted p' -> (n <= 64)%nat.
Proof.
  split; [reflexivity|].
  apply (shutdown_terminates false true true interrupted); [apply interrupted_reachable|reflexivity|by left].
Defined.

Lemma only_these_end_it_witness :
  (exists name, status interrupted Signal_wait = Exited (Some (ErrSignal name))) \/
  failed (status interrupted Tunneler_Run) = true \/ all_exited GServer interrupted = true.
Proof. apply (only_these_end_it false true true interrupted); [apply interrupted_reachable|reflexivity]. Defined.

(** A server that fails alone. *)
Example grpc_failure_stops_nothing :
  let p : process := exit GRPC_server (Some (ErrServe GRPC_server tt)) (go (members GServer) exec_start) in
  first p GServer = Some (ErrServe GRPC_server tt) /\ ctx_run p = false.
Proof. split; reflexivity. Qed.
End concrete.
