(* ===== verification/Start.v ===== *)
(** * The start of the process

    [main] and [exec] of [cmd/monalive/main.go], and [LoadConfig] of
    [internal/app]: from the command line to the two goroutines of [Lifecycle],
    with everything that keeps the program from getting there. *)

From Stdlib Require Import SpecFloat.
From stdpp Require Import strings numbers gmap sets list.
From S2P Require Import Prelude.
From S2P Require Import Types.
From S2P Require Import Utils.
From S2P Require Import Metrics.
From S2P Require Import Yanet.
From S2P Require Import Bird.
From S2P Require Import Checktun.
From S2P Require Import Dialing.
From S2P Require Import Announcer.
From S2P Require Import Core.
From S2P Require Import Server.
From S2P Require Import Logging.
From S2P Require Import Launch.
From S2P Require Import Lifecycle.

Open Scope Z_scope.
Open Scope go_scope.

Section start.
(** What [Launch.New] and [Logging.New] need. *)
Context `{MR : MapRange} `{PR : Prometheus} {R : Type} (registries : registry_ops (W := R)).
Context {E K W : Type} (o : @os E) (k : @kernel K) (n : network (W := W) (E := E)).
Context (methods : list string) {EL : Type} (LoadServices : string -> res EL Core.Config).
Context {EZ L LCore Exporter : Type} (Build : zapConfig -> res EZ L) (With : string -> string -> L -> L) (Tee : LCore -> L -> L)
  (otlploggrpc_New : string -> res EZ Exporter) (NewCore : Exporter -> LCore) (Hostname : res EZ string).
(** [os.ReadFile], [yaml.Unmarshal] and the command line of cobra. *)
Context {EF EY EC : Type} (ReadFile : string -> res EF string) (Unmarshal : string -> res EY Launch.Config)
  (Parse : list string -> res EC string).

(** ** internal/app/config.go *)

Inductive configError := ErrRead (e : EF) | ErrUnmarshal (e : EY).

Definition LoadConfig (path : string) : res configError Launch.Config :=
  match ReadFile path with
  | Err e => Err (ErrRead e)
  | Ok data => match Unmarshal data with Err e => Err (ErrUnmarshal e) | Ok config => Ok config end
  end.

(** ** main.go *)

Inductive execError :=
| ErrLoadConfig (e : configError)
| ErrCreateLogger (e : @logError EZ)
| ErrInitMonalive (e : @appError E K).

(** What becomes of [exec] before it waits for its goroutines. *)
Inductive outcome :=
| Crashes (section : string)     (* a panic *)
| Returns (e : execError)
| Waits (config : Launch.Config) (a : App (R := R) (EL := EL)) (p : Process (OsError := E)).

(** The goroutine that waits for a signal is started before [app.New], which
    does not look at it. *)
Definition exec (configPath : string) (g : exp.Globals) (tls : xtls.vars) (w : W) : outcome * exp.Globals * xtls.vars * W :=
  match LoadConfig configPath with
  | Err e => (Returns (ErrLoadConfig e), g, tls, w)
  | Ok config =>
      let g := exp.ExperimentalFeatures (Experiments config) g in
      match Logging.New Build With Tee otlploggrpc_New NewCore Hostname (CLogger config) with
      | Err LogPanic => (Crashes "logging", g, tls, w)
      | Err e => (Returns (ErrCreateLogger e), g, tls, w)
      | Ok _ =>
          match Launch.New registries o k n methods LoadServices config tls w with
          | (Err (Launch.Panic section), tls, w) => (Crashes section, g, tls, w)
          | (Err e, tls, w) => (Returns (ErrInitMonalive e), g, tls, w)
          | (Ok a, tls, w) => (Waits config a exec_start, g, tls, w)
          end
      end
  end.

(** The status of a process that has not come to wait; 2 is that of a panic. *)
Definition early_status (r : outcome) : option Z :=
  match r with Crashes _ => Some 2 | Returns _ => Some 1 | Waits _ _ _ => None end.

(** [main]: what cobra refuses is printed, and so is the error of [exec]. *)
Definition main (args : list string) (g : exp.Globals) (tls : xtls.vars) (w : W) :
    (Z + outcome) * exp.Globals * xtls.vars * W :=
  match Parse args with
  | Err e => (inl 1, g, tls, w)
  | Ok configPath =>
      let '(r, g, tls, w) := exec configPath g tls w in
      (match early_status r with Some status => inl status | None => inr r end, g, tls, w)
  end.

(** [time.NewTicker] panics on a period that is not positive.  The tickers are
    made by goroutines of [Run], each with a period of its section, which it
    looks into. *)
Definition NewTicker (period : option Z) : bool := match period with Some d => 0 <? d | None => false end.

Definition tickers (config : Launch.Config) : list (goroutine * option Z) :=
  [(Bal_stater, SyncPeriod <$> Launch.CBalancer config); (Bal_updater, FlushPeriod <$> Launch.CBalancer config);
   (Ann_updater, UpdatePeriod <$> Launch.CAnnouncer config)].

Definition crashing (config : Launch.Config) : list goroutine :=
  fst <$> List.filter (fun '(_, period) => negb (NewTicker period)) (tickers config).

(** A program that comes to wait for its goroutines has read a configuration
    with every section that is looked into on the way, and starts with two
    goroutines; the experimental features are those of its configuration. *)
Theorem exec_waits (path : string) (g : exp.Globals) (tls : xtls.vars) (w : W) config a p g' tls' w' :
  exec path g tls w = (Waits config a p, g', tls', w') ->
  LoadConfig path = Ok config /\ p = exec_start /\ g' = exp.ExperimentalFeatures (Experiments config) g /\
  is_Some (CLogger config) /\ is_Some (Launch.CMetrics config) /\ is_Some (Launch.CAnnouncer config) /\ is_Some (CYANET config) /\
  is_Some (CService config) /\ is_Some (Launch.CServer config).
Proof.
  unfold exec. destruct (LoadConfig path) as [c|]; [|done].
  destruct (Logging.New Build With Tee otlploggrpc_New NewCore Hostname (CLogger c)) as [lg|[]] eqn:El; try done.
  destruct (Launch.New registries o k n methods LoadServices c tls w) as [[[a'|[]] tls1] w1] eqn:En; try done.
  intros [= <- <- <- <- _ _]. apply New_ok in En as (ps & ac & sp & sv & sc & H1 & H2 & H3 & H4 & H5 & _).
  split_and!; try done; eauto. unfold Logging.New in El. destruct (CLogger c); [by eexists|done].
Qed.

(** Without a section for the metrics the program crashes, whatever else it is
    given; so it does, in this order, without one for the announcer, the load
    balancer's client or, as soon as there is an announce group, for BIRD. *)
Theorem missing_section_crashes (path : string) (g : exp.Globals) (tls : xtls.vars) (w : W) (config : Launch.Config) lg :
  LoadConfig path = Ok config ->
  Logging.New Build With Tee otlploggrpc_New NewCore Hostname (CLogger config) = Ok lg ->
  let r := (exec path g tls w).1.1.1 in
  match Launch.CMetrics config, Launch.CAnnouncer config with
  | None, _ => r = Crashes "metrics"
  | Some _, None => r = Crashes "announcer"
  | Some _, Some ac =>
      (AnnounceGroup ac <> [] -> CBird config = None -> r = Crashes "bird") /\
      (forall b, new_bird (K := K) o (CBird config) (AnnounceGroup ac) = Ok b -> CYANET config = None -> r = Crashes "yanet")
  end.
Proof.
  intros Hl Hg. cbv zeta. unfold exec. rewrite Hl, Hg. unfold Launch.New. destruct (xtls.SetTLSMinVersion _ tls) as [e tls1].
  destruct (Launch.CMetrics config) as [ps|]; cbn; [|done]. destruct (Launch.CAnnouncer config) as [ac|]; cbn; [|done]. split.
  - intros Ha ->. unfold new_bird. by destruct (AnnounceGroup ac).
  - intros b -> ->. done.
Qed.

(** No goroutine of [Run] crashes on its ticker exactly when the periods of the
    balancer and the announcer are positive. *)
Theorem crashing_none (config : Launch.Config) :
  crashing config = [] <->
  exists b a, Launch.CBalancer config = Some b /\ Launch.CAnnouncer config = Some a /\ 0 < SyncPeriod b /\ 0 < FlushPeriod b /\ 0 < UpdatePeriod a.
Proof.
  unfold crashing, tickers, NewTicker. destruct (Launch.CBalancer config) as [b|], (Launch.CAnnouncer config) as [a|];
    cbn; repeat match goal with |- context [0 <? ?x] => destruct (Z.ltb_spec 0 x) end; cbn; split; try done;
    try (intros (b' & a' & ? & ? & ? & ? & ?); simplify_eq; lia); intros _; by exists b, a.
Qed.
End start.

(** ** The example configuration *)

Section example.
(** [etc/monalive/monalive-example.yaml]: it has no section for the metrics and no
    address for their server. *)
Definition example_config : Launch.Config :=
  Launch.MkConfig (Some (Logging.MkConfig "json" 0 None)) None
    (Some (MkBalancerConfig (20 * 10 ^ 6) (5 * 10 ^ 9))) (Some "/run/yanet/protocontrolplane.sock")
    (Some (Announcer.MkConfig (20 * 10 ^ 6) ["g-1"; "g-2"; "g-3"; "g-nodisable"]))
    (Some (Bird.MkConfig 4096 "/run/bird")) "1.0"
    (Some (MkServicesConfig KeepalivedFormat "/etc/monalive/services-example.conf" "/var/lib/monalive/services.conf"))
    (Some (Server.MkConfig "[::1]:14080" "[::1]:14081" "")) (Checktun.MkConfig "127.0.0.1" "2001:dead:beef::1")
    (exp.MkConfig false "ch" false).

Context `{MR : MapRange} `{PR : Prometheus} {R : Type} (registries : registry_ops (W := R)).
Context {E K W : Type} (o : @os E) (k : @kernel K) (n : network (W := W) (E := E)) (methods : list string).
Context {EL : Type} (LoadServices : string -> res EL Core.Config).

(** Read by a library that makes of the file what its text says, with a logger
    that can be made, the example crashes the program. *)
Theorem example_crashes (g : exp.Globals) (tls : xtls.vars) (w : W) :
  (exec (EF := unit) (EY := unit) (EZ := unit) registries o k n methods LoadServices (fun _ => Ok tt) (fun _ _ l => l) (fun (_ : unit) l => l)
     (fun _ => Ok tt) (fun _ : unit => tt) (Ok "host") (fun _ => Ok "text") (fun _ => Ok example_config)
     "/etc/monalive/monalive.yaml" g tls w).1.1.1 = Crashes "metrics" /\ crashing example_config = [].
Proof.
  split; [|done].
  exact (missing_section_crashes registries o k n methods LoadServices (fun _ => Ok tt) (fun _ _ l => l) (fun (_ : unit) l => l)
    (fun _ => Ok tt) (fun _ : unit => tt) (Ok "host") (fun _ : string => Ok "text") (fun _ : string => Ok example_config)
    "/etc/monalive/monalive.yaml" g tls w example_config _ eq_refl eq_refl).
Qed.
End example.
